(** * Live-update reconciler of Tilt: a shallow embedding and its properties

    The development follows [internal/controllers/core/liveupdate/reconciler.go].
    Go maps become [gmap]s, nil-able pointers become [option]s, times are
    integers (microseconds, with [0] for Go's zero time), and every effect
    of the reconciler (clock reads, dispatched store actions, container
    updater calls, status writes) is threaded through an explicit world. *)

From Stdlib Require Import ZArith Lia.
From stdpp Require Import base option list gmap strings fin_maps sorting.

Local Open Scope Z_scope.

(** ** Time

    [metav1.MicroTime] wraps [time.Time]; both are modelled by the instant
    itself.  [IsZero], [After] and [Before] are Go's: the comparisons are
    strict. *)

Abbreviation Time := Z (only parsing).

Definition IsZero (t : Time) : bool := bool_decide (t = 0).
Definition After (t u : Time) : bool := bool_decide (u < t).
Definition Before (t u : Time) : bool := bool_decide (t < u).

(** ** Errors

    Go's [error] values, as far as the reconciler tells them apart:
    [apierrors.IsNotFound] and [build.IsRunStepFailure]. *)

Inductive error :=
| ErrNotFound (msg : string)
| ErrRunStepFailure (msg : string)
| ErrOther (msg : string).

Definition Error (e : error) : string :=
  match e with ErrNotFound m | ErrRunStepFailure m | ErrOther m => m end.

Definition IsNotFound (e : error) : bool :=
  match e with ErrNotFound _ => true | _ => false end.

Definition IsRunStepFailure (e : error) : bool :=
  match e with ErrRunStepFailure _ => true | _ => false end.

(** [client.IgnoreNotFound]. *)
Definition IgnoreNotFound (e : error) : option error :=
  if IsNotFound e then None else Some e.

Inductive Res (A : Type) :=
| Ok (a : A)
| Err (e : error).
Arguments Ok {A} a.
Arguments Err {A} e.

(** ** API objects (package v1alpha1)

    The type declarations live outside the sources at hand; the records
    carry the fields the reconciler reads or writes. *)

Module LiveUpdateKubernetesSelector.
Record t := mk { DiscoveryName : string; ApplyName : string; ImageMapName : string }.
#[global] Instance eq_dec : EqDecision t.
Proof. solve_decision. Defined.
End LiveUpdateKubernetesSelector.

Module LiveUpdateDockerComposeSelector.
Record t := mk { Service : string }.
#[global] Instance eq_dec : EqDecision t.
Proof. solve_decision. Defined.
End LiveUpdateDockerComposeSelector.

Module LiveUpdateSelector.
Record t := mk {
  Kubernetes : option LiveUpdateKubernetesSelector.t;
  DockerCompose : option LiveUpdateDockerComposeSelector.t }.
#[global] Instance eq_dec : EqDecision t.
Proof. solve_decision. Defined.
End LiveUpdateSelector.

Module LiveUpdateSource.
Record t := mk { FileWatch : string; ImageMap : string }.
#[global] Instance eq_dec : EqDecision t.
Proof. solve_decision. Defined.
End LiveUpdateSource.

Module LiveUpdateSync.
Record t := mk { LocalPath : string; ContainerPath : string }.
#[global] Instance eq_dec : EqDecision t.
Proof. solve_decision. Defined.
End LiveUpdateSync.

Module LiveUpdateExec.
Record t := mk { Args : list string; TriggerPaths : list string }.
#[global] Instance eq_dec : EqDecision t.
Proof. solve_decision. Defined.
End LiveUpdateExec.

Module LiveUpdateSpec.
Record t := mk {
  BasePath : string;
  Selector : LiveUpdateSelector.t;
  Sources : list LiveUpdateSource.t;
  StopPaths : list string;
  Syncs : list LiveUpdateSync.t;
  Execs : list LiveUpdateExec.t;
  Restart : string }.
#[global] Instance eq_dec : EqDecision t.
Proof. solve_decision. Defined.
End LiveUpdateSpec.

Module LiveUpdateStateFailed.
Record t := mk { Reason : string; Message : string; LastTransitionTime : Time }.
#[global] Instance eq_dec : EqDecision t.
Proof. solve_decision. Defined.
End LiveUpdateStateFailed.

Module LiveUpdateContainerStateWaiting.
Record t := mk { Reason : string; Message : string }.
#[global] Instance eq_dec : EqDecision t.
Proof. solve_decision. Defined.
End LiveUpdateContainerStateWaiting.

Module LiveUpdateContainerStatus.
Record t := mk {
  ContainerName : string;
  ContainerID : string;
  PodName : string;
  Namespace : string;
  LastFileTimeSynced : Time;
  LastExecError : string;
  Waiting : option LiveUpdateContainerStateWaiting.t }.
#[global] Instance eq_dec : EqDecision t.
Proof. solve_decision. Defined.
End LiveUpdateContainerStatus.

Module LiveUpdateStatus.
Record t := mk {
  Containers : list LiveUpdateContainerStatus.t;
  Failed : option LiveUpdateStateFailed.t }.
#[global] Instance eq_dec : EqDecision t.
Proof. solve_decision. Defined.
(** The zero value, [var status v1alpha1.LiveUpdateStatus]. *)
Definition zero : t := mk [] None.
End LiveUpdateStatus.

Module LiveUpdate.
Record t := mk {
  Name : string;
  Annotations : gmap string string;
  DeletionTimestamp : option Time;
  Spec : LiveUpdateSpec.t;
  Status : LiveUpdateStatus.t }.
End LiveUpdate.

Module FileEvent.
Record t := mk { Time : Z; SeenFiles : list string }.
#[global] Instance eq_dec : EqDecision t.
Proof. solve_decision. Defined.
End FileEvent.

Module FileWatch.
Record t := mk { FileEvents : list FileEvent.t }.
Definition zero : t := mk [].
End FileWatch.

Module ImageMapStatus.
Record t := mk { Image : string; BuildStartTime : option Time }.
#[global] Instance eq_dec : EqDecision t.
Proof. solve_decision. Defined.
Definition zero : t := mk "" None.
End ImageMapStatus.

Module ImageMap.
Record t := mk { Name : string; ResourceVersion : string; Status : ImageMapStatus.t }.
#[global] Instance eq_dec : EqDecision t.
Proof. solve_decision. Defined.
Definition zero : t := mk "" "" ImageMapStatus.zero.
End ImageMap.

Module ContainerStateWaiting.
Record t := mk { Reason : string }.
#[global] Instance eq_dec : EqDecision t.
Proof. solve_decision. Defined.
End ContainerStateWaiting.

Module ContainerStateRunning.
Record t := mk { StartedAt : Time }.
#[global] Instance eq_dec : EqDecision t.
Proof. solve_decision. Defined.
End ContainerStateRunning.

Module ContainerStateTerminated.
Record t := mk { ExitCode : Z }.
#[global] Instance eq_dec : EqDecision t.
Proof. solve_decision. Defined.
End ContainerStateTerminated.

Module ContainerState.
Record t := mk {
  Waiting : option ContainerStateWaiting.t;
  Running : option ContainerStateRunning.t;
  Terminated : option ContainerStateTerminated.t }.
#[global] Instance eq_dec : EqDecision t.
Proof. solve_decision. Defined.
End ContainerState.

Module Container.
Record t := mk { ID : string; Name : string; Image : string; State : ContainerState.t }.
#[global] Instance eq_dec : EqDecision t.
Proof. solve_decision. Defined.
End Container.

Module Pod.
Record t := mk {
  Name : string;
  Namespace : string;
  Phase : string;
  Containers : list Container.t }.
#[global] Instance eq_dec : EqDecision t.
Proof. solve_decision. Defined.
End Pod.

Module KubernetesDiscoveryStatus.
Record t := mk { Pods : list Pod.t }.
#[global] Instance eq_dec : EqDecision t.
Proof. solve_decision. Defined.
End KubernetesDiscoveryStatus.

Module KubernetesDiscovery.
Record t := mk { Name : string; ResourceVersion : string; Status : KubernetesDiscoveryStatus.t }.
#[global] Instance eq_dec : EqDecision t.
Proof. solve_decision. Defined.
End KubernetesDiscovery.

Module KubernetesApplyStatus.
Record t := mk { LastApplyStartTime : Time; ResultYAML : string }.
#[global] Instance eq_dec : EqDecision t.
Proof. solve_decision. Defined.
End KubernetesApplyStatus.

Module KubernetesApply.
Record t := mk { Name : string; Status : KubernetesApplyStatus.t }.
End KubernetesApply.

Module DockerComposeServiceStatus.
Record t := mk {
  ContainerID : string;
  ContainerName : string;
  ContainerState : option ContainerState.t;
  StartedAt : Time }.
#[global] Instance eq_dec : EqDecision t.
Proof. solve_decision. Defined.
End DockerComposeServiceStatus.

Module DockerComposeService.
Record t := mk { Name : string; ResourceVersion : string; Status : DockerComposeServiceStatus.t }.
End DockerComposeService.

Module ConfigMap.
Record t := mk { Name : string; Data : gmap string string }.
End ConfigMap.

(** Annotation keys and values (constants of packages v1alpha1 and
    apis/liveupdate). *)
Definition AnnotationManagedBy : string := "tilt.dev/managed-by".
Definition AnnotationManifest : string := "tilt.dev/resource".
Definition AnnotationSpanID : string := "tilt.dev/log-span-id".
Definition AnnotationUpdateMode : string := "tilt.dev/update-mode".
Definition UpdateModeManual : string := "manual".

(** Reading a Go [map[string]string]: a missing key reads as the empty
    string. *)
Definition annotation (lu : LiveUpdate.t) (k : string) : string :=
  default "" (lu.(LiveUpdate.Annotations) !! k).

Definition PodSucceeded : string := "Succeeded".
Definition PodFailed : string := "Failed".

Definition reasonObjectNotFound : string := "ObjectNotFound".
Definition LiveUpdateSource_name : string := "liveupdate".

(** ** Types of the neighbouring packages

    [build.PathMapping], [model.Run], [model.Cmd], [liveupdates.Container],
    [liveupdates.LiveUpdatePlan], [liveupdates.UpdateMode] and
    [k8sconv.KubernetesResource]. *)

Module PathMapping.
Record t := mk { LocalPath : string; ContainerPath : string }.
#[global] Instance eq_dec : EqDecision t.
Proof. solve_decision. Defined.
End PathMapping.

Module Run.
Record t := mk { Cmd : list string; Triggers : list string }.
End Run.

Module Cmd.
Record t := mk { Argv : list string }.
#[global] Instance eq_dec : EqDecision t.
Proof. solve_decision. Defined.
End Cmd.

Module LUContainer.
(** [liveupdates.Container]. *)
Record t := mk {
  ContainerID : string;
  ContainerName : string;
  PodID : string;
  Namespace : string }.
#[global] Instance eq_dec : EqDecision t.
Proof. solve_decision. Defined.
End LUContainer.

Module LiveUpdatePlan.
Record t := mk {
  SyncPaths : list PathMapping.t;
  NoMatchPaths : list string;
  StopPaths : list string }.
End LiveUpdatePlan.

Inductive UpdateMode := UpdateModeAuto | UpdateModeContainer | UpdateModeKubectlExec.

Module KubernetesResource.
Record t := mk {
  Discovery : KubernetesDiscovery.t;
  ApplyStatus : option KubernetesApplyStatus.t;
  FilteredPods : list Pod.t }.
End KubernetesResource.

(** [build.PathMappingsToContainerPaths]. *)
Definition PathMappingsToContainerPaths (ms : list PathMapping.t) : list string :=
  PathMapping.ContainerPath <$> ms.

(** Modelled from the spec: [sliceutils.DedupedAndSorted] is not among the
    sources at hand; the spec has the changed files deduplicated and
    sorted, and Go sorts strings bytewise. *)
Definition DedupedAndSorted (l : list string) : list string :=
  merge_sort String.leb (remove_dups l).

(** ** The reconciler's in-memory bookkeeping (monitor.go) *)

Module monitorSource.
Record t := mk {
  modTimeByPath : gmap string Time;
  lastImageStatus : option ImageMapStatus.t;
  lastFileEvent : option FileEvent.t }.
(** [&monitorSource{modTimeByPath: make(map[string]metav1.MicroTime)}]. *)
Definition fresh : t := mk ∅ None None.
End monitorSource.

(** [monitorContainerKey{containerID, podName, namespace}]. *)
Abbreviation monitorContainerKey := (string * string * string)%type (only parsing).

Definition mkContainerKey (containerID podName namespace : string) : monitorContainerKey :=
  (containerID, podName, namespace).

Definition key_containerID (k : monitorContainerKey) : string := k.1.1.

Module monitorContainerStatus.
Record t := mk {
  lastFileTimeSynced : Time;
  failedReason : string;
  failedMessage : string;
  failedLowWaterMark : Time }.
(** Go's zero value, read from the map when the key is absent. *)
Definition zero : t := mk 0 "" "" 0.
End monitorContainerStatus.

Module monitor.
Record t := mk {
  manifestName : string;
  spec : LiveUpdateSpec.t;
  sources : gmap string monitorSource.t;
  lastKubernetesDiscovery : option KubernetesDiscovery.t;
  lastKubernetesApplyStatus : option KubernetesApplyStatus.t;
  lastImageMap : option ImageMap.t;
  lastDockerComposeService : option DockerComposeService.t;
  lastTriggerQueue : option ConfigMap.t;
  hasChangesToSync : bool;
  containers : gmap (string * string * string) monitorContainerStatus.t }.

Definition set_sources (v : gmap string monitorSource.t) (m : t) : t :=
  mk m.(manifestName) m.(spec) v m.(lastKubernetesDiscovery)
     m.(lastKubernetesApplyStatus) m.(lastImageMap) m.(lastDockerComposeService)
     m.(lastTriggerQueue) m.(hasChangesToSync) m.(containers).

Definition set_kubernetes (kd : option KubernetesDiscovery.t)
    (ka : option KubernetesApplyStatus.t) (im : option ImageMap.t) (m : t) : t :=
  mk m.(manifestName) m.(spec) m.(sources) kd ka im m.(lastDockerComposeService)
     m.(lastTriggerQueue) m.(hasChangesToSync) m.(containers).

Definition set_lastDockerComposeService (v : option DockerComposeService.t) (m : t) : t :=
  mk m.(manifestName) m.(spec) m.(sources) m.(lastKubernetesDiscovery)
     m.(lastKubernetesApplyStatus) m.(lastImageMap) v
     m.(lastTriggerQueue) m.(hasChangesToSync) m.(containers).

Definition set_lastTriggerQueue (v : option ConfigMap.t) (m : t) : t :=
  mk m.(manifestName) m.(spec) m.(sources) m.(lastKubernetesDiscovery)
     m.(lastKubernetesApplyStatus) m.(lastImageMap) m.(lastDockerComposeService)
     v m.(hasChangesToSync) m.(containers).

Definition set_hasChangesToSync (v : bool) (m : t) : t :=
  mk m.(manifestName) m.(spec) m.(sources) m.(lastKubernetesDiscovery)
     m.(lastKubernetesApplyStatus) m.(lastImageMap) m.(lastDockerComposeService)
     m.(lastTriggerQueue) v m.(containers).

Definition set_containers (v : gmap (string * string * string) monitorContainerStatus.t)
    (m : t) : t :=
  mk m.(manifestName) m.(spec) m.(sources) m.(lastKubernetesDiscovery)
     m.(lastKubernetesApplyStatus) m.(lastImageMap) m.(lastDockerComposeService)
     m.(lastTriggerQueue) m.(hasChangesToSync) v.
End monitor.

(** The two implementations of the [luResource] interface, as
    [Reconciler.resource] builds them. *)
Inductive luResource :=
| luK8sResource (selector : LiveUpdateKubernetesSelector.t)
    (res : KubernetesResource.t) (im : option ImageMap.t)
| luDCResource (selector : LiveUpdateDockerComposeSelector.t)
    (res : DockerComposeService.t).

(** [Input] of [applyInternal] (input.go). *)
Module Input.
Record t := mk {
  IsDC : bool;
  ChangedFiles : list PathMapping.t;
  Containers : list LUContainer.t;
  LastFileTimeSynced : Time }.
End Input.

(** ** Effects

    What the reconciler does to the outside is recorded, in order, in a
    trace: the actions dispatched to the store, the calls into a container
    updater and the status writes with their outcome. *)

Inductive UpdaterKind := ViaExecUpdater | ViaDockerUpdater.

Inductive Event :=
| EvLiveUpdateUpsert (lu : LiveUpdate.t)
| EvLiveUpdateDelete (name : string)
| EvBuildStarted (manifestName : string) (filesChanged : list string) (spanID : string)
| EvBuildCompleted (manifestName : string) (spanID : string) (err : option string)
| EvUpdateContainer (via : UpdaterKind) (c : LUContainer.t)
    (archive : list PathMapping.t) (toDelete : list string)
    (cmds : list Cmd.t) (hotReload : bool)
| EvStatusUpdate (update : LiveUpdate.t) (err : option error).

Definition isUpdateContainer (e : Event) : bool :=
  match e with EvUpdateContainer _ _ _ _ _ _ => true | _ => false end.

Definition isBuildStarted (e : Event) : bool :=
  match e with EvBuildStarted _ _ _ => true | _ => false end.

Definition isBuildCompleted (e : Event) : bool :=
  match e with EvBuildCompleted _ _ _ => true | _ => false end.

Definition isStatusUpdate (e : Event) : bool :=
  match e with EvStatusUpdate _ _ => true | _ => false end.

(** The world: the state of everything outside the reconciler (clock,
    file system, containers), of an arbitrary type [W], and the trace. *)
Record World (W : Type) := mkWorld { ext : W; trace : list Event }.
Arguments mkWorld {W} ext trace.
Arguments ext {W} w.
Arguments trace {W} w.

Definition M (W A : Type) : Type := World W → A * World W.

Definition ret {W A} (a : A) : M W A := λ w, (a, w).

Definition bind {W A B} (c : M W A) (k : A → M W B) : M W B :=
  λ w, let '(a, w') := c w in k a w'.

Notation "'do' x <- c ; k" := (bind c (λ x, k))
  (at level 10, x name, c at level 100, k at level 200,
   format "'[v' 'do'  x  <-  c ; '/' k ']'").
Notation "'do' ' p <- c ; k" := (bind c (λ x, let 'p := x in k))
  (at level 10, p pattern, c at level 100, k at level 200).

Definition emit {W} (e : Event) : M W unit :=
  λ w, (tt, mkWorld (ext w) (trace w ++ [e])).

(** Lifting an operation on the outside state into the world. *)
Definition liftW {W A} (f : W → A * W) : M W A :=
  λ w, let '(a, e) := f (ext w) in (a, mkWorld e (trace w)).

(** The [ContainerUpdater] interface: one method. *)
Record ContainerUpdater (W : Type) := mkContainerUpdater {
  UpdateContainer :
    LUContainer.t → list PathMapping.t → list string → list Cmd.t → bool →
    W → option error * W }.
Arguments UpdateContainer {W} c _ _ _ _ _ _.

(** The functions of other packages that the reconciler calls. Their code
    is not among the sources at hand, so they are parameters of the
    development. *)
Record Deps (W : Type) := mkDeps {
  (* apis.NowMicro *)
  NowMicro : W → Time * W;
  (* build.MissingLocalPaths: (toRemove, toArchive) or an error *)
  MissingLocalPaths :
    list PathMapping.t → W → Res (list PathMapping.t * list PathMapping.t) * W;
  (* liveupdates.NewLiveUpdatePlan: the plan, and an error or nil *)
  NewLiveUpdatePlan : LiveUpdateSpec.t → list string → LiveUpdatePlan.t * option error;
  (* liveupdate.RunSteps, liveupdate.ShouldRestart, build.BoilRuns *)
  RunSteps : LiveUpdateSpec.t → list Run.t;
  ShouldRestart : LiveUpdateSpec.t → bool;
  BoilRuns : list Run.t → list PathMapping.t → Res (list Cmd.t);
  (* ospath.FormatFileChangeList and the %q verb of fmt *)
  FormatFileChangeList : list string → string;
  Quote : string → string;
  (* configmap.InTriggerQueue *)
  InTriggerQueue : ConfigMap.t → string → bool;
  (* k8sconv.NewKubernetesResource: a resource or nil, and an error or nil *)
  NewKubernetesResource :
    option KubernetesDiscovery.t → option KubernetesApplyStatus.t →
    option KubernetesResource.t * option error;
  (* luResource.visitSelectedContainers visits these, in this order,
     until the visitor asks to stop; luResource.bestStartTime *)
  selectedContainers : luResource → list (Pod.t * Container.t);
  bestStartTime : luResource → Time;
  (* liveupdates.Container.DisplayName *)
  DisplayName : LUContainer.t → string }.
Arguments NowMicro {W} d _.
Arguments MissingLocalPaths {W} d _ _.
Arguments NewLiveUpdatePlan {W} d _ _.
Arguments RunSteps {W} d _.
Arguments ShouldRestart {W} d _.
Arguments BoilRuns {W} d _ _.
Arguments FormatFileChangeList {W} d _.
Arguments Quote {W} d _.
Arguments InTriggerQueue {W} d _ _.
Arguments NewKubernetesResource {W} d _ _.
Arguments selectedContainers {W} d _.
Arguments bestStartTime {W} d _.
Arguments DisplayName {W} d _.

(** What [r.client] answers during one reconcile: the objects by name,
    and the outcome of a status write. *)
Record Client := mkClient {
  getLiveUpdate : string → Res LiveUpdate.t;
  getFileWatch : string → Res FileWatch.t;
  getImageMap : string → Res ImageMap.t;
  getKubernetesDiscovery : string → Res KubernetesDiscovery.t;
  getKubernetesApply : string → Res KubernetesApply.t;
  getDockerComposeService : string → Res DockerComposeService.t;
  (* configmap.TriggerQueue *)
  getTriggerQueue : Res ConfigMap.t;
  statusUpdate : LiveUpdate.t → option error }.

Record Reconciler (W : Type) := mkReconciler {
  ExecUpdater : ContainerUpdater W;
  DockerUpdater : ContainerUpdater W;
  updateMode : UpdateMode;
  startedTime : Time;
  monitors : gmap string monitor.t }.
Arguments mkReconciler {W} _ _ _ _ _.
Arguments ExecUpdater {W} r.
Arguments DockerUpdater {W} r.
Arguments updateMode {W} r.
Arguments startedTime {W} r.
Arguments monitors {W} r.

Definition set_monitors {W} (v : gmap string monitor.t) (r : Reconciler W) : Reconciler W :=
  mkReconciler r.(ExecUpdater) r.(DockerUpdater) r.(updateMode) r.(startedTime) v.

(** ** The reconciler *)

Section Reconciler.
Context {W : Type} (D : Deps W).

Definition now : M W Time := liftW (NowMicro D).

(** Create a new failed state and update the transition timestamp if
    appropriate. *)
Definition createFailedState (obj : LiveUpdate.t) (reason msg : string)
    : M W LiveUpdateStateFailed.t :=
  do transitionTime <- now;
  let transitionTime :=
    match obj.(LiveUpdate.Status).(LiveUpdateStatus.Failed) with
    | Some f =>
        if decide (f.(LiveUpdateStateFailed.Reason) = reason)
        then f.(LiveUpdateStateFailed.LastTransitionTime)
        else transitionTime
    | None => transitionTime
    end in
  ret (LiveUpdateStateFailed.mk reason msg transitionTime).

(** Generate the correct transition time on the Failed state. *)
Definition adjustFailedStateTimestamps (obj : LiveUpdate.t)
    (newStatus : LiveUpdateStatus.t) : M W LiveUpdateStatus.t :=
  match newStatus.(LiveUpdateStatus.Failed) with
  | None => ret newStatus
  | Some failed =>
      do f <- createFailedState obj failed.(LiveUpdateStateFailed.Reason)
                failed.(LiveUpdateStateFailed.Message);
      ret (LiveUpdateStatus.mk newStatus.(LiveUpdateStatus.Containers) (Some f))
  end.

Definition shouldLogFailureReason (obj : LiveUpdateStateFailed.t) : bool :=
  negb (bool_decide (obj.(LiveUpdateStateFailed.Reason) = reasonObjectNotFound)).

(** Check for some invalid states. *)
Definition ensureSelectorValid (lu : LiveUpdate.t) : M W (option LiveUpdateStateFailed.t) :=
  let selector := lu.(LiveUpdate.Spec).(LiveUpdateSpec.Selector) in
  match selector.(LiveUpdateSelector.Kubernetes) with
  | Some k =>
      if decide (k.(LiveUpdateKubernetesSelector.DiscoveryName) = "")
      then do f <- createFailedState lu "Invalid" "Kubernetes selector requires DiscoveryName";
           ret (Some f)
      else ret None
  | None =>
      match selector.(LiveUpdateSelector.DockerCompose) with
      | Some dc =>
          if decide (dc.(LiveUpdateDockerComposeSelector.Service) = "")
          then do f <- createFailedState lu "Invalid" "DockerCompose selector requires Service";
               ret (Some f)
          else ret None
      | None =>
          do f <- createFailedState lu "Invalid" "No valid selector";
          ret (Some f)
      end
  end.

(** [update := lu.DeepCopy(); update.Status.Failed = failed]. *)
Definition withFailed (lu : LiveUpdate.t) (failed : LiveUpdateStateFailed.t) : LiveUpdate.t :=
  LiveUpdate.mk lu.(LiveUpdate.Name) lu.(LiveUpdate.Annotations)
    lu.(LiveUpdate.DeletionTimestamp) lu.(LiveUpdate.Spec)
    (LiveUpdateStatus.mk lu.(LiveUpdate.Status).(LiveUpdateStatus.Containers) (Some failed)).

(** [update := lu.DeepCopy(); update.Status = status]. *)
Definition withStatus (lu : LiveUpdate.t) (status : LiveUpdateStatus.t) : LiveUpdate.t :=
  LiveUpdate.mk lu.(LiveUpdate.Name) lu.(LiveUpdate.Annotations)
    lu.(LiveUpdate.DeletionTimestamp) lu.(LiveUpdate.Spec) status.

(** [r.client.Status().Update(ctx, update)]. *)
Definition StatusUpdate (cl : Client) (update : LiveUpdate.t) : M W (option error) :=
  let err := statusUpdate cl update in
  do _ <- emit (EvStatusUpdate update err);
  ret err.

(** If the failure state has changed, log it and write it to the
    apiserver. (Log lines are not part of the model.) *)
Definition handleFailure (cl : Client) (lu : LiveUpdate.t)
    (failed : LiveUpdateStateFailed.t) : M W (option error) :=
  let isNew :=
    match lu.(LiveUpdate.Status).(LiveUpdateStatus.Failed) with
    | None => true
    | Some old => negb (bool_decide (old = failed))
    end in
  if negb isNew then ret None
  else StatusUpdate cl (withFailed lu failed).

(** Create the monitor that tracks a live update. If the live update spec
    changes, wipe out all accumulated state. The monitor is returned with
    the map it is stored in. *)
Definition ensureMonitorExists (monitors : gmap string monitor.t) (name : string)
    (obj : LiveUpdate.t) : monitor.t * gmap string monitor.t :=
  let spec := obj.(LiveUpdate.Spec) in
  let fresh :=
    monitor.mk (annotation obj AnnotationManifest) spec ∅ None None None None None false ∅ in
  match monitors !! name with
  | Some m =>
      if decide (obj.(LiveUpdate.Spec) = m.(monitor.spec)) then (m, monitors)
      else (fresh, <[name := fresh]> monitors)
  | None => (fresh, <[name := fresh]> monitors)
  end.

(** *** Consuming the sources *)

(** The body of the loop over [event.SeenFiles]. *)
Definition recordSeenFile (eventTime : Time) (modTimeByPath : gmap string Time)
    (f : string) : gmap string Time :=
  match modTimeByPath !! f with
  | Some existing =>
      if Before existing eventTime then <[f := eventTime]> modTimeByPath
      else modTimeByPath
  | None => <[f := eventTime]> modTimeByPath
  end.

(** The body of the loop over the events of a FileWatch. *)
Definition consumeFileEvent (buildStartTime : option Time)
    (modTimeByPath : gmap string Time) (event : FileEvent.t) : gmap string Time :=
  let eventTime := event.(FileEvent.Time) in
  let skip :=
    match buildStartTime with
    | Some b => After b eventTime
    | None => false
    end in
  if skip then modTimeByPath
  else foldl (recordSeenFile eventTime) modTimeByPath event.(FileEvent.SeenFiles).

(** Consume all the file events. *)
Definition consumeFileEvents (buildStartTime : option Time)
    (modTimeByPath : gmap string Time) (events : list FileEvent.t) : gmap string Time :=
  foldl (consumeFileEvent buildStartTime) modTimeByPath events.

(** Consume one Source object. The monitor comes back as the call left it,
    also when the call fails. *)
Definition reconcileOneSource (cl : Client) (m : monitor.t)
    (source : LiveUpdateSource.t) : monitor.t * Res bool :=
  let fwn := source.(LiveUpdateSource.FileWatch) in
  let imn := source.(LiveUpdateSource.ImageMap) in
  match (if decide (fwn = "") then Ok FileWatch.zero else getFileWatch cl fwn) with
  | Err err => (m, Err err)
  | Ok fw =>
  match (if decide (imn = "") then Ok ImageMap.zero else getImageMap cl imn) with
  | Err err => (m, Err err)
  | Ok im =>
  let events := fw.(FileWatch.FileEvents) in
  match last events with
  | None => (m, Ok false)
  | Some newLastFileEvent =>
  if decide (fwn = "") then (m, Ok false) else
  let mSource := default monitorSource.fresh (m.(monitor.sources) !! fwn) in
  let newImageStatus := im.(ImageMap.Status) in
  let imageChanged :=
    if decide (imn = "") then false
    else match mSource.(monitorSource.lastImageStatus) with
         | None => true
         | Some old => negb (bool_decide (newImageStatus = old))
         end in
  let lastImageStatus' :=
    if decide (imn = "") then mSource.(monitorSource.lastImageStatus)
    else Some newImageStatus in
  let fileWatchChanged :=
    match mSource.(monitorSource.lastFileEvent) with
    | None => true
    | Some event => negb (bool_decide (newLastFileEvent = event))
    end in
  let modTimeByPath' :=
    if fileWatchChanged
    then consumeFileEvents newImageStatus.(ImageMapStatus.BuildStartTime)
           mSource.(monitorSource.modTimeByPath) events
    else mSource.(monitorSource.modTimeByPath) in
  let mSource' := monitorSource.mk modTimeByPath' lastImageStatus' (Some newLastFileEvent) in
  (monitor.set_sources (<[fwn := mSource']> m.(monitor.sources)) m,
   Ok (fileWatchChanged || imageChanged))
  end end end.

Fixpoint reconcileSourcesLoop (cl : Client) (m : monitor.t)
    (sources : list LiveUpdateSource.t) (hasChange : bool) : monitor.t * Res bool :=
  match sources with
  | [] => (m, Ok hasChange)
  | s :: rest =>
      let '(m', r) := reconcileOneSource cl m s in
      match r with
      | Err err => (m', Err err)
      | Ok oneChange => reconcileSourcesLoop cl m' rest (oneChange || hasChange)
      end
  end.

(** Consume all FileEvents off the FileWatch objects. Returns true if we
    saw new file events. *)
Definition reconcileSources (cl : Client) (m : monitor.t) : monitor.t * Res bool :=
  reconcileSourcesLoop cl m m.(monitor.spec).(LiveUpdateSpec.Sources) false.

(** Consume the TriggerQueue. Returns true if we saw any changes. *)
Definition reconcileTriggerQueue (cl : Client) (m : monitor.t) : monitor.t * Res bool :=
  match getTriggerQueue cl with
  | Err err =>
      match IgnoreNotFound err with
      | None => (m, Ok false)
      | Some err' => (m, Err err')
      end
  | Ok queue =>
      let same :=
        match m.(monitor.lastTriggerQueue) with
        | Some old => bool_decide (queue.(ConfigMap.Data) = old.(ConfigMap.Data))
        | None => false
        end in
      if same then (m, Ok false)
      else (monitor.set_lastTriggerQueue (Some queue) m, Ok true)
  end.

(** Consume all objects off the KubernetesSelector. Returns true if we saw
    any changes to the objects we are watching. *)
Definition reconcileKubernetesResource (cl : Client) (m : monitor.t) : monitor.t * Res bool :=
  match m.(monitor.spec).(LiveUpdateSpec.Selector).(LiveUpdateSelector.Kubernetes) with
  | None => (m, Ok false)
  | Some selector =>
  let applyName := selector.(LiveUpdateKubernetesSelector.ApplyName) in
  let imageMapName := selector.(LiveUpdateKubernetesSelector.ImageMapName) in
  match (if decide (applyName = "") then Ok None
         else match getKubernetesApply cl applyName with
              | Ok ka => Ok (Some ka)
              | Err err => Err err
              end) with
  | Err err => (m, Err err)
  | Ok ka =>
  let changed1 :=
    match ka with
    | None => false
    | Some ka =>
        match m.(monitor.lastKubernetesApplyStatus) with
        | None => true
        | Some old => negb (bool_decide (old = ka.(KubernetesApply.Status)))
        end
    end in
  match getKubernetesDiscovery cl selector.(LiveUpdateKubernetesSelector.DiscoveryName) with
  | Err err => (m, Err err)
  | Ok kd =>
  match (if decide (imageMapName = "") then Ok None
         else match getImageMap cl imageMapName with
              | Ok im => Ok (Some im)
              | Err err => Err err
              end) with
  | Err err => (m, Err err)
  | Ok im =>
  let changed2 :=
    match im with
    | None => false
    | Some im =>
        match m.(monitor.lastImageMap) with
        | None => true
        | Some old => negb (bool_decide (old = im))
        end
    end in
  let changed3 :=
    match m.(monitor.lastKubernetesDiscovery) with
    | None => true
    | Some old =>
        negb (bool_decide (old.(KubernetesDiscovery.Status) = kd.(KubernetesDiscovery.Status)))
    end in
  (monitor.set_kubernetes (Some kd) (KubernetesApply.Status <$> ka) im m,
   Ok (changed1 || changed2 || changed3))
  end end end end.

(** Consume all objects off the DockerComposeSelector. Returns true if we
    saw any changes to the objects we are watching. *)
Definition reconcileDockerComposeService (cl : Client) (m : monitor.t)
    : monitor.t * Res bool :=
  match m.(monitor.spec).(LiveUpdateSpec.Selector).(LiveUpdateSelector.DockerCompose) with
  | None => (m, Ok false)
  | Some selector =>
      match getDockerComposeService cl selector.(LiveUpdateDockerComposeSelector.Service) with
      | Err err => (m, Err err)
      | Ok dcs =>
          let changed :=
            match m.(monitor.lastDockerComposeService) with
            | None => true
            | Some old =>
                negb (bool_decide (old.(DockerComposeService.Status)
                                   = dcs.(DockerComposeService.Status)))
            end in
          (monitor.set_lastDockerComposeService (Some dcs) m, Ok changed)
      end
  end.

(** *** Garbage collection *)

(** The build start that decides what is stale for one source: the image
    build start when there is one, the resource's best start time
    otherwise. *)
Definition gcTimeOf (res : luResource) (mSource : monitorSource.t) : Time :=
  match mSource.(monitorSource.lastImageStatus) with
  | Some lastImageStatus =>
      match lastImageStatus.(ImageMapStatus.BuildStartTime) with
      | Some t => t
      | None => bestStartTime D res
      end
  | None => bestStartTime D res
  end.

(** Delete all file events that happened before the latest build started. *)
Definition dropStaleFiles (gcTime : Time) (modTimeByPath : gmap string Time)
    : gmap string Time :=
  filter (λ pt, After gcTime pt.2 = false) modTimeByPath.

(** Delete all failures that happened before the latest build started. *)
Definition clearStaleFailure (gcTime : Time) (c : monitorContainerStatus.t)
    : monitorContainerStatus.t :=
  if negb (IsZero c.(monitorContainerStatus.failedLowWaterMark))
     && After gcTime c.(monitorContainerStatus.failedLowWaterMark)
  then monitorContainerStatus.mk c.(monitorContainerStatus.lastFileTimeSynced) "" "" 0
  else c.

(** The body of the loop over [monitor.spec.Sources]. *)
Definition garbageCollectOneSource (res : luResource) (m : monitor.t)
    (source : LiveUpdateSource.t) : monitor.t :=
  let fwn := source.(LiveUpdateSource.FileWatch) in
  match m.(monitor.sources) !! fwn with
  | None => m
  | Some mSource =>
      let gcTime := gcTimeOf res mSource in
      if negb (IsZero gcTime) then
        let mSource' :=
          monitorSource.mk (dropStaleFiles gcTime mSource.(monitorSource.modTimeByPath))
            mSource.(monitorSource.lastImageStatus) mSource.(monitorSource.lastFileEvent) in
        monitor.set_containers (clearStaleFailure gcTime <$> m.(monitor.containers))
          (monitor.set_sources (<[fwn := mSource']> m.(monitor.sources)) m)
      else m
  end.

(** Go through all the file changes, and delete files that are not
    relevant to the current build. *)
Definition garbageCollectFileChanges (res : luResource) (m : monitor.t) : monitor.t :=
  foldl (garbageCollectOneSource res) m m.(monitor.spec).(LiveUpdateSpec.Sources).

(** The container IDs of the selected containers that have one. *)
Definition selectedContainerIDs (res : luResource) : gset string :=
  foldl (λ (ids : gset string) (pc : Pod.t * Container.t),
           if decide (pc.2.(Container.ID) = "") then ids
           else {[ pc.2.(Container.ID) ]} ∪ ids)
        ∅ (selectedContainers D res).

(** Go through all the container monitors, and delete any that are no
    longer being selected. *)
Definition garbageCollectMonitorContainers (res : luResource) (m : monitor.t) : monitor.t :=
  let containerIDs := selectedContainerIDs res in
  monitor.set_containers
    (filter (λ kc, key_containerID kc.1 ∈ containerIDs) m.(monitor.containers)) m.

(** *** Build events *)

Definition dispatchStartBuildAction (lu : LiveUpdate.t) (filesChanged : list string)
    : M W unit :=
  emit (EvBuildStarted (annotation lu AnnotationManifest) filesChanged
          (annotation lu AnnotationSpanID)).

(** The error a completed build is reported with: the failure, or else the
    first exec error of a container. *)
Definition completeBuildError (newStatus : LiveUpdateStatus.t) : option string :=
  match newStatus.(LiveUpdateStatus.Failed) with
  | Some f => Some f.(LiveUpdateStateFailed.Message)
  | None =>
      LiveUpdateContainerStatus.LastExecError <$>
        head (filter (λ c, c.(LiveUpdateContainerStatus.LastExecError) ≠ "")
                newStatus.(LiveUpdateStatus.Containers))
  end.

Definition dispatchCompleteBuildAction (lu : LiveUpdate.t) (newStatus : LiveUpdateStatus.t)
    : M W unit :=
  emit (EvBuildCompleted (annotation lu AnnotationManifest)
          (annotation lu AnnotationSpanID) (completeBuildError newStatus)).

(** *** The resource to update *)

(** [fmt]'s [%v] of an error that may be nil. *)
Definition fmtErr (e : option error) : string :=
  match e with Some e => Error e | None => "<nil>" end.

Definition resource (lu : LiveUpdate.t) (m : monitor.t) : Res luResource :=
  let selector := lu.(LiveUpdate.Spec).(LiveUpdateSpec.Selector) in
  match selector.(LiveUpdateSelector.Kubernetes) with
  | Some k =>
      match NewKubernetesResource D m.(monitor.lastKubernetesDiscovery)
              m.(monitor.lastKubernetesApplyStatus) with
      | (Some r, None) => Ok (luK8sResource k r m.(monitor.lastImageMap))
      | (_, err) => Err (ErrOther ("creating kube resource: " +:+ fmtErr err))
      end
  | None =>
      match selector.(LiveUpdateSelector.DockerCompose) with
      | Some dc =>
          match m.(monitor.lastDockerComposeService) with
          | None => Err (ErrOther "no docker compose status")
          | Some dcs => Ok (luDCResource dc dcs)
          end
      | None => Err (ErrOther "No valid selector")
      end
  end.

(** [luResource.visitSelectedContainers]: call [visit] on each selected
    container, in order, until it returns true. The variables a Go closure
    captures and assigns are the state [S]. *)
Fixpoint visitContainers {S : Type} (visit : Pod.t → Container.t → S → M W (bool * S))
    (selected : list (Pod.t * Container.t)) (s : S) : M W S :=
  match selected with
  | [] => ret s
  | pc :: rest =>
      do '(stop, s') <- visit pc.1 pc.2 s;
      if (stop : bool) then ret s' else visitContainers visit rest s'
  end.

Definition visitSelectedContainers {S : Type} (res : luResource)
    (visit : Pod.t → Container.t → S → M W (bool * S)) (s : S) : M W S :=
  visitContainers visit (selectedContainers D res) s.

(** *** The plan *)

Definition createLiveUpdatePlan (spec : LiveUpdateSpec.t) (filesChanged : list string)
    : LiveUpdatePlan.t * option LiveUpdateStateFailed.t :=
  let '(plan, err) := NewLiveUpdatePlan D spec filesChanged in
  match err with
  | Some err =>
      (plan, Some (LiveUpdateStateFailed.mk "UpdateStopped"
                     ("No update plan: " +:+ Error err) 0))
  | None =>
      if decide (0 < length plan.(LiveUpdatePlan.NoMatchPaths))%nat then
        (plan, Some (LiveUpdateStateFailed.mk "UpdateStopped"
                       ("Found file(s) not matching any sync (files: "
                        +:+ FormatFileChangeList D plan.(LiveUpdatePlan.NoMatchPaths) +:+ ")") 0))
      else
        match plan.(LiveUpdatePlan.StopPaths) with
        | stop :: _ =>
            (plan, Some (LiveUpdateStateFailed.mk "UpdateStopped"
                           ("Detected change to stop file " +:+ Quote D stop) 0))
        | [] => (plan, None)
        end
  end.

(** *** Applying a plan to containers *)

Definition containerUpdater (r : Reconciler W) (input : Input.t)
    : UpdaterKind * ContainerUpdater W :=
  if input.(Input.IsDC)
     || match r.(updateMode) with UpdateModeContainer => true | _ => false end
  then (ViaDockerUpdater, r.(DockerUpdater))
  else (ViaExecUpdater, r.(ExecUpdater)).

(** One call [cu.UpdateContainer(...)], recorded in the trace. *)
Definition callUpdateContainer (cu : UpdaterKind * ContainerUpdater W) (cInfo : LUContainer.t)
    (toArchive : list PathMapping.t) (toRemove : list string) (boiledSteps : list Cmd.t)
    (hotReload : bool) : M W (option error) :=
  do _ <- emit (EvUpdateContainer cu.1 cInfo toArchive toRemove boiledSteps hotReload);
  liftW (UpdateContainer cu.2 cInfo toArchive toRemove boiledSteps hotReload).

Definition withContainerFailed (result : LiveUpdateStatus.t) (reason msg : string)
    : LiveUpdateStatus.t :=
  LiveUpdateStatus.mk result.(LiveUpdateStatus.Containers)
    (Some (LiveUpdateStateFailed.mk reason msg 0)).

(** The loop of [applyInternal] over [input.Containers]; [result] and
    [lastExecErrorStatus] are the variables the loop assigns. *)
Fixpoint applyContainers (cu : UpdaterKind * ContainerUpdater W) (input : Input.t)
    (toRemove toArchive : list PathMapping.t) (boiledSteps : list Cmd.t) (hotReload : bool)
    (containers : list LUContainer.t) (result : LiveUpdateStatus.t)
    (lastExecErrorStatus : option LiveUpdateContainerStatus.t) : M W LiveUpdateStatus.t :=
  match containers with
  | [] => ret result
  | cInfo :: rest =>
      do err <- callUpdateContainer cu cInfo toArchive
                  (PathMappingsToContainerPaths toRemove) boiledSteps hotReload;
      do lastFileTimeSynced <-
        (if IsZero input.(Input.LastFileTimeSynced) then now
         else ret input.(Input.LastFileTimeSynced));
      let cStatus :=
        LiveUpdateContainerStatus.mk cInfo.(LUContainer.ContainerName)
          cInfo.(LUContainer.ContainerID) cInfo.(LUContainer.PodID)
          cInfo.(LUContainer.Namespace) lastFileTimeSynced "" None in
      match err with
      | Some err =>
          if IsRunStepFailure err then
            (* Keep running updates: all containers should have the same files *)
            let cStatus :=
              LiveUpdateContainerStatus.mk cInfo.(LUContainer.ContainerName)
                cInfo.(LUContainer.ContainerID) cInfo.(LUContainer.PodID)
                cInfo.(LUContainer.Namespace) lastFileTimeSynced (Error err) None in
            applyContainers cu input toRemove toArchive boiledSteps hotReload rest
              (LiveUpdateStatus.mk (result.(LiveUpdateStatus.Containers) ++ [cStatus])
                 result.(LiveUpdateStatus.Failed))
              (Some cStatus)
          else
            let msg :=
              if decide (cStatus.(LiveUpdateContainerStatus.PodName) = "")
              then "Updating container " +:+ DisplayName D cInfo +:+ ": " +:+ Error err
              else "Updating pod " +:+ cStatus.(LiveUpdateContainerStatus.PodName)
                   +:+ ": " +:+ Error err in
            ret (withContainerFailed result "UpdateFailed" msg)
      | None =>
          match lastExecErrorStatus with
          | Some failedStatus =>
              ret (withContainerFailed result "PodsInconsistent"
                     ("Pods in inconsistent state. Success: pod "
                      +:+ cStatus.(LiveUpdateContainerStatus.PodName)
                      +:+ ". Failure: pod "
                      +:+ failedStatus.(LiveUpdateContainerStatus.PodName)
                      +:+ ". Error: "
                      +:+ failedStatus.(LiveUpdateContainerStatus.LastExecError)))
          | None =>
              applyContainers cu input toRemove toArchive boiledSteps hotReload rest
                (LiveUpdateStatus.mk (result.(LiveUpdateStatus.Containers) ++ [cStatus])
                   result.(LiveUpdateStatus.Failed))
                None
          end
      end
  end.

(** Like apply, but does not write the status to the apiserver. *)
Definition applyInternal (r : Reconciler W) (spec : LiveUpdateSpec.t) (input : Input.t)
    : M W LiveUpdateStatus.t :=
  let result := LiveUpdateStatus.zero in
  let cu := containerUpdater r input in
  let containers := input.(Input.Containers) in
  let runSteps := RunSteps D spec in
  let changedFiles := input.(Input.ChangedFiles) in
  let hotReload := negb (ShouldRestart D spec) in
  match BoilRuns D runSteps changedFiles with
  | Err err => ret (withContainerFailed result "Invalid" ("Building exec: " +:+ Error err))
  | Ok boiledSteps =>
      do paths <- liftW (MissingLocalPaths D changedFiles);
      match paths with
      | Err err => ret (withContainerFailed result "Invalid" ("Mapping paths: " +:+ Error err))
      | Ok (toRemove, toArchive) =>
          applyContainers cu input toRemove toArchive boiledSteps hotReload
            containers result None
      end
  end.

(** *** Deciding, container by container *)

(** The body of the loop over one source's [modTimeByPath]: the files
    changed so far, the low-water mark and the high-water mark. *)
Definition scanFile (highWaterMark : Time) (acc : list string * Time * Time)
    (ft : string * Time) : list string * Time * Time :=
  let '(filesChanged, newLowWaterMark, newHighWaterMark) := acc in
  let '(f, t) := ft in
  if After t highWaterMark then
    (filesChanged ++ [f],
     (if IsZero newLowWaterMark || Before t newLowWaterMark then t else newLowWaterMark),
     (if After t newHighWaterMark then t else newHighWaterMark))
  else acc.

(** Determine the changed files: everything recorded after the
    container's high-water mark. *)
Definition scanChangedFiles (highWaterMark : Time) (sources : gmap string monitorSource.t)
    : list string * Time * Time :=
  foldl (λ acc (ns : string * monitorSource.t),
           foldl (scanFile highWaterMark) acc
             (map_to_list ns.2.(monitorSource.modTimeByPath)))
        ([], 0, highWaterMark) (map_to_list sources).

(** Where a container's scan starts: its watermark, or the time the
    reconciler started when it has none. *)
Definition highWaterMarkOf (startedTime : Time)
    (entry : option monitorContainerStatus.t) : Time :=
  match entry with
  | Some cStatus =>
      if negb (IsZero cStatus.(monitorContainerStatus.lastFileTimeSynced))
      then cStatus.(monitorContainerStatus.lastFileTimeSynced)
      else startedTime
  | None => startedTime
  end.

(** Ignore completed pods/containers. *)
Definition isTerminated (pod : Pod.t) (cInfo : Container.t) : bool :=
  bool_decide (pod.(Pod.Phase) = PodSucceeded)
  || bool_decide (pod.(Pod.Phase) = PodFailed)
  || bool_decide (is_Some cInfo.(Container.State).(ContainerState.Terminated)).

Definition isCrashLoopBackOff (cInfo : Container.t) : bool :=
  match cInfo.(Container.State).(ContainerState.Waiting) with
  | Some w => bool_decide (w.(ContainerStateWaiting.Reason) = "CrashLoopBackOff")
  | None => false
  end.

Definition waitingFor (isWaitingOnTrigger : bool) (cInfo : Container.t)
    : option LiveUpdateContainerStateWaiting.t :=
  if bool_decide (cInfo.(Container.State).(ContainerState.Running) = None)
     || bool_decide (cInfo.(Container.ID) = "")
  then Some (LiveUpdateContainerStateWaiting.mk "ContainerWaiting"
               "Waiting for container to start")
  else if isWaitingOnTrigger
  then Some (LiveUpdateContainerStateWaiting.mk "Trigger" "Only updates on manual trigger")
  else None.

(** The variables of [maybeSync] that the second visitor assigns. *)
Record passState := mkPassState {
  passMonitor : monitor.t;
  passStatus : LiveUpdateStatus.t;
  terminatedContainerPodName : string;
  hasAnyFilesToSync : bool;
  updateEventDispatched : bool }.

(** The first visitor of [maybeSync]: is any selected container
    unrecoverable? The state is [status.Failed]. *)
Definition checkContainerFailed (lu : LiveUpdate.t) (m : monitor.t)
    (pod : Pod.t) (c : Container.t) (failed : option LiveUpdateStateFailed.t)
    : M W (bool * option LiveUpdateStateFailed.t) :=
  let cKey := mkContainerKey c.(Container.ID) pod.(Pod.Name) pod.(Pod.Namespace) in
  match m.(monitor.containers) !! cKey with
  | Some cStatus =>
      if decide (cStatus.(monitorContainerStatus.failedReason) = "") then ret (false, failed)
      else
        do f <- createFailedState lu cStatus.(monitorContainerStatus.failedReason)
                  cStatus.(monitorContainerStatus.failedMessage);
        ret (true, Some f)
  | None => ret (false, failed)
  end.

(** The status recorded for a container that is not updated in this
    pass. *)
Definition recordedStatus (pod : Pod.t) (cInfo : Container.t)
    (cStatus : monitorContainerStatus.t)
    (waiting : option LiveUpdateContainerStateWaiting.t) : LiveUpdateStatus.t :=
  LiveUpdateStatus.mk
    [LiveUpdateContainerStatus.mk cInfo.(Container.Name) cInfo.(Container.ID)
       pod.(Pod.Name) pod.(Pod.Namespace)
       cStatus.(monitorContainerStatus.lastFileTimeSynced) "" waiting]
    None.

(** The plan for one live container and what comes of it: the status of
    this one update, whether files were applied, and whether the build
    event has been dispatched by now. *)
Definition planAndApply (r : Reconciler W) (lu : LiveUpdate.t)
    (pod : Pod.t) (cInfo : Container.t) (cStatus : monitorContainerStatus.t)
    (waiting : option LiveUpdateContainerStateWaiting.t)
    (filesChanged : list string) (newHighWaterMark : Time) (dispatched : bool)
    : M W (LiveUpdateStatus.t * bool * bool) :=
  let c := LUContainer.mk cInfo.(Container.ID) cInfo.(Container.Name)
             pod.(Pod.Name) pod.(Pod.Namespace) in
  (* Create a plan to update the container. *)
  let '(plan, failed) := createLiveUpdatePlan lu.(LiveUpdate.Spec) filesChanged in
  match failed with
  | Some failed =>
      (* The plan told us to stop updating. *)
      ret (LiveUpdateStatus.mk [] (Some failed), false, dispatched)
  | None =>
      if decide (length plan.(LiveUpdatePlan.SyncPaths) = 0%nat) then
        (* The plan told us that there are no updates to do. *)
        ret (recordedStatus pod cInfo cStatus waiting, false, dispatched)
      else if isCrashLoopBackOff cInfo then
        do f <- createFailedState lu "CrashLoopBackOff"
                  ("Cannot live update because container crashing. Pod: "
                   +:+ pod.(Pod.Name));
        ret (LiveUpdateStatus.mk [] (Some f), false, dispatched)
      else
        match waiting with
        | Some _ =>
            (* Mark the container as waiting. No need to sync any files. *)
            ret (recordedStatus pod cInfo cStatus waiting, false, dispatched)
        | None =>
            (* Log progress and treat this as an update in the engine state. *)
            do _ <- (if dispatched then ret tt
                     else dispatchStartBuildAction lu filesChanged);
            (* Apply the change to the container. *)
            do applied <-
              applyInternal r lu.(LiveUpdate.Spec)
                (Input.mk
                   (bool_decide (is_Some lu.(LiveUpdate.Spec).(LiveUpdateSpec.Selector)
                                           .(LiveUpdateSelector.DockerCompose)))
                   plan.(LiveUpdatePlan.SyncPaths) [c] newHighWaterMark);
            ret (applied, true, true)
        end
  end.

(** The monitor entry of a container after its update. *)
Definition updatedContainerStatus (cStatus : monitorContainerStatus.t)
    (oneUpdateStatus : LiveUpdateStatus.t) (filesApplied : bool)
    (newLowWaterMark newHighWaterMark : Time) : monitorContainerStatus.t :=
  match oneUpdateStatus.(LiveUpdateStatus.Failed) with
  | Some f =>
      monitorContainerStatus.mk cStatus.(monitorContainerStatus.lastFileTimeSynced)
        f.(LiveUpdateStateFailed.Reason) f.(LiveUpdateStateFailed.Message) newLowWaterMark
  | None =>
      if filesApplied then
        monitorContainerStatus.mk newHighWaterMark
          cStatus.(monitorContainerStatus.failedReason)
          cStatus.(monitorContainerStatus.failedMessage)
          cStatus.(monitorContainerStatus.failedLowWaterMark)
      else cStatus
  end.

(** The second visitor of [maybeSync]: apply changes to one container and
    record its status. *)
Definition syncContainer (r : Reconciler W) (lu : LiveUpdate.t) (isWaitingOnTrigger : bool)
    (pod : Pod.t) (cInfo : Container.t) (s : passState) : M W (bool * passState) :=
  let m := s.(passMonitor) in
  let cKey := mkContainerKey cInfo.(Container.ID) pod.(Pod.Name) pod.(Pod.Namespace) in
  let entry := m.(monitor.containers) !! cKey in
  let cStatus := default monitorContainerStatus.zero entry in
  let highWaterMark := highWaterMarkOf r.(startedTime) entry in
  let scan := scanChangedFiles highWaterMark m.(monitor.sources) in
  let newLowWaterMark := scan.1.2 in
  let newHighWaterMark := scan.2 in
  (* Sort the files so that they are deterministic. *)
  let filesChanged := DedupedAndSorted scan.1.1 in
  let hasAnyFilesToSync' :=
    if decide (0 < length filesChanged)%nat then true else s.(hasAnyFilesToSync) in
  if isTerminated pod cInfo then
    (* Ignore completed pods/containers. *)
    let name :=
      if decide (s.(terminatedContainerPodName) = "") then pod.(Pod.Name)
      else s.(terminatedContainerPodName) in
    ret (false, mkPassState m s.(passStatus) name hasAnyFilesToSync' s.(updateEventDispatched))
  else
  let waiting := waitingFor isWaitingOnTrigger cInfo in
  do '(oneUpdateStatus, filesApplied, dispatched) <-
    planAndApply r lu pod cInfo cStatus waiting filesChanged newHighWaterMark
      s.(updateEventDispatched);
  (* Merge the status from the single update into the overall status. *)
  do oneUpdateStatus <- adjustFailedStateTimestamps lu oneUpdateStatus;
  (* Update the monitor based on the result of the applied changes. *)
  let cStatus' :=
    updatedContainerStatus cStatus oneUpdateStatus filesApplied
      newLowWaterMark newHighWaterMark in
  let m' := monitor.set_containers (<[cKey := cStatus']> m.(monitor.containers)) m in
  (* Update the status based on the result of the applied changes. *)
  match oneUpdateStatus.(LiveUpdateStatus.Failed) with
  | Some f =>
      ret (true, mkPassState m' (LiveUpdateStatus.mk [] (Some f))
                   s.(terminatedContainerPodName) hasAnyFilesToSync' dispatched)
  | None =>
      ret (false, mkPassState m'
                    (LiveUpdateStatus.mk
                       (s.(passStatus).(LiveUpdateStatus.Containers)
                        ++ oneUpdateStatus.(LiveUpdateStatus.Containers))
                       s.(passStatus).(LiveUpdateStatus.Failed))
                    s.(terminatedContainerPodName) hasAnyFilesToSync' dispatched)
  end.

(** In manual mode, we should always wait for a trigger before live
    updating anything. *)
Definition waitingOnTrigger (lu : LiveUpdate.t) (m : monitor.t) : bool :=
  let manifestName := annotation lu AnnotationManifest in
  let updateMode := annotation lu AnnotationUpdateMode in
  let inTriggerQueue :=
    match m.(monitor.lastTriggerQueue) with
    | Some queue =>
        negb (bool_decide (manifestName = "")) && InTriggerQueue D queue manifestName
    | None => false
    end in
  let isUpdateModeManual := bool_decide (updateMode = UpdateModeManual) in
  isUpdateModeManual && negb inTriggerQueue.

(** The end of [maybeSync], after the second visitor: the promotion of a
    pass that met only terminated containers, and the completed build. *)
Definition finishPass (lu : LiveUpdate.t) (s : passState) : M W LiveUpdateStatus.t :=
  let status := s.(passStatus) in
  do status <-
    (if bool_decide (status.(LiveUpdateStatus.Failed) = None)
        && negb (bool_decide (s.(terminatedContainerPodName) = ""))
        && s.(hasAnyFilesToSync)
        && bool_decide (length status.(LiveUpdateStatus.Containers) = 0%nat)
     then
       do f <- createFailedState lu "Terminated"
                 ("Container for live update is stopped. Pod name: "
                  +:+ s.(terminatedContainerPodName));
       ret (LiveUpdateStatus.mk status.(LiveUpdateStatus.Containers) (Some f))
     else ret status);
  do _ <- (if s.(updateEventDispatched) then dispatchCompleteBuildAction lu status
           else ret tt);
  ret status.

(** Convert the currently tracked state into a set of inputs to the
    updater, then apply them. Returns the status with the monitor as the
    call left it. *)
Definition maybeSync (r : Reconciler W) (lu : LiveUpdate.t) (m : monitor.t)
    : M W (LiveUpdateStatus.t * monitor.t) :=
  match resource lu m with
  | Err err =>
      do f <- createFailedState lu "Invalid" (Error err);
      ret (LiveUpdateStatus.mk [] (Some f), m)
  | Ok res =>
      let isWaitingOnTrigger := waitingOnTrigger lu m in
      let m := garbageCollectFileChanges res m in
      let m := garbageCollectMonitorContainers res m in
      (* Check if any of the container monitors is unrecoverable. *)
      do failed <- visitSelectedContainers res (checkContainerFailed lu m) None;
      match failed with
      | Some f => ret (LiveUpdateStatus.mk [] (Some f), m)
      | None =>
          (* Visit all containers, apply changes, and return their statuses. *)
          do s <- visitSelectedContainers res (syncContainer r lu isWaitingOnTrigger)
                    (mkPassState m LiveUpdateStatus.zero "" false false);
          do status <- finishPass lu s;
          ret (status, s.(passMonitor))
      end
  end.

(** *** Reconcile *)

Definition storeMonitor (name : string) (m : monitor.t) (r : Reconciler W) : Reconciler W :=
  set_monitors (<[name := m]> r.(monitors)) r.

(** A referenced object could not be read: record [ObjectNotFound] when it
    is missing, hand any other error to the caller. *)
Definition refreshFailed (cl : Client) (lu : LiveUpdate.t) (err : error)
    : M W (option error) :=
  if IsNotFound err then
    do f <- createFailedState lu reasonObjectNotFound (Error err);
    handleFailure cl lu f
  else ret (Some err).

(** The end of [Reconcile], once all the watched objects are refreshed:
    sync if anything changed, write the status if it differs. *)
Definition syncAndWrite (cl : Client) (r : Reconciler W) (lu : LiveUpdate.t) (m : monitor.t)
    : M W (Reconciler W * option error) :=
  let name := lu.(LiveUpdate.Name) in
  if m.(monitor.hasChangesToSync) then
    do '(status, m) <- maybeSync r lu m;
    if decide (lu.(LiveUpdate.Status) = status) then
      ret (storeMonitor name (monitor.set_hasChangesToSync false m) r, None)
    else
      do err <- StatusUpdate cl (withStatus lu status);
      match err with
      | Some err => ret (storeMonitor name m r, Some err)
      | None => ret (storeMonitor name (monitor.set_hasChangesToSync false m) r, None)
      end
  else ret (storeMonitor name (monitor.set_hasChangesToSync false m) r, None).

(** [Reconcile], for the request named [req]. The reconciler comes back
    with its monitors as the call left them, and the error returned. *)
Definition Reconcile (cl : Client) (req : string) (r : Reconciler W)
    : M W (Reconciler W * option error) :=
  let deleted :=
    do _ <- emit (EvLiveUpdateDelete req);
    ret (set_monitors (delete req r.(monitors)) r, None) in
  match getLiveUpdate cl req with
  | Err err =>
      if IsNotFound err then deleted
      else ret (r, Some (ErrOther ("liveupdate reconcile: " +:+ Error err)))
  | Ok lu =>
  if decide (is_Some lu.(LiveUpdate.DeletionTimestamp)) then deleted else
  (* The apiserver is the source of truth. *)
  do _ <- emit (EvLiveUpdateUpsert lu);
  if decide (annotation lu AnnotationManagedBy = "") then
    do invalidSelectorFailedState <- ensureSelectorValid lu;
    match invalidSelectorFailedState with
    | Some failed =>
        do err <- handleFailure cl lu failed;
        ret (r, err)
    | None =>
    let name := lu.(LiveUpdate.Name) in
    let '(m, monitors') := ensureMonitorExists r.(monitors) name lu in
    let r := set_monitors monitors' r in
    let '(m, res) := reconcileSources cl m in
    match res with
    | Err err => do e <- refreshFailed cl lu err; ret (storeMonitor name m r, e)
    | Ok hasFileChanges =>
    let '(m, res) := reconcileKubernetesResource cl m in
    match res with
    | Err err => do e <- refreshFailed cl lu err; ret (storeMonitor name m r, e)
    | Ok hasKubernetesChanges =>
    let '(m, res) := reconcileDockerComposeService cl m in
    match res with
    | Err err => do e <- refreshFailed cl lu err; ret (storeMonitor name m r, e)
    | Ok hasDockerComposeChanges =>
    let '(m, res) := reconcileTriggerQueue cl m in
    match res with
    | Err err => ret (storeMonitor name m r, Some err)
    | Ok hasTriggerQueueChanges =>
    let m :=
      if hasFileChanges || hasKubernetesChanges || hasDockerComposeChanges
         || hasTriggerQueueChanges
      then monitor.set_hasChangesToSync true m else m in
    syncAndWrite cl r lu m
    end end end end end
  else
    (* Managed by something else: nothing to do. *)
    ret (r, None)
  end.

End Reconciler.


(** ** Reverse lookup and trigger plumbing

    [indexLiveUpdate] names the objects a LiveUpdate refers to, so that a
    change of one of them enqueues the LiveUpdate; [enqueueTriggerQueue]
    maps a change of the trigger queue to the LiveUpdates it names. *)

(** The kinds [discoveryGVK], [dcsGVK], [applyGVK], [fwGVK] and
    [imageMapGVK]: all are [v1alpha1.SchemeGroupVersion.WithKind(kind)],
    so a kind is told by its name. *)
Definition GroupVersionKind : Type := string.

Definition discoveryGVK : GroupVersionKind := "KubernetesDiscovery".
Definition dcsGVK : GroupVersionKind := "DockerComposeService".
Definition applyGVK : GroupVersionKind := "KubernetesApply".
Definition fwGVK : GroupVersionKind := "FileWatch".
Definition imageMapGVK : GroupVersionKind := "ImageMap".

(** [indexer.Key], with the [types.NamespacedName] spread out. *)
Module IndexerKey.
Record t := mk { Namespace : string; Name : string; GVK : GroupVersionKind }.
#[global] Instance eq_dec : EqDecision t.
Proof. solve_decision. Defined.
End IndexerKey.

(** A [client.Object], as far as the two functions tell objects apart: a
    LiveUpdate (with the namespace of its metadata, which the record of
    this development does not carry), a ConfigMap, or something else. *)
Inductive Object :=
| ObjLiveUpdate (namespace : string) (lu : LiveUpdate.t)
| ObjConfigMap (cm : ConfigMap.t)
| ObjOther.

(** The keys one source adds to the result. *)
Definition indexSource (namespace : string) (result : list IndexerKey.t)
    (s : LiveUpdateSource.t) : list IndexerKey.t :=
  let fwn := s.(LiveUpdateSource.FileWatch) in
  let imn := s.(LiveUpdateSource.ImageMap) in
  let result :=
    if decide (fwn = "") then result
    else result ++ [IndexerKey.mk namespace fwn fwGVK] in
  if decide (imn = "") then result
  else result ++ [IndexerKey.mk namespace imn imageMapGVK].

(** [indexLiveUpdate] returns keys of objects referenced by the LiveUpdate
    object for reverse lookup. The type assertion [obj.( *LiveUpdate)]
    panics on any other object: [None]. *)
Definition indexLiveUpdate (obj : Object) : option (list IndexerKey.t) :=
  match obj with
  | ObjLiveUpdate namespace lu =>
      let result := foldl (indexSource namespace) []
                      lu.(LiveUpdate.Spec).(LiveUpdateSpec.Sources) in
      let selector := lu.(LiveUpdate.Spec).(LiveUpdateSpec.Selector) in
      let result :=
        match selector.(LiveUpdateSelector.Kubernetes) with
        | Some kSel =>
            let result :=
              if decide (kSel.(LiveUpdateKubernetesSelector.DiscoveryName) = "") then result
              else result ++ [IndexerKey.mk namespace
                                kSel.(LiveUpdateKubernetesSelector.DiscoveryName)
                                discoveryGVK] in
            let result :=
              if decide (kSel.(LiveUpdateKubernetesSelector.ApplyName) = "") then result
              else result ++ [IndexerKey.mk namespace
                                kSel.(LiveUpdateKubernetesSelector.ApplyName) applyGVK] in
            if decide (kSel.(LiveUpdateKubernetesSelector.ImageMapName) = "") then result
            else result ++ [IndexerKey.mk namespace
                              kSel.(LiveUpdateKubernetesSelector.ImageMapName)
                              imageMapGVK]
        | None => result
        end in
      Some
        match selector.(LiveUpdateSelector.DockerCompose) with
        | Some dc =>
            if decide (dc.(LiveUpdateDockerComposeSelector.Service) = "") then result
            else result ++ [IndexerKey.mk namespace
                              dc.(LiveUpdateDockerComposeSelector.Service) dcsGVK]
        | None => result
        end
  | _ => None
  end.

Section Triggers.
Context {W : Type}.
(** [configmap.TriggerQueueName] and [configmap.NamesInTriggerQueue]
    belong to the configmap package: parameters here. *)
Context (TriggerQueueName : string) (NamesInTriggerQueue : ConfigMap.t → list string).

(** Find any objects we need to reconcile based on the trigger queue: the
    names of the requests, in the order the monitors are ranged over. *)
Definition enqueueTriggerQueue (r : Reconciler W) (obj : Object) : list string :=
  match obj with
  | ObjConfigMap cm =>
      if decide (cm.(ConfigMap.Name) = TriggerQueueName) then
        (* We can only trigger liveupdates that have run once, so search
           through the map of known liveupdates *)
        let names := NamesInTriggerQueue cm in
        let nameSet : gset string := foldl (λ nameSet name, {[ name ]} ∪ nameSet) ∅ names in
        foldl (λ requests (nm : string * monitor.t),
                 if decide (nm.2.(monitor.manifestName) ∈ nameSet)
                 then requests ++ [nm.1] else requests)
              [] (map_to_list r.(monitors))
      else []
  | _ => []
  end.

End Triggers.

(** ** Vocabulary of the statements *)

Section Statements.
Context {W : Type} (D : Deps W).

(** The world once [Reconcile] has dispatched the upsert of the object it
    fetched. *)
Definition upserted (lu : LiveUpdate.t) (w : World W) : World W :=
  mkWorld (ext w) (trace w ++ [EvLiveUpdateUpsert lu]).

(** [Reconcile] leaves the object failed with reason [Invalid]: selector
    validation returns such a failure, and the reconcile writes it to the
    status, unless the status holds that very failure already; the write's
    error, if any, is the reconcile's. The monitors are not touched. *)
Definition failsInvalid (cl : Client) (req : string) (r : Reconciler W) (w : World W)
    (lu : LiveUpdate.t) : Prop :=
  ∃ failed : LiveUpdateStateFailed.t,
    failed.(LiveUpdateStateFailed.Reason) = "Invalid"
    ∧ (ensureSelectorValid D lu (upserted lu w)).1 = Some failed
    ∧ (Reconcile D cl req r w).1.1 = r
    ∧ let err := (Reconcile D cl req r w).1.2 in
      let events := trace (Reconcile D cl req r w).2 in
      if decide (lu.(LiveUpdate.Status).(LiveUpdateStatus.Failed) = Some failed)
      then err = None ∧ events = trace w ++ [EvLiveUpdateUpsert lu]
      else err = statusUpdate cl (withFailed lu failed)
           ∧ events = trace w ++ [EvLiveUpdateUpsert lu;
                                  EvStatusUpdate (withFailed lu failed) err].

(** The files a monitor holds for a source, with their mod times; none
    when the source has no entry yet. *)
Definition recordedFiles (source : LiveUpdateSource.t) (m : monitor.t) : gmap string Z :=
  (default monitorSource.fresh
     (m.(monitor.sources) !! source.(LiveUpdateSource.FileWatch)))
    .(monitorSource.modTimeByPath).

(** How far garbage collection has got with one source: its image status
    is as it was, and its files are as they were or have lost the stale
    ones. *)
Definition collected (res : luResource) (ms ms' : monitorSource.t) : Prop :=
  ms'.(monitorSource.lastImageStatus) = ms.(monitorSource.lastImageStatus)
  ∧ (ms'.(monitorSource.modTimeByPath) = ms.(monitorSource.modTimeByPath)
     ∨ (gcTimeOf D res ms ≠ 0
        ∧ ms'.(monitorSource.modTimeByPath)
          = dropStaleFiles (gcTimeOf D res ms) ms.(monitorSource.modTimeByPath))).

(** The events of one container's update: the build start, when files are
    applied and it has not been dispatched yet in this pass, then the
    updater calls. *)
Definition startedAndUpdates (lu : LiveUpdate.t) (filesChanged : list string)
    (dispatched applied : bool) (upd : list Event) : list Event :=
  (if applied && negb dispatched
   then [EvBuildStarted (annotation lu AnnotationManifest) filesChanged
           (annotation lu AnnotationSpanID)]
   else []) ++ upd.

(** The events of a pass so far. *)
Definition passEvents (lu : LiveUpdate.t) (dispatched : bool) (new : list Event) : Prop :=
  if dispatched
  then ∃ files mid,
         new = EvBuildStarted (annotation lu AnnotationManifest) files
                 (annotation lu AnnotationSpanID) :: mid
         ∧ forallb isUpdateContainer mid = true
  else new = [].

(** The selector passes validation. *)
Definition validSelector (lu : LiveUpdate.t) : Prop :=
  let selector := lu.(LiveUpdate.Spec).(LiveUpdateSpec.Selector) in
  match selector.(LiveUpdateSelector.Kubernetes) with
  | Some k => k.(LiveUpdateKubernetesSelector.DiscoveryName) ≠ ""
  | None =>
      match selector.(LiveUpdateSelector.DockerCompose) with
      | Some dc => dc.(LiveUpdateDockerComposeSelector.Service) ≠ ""
      | None => False
      end
  end.

(** *** Replay: the watched objects are what the monitor has recorded *)






(** No monitor of the reconciler has changes waiting to be synced. *)
Definition idle (r : Reconciler W) : Prop :=
  ∀ name m, r.(monitors) !! name = Some m → m.(monitor.hasChangesToSync) = false.

(** The lastFileTimeSynced that a reconciler stores for a container. *)
Definition storedWatermark (r : Reconciler W) (name : string)
    (k : string * string * string) : option Z :=
  m ← r.(monitors) !! name;
  c ← m.(monitor.containers) !! k;
  Some c.(monitorContainerStatus.lastFileTimeSynced).

(** The watermarks of a monitor are those of a reconciler that started
    at [started]: each container was never synced (zero) or synced up to
    a time that is not before the start. *)
Definition watermarksFrom (started : Z)
    (containers : gmap (string * string * string) monitorContainerStatus.t) : Prop :=
  ∀ k c, containers !! k = Some c →
         c.(monitorContainerStatus.lastFileTimeSynced) = 0
         ∨ started ≤ c.(monitorContainerStatus.lastFileTimeSynced).

(** No watermark of [before] is lower in [after]. *)
Definition watermarksAdvance
    (before after : gmap (string * string * string) monitorContainerStatus.t) : Prop :=
  ∀ k c c', before !! k = Some c → after !! k = Some c' →
            c.(monitorContainerStatus.lastFileTimeSynced)
            ≤ c'.(monitorContainerStatus.lastFileTimeSynced).

(** From a reconciler to a later one: the start time is kept, the
    watermarks are still those of a reconciler started then, and for each
    monitor that is kept with its spec no watermark of a container with
    an ID is lower than it was. *)
Definition watermarksKept (r r' : Reconciler W) : Prop :=
  r'.(startedTime) = r.(startedTime)
  ∧ (∀ name m', r'.(monitors) !! name = Some m' →
                watermarksFrom r.(startedTime) m'.(monitor.containers))
  ∧ (∀ name m m' k c c',
       r.(monitors) !! name = Some m →
       r'.(monitors) !! name = Some m' →
       m'.(monitor.spec) = m.(monitor.spec) →
       m.(monitor.containers) !! k = Some c →
       m'.(monitor.containers) !! k = Some c' →
       key_containerID k ≠ "" →
       c.(monitorContainerStatus.lastFileTimeSynced)
       ≤ c'.(monitorContainerStatus.lastFileTimeSynced)).

(** The refreshes touch neither the spec nor the containers of a
    monitor. *)
Definition sameContainers (m m' : monitor.t) : Prop :=
  m'.(monitor.spec) = m.(monitor.spec)
  ∧ m'.(monitor.containers) = m.(monitor.containers).

(** A failed state keeps the transition time of the failure the object
    already has, when the reason is the same. *)
Definition keepsTransitionTime (lu : LiveUpdate.t) (f : LiveUpdateStateFailed.t) : Prop :=
  ∀ old, lu.(LiveUpdate.Status).(LiveUpdateStatus.Failed) = Some old →
         old.(LiveUpdateStateFailed.Reason) = f.(LiveUpdateStateFailed.Reason) →
         f.(LiveUpdateStateFailed.LastTransitionTime)
         = old.(LiveUpdateStateFailed.LastTransitionTime).

Definition failedKeepsTransitionTime (lu : LiveUpdate.t) (status : LiveUpdateStatus.t)
    : Prop :=
  ∀ f, status.(LiveUpdateStatus.Failed) = Some f → keepsTransitionTime lu f.

(** The planner plans no sync for no changed file. *)
Definition plansNothingForNothing : Prop :=
  ∀ spec, (NewLiveUpdatePlan D spec []).1.(LiveUpdatePlan.SyncPaths) = [].

(** No file is recorded in a monitor. *)
Definition nothingRecorded (m : monitor.t) : Prop :=
  ∀ n ms, m.(monitor.sources) !! n = Some ms → ms.(monitorSource.modTimeByPath) = ∅.

(** Every event of a source is from strictly before the start of its
    image build. *)
Definition onlyOldEvents (cl : Client) (source : LiveUpdateSource.t) : Prop :=
  ∀ fw,
    getFileWatch cl source.(LiveUpdateSource.FileWatch) = Ok fw →
    fw.(FileWatch.FileEvents) ≠ [] →
    source.(LiveUpdateSource.ImageMap) ≠ ""
    ∧ ∀ im,
        getImageMap cl source.(LiveUpdateSource.ImageMap) = Ok im →
        ∃ b, im.(ImageMap.Status).(ImageMapStatus.BuildStartTime) = Some b
             ∧ ∀ event, event ∈ fw.(FileWatch.FileEvents) → event.(FileEvent.Time) < b.

End Statements.

(** ** More vocabulary: files, scans and containers *)

(** From [before] to [after] no recorded file is lost and no recorded time
    goes back. *)
Definition grows (before after : gmap string Z) : Prop :=
  ∀ p t, before !! p = Some t → ∃ t', after !! p = Some t' ∧ t ≤ t'.

(** An event is consumed, not skipped: it is not from before the start of
    the image build. *)
Definition consumed (buildStartTime : option Z) (event : FileEvent.t) : Prop :=
  ∀ b, buildStartTime = Some b → b ≤ event.(FileEvent.Time).

(** The files a monitor holds under the name of a FileWatch; none when it
    has no entry. *)
Definition filesOf (m : monitor.t) (fwn : string) : gmap string Z :=
  (default monitorSource.fresh (m.(monitor.sources) !! fwn)).(monitorSource.modTimeByPath).

(** Some source holds file [f] with mod time [t]. *)
Definition recorded (sources : gmap string monitorSource.t) (f : string) (t : Z) : Prop :=
  ∃ n ms, sources !! n = Some ms ∧ ms.(monitorSource.modTimeByPath) !! f = Some t.

(** Every file of every source, with its mod time, in the order
    [maybeSync] ranges over the sources and their files. *)
Definition allFiles (sources : gmap string monitorSource.t) : list (string * Z) :=
  map_to_list sources ≫= (λ ns, map_to_list ns.2.(monitorSource.modTimeByPath)).

(** The LiveUpdate refers to an object of the kind [gvk] under [name]: as
    the FileWatch or the ImageMap of a source, as the discovery, the apply
    or the ImageMap of the Kubernetes selector, or as the service of the
    DockerCompose selector. *)
Definition refersTo (lu : LiveUpdate.t) (gvk : GroupVersionKind) (name : string) : Prop :=
  let spec := lu.(LiveUpdate.Spec) in
  let selector := spec.(LiveUpdateSpec.Selector) in
  (gvk = fwGVK
   ∧ ∃ s, s ∈ spec.(LiveUpdateSpec.Sources) ∧ s.(LiveUpdateSource.FileWatch) = name)
  ∨ (gvk = imageMapGVK
     ∧ ((∃ s, s ∈ spec.(LiveUpdateSpec.Sources) ∧ s.(LiveUpdateSource.ImageMap) = name)
        ∨ ∃ k, selector.(LiveUpdateSelector.Kubernetes) = Some k
               ∧ k.(LiveUpdateKubernetesSelector.ImageMapName) = name))
  ∨ (gvk = discoveryGVK
     ∧ ∃ k, selector.(LiveUpdateSelector.Kubernetes) = Some k
            ∧ k.(LiveUpdateKubernetesSelector.DiscoveryName) = name)
  ∨ (gvk = applyGVK
     ∧ ∃ k, selector.(LiveUpdateSelector.Kubernetes) = Some k
            ∧ k.(LiveUpdateKubernetesSelector.ApplyName) = name)
  ∨ (gvk = dcsGVK
     ∧ ∃ dc, selector.(LiveUpdateSelector.DockerCompose) = Some dc
             ∧ dc.(LiveUpdateDockerComposeSelector.Service) = name).

(** Two clients hold the same object under a key: the same answer to a
    read of the key's kind under the key's name. *)
Definition sameObject (cl cl' : Client) (key : IndexerKey.t) : Prop :=
  let name := key.(IndexerKey.Name) in
  (key.(IndexerKey.GVK) = fwGVK → getFileWatch cl name = getFileWatch cl' name)
  ∧ (key.(IndexerKey.GVK) = imageMapGVK → getImageMap cl name = getImageMap cl' name)
  ∧ (key.(IndexerKey.GVK) = discoveryGVK →
     getKubernetesDiscovery cl name = getKubernetesDiscovery cl' name)
  ∧ (key.(IndexerKey.GVK) = applyGVK →
     getKubernetesApply cl name = getKubernetesApply cl' name)
  ∧ (key.(IndexerKey.GVK) = dcsGVK →
     getDockerComposeService cl name = getDockerComposeService cl' name).

(** Two monitors are of the same object: the same manifest name and the
    same spec. *)
Definition sameIdentity (m m' : monitor.t) : Prop :=
  m'.(monitor.manifestName) = m.(monitor.manifestName)
  ∧ m'.(monitor.spec) = m.(monitor.spec).

Section MoreStatements.
Context {W : Type} (D : Deps W).

(** The watermark garbage collection uses for a source of the spec: none
    when the monitor holds nothing under the source's FileWatch or when
    the watermark is the zero time. *)
Definition gcTimeAt (res : luResource) (m : monitor.t) (source : LiveUpdateSource.t)
    : option Z :=
  ms ← m.(monitor.sources) !! source.(LiveUpdateSource.FileWatch);
  if IsZero (gcTimeOf D res ms) then None else Some (gcTimeOf D res ms).

Definition gcTimes (res : luResource) (m : monitor.t) : list Z :=
  omap (gcTimeAt res m) m.(monitor.spec).(LiveUpdateSpec.Sources).

(** The failure of a container is stale: it has a low-water mark, and
    that is strictly before one of the watermarks. *)
Definition staleFailure (gcTimes : list Z) (c : monitorContainerStatus.t) : Prop :=
  c.(monitorContainerStatus.failedLowWaterMark) ≠ 0
  ∧ Exists (λ gcTime, c.(monitorContainerStatus.failedLowWaterMark) < gcTime) gcTimes.

(** Which updater a pass calls: the Docker one for a DockerCompose
    selector or in the container update mode, the exec one otherwise. *)
Definition updaterOf (r : Reconciler W) (lu : LiveUpdate.t) : UpdaterKind :=
  if bool_decide (is_Some lu.(LiveUpdate.Spec).(LiveUpdateSpec.Selector)
                            .(LiveUpdateSelector.DockerCompose))
     || match r.(updateMode) with UpdateModeContainer => true | _ => false end
  then ViaDockerUpdater else ViaExecUpdater.

(** The container a pass hands to the updater for a selected container. *)
Definition containerOf (pod : Pod.t) (cInfo : Container.t) : LUContainer.t :=
  LUContainer.mk cInfo.(Container.ID) cInfo.(Container.Name)
    pod.(Pod.Name) pod.(Pod.Namespace).

(** The build start a pass dispatches before its first update. *)
Definition buildStarted (lu : LiveUpdate.t) (filesChanged : list string) (dispatched : bool)
    : list Event :=
  if dispatched then []
  else [EvBuildStarted (annotation lu AnnotationManifest) filesChanged
          (annotation lu AnnotationSpanID)].

(** *** The stages of a reconcile *)

(** The object of the request is there, is not being deleted and is not
    managed by something else. *)
Definition live (cl : Client) (req : string) (lu : LiveUpdate.t) : Prop :=
  getLiveUpdate cl req = Ok lu
  ∧ lu.(LiveUpdate.DeletionTimestamp) = None
  ∧ annotation lu AnnotationManagedBy = "".

(** The object of the request is gone: it is missing or being deleted. *)
Definition gone (cl : Client) (req : string) : Prop :=
  (∃ err, getLiveUpdate cl req = Err err ∧ IsNotFound err = true)
  ∨ (∃ lu, getLiveUpdate cl req = Ok lu ∧ is_Some lu.(LiveUpdate.DeletionTimestamp)).

(** The world after the dispatch of the deletion. *)
Definition deleted (req : string) (w : World W) : World W :=
  mkWorld (ext w) (trace w ++ [EvLiveUpdateDelete req]).

(** The monitor [Reconcile] works on, and the reconciler that holds it. *)
Definition monitorFor (r : Reconciler W) (lu : LiveUpdate.t) : monitor.t :=
  (ensureMonitorExists r.(monitors) lu.(LiveUpdate.Name) lu).1.

Definition reconcilerFor (r : Reconciler W) (lu : LiveUpdate.t) : Reconciler W :=
  set_monitors (ensureMonitorExists r.(monitors) lu.(LiveUpdate.Name) lu).2 r.

(** The four refreshes of [Reconcile], one after the other. *)
Definition afterSources (cl : Client) (r : Reconciler W) (lu : LiveUpdate.t)
    : monitor.t * Res bool :=
  reconcileSources cl (monitorFor r lu).

Definition afterKubernetes (cl : Client) (r : Reconciler W) (lu : LiveUpdate.t)
    : monitor.t * Res bool :=
  reconcileKubernetesResource cl (afterSources cl r lu).1.

Definition afterDockerCompose (cl : Client) (r : Reconciler W) (lu : LiveUpdate.t)
    : monitor.t * Res bool :=
  reconcileDockerComposeService cl (afterKubernetes cl r lu).1.

Definition afterTriggerQueue (cl : Client) (r : Reconciler W) (lu : LiveUpdate.t)
    : monitor.t * Res bool :=
  reconcileTriggerQueue cl (afterDockerCompose cl r lu).1.

(** How [Reconcile] returns when a refresh fails with [err], leaving the
    monitor [m]. *)
Definition refreshFailedWith (cl : Client) (r : Reconciler W) (lu : LiveUpdate.t)
    (m : monitor.t) (err : error) (w : World W)
    : (Reconciler W * option error) * World W :=
  let '(e, w2) := refreshFailed D cl lu err (upserted lu w) in
  ((storeMonitor lu.(LiveUpdate.Name) m (reconcilerFor r lu), e), w2).

(** The monitor handed to the sync: marked when a refresh saw a change. *)
Definition refreshed (cl : Client) (r : Reconciler W) (lu : LiveUpdate.t)
    (changed : bool) : monitor.t :=
  if changed then monitor.set_hasChangesToSync true (afterTriggerQueue cl r lu).1
  else (afterTriggerQueue cl r lu).1.

End MoreStatements.

(** The names a container goes by: container name, container ID, pod
    name and namespace; of a container status, of the container handed to
    an updater, and of a selected container. *)
Definition statusNames (st : LiveUpdateContainerStatus.t) : string * string * string * string :=
  (st.(LiveUpdateContainerStatus.ContainerName), st.(LiveUpdateContainerStatus.ContainerID),
   st.(LiveUpdateContainerStatus.PodName), st.(LiveUpdateContainerStatus.Namespace)).

Definition containerNames (c : LUContainer.t) : string * string * string * string :=
  (c.(LUContainer.ContainerName), c.(LUContainer.ContainerID),
   c.(LUContainer.PodID), c.(LUContainer.Namespace)).

Definition selectedNames (pc : Pod.t * Container.t) : string * string * string * string :=
  (pc.2.(Container.Name), pc.2.(Container.ID), pc.1.(Pod.Name), pc.1.(Pod.Namespace)).

(** The call of an updater on a container, as the trace records it. *)
Definition updaterCall (via : UpdaterKind) (toArchive : list PathMapping.t)
    (toRemove : list PathMapping.t) (steps : list Cmd.t) (hotReload : bool)
    (c : LUContainer.t) : Event :=
  EvUpdateContainer via c toArchive (PathMappingsToContainerPaths toRemove) steps hotReload.

(** A container is live for a pass: it is not terminated, it runs, it has
    an ID and it is not crash looping. *)
Definition liveContainer (pc : Pod.t * Container.t) : Prop :=
  isTerminated pc.1 pc.2 = false
  ∧ is_Some pc.2.(Container.State).(ContainerState.Running)
  ∧ pc.2.(Container.ID) ≠ ""
  ∧ isCrashLoopBackOff pc.2 = false.

(** A status write of a reconcile: the last thing the reconcile does. It
    writes the fetched object with another status (never the status the
    object has), and its outcome is what the reconcile returns. *)
Definition onlyWrite (cl : Client) (req : string) (new : list Event)
    (returned : option error) (update : LiveUpdate.t) (err : option error) : Prop :=
  ∃ lu pre,
    getLiveUpdate cl req = Ok lu
    ∧ new = pre ++ [EvStatusUpdate update err]
    ∧ Forall (λ e, isStatusUpdate e = false) pre
    ∧ update = LiveUpdate.mk lu.(LiveUpdate.Name) lu.(LiveUpdate.Annotations)
                 lu.(LiveUpdate.DeletionTimestamp) lu.(LiveUpdate.Spec)
                 update.(LiveUpdate.Status)
    ∧ update.(LiveUpdate.Status) ≠ lu.(LiveUpdate.Status)
    ∧ err = statusUpdate cl update
    ∧ returned = err.

(** Some read of the client fails with the error [e]. *)
Definition readFails (cl : Client) (e : error) : Prop :=
  (∃ n, getFileWatch cl n = Err e)
  ∨ (∃ n, getImageMap cl n = Err e)
  ∨ (∃ n, getKubernetesDiscovery cl n = Err e)
  ∨ (∃ n, getKubernetesApply cl n = Err e)
  ∨ (∃ n, getDockerComposeService cl n = Err e)
  ∨ getTriggerQueue cl = Err e.

(** Every read of a reconcile of [lu] succeeds; [changed] tells whether
    one of them saw something new. *)
Definition refreshes {W : Type} (cl : Client) (r : Reconciler W) (lu : LiveUpdate.t)
    (changed : bool) : Prop :=
  ∃ f1 f2 f3 f4,
    (afterSources cl r lu).2 = Ok f1
    ∧ (afterKubernetes cl r lu).2 = Ok f2
    ∧ (afterDockerCompose cl r lu).2 = Ok f3
    ∧ (afterTriggerQueue cl r lu).2 = Ok f4
    ∧ changed = f1 || f2 || f3 || f4.

(** The entry a monitor holds for a selected container. *)
Definition entryOf (m : monitor.t) (pc : Pod.t * Container.t)
    : option monitorContainerStatus.t :=
  m.(monitor.containers)
  !! mkContainerKey pc.2.(Container.ID) pc.1.(Pod.Name) pc.1.(Pod.Namespace).

(** A selected container is terminated, in a pod that has a name. *)
Definition terminatedInNamedPod (pc : Pod.t * Container.t) : Prop :=
  isTerminated pc.1 pc.2 = true ∧ pc.1.(Pod.Name) ≠ "".

(** There is a file to sync to a selected container: some source of the
    monitor records a file whose mod time is after the watermark of the
    container (its lastFileTimeSynced, or the time the reconciler started
    when it has none). *)
Definition fileToSync (startedTime : Z) (m : monitor.t) (pc : Pod.t * Container.t) : Prop :=
  ∃ f t, recorded m.(monitor.sources) f t
         ∧ highWaterMarkOf startedTime (entryOf m pc) < t.

(** *** The references of a LiveUpdate, and what is remembered of failures *)

(** The error of a read that failed. *)
Definition errorOf {A : Type} (x : Res A) : list error :=
  match x with
  | Ok _ => []
  | Err e => [e]
  end.

(** The errors of the reads of the objects a source names: the FileWatch
    and then the ImageMap, each when it is named. *)
Definition sourceErrors (cl : Client) (s : LiveUpdateSource.t) : list error :=
  (if decide (s.(LiveUpdateSource.FileWatch) = "") then []
   else errorOf (getFileWatch cl s.(LiveUpdateSource.FileWatch)))
  ++ (if decide (s.(LiveUpdateSource.ImageMap) = "") then []
      else errorOf (getImageMap cl s.(LiveUpdateSource.ImageMap))).

(** Of the objects a Kubernetes selector names: the apply when it is
    named, the discovery, and the ImageMap when it is named. *)
Definition kubernetesErrors (cl : Client) (selector : LiveUpdateSelector.t) : list error :=
  match selector.(LiveUpdateSelector.Kubernetes) with
  | None => []
  | Some k =>
      (if decide (k.(LiveUpdateKubernetesSelector.ApplyName) = "") then []
       else errorOf (getKubernetesApply cl k.(LiveUpdateKubernetesSelector.ApplyName)))
      ++ errorOf (getKubernetesDiscovery cl k.(LiveUpdateKubernetesSelector.DiscoveryName))
      ++ (if decide (k.(LiveUpdateKubernetesSelector.ImageMapName) = "") then []
          else errorOf (getImageMap cl k.(LiveUpdateKubernetesSelector.ImageMapName)))
  end.

(** Of the service a DockerCompose selector names. *)
Definition dockerComposeErrors (cl : Client) (selector : LiveUpdateSelector.t) : list error :=
  match selector.(LiveUpdateSelector.DockerCompose) with
  | None => []
  | Some dc =>
      errorOf (getDockerComposeService cl dc.(LiveUpdateDockerComposeSelector.Service))
  end.

(** The errors of the reads of every object a LiveUpdate refers to, in the
    order [Reconcile] reads them: the sources one after the other, then
    the Kubernetes selector, then the DockerCompose selector. The list is
    empty when every reference is found; its head is the error
    [Reconcile] meets first. *)
Definition referenceErrors (cl : Client) (lu : LiveUpdate.t) : list error :=
  (lu.(LiveUpdate.Spec).(LiveUpdateSpec.Sources) ≫= sourceErrors cl)
  ++ kubernetesErrors cl lu.(LiveUpdate.Spec).(LiveUpdateSpec.Selector)
  ++ dockerComposeErrors cl lu.(LiveUpdate.Spec).(LiveUpdateSpec.Selector).

(** The reasons a pass of [maybeSync] fails with. *)
Definition passReasons : list string :=
  ["Invalid"; "UpdateStopped"; "CrashLoopBackOff"; "UpdateFailed"; "Terminated"].

(** The failures a monitor remembers for its containers are failures of a
    pass. *)
Definition remembersPassFailures (m : monitor.t) : Prop :=
  ∀ k c, m.(monitor.containers) !! k = Some c →
         c.(monitorContainerStatus.failedReason) = ""
         ∨ c.(monitorContainerStatus.failedReason) ∈ passReasons.

(** So it is in every monitor of a reconciler. *)
Definition remembersOnlyPassFailures {W : Type} (r : Reconciler W) : Prop :=
  ∀ n m, r.(monitors) !! n = Some m → remembersPassFailures m.

Section Missing.
Context {W : Type} (D : Deps W).

(** The reconcilers that occur: one as [NewReconciler] makes it, without
    monitors, and one after a reconcile of such a reconciler, whatever the
    request and whatever the client and the world answer. *)
Inductive reachable : Reconciler W → Prop :=
| reachable_new (r : Reconciler W) : r.(monitors) = ∅ → reachable r
| reachable_step (cl : Client) (req : string) (r : Reconciler W) (w : World W) :
    reachable r → reachable (Reconcile D cl req r w).1.1.

(** [Reconcile] leaves the object failed with reason [ObjectNotFound] and
    the message [msg]: it writes that failure to the status, unless the
    status holds that very failure already; the write's error, if any, is
    the reconcile's. The failure is the one [createFailedState] builds,
    with the transition time it gives. *)
Definition failsObjectNotFound (cl : Client) (req : string) (r : Reconciler W)
    (w : World W) (lu : LiveUpdate.t) (msg : string) : Prop :=
  ∃ failed : LiveUpdateStateFailed.t,
    failed.(LiveUpdateStateFailed.Reason) = "ObjectNotFound"
    ∧ failed.(LiveUpdateStateFailed.Message) = msg
    ∧ failed = (createFailedState D lu "ObjectNotFound" msg (upserted lu w)).1
    ∧ let err := (Reconcile D cl req r w).1.2 in
      let events := trace (Reconcile D cl req r w).2 in
      if decide (lu.(LiveUpdate.Status).(LiveUpdateStatus.Failed) = Some failed)
      then err = None ∧ events = trace w ++ [EvLiveUpdateUpsert lu]
      else err = statusUpdate cl (withFailed lu failed)
           ∧ events = trace w ++ [EvLiveUpdateUpsert lu;
                                  EvStatusUpdate (withFailed lu failed) err].

(** [Reconcile] goes through to the sync: it dispatches the upsert and
    what a pass dispatches and calls ([mid], with no status write in it),
    and then either writes nothing and returns no error, or writes one
    status, which differs from the status of the object and has no
    failure or a failure of a pass (so not [ObjectNotFound]), and returns
    the outcome of that write. *)
Definition syncsThrough (cl : Client) (req : string) (r : Reconciler W)
    (w : World W) (lu : LiveUpdate.t) : Prop :=
  let err := (Reconcile D cl req r w).1.2 in
  let events := trace (Reconcile D cl req r w).2 in
  ∃ mid : list Event,
    Forall (λ e, isStatusUpdate e = false) mid
    ∧ ((err = None ∧ events = trace w ++ [EvLiveUpdateUpsert lu] ++ mid)
       ∨ ∃ status : LiveUpdateStatus.t,
           status ≠ lu.(LiveUpdate.Status)
           ∧ (∀ f, status.(LiveUpdateStatus.Failed) = Some f →
                   f.(LiveUpdateStateFailed.Reason) ∈ passReasons
                   ∧ f.(LiveUpdateStateFailed.Reason) ≠ "ObjectNotFound")
           ∧ err = statusUpdate cl (withStatus lu status)
           ∧ events = trace w ++ [EvLiveUpdateUpsert lu] ++ mid
                      ++ [EvStatusUpdate (withStatus lu status) err]).

End Missing.
(** ** A fake world

    A clock that ticks at every reading, a file system where every local
    path exists, a container updater that answers from a script (in the
    manner of the fake updater of Tilt's tests), and a planner that syncs
    every changed file to the same path in the container. They give the
    statements below concrete runs. *)

Module Fake.

Record world := mkW { clock : Z; UpdateErrs : list (option error) }.

Definition NowMicro (w : world) : Z * world :=
  (w.(clock), mkW (w.(clock) + 1) w.(UpdateErrs)).

Definition MissingLocalPaths (files : list PathMapping.t) (w : world)
    : Res (list PathMapping.t * list PathMapping.t) * world :=
  (Ok ([], files), w).

Definition UpdateContainer (c : LUContainer.t) (archive : list PathMapping.t)
    (toDelete : list string) (cmds : list Cmd.t) (hotReload : bool) (w : world)
    : option error * world :=
  match w.(UpdateErrs) with
  | [] => (None, w)
  | err :: rest => (err, mkW w.(clock) rest)
  end.

Definition updater : ContainerUpdater world := mkContainerUpdater world UpdateContainer.

Definition NewLiveUpdatePlan (spec : LiveUpdateSpec.t) (filesChanged : list string)
    : LiveUpdatePlan.t * option error :=
  (LiveUpdatePlan.mk ((λ f, PathMapping.mk f f) <$> filesChanged) []
     (filter (λ f, f ∈ spec.(LiveUpdateSpec.StopPaths)) filesChanged),
   None).

Definition NewKubernetesResource (kd : option KubernetesDiscovery.t)
    (ka : option KubernetesApplyStatus.t) : option KubernetesResource.t * option error :=
  match kd with
  | Some kd =>
      (Some (KubernetesResource.mk kd ka
               kd.(KubernetesDiscovery.Status).(KubernetesDiscoveryStatus.Pods)), None)
  | None => (None, Some (ErrOther "no discovery"))
  end.

Definition selectedContainers (res : luResource) : list (Pod.t * Container.t) :=
  match res with
  | luK8sResource _ kr _ =>
      pod ← kr.(KubernetesResource.FilteredPods);
      (λ c, (pod, c)) <$> pod.(Pod.Containers)
  | luDCResource _ dcs =>
      let st := dcs.(DockerComposeService.Status) in
      match st.(DockerComposeServiceStatus.ContainerState) with
      | Some state =>
          [(Pod.mk "" "" "Running" [],
            Container.mk st.(DockerComposeServiceStatus.ContainerID)
              st.(DockerComposeServiceStatus.ContainerName) "" state)]
      | None => []
      end
  end.

Definition bestStartTime (res : luResource) : Z :=
  match res with
  | luK8sResource _ kr im =>
      match kr.(KubernetesResource.ApplyStatus) with
      | Some st => st.(KubernetesApplyStatus.LastApplyStartTime)
      | None => 0
      end
  | luDCResource _ dcs =>
      dcs.(DockerComposeService.Status).(DockerComposeServiceStatus.StartedAt)
  end.

Definition deps : Deps world :=
  mkDeps world NowMicro MissingLocalPaths NewLiveUpdatePlan
    (λ _, []) (λ _, false) (λ _ _, Ok [])
    (λ files, String.concat ", " files) (λ s, s)
    (λ queue name, bool_decide (is_Some (queue.(ConfigMap.Data) !! name)))
    NewKubernetesResource selectedContainers bestStartTime
    (λ c, c.(LUContainer.ContainerName)).

(** The reconciler of [NewFakeReconciler], started at time [started]. *)
Definition reconciler (started : Z) : Reconciler world :=
  mkReconciler updater updater UpdateModeAuto started ∅.

Definition notFound {A : Type} (name : string) : Res A := Err (ErrNotFound name).

(** A client that holds nothing yet. *)
Definition noClient : Client :=
  mkClient (λ n, notFound n) (λ n, notFound n) (λ n, notFound n) (λ n, notFound n)
    (λ n, notFound n) (λ n, notFound n) (notFound "tilt-trigger-queue") (λ _, None).

Definition running : ContainerState.t :=
  ContainerState.mk None (Some (ContainerStateRunning.mk 1)) None.

Definition waitingState (reason : string) : ContainerState.t :=
  ContainerState.mk (Some (ContainerStateWaiting.mk reason)) None None.

Definition kubeSelector (discovery : string) : LiveUpdateSelector.t :=
  LiveUpdateSelector.mk (Some (LiveUpdateKubernetesSelector.mk discovery "" "")) None.

(** A LiveUpdate named [frontend-liveupdate] for the manifest [frontend],
    with the given selector and sources and an empty status. *)
Definition liveUpdate (selector : LiveUpdateSelector.t) (sources : list LiveUpdateSource.t)
    : LiveUpdate.t :=
  LiveUpdate.mk "frontend-liveupdate" {[ AnnotationManifest := "frontend" ]} None
    (LiveUpdateSpec.mk "/src" selector sources [] [LiveUpdateSync.mk "/src" "/app"] [] "")
    LiveUpdateStatus.zero.

(** A client that holds one LiveUpdate, one FileWatch [fw], one ImageMap
    [im], and one KubernetesDiscovery [discovery]. *)
Definition clientOf (lu : LiveUpdate.t) (events : list FileEvent.t)
    (buildStartTime : option Z) (pods : list Pod.t) : Client :=
  mkClient
    (λ n, if decide (n = lu.(LiveUpdate.Name)) then Ok lu else notFound n)
    (λ n, if decide (n = "fw") then Ok (FileWatch.mk events) else notFound n)
    (λ n, if decide (n = "im")
          then Ok (ImageMap.mk "im" "1" (ImageMapStatus.mk "frontend:tilt-1" buildStartTime))
          else notFound n)
    (λ n, if decide (n = "discovery")
          then Ok (KubernetesDiscovery.mk "discovery" "1" (KubernetesDiscoveryStatus.mk pods))
          else notFound n)
    (λ n, notFound n) (λ n, notFound n) (notFound "tilt-trigger-queue") (λ _, None).

Definition pod (name phase : string) (cs : list Container.t) : Pod.t :=
  Pod.mk name "default" phase cs.

Definition world0 (errs : list (option error)) : World world :=
  mkWorld (mkW 100 errs) [].

(** *** Concrete objects *)

Definition name : string := "frontend-liveupdate".

Definition source : LiveUpdateSource.t := LiveUpdateSource.mk "fw" "im".

(** Selected by a Kubernetes discovery, fed by one FileWatch with its
    ImageMap. *)
Definition lu : LiveUpdate.t := liveUpdate (kubeSelector "discovery") [source].

(** No selector at all. *)
Definition luNeither : LiveUpdate.t :=
  liveUpdate (LiveUpdateSelector.mk None None) [source].

(** Both selector families at once. *)
Definition luBoth : LiveUpdate.t :=
  liveUpdate
    (LiveUpdateSelector.mk (Some (LiveUpdateKubernetesSelector.mk "discovery" "" ""))
       (Some (LiveUpdateDockerComposeSelector.mk "frontend")))
    [source].

Definition container (id : string) : Container.t := Container.mk id "main" "frontend" running.

(** A container that has not started yet. *)
Definition creating : Container.t :=
  Container.mk "" "main" "frontend" (waitingState "ContainerCreating").

Definition onePod : list Pod.t := [pod "pod-1" "Running" [container "cid1"]].

Definition twoPods : list Pod.t :=
  [pod "pod-1" "Running" [container "cid1"]; pod "pod-2" "Running" [container "cid2"]].

(** A pod that has completed. *)
Definition donePod : Pod.t := pod "pod-old" "Succeeded" [container "cid0"].

(** [clientOf], with a DockerComposeService [frontend] besides. *)
Definition withCompose (cl : Client) : Client :=
  mkClient (getLiveUpdate cl) (getFileWatch cl) (getImageMap cl)
    (getKubernetesDiscovery cl) (getKubernetesApply cl)
    (λ n, if decide (n = "frontend")
          then Ok (DockerComposeService.mk "frontend" "1"
                     (DockerComposeServiceStatus.mk "" "" None 0))
          else notFound n)
    (getTriggerQueue cl) (statusUpdate cl).

(** An empty monitor for [lu], as [ensureMonitorExists] creates it. *)
Definition monitor0 : monitor.t :=
  (ensureMonitorExists ∅ name lu).1.


(** The resource of [lu] once the monitor has seen the discovery. *)
Definition resourceOf (pods : list Pod.t) : luResource :=
  luK8sResource (LiveUpdateKubernetesSelector.mk "discovery" "" "")
    (KubernetesResource.mk
       (KubernetesDiscovery.mk "discovery" "1" (KubernetesDiscoveryStatus.mk pods))
       None pods)
    None.

(** *** Concrete runs *)

(** One file event at time 50, an image built from time 40. *)
Definition events50 : list FileEvent.t := [FileEvent.mk 50 ["/src/a.go"]].

(** The first container's run step fails, the second update succeeds. *)
Definition runFailsThenSucceeds : list (option error) :=
  [Some (ErrRunStepFailure "exit status 1"); None].

Definition clientTwoPods : Client := clientOf lu events50 (Some 40) twoPods.

(** The monitor of [lu] once it has consumed [events50]. *)
Definition monitor50 : monitor.t :=
  (reconcileSources (clientOf lu events50 (Some 40) []) monitor0).1.

(** [applyInternal]'s input for both containers of [twoPods] at once. *)
Definition inputTwoPods : Input.t :=
  Input.mk false [PathMapping.mk "/src/a.go" "/src/a.go"]
    [LUContainer.mk "cid1" "main" "pod-1" "default";
     LUContainer.mk "cid2" "main" "pod-2" "default"]
    50.

Definition clientBoth : Client := withCompose (clientOf luBoth [] None []).

Definition clientNeither : Client := clientOf luNeither [] None [].

(** A file event at the very time the image build started. *)
Definition clientAtBuildStart : Client :=
  clientOf lu [FileEvent.mk 5 ["/src/a.go"]] (Some 5) onePod.

(** A file event from before the image build started. *)
Definition clientBeforeBuildStart : Client :=
  clientOf lu [FileEvent.mk 3 ["/src/a.go"]] (Some 5) onePod.

(** A monitor whose source holds one file from before the build start
    (time 5), one from that very time and one from after it. *)
Definition monitorToCollect : monitor.t :=
  monitor.set_sources
    {[ "fw" := monitorSource.mk
                 {[ "/src/old.go" := 3; "/src/same.go" := 5; "/src/new.go" := 7 ]}
                 (Some (ImageMapStatus.mk "frontend:tilt-1" (Some 5))) None ]}
    monitor0.

(** A completed pod and a pod whose container has not started yet. *)
Definition selectedDoneAndCreating : list (Pod.t * Container.t) :=
  [(donePod, container "cid0"); (pod "pod-new" "Pending" [creating], creating)].

Definition selectedDone : list (Pod.t * Container.t) := [(donePod, container "cid0")].

Definition passState0 (m : monitor.t) : passState :=
  mkPassState m LiveUpdateStatus.zero "" false false.

(** A first reconcile of [lu] with one running pod, and the objects as
    the apiserver holds them afterwards. *)
Definition clientOnePod : Client := clientOf lu events50 (Some 40) onePod.

Definition firstReconcile : (Reconciler world * option error) * World world :=
  Reconcile deps clientOnePod name (reconciler 10) (world0 []).

Definition luAfterFirst : LiveUpdate.t :=
  withStatus lu
    (LiveUpdateStatus.mk
       [LiveUpdateContainerStatus.mk "main" "cid1" "pod-1" "default" 50 "" None] None).


(** After [firstReconcile], one more file event arrives. *)
Definition clientNext : Client :=
  clientOf luAfterFirst (events50 ++ [FileEvent.mk 70 ["/src/b.go"]]) (Some 40) onePod.

Definition secondReconcile : (Reconciler world * option error) * World world :=
  Reconcile deps clientNext name firstReconcile.1.1 firstReconcile.2.

Definition keyOfPod1 : string * string * string := mkContainerKey "cid1" "pod-1" "default".

(** An object without selector that already failed as Invalid, at time 7
    and with another message. *)
Definition luFailedBefore : LiveUpdate.t :=
  withFailed luNeither (LiveUpdateStateFailed.mk "Invalid" "an older message" 7).

Definition clientFailedBefore : Client := clientOf luFailedBefore [] None [].

(** *** Runs for the further properties *)

Definition pod1 : Pod.t := pod "pod-1" "Running" [container "cid1"].

(** The updater fails, other than by a run step. *)
Definition updateFails : list (option error) := [Some (ErrOther "connection refused")].

(** A reconcile of [lu] whose update of the one container fails. *)
Definition failedReconcile : (Reconciler world * option error) * World world :=
  Reconcile deps clientOnePod name (reconciler 10) (world0 updateFails).

(** The resource that a monitor gives for [lu]. *)
Definition resourceUnder (m : monitor.t) : luResource :=
  match resource deps lu m with
  | Ok res => res
  | Err _ => resourceOf []
  end.

(** The monitor of [lu] once it has read the objects of a client. *)
Definition monitorRead (cl : Client) : monitor.t :=
  (reconcileKubernetesResource cl (reconcileSources cl monitor0).1).1.

(** [lu] in manual update mode. *)
Definition luManual : LiveUpdate.t :=
  LiveUpdate.mk name {[ AnnotationManifest := "frontend"; AnnotationUpdateMode := "manual" ]}
    None lu.(LiveUpdate.Spec) LiveUpdateStatus.zero.

(** [cl], holding one more FileWatch, which no LiveUpdate names. *)
Definition withStrayFileWatch (cl : Client) : Client :=
  mkClient (getLiveUpdate cl)
    (λ n, if decide (n = "stray") then Ok (FileWatch.mk [FileEvent.mk 60 ["/tmp/x"]])
          else getFileWatch cl n)
    (getImageMap cl) (getKubernetesDiscovery cl) (getKubernetesApply cl)
    (getDockerComposeService cl) (getTriggerQueue cl) (statusUpdate cl).

(** [cl], with every status write refused. *)
Definition withWriteConflict (cl : Client) : Client :=
  mkClient (getLiveUpdate cl) (getFileWatch cl) (getImageMap cl)
    (getKubernetesDiscovery cl) (getKubernetesApply cl) (getDockerComposeService cl)
    (getTriggerQueue cl) (λ _, Some (ErrOther "conflict")).

(** *** Runs of garbage collection and of replays *)

Definition threeFiles : gmap string Z :=
  {[ "/src/old.go" := 3; "/src/same.go" := 5; "/src/new.go" := 7 ]}.

(** [monitorToCollect] without an image status: with [resourceOf], whose
    best start time is the zero time, the watermark of the source is the
    zero time. *)
Definition monitorNoBuildStart : monitor.t :=
  monitor.set_sources {[ "fw" := monitorSource.mk threeFiles None None ]} monitor0.

(** The entry [failedReconcile] leaves for the container. *)
Definition failedEntry : monitorContainerStatus.t :=
  monitorContainerStatus.mk 0 "UpdateFailed" "Updating pod pod-1: connection refused" 50.

(** Both containers of [twoPods] failed before, each in its own way. *)
Definition monitorBothFailed : monitor.t :=
  monitor.set_containers
    {[ mkContainerKey "cid1" "pod-1" "default" := failedEntry;
       mkContainerKey "cid2" "pod-2" "default" :=
         monitorContainerStatus.mk 0 "CrashLoopBackOff" "container crashing" 50 ]}
    (monitorRead clientTwoPods).






(** [cl], with every FileWatch missing. *)
Definition withoutFileWatch (cl : Client) : Client :=
  mkClient (getLiveUpdate cl) (λ n, notFound n) (getImageMap cl)
    (getKubernetesDiscovery cl) (getKubernetesApply cl) (getDockerComposeService cl)
    (getTriggerQueue cl) (statusUpdate cl).

End Fake.
(** * Properties *)

Section Properties.
Context {W : Type} (D : Deps W).

(** ** Failed states and their transition time *)

(** What [createFailedState] computes; the world only loses one clock
    reading. *)
Lemma createFailedState_eq (obj : LiveUpdate.t) (reason msg : string) (w : World W) :
  createFailedState D obj reason msg w =
  (LiveUpdateStateFailed.mk reason msg
     match obj.(LiveUpdate.Status).(LiveUpdateStatus.Failed) with
     | Some f =>
         if decide (f.(LiveUpdateStateFailed.Reason) = reason)
         then f.(LiveUpdateStateFailed.LastTransitionTime)
         else (NowMicro D (ext w)).1
     | None => (NowMicro D (ext w)).1
     end,
   mkWorld (NowMicro D (ext w)).2 (trace w)).
Proof.
  unfold createFailedState, now, liftW, bind, ret.
  destruct (NowMicro D (ext w)) as [t e]; reflexivity.
Qed.

Lemma createFailedState_trace (obj : LiveUpdate.t) (reason msg : string) (w : World W) :
  trace (createFailedState D obj reason msg w).2 = trace w.
Proof. rewrite createFailedState_eq; reflexivity. Qed.

Lemma createFailedState_reason (obj : LiveUpdate.t) (reason msg : string) (w : World W) :
  (createFailedState D obj reason msg w).1.(LiveUpdateStateFailed.Reason) = reason
  ∧ (createFailedState D obj reason msg w).1.(LiveUpdateStateFailed.Message) = msg.
Proof. rewrite createFailedState_eq; split; reflexivity. Qed.

(** C8. Every failed state is built by [createFailedState]
    ([adjustFailedStateTimestamps] rebuilds the one of a container update
    with it): it carries the given reason and message; when the object's
    existing failure has the same reason it keeps that failure's
    lastTransitionTime, whatever the messages; when the reason differs or
    there is no existing failure its lastTransitionTime is the current
    time. *)
Theorem failed_state_transition_time
    (obj : LiveUpdate.t) (reason msg : string) (w : World W) :
  let failed := (createFailedState D obj reason msg w).1 in
  let current := (NowMicro D (ext w)).1 in
  failed.(LiveUpdateStateFailed.Reason) = reason
  ∧ failed.(LiveUpdateStateFailed.Message) = msg
  ∧ (∀ old, obj.(LiveUpdate.Status).(LiveUpdateStatus.Failed) = Some old →
            old.(LiveUpdateStateFailed.Reason) = reason →
            failed.(LiveUpdateStateFailed.LastTransitionTime)
            = old.(LiveUpdateStateFailed.LastTransitionTime))
  ∧ (∀ old, obj.(LiveUpdate.Status).(LiveUpdateStatus.Failed) = Some old →
            old.(LiveUpdateStateFailed.Reason) ≠ reason →
            failed.(LiveUpdateStateFailed.LastTransitionTime) = current)
  ∧ (obj.(LiveUpdate.Status).(LiveUpdateStatus.Failed) = None →
     failed.(LiveUpdateStateFailed.LastTransitionTime) = current)
  ∧ (∀ newStatus f,
       newStatus.(LiveUpdateStatus.Failed) = Some f →
       (adjustFailedStateTimestamps D obj newStatus w).1.(LiveUpdateStatus.Failed)
       = Some (createFailedState D obj f.(LiveUpdateStateFailed.Reason)
                 f.(LiveUpdateStateFailed.Message) w).1).
Proof.
  cbv zeta. rewrite createFailedState_eq. cbn [fst].
  repeat split.
  - intros old Hold Hr. rewrite Hold. destruct (decide _); [reflexivity | contradiction].
  - intros old Hold Hr. rewrite Hold. destruct (decide _); [contradiction | reflexivity].
  - intros Hnone. rewrite Hnone. reflexivity.
  - intros newStatus f Hf. unfold adjustFailedStateTimestamps. rewrite Hf.
    unfold bind, ret.
    destruct (createFailedState D obj _ _ w) as [f' w']. reflexivity.
Qed.

(** ** Selector validation *)

Lemma ensureSelectorValid_neither (lu : LiveUpdate.t) (w : World W) :
  lu.(LiveUpdate.Spec).(LiveUpdateSpec.Selector).(LiveUpdateSelector.Kubernetes) = None →
  lu.(LiveUpdate.Spec).(LiveUpdateSpec.Selector).(LiveUpdateSelector.DockerCompose) = None →
  ensureSelectorValid D lu w =
  (Some (createFailedState D lu "Invalid" "No valid selector" w).1,
   (createFailedState D lu "Invalid" "No valid selector" w).2).
Proof.
  intros Hk Hd. unfold ensureSelectorValid. rewrite Hk, Hd.
  unfold bind, ret. destruct (createFailedState D lu _ _ w); reflexivity.
Qed.

(** With a Kubernetes selector, the DockerCompose selector is not looked
    at: the spec is valid exactly when the discovery is named. *)
Lemma ensureSelectorValid_kubernetes (lu : LiveUpdate.t) (w : World W)
    (k : LiveUpdateKubernetesSelector.t) :
  lu.(LiveUpdate.Spec).(LiveUpdateSpec.Selector).(LiveUpdateSelector.Kubernetes) = Some k →
  ensureSelectorValid D lu w =
  if decide (k.(LiveUpdateKubernetesSelector.DiscoveryName) = "")
  then (Some (createFailedState D lu "Invalid"
                "Kubernetes selector requires DiscoveryName" w).1,
        (createFailedState D lu "Invalid"
           "Kubernetes selector requires DiscoveryName" w).2)
  else (None, w).
Proof.
  intros Hk. unfold ensureSelectorValid. rewrite Hk.
  destruct (decide _); [|reflexivity].
  unfold bind, ret. destruct (createFailedState D lu _ _ w); reflexivity.
Qed.

(** What [handleFailure] does: nothing when the stored failure is the new
    one, one status write carrying the failure otherwise. *)
Lemma handleFailure_eq (cl : Client) (lu : LiveUpdate.t)
    (failed : LiveUpdateStateFailed.t) (w : World W) :
  handleFailure cl lu failed w =
  if decide (lu.(LiveUpdate.Status).(LiveUpdateStatus.Failed) = Some failed)
  then (None, w)
  else (statusUpdate cl (withFailed lu failed),
        mkWorld (ext w)
          (trace w ++ [EvStatusUpdate (withFailed lu failed)
                         (statusUpdate cl (withFailed lu failed))])).
Proof.
  unfold handleFailure, StatusUpdate, bind, ret, emit.
  destruct (LiveUpdateStatus.Failed (LiveUpdate.Status lu)) as [old|] eqn:Hold.
  - destruct (decide (Some old = Some failed)) as [Heq|Hne].
    + inversion Heq; subst. rewrite bool_decide_eq_true_2 by reflexivity. reflexivity.
    + rewrite bool_decide_eq_false_2 by congruence. reflexivity.
  - destruct (decide (None = Some failed)); [discriminate | reflexivity].
Qed.

(** [Reconcile] up to selector validation, for an object that is there,
    is not being deleted and is not managed by something else. *)
Lemma Reconcile_live (cl : Client) (req : string) (r : Reconciler W) (w : World W)
    (lu : LiveUpdate.t) :
  getLiveUpdate cl req = Ok lu →
  lu.(LiveUpdate.DeletionTimestamp) = None →
  annotation lu AnnotationManagedBy = "" →
  Reconcile D cl req r w =
  match ensureSelectorValid D lu (upserted lu w) with
  | (Some failed, w1) =>
      let '(err, w2) := handleFailure cl lu failed w1 in ((r, err), w2)
  | (None, w1) =>
      let name := lu.(LiveUpdate.Name) in
      let '(m, monitors') := ensureMonitorExists r.(monitors) name lu in
      let r := set_monitors monitors' r in
      let '(m, res) := reconcileSources cl m in
      match res with
      | Err err =>
          let '(e, w2) := refreshFailed D cl lu err w1 in ((storeMonitor name m r, e), w2)
      | Ok hasFileChanges =>
      let '(m, res) := reconcileKubernetesResource cl m in
      match res with
      | Err err =>
          let '(e, w2) := refreshFailed D cl lu err w1 in ((storeMonitor name m r, e), w2)
      | Ok hasKubernetesChanges =>
      let '(m, res) := reconcileDockerComposeService cl m in
      match res with
      | Err err =>
          let '(e, w2) := refreshFailed D cl lu err w1 in ((storeMonitor name m r, e), w2)
      | Ok hasDockerComposeChanges =>
      let '(m, res) := reconcileTriggerQueue cl m in
      match res with
      | Err err => ((storeMonitor name m r, Some err), w1)
      | Ok hasTriggerQueueChanges =>
          syncAndWrite D cl r lu
            (if hasFileChanges || hasKubernetesChanges || hasDockerComposeChanges
                || hasTriggerQueueChanges
             then monitor.set_hasChangesToSync true m else m) w1
      end end end end
  end.
Proof.
  intros Hget Hdel Hman. unfold Reconcile. rewrite Hget, Hdel.
  destruct (decide (is_Some None)) as [[? Hs]|_]; [discriminate|].
  destruct (decide (annotation lu AnnotationManagedBy = "")); [|contradiction].
  unfold bind at 1. unfold emit at 1. fold (upserted lu w).
  unfold bind at 1.
  destruct (ensureSelectorValid D lu (upserted lu w)) as [[failed|] w1].
  - unfold bind, ret. destruct (handleFailure cl lu failed w1); reflexivity.
  - destruct (ensureMonitorExists _ _ _) as [m0 mons].
    destruct (reconcileSources cl m0) as [m1 [a|err]].
    + destruct (reconcileKubernetesResource cl m1) as [m2 [b|err]].
      * destruct (reconcileDockerComposeService cl m2) as [m3 [c|err]].
        -- destruct (reconcileTriggerQueue cl m3) as [m4 [d|err]]; reflexivity.
        -- unfold bind, ret. destruct (refreshFailed D cl lu err w1); reflexivity.
      * unfold bind, ret. destruct (refreshFailed D cl lu err w1); reflexivity.
    + unfold bind, ret. destruct (refreshFailed D cl lu err w1); reflexivity.
Qed.

Lemma failsInvalid_intro (cl : Client) (req : string) (r : Reconciler W) (w : World W)
    (lu : LiveUpdate.t) (msg : string) :
  getLiveUpdate cl req = Ok lu →
  lu.(LiveUpdate.DeletionTimestamp) = None →
  annotation lu AnnotationManagedBy = "" →
  ensureSelectorValid D lu (upserted lu w) =
    (Some (createFailedState D lu "Invalid" msg (upserted lu w)).1,
     (createFailedState D lu "Invalid" msg (upserted lu w)).2) →
  failsInvalid D cl req r w lu.
Proof.
  intros Hget Hdel Hman Hens.
  exists (createFailedState D lu "Invalid" msg (upserted lu w)).1.
  split; [apply createFailedState_reason|].
  split; [rewrite Hens; reflexivity|].
  rewrite (Reconcile_live cl req r w lu Hget Hdel Hman), Hens.
  rewrite handleFailure_eq.
  rewrite createFailedState_eq. cbn [fst snd ext trace upserted].
  destruct (decide _); cbn; repeat split; rewrite <- ?app_assoc; reflexivity.
Qed.

(** C2, as the code has it. For an object that reaches selector
    validation (it is there, is not being deleted and is not managed by
    something else): with neither selector family, validation fails and
    the reconcile leaves status.failed with reason Invalid; with both
    families, the Kubernetes selector alone decides: the same failure when
    it names no discovery, and a valid selector when it names one. *)
Theorem selector_validation (cl : Client) (req : string) (r : Reconciler W) (w : World W)
    (lu : LiveUpdate.t) :
  getLiveUpdate cl req = Ok lu →
  lu.(LiveUpdate.DeletionTimestamp) = None →
  annotation lu AnnotationManagedBy = "" →
  let selector := lu.(LiveUpdate.Spec).(LiveUpdateSpec.Selector) in
  (selector.(LiveUpdateSelector.Kubernetes) = None →
   selector.(LiveUpdateSelector.DockerCompose) = None →
   failsInvalid D cl req r w lu)
  ∧ (∀ k dc,
       selector.(LiveUpdateSelector.Kubernetes) = Some k →
       selector.(LiveUpdateSelector.DockerCompose) = Some dc →
       (k.(LiveUpdateKubernetesSelector.DiscoveryName) = "" → failsInvalid D cl req r w lu)
       ∧ (k.(LiveUpdateKubernetesSelector.DiscoveryName) ≠ "" →
          ensureSelectorValid D lu (upserted lu w) = (None, upserted lu w))).
Proof.
  intros Hget Hdel Hman selector. split.
  - intros Hk Hd. eapply failsInvalid_intro; eauto.
    apply ensureSelectorValid_neither; assumption.
  - intros k dc Hk Hd. split; intros Hname.
    + eapply failsInvalid_intro; eauto.
      rewrite (ensureSelectorValid_kubernetes lu _ k Hk).
      destruct (decide _); [reflexivity | contradiction].
    + rewrite (ensureSelectorValid_kubernetes lu _ k Hk).
      destruct (decide _); [contradiction | reflexivity].
Qed.

(** ** Consuming file events *)

Lemma consumeFileEvent_before_build (b : Z) (modTimeByPath : gmap string Z)
    (event : FileEvent.t) :
  event.(FileEvent.Time) < b →
  consumeFileEvent (Some b) modTimeByPath event = modTimeByPath.
Proof.
  intros Hlt. unfold consumeFileEvent, After.
  rewrite bool_decide_eq_true_2 by assumption. reflexivity.
Qed.

Lemma consumeFileEvents_drop_old (b : Z) (events : list FileEvent.t) :
  ∀ modTimeByPath : gmap string Z,
    consumeFileEvents (Some b) modTimeByPath events =
    consumeFileEvents (Some b) modTimeByPath
      (filter (λ e, ¬ e.(FileEvent.Time) < b) events).
Proof.
  unfold consumeFileEvents.
  induction events as [|e events IH]; intros mtbp; [reflexivity|].
  rewrite filter_cons. cbn [foldl].
  destruct (decide (¬ FileEvent.Time e < b)) as [Hge|Hlt].
  - cbn [foldl]. apply IH.
  - rewrite consumeFileEvent_before_build by lia. apply IH.
Qed.

Lemma consumeFileEvents_all_old (b : Z) (events : list FileEvent.t)
    (modTimeByPath : gmap string Z) :
  (∀ e, e ∈ events → e.(FileEvent.Time) < b) →
  consumeFileEvents (Some b) modTimeByPath events = modTimeByPath.
Proof.
  intros Hold. rewrite consumeFileEvents_drop_old.
  replace (filter (λ e, ¬ FileEvent.Time e < b) events) with (@nil FileEvent.t);
    [reflexivity|].
  symmetry. induction events as [|e events IH]; [reflexivity|].
  rewrite filter_cons.
  destruct (decide (¬ FileEvent.Time e < b)) as [Hge|_].
  - exfalso. apply Hge, Hold. left.
  - apply IH. intros e' He'. apply Hold. right. exact He'.
Qed.

(** What one source holds after [reconcileOneSource], when both of its
    objects are named and found. *)
Lemma reconcileOneSource_recorded (cl : Client) (m : monitor.t)
    (source : LiveUpdateSource.t) (fw : FileWatch.t) (im : ImageMap.t) :
  source.(LiveUpdateSource.FileWatch) ≠ "" →
  source.(LiveUpdateSource.ImageMap) ≠ "" →
  getFileWatch cl source.(LiveUpdateSource.FileWatch) = Ok fw →
  getImageMap cl source.(LiveUpdateSource.ImageMap) = Ok im →
  let before := recordedFiles source m in
  let after := recordedFiles source (reconcileOneSource cl m source).1 in
  after = before
  ∨ after = consumeFileEvents im.(ImageMap.Status).(ImageMapStatus.BuildStartTime)
              before fw.(FileWatch.FileEvents).
Proof.
  intros Hfwn Himn Hfw Him. unfold recordedFiles, reconcileOneSource.
  destruct (decide (LiveUpdateSource.FileWatch source = "")) as [|_]; [contradiction|].
  destruct (decide (LiveUpdateSource.ImageMap source = "")) as [|_]; [contradiction|].
  rewrite Hfw, Him.
  destruct (last (FileWatch.FileEvents fw)) as [newLast|]; [|left; reflexivity].
  cbn [fst monitor.set_sources monitor.sources].
  rewrite lookup_insert_eq. cbn [default monitorSource.modTimeByPath].
  match goal with |- context [if ?c then consumeFileEvents _ _ _ else _] =>
    destruct c end; [right | left]; reflexivity.
Qed.

(** C3, as the code has it. A file event whose time is strictly before the
    ImageMap's BuildStartTime is skipped: consuming it records nothing,
    and consuming a FileWatch is consuming its events that are not before
    the build start. A FileWatch whose events are all before the build
    start leaves the recorded files as they were, so it gives no
    container anything to sync. *)
Theorem old_events_not_recorded (cl : Client) (m : monitor.t)
    (source : LiveUpdateSource.t) (fw : FileWatch.t) (im : ImageMap.t) (b : Z) :
  source.(LiveUpdateSource.FileWatch) ≠ "" →
  source.(LiveUpdateSource.ImageMap) ≠ "" →
  getFileWatch cl source.(LiveUpdateSource.FileWatch) = Ok fw →
  getImageMap cl source.(LiveUpdateSource.ImageMap) = Ok im →
  im.(ImageMap.Status).(ImageMapStatus.BuildStartTime) = Some b →
  let before := recordedFiles source m in
  let after := recordedFiles source (reconcileOneSource cl m source).1 in
  (∀ event modTimeByPath,
     event ∈ fw.(FileWatch.FileEvents) → event.(FileEvent.Time) < b →
     consumeFileEvent (Some b) modTimeByPath event = modTimeByPath)
  ∧ (after = before
     ∨ after = consumeFileEvents (Some b) before
                 (filter (λ e, ¬ e.(FileEvent.Time) < b) fw.(FileWatch.FileEvents)))
  ∧ ((∀ event, event ∈ fw.(FileWatch.FileEvents) → event.(FileEvent.Time) < b) →
     after = before).
Proof.
  intros Hfwn Himn Hfw Him Hb before after.
  pose proof (reconcileOneSource_recorded cl m source fw im Hfwn Himn Hfw Him) as Hrec.
  cbv zeta in Hrec. fold before after in Hrec. rewrite Hb in Hrec.
  split; [|split].
  - intros event mtbp _ Hlt. apply consumeFileEvent_before_build, Hlt.
  - destruct Hrec as [Hrec|Hrec]; [left; exact Hrec|right].
    rewrite Hrec. apply consumeFileEvents_drop_old.
  - intros Hold. destruct Hrec as [Hrec|Hrec]; [exact Hrec|].
    rewrite Hrec. apply consumeFileEvents_all_old, Hold.
Qed.

(** ** Garbage collection of file changes *)

Lemma dropStaleFiles_lookup (gcTime : Z) (modTimeByPath : gmap string Z) (p : string) (t : Z) :
  dropStaleFiles gcTime modTimeByPath !! p = Some t
  ↔ modTimeByPath !! p = Some t ∧ gcTime ≤ t.
Proof.
  unfold dropStaleFiles. rewrite map_lookup_filter_Some. cbn [snd].
  unfold After. rewrite bool_decide_eq_false.
  split; intros [? ?]; split; auto; lia.
Qed.

Lemma dropStaleFiles_idemp (gcTime : Z) (modTimeByPath : gmap string Z) :
  dropStaleFiles gcTime (dropStaleFiles gcTime modTimeByPath)
  = dropStaleFiles gcTime modTimeByPath.
Proof.
  apply map_eq. intros p. apply option_eq. intros t.
  rewrite !dropStaleFiles_lookup. tauto.
Qed.

Lemma gcTimeOf_lastImageStatus (res : luResource) (ms ms' : monitorSource.t) :
  ms'.(monitorSource.lastImageStatus) = ms.(monitorSource.lastImageStatus) →
  gcTimeOf D res ms' = gcTimeOf D res ms.
Proof. intros H. unfold gcTimeOf. rewrite H. reflexivity. Qed.

Lemma garbageCollectOneSource_source (res : luResource) (m : monitor.t)
    (source : LiveUpdateSource.t) (n : string) (ms : monitorSource.t) :
  m.(monitor.sources) !! n = Some ms →
  ∃ ms', (garbageCollectOneSource D res m source).(monitor.sources) !! n = Some ms'
         ∧ collected D res ms ms'
         ∧ (source.(LiveUpdateSource.FileWatch) = n → gcTimeOf D res ms ≠ 0 →
            ms'.(monitorSource.modTimeByPath)
            = dropStaleFiles (gcTimeOf D res ms) ms.(monitorSource.modTimeByPath)).
Proof.
  intros Hn. unfold garbageCollectOneSource.
  destruct (decide (LiveUpdateSource.FileWatch source = n)) as [->|Hne].
  - rewrite Hn. unfold IsZero.
    destruct (decide (gcTimeOf D res ms = 0)) as [Hz|Hnz].
    + rewrite bool_decide_eq_true_2 by assumption. cbn [negb].
      exists ms. split; [assumption|]. split; [split; [reflexivity | left; reflexivity]|].
      intros _ Hc. contradiction.
    + rewrite bool_decide_eq_false_2 by assumption. cbn [negb].
      cbn [monitor.set_containers monitor.set_sources monitor.sources].
      rewrite lookup_insert_eq. eexists. split; [reflexivity|].
      split; [split; [reflexivity | right; split; [assumption | reflexivity]]|].
      intros _ _. reflexivity.
  - exists ms. split.
    + destruct (monitor.sources m !! LiveUpdateSource.FileWatch source) as [ms0|];
        [|assumption].
      destruct (negb (IsZero (gcTimeOf D res ms0))); [|assumption].
      cbn [monitor.set_containers monitor.set_sources monitor.sources].
      rewrite lookup_insert_ne by assumption. assumption.
    + split; [split; [reflexivity | left; reflexivity]|]. intros Heq. contradiction.
Qed.

Lemma garbageCollect_sources (res : luResource) (sources : list LiveUpdateSource.t) :
  ∀ (m : monitor.t) (n : string) (ms : monitorSource.t),
    m.(monitor.sources) !! n = Some ms →
    ∃ ms', (foldl (garbageCollectOneSource D res) m sources).(monitor.sources) !! n
           = Some ms'
           ∧ collected D res ms ms'
           ∧ (n ∈ LiveUpdateSource.FileWatch <$> sources → gcTimeOf D res ms ≠ 0 →
              ms'.(monitorSource.modTimeByPath)
              = dropStaleFiles (gcTimeOf D res ms) ms.(monitorSource.modTimeByPath)).
Proof.
  induction sources as [|s sources IH]; intros m n ms Hn.
  - exists ms. split; [assumption|]. split; [split; [reflexivity | left; reflexivity]|].
    intros Hin. apply elem_of_nil in Hin. contradiction.
  - cbn [foldl].
    destruct (garbageCollectOneSource_source res m s n ms Hn) as (ms1 & H1 & [Hi1 Hc1] & Hd1).
    destruct (IH _ n ms1 H1) as (ms' & H' & [Hi' Hc'] & Hd').
    pose proof (gcTimeOf_lastImageStatus res ms ms1 Hi1) as Hgc.
    rewrite Hgc in Hc', Hd'.
    exists ms'. split; [assumption|].
    assert (Hcoll : collected D res ms ms').
    { split; [congruence|].
      destruct Hc' as [Hc'|[Hnz Hc']], Hc1 as [Hc1|[Hnz1 Hc1]].
      - left; congruence.
      - right; split; [assumption | congruence].
      - right; split; [assumption | congruence].
      - right; split; [assumption|]. rewrite Hc', Hc1. apply dropStaleFiles_idemp. }
    split; [exact Hcoll|].
    intros Hin Hnz. rewrite fmap_cons in Hin. apply elem_of_cons in Hin.
    destruct Hin as [Heq|Hin].
    + specialize (Hd1 (eq_sym Heq) Hnz).
      destruct Hc' as [Hc'|[_ Hc']]; [congruence|].
      rewrite Hc', Hd1. apply dropStaleFiles_idemp.
    + specialize (Hd' Hin Hnz).
      destruct Hc1 as [Hc1|[_ Hc1]]; [congruence|].
      rewrite Hd', Hc1. apply dropStaleFiles_idemp.
Qed.

(** C4, as the code has it. For a source of the spec, with its watermark
    the image build start when there is one and [bestStartTime()]
    otherwise: when the watermark is not the zero time, garbage collection
    keeps exactly the entries whose mod time is not before the watermark
    (what remains has a mod time greater than or equal to it, and every
    entry strictly before it is dropped); when the watermark is the zero
    time, nothing is dropped. *)
Theorem gc_drops_files_before_watermark (res : luResource) (m : monitor.t)
    (source : LiveUpdateSource.t) (ms : monitorSource.t) :
  source ∈ m.(monitor.spec).(LiveUpdateSpec.Sources) →
  m.(monitor.sources) !! source.(LiveUpdateSource.FileWatch) = Some ms →
  ∃ ms',
    (garbageCollectFileChanges D res m).(monitor.sources)
      !! source.(LiveUpdateSource.FileWatch) = Some ms'
    ∧ gcTimeOf D res ms' = gcTimeOf D res ms
    ∧ (gcTimeOf D res ms ≠ 0 →
       ∀ p t, ms'.(monitorSource.modTimeByPath) !! p = Some t
              ↔ ms.(monitorSource.modTimeByPath) !! p = Some t ∧ gcTimeOf D res ms ≤ t)
    ∧ (gcTimeOf D res ms = 0 →
       ms'.(monitorSource.modTimeByPath) = ms.(monitorSource.modTimeByPath)).
Proof.
  intros Hin Hms. unfold garbageCollectFileChanges.
  destruct (garbageCollect_sources res (LiveUpdateSpec.Sources (monitor.spec m)) m _ ms Hms)
    as (ms' & H' & [Hi Hc] & Hd).
  exists ms'. split; [assumption|]. split; [apply gcTimeOf_lastImageStatus, Hi|].
  split.
  - intros Hnz p t. rewrite Hd; [apply dropStaleFiles_lookup| |assumption].
    apply list_elem_of_fmap. exists source. split; [reflexivity | assumption].
  - intros Hz. destruct Hc as [Hsame|[Hnz _]]; [exact Hsame | contradiction].
Qed.

(** ** One container of a pass *)

Lemma now_trace (w : World W) (t : Z) (w' : World W) :
  now D w = (t, w') → trace w' = trace w.
Proof.
  unfold now, liftW. destruct (NowMicro D (ext w)). intros H; inversion H; reflexivity.
Qed.

Lemma createFailedState_run (obj : LiveUpdate.t) (reason msg : string)
    (w : World W) (f : LiveUpdateStateFailed.t) (w' : World W) :
  createFailedState D obj reason msg w = (f, w') →
  trace w' = trace w
  ∧ f.(LiveUpdateStateFailed.Reason) = reason
  ∧ f.(LiveUpdateStateFailed.Message) = msg.
Proof. rewrite createFailedState_eq. intros H; inversion H; auto. Qed.

Lemma adjustFailedStateTimestamps_run (lu : LiveUpdate.t) (st : LiveUpdateStatus.t)
    (w : World W) (st' : LiveUpdateStatus.t) (w' : World W) :
  adjustFailedStateTimestamps D lu st w = (st', w') →
  trace w' = trace w
  ∧ st'.(LiveUpdateStatus.Containers) = st.(LiveUpdateStatus.Containers)
  ∧ (st.(LiveUpdateStatus.Failed) = None → st' = st)
  ∧ (is_Some st.(LiveUpdateStatus.Failed) → is_Some st'.(LiveUpdateStatus.Failed)).
Proof.
  unfold adjustFailedStateTimestamps.
  destruct (LiveUpdateStatus.Failed st) as [f|] eqn:Hf.
  - unfold bind, ret. rewrite createFailedState_eq. intros H; inversion H; subst; cbn.
    repeat split; eauto. discriminate.
  - unfold ret. intros H; inversion H; subst. repeat split; auto.
    intros [? ?]; congruence.
Qed.

Lemma applyContainers_run (cu : UpdaterKind * ContainerUpdater W) (input : Input.t)
    (toRemove toArchive : list PathMapping.t) (steps : list Cmd.t) (hot : bool)
    (containers : list LUContainer.t) :
  ∀ (result : LiveUpdateStatus.t) (last : option LiveUpdateContainerStatus.t)
    (w : World W) (out : LiveUpdateStatus.t) (w' : World W),
    applyContainers D cu input toRemove toArchive steps hot containers result last w
    = (out, w') →
    ∃ new, trace w' = trace w ++ new
           ∧ forallb isUpdateContainer new = true
           ∧ (result.(LiveUpdateStatus.Failed) = None →
              out.(LiveUpdateStatus.Failed) = None →
              length out.(LiveUpdateStatus.Containers)
              = (length result.(LiveUpdateStatus.Containers) + length containers)%nat
              ∧ length new = length containers).
Proof.
  induction containers as [|c containers IH]; intros result last w out w' Hrun.
  - cbn in Hrun. inversion Hrun; subst. exists []. rewrite app_nil_r.
    repeat split; auto; lia.
  - cbn [applyContainers] in Hrun.
    unfold callUpdateContainer, emit, liftW, bind in Hrun.
    cbv beta in Hrun. cbn [ext trace] in Hrun.
    destruct (UpdateContainer cu.2 c toArchive _ steps hot (ext w)) as [err e1].
    match type of Hrun with context [(if IsZero ?t then now D else ret ?t) ?w1] =>
      destruct ((if IsZero t then now D else ret t) w1) as [lfts w2] eqn:Hl;
      assert (Ht2 : trace w2 = trace w1)
        by (destruct (IsZero t);
            [ exact (now_trace _ _ _ Hl) | unfold ret in Hl; inversion Hl; reflexivity ])
    end. cbn [trace] in Ht2.
    destruct err as [err|].
    + destruct (IsRunStepFailure err).
      * apply IH in Hrun. destruct Hrun as (new & Hnew & Hall & Hlen).
        eexists (_ :: new). rewrite Hnew, Ht2, <- app_assoc.
        split; [reflexivity|]. split; [exact Hall|].
        intros Hr Ho. cbn [LiveUpdateStatus.Failed LiveUpdateStatus.Containers] in Hlen.
        destruct (Hlen Hr Ho) as [H1 H2]. rewrite H1, length_app. cbn. split; lia.
      * unfold ret in Hrun. inversion Hrun; subst. eexists [_]. rewrite Ht2.
        split; [reflexivity|]. split; [reflexivity|].
        intros _ Ho. discriminate Ho.
    + destruct last as [failedStatus|].
      * unfold ret in Hrun. inversion Hrun; subst. eexists [_]. rewrite Ht2.
        split; [reflexivity|]. split; [reflexivity|].
        intros _ Ho. discriminate Ho.
      * apply IH in Hrun. destruct Hrun as (new & Hnew & Hall & Hlen).
        eexists (_ :: new). rewrite Hnew, Ht2, <- app_assoc.
        split; [reflexivity|]. split; [exact Hall|].
        intros Hr Ho. cbn [LiveUpdateStatus.Failed LiveUpdateStatus.Containers] in Hlen.
        destruct (Hlen Hr Ho) as [H1 H2]. rewrite H1, length_app. cbn. split; lia.
Qed.

Lemma applyInternal_run (r : Reconciler W) (spec : LiveUpdateSpec.t) (input : Input.t)
    (w : World W) (out : LiveUpdateStatus.t) (w' : World W) :
  applyInternal D r spec input w = (out, w') →
  ∃ new, trace w' = trace w ++ new
         ∧ forallb isUpdateContainer new = true
         ∧ (out.(LiveUpdateStatus.Failed) = None →
            length out.(LiveUpdateStatus.Containers) = length input.(Input.Containers)
            ∧ length new = length input.(Input.Containers)).
Proof.
  unfold applyInternal. intros Hrun.
  destruct (BoilRuns D _ _) as [boiled|err].
  - unfold bind, liftW in Hrun.
    destruct (MissingLocalPaths D _ (ext w)) as [[[toRemove toArchive]|err] e1].
    + apply applyContainers_run in Hrun. cbn [trace] in Hrun.
      destruct Hrun as (new & Hnew & Hall & Hlen). exists new.
      split; [exact Hnew|]. split; [exact Hall|].
      intros Ho. apply Hlen; [reflexivity | exact Ho].
    + unfold ret in Hrun. inversion Hrun; subst. exists []. cbn. rewrite app_nil_r.
      split; [reflexivity|]. split; [reflexivity|]. discriminate.
  - unfold ret in Hrun. inversion Hrun; subst. exists []. cbn. rewrite app_nil_r.
    split; [reflexivity|]. split; [reflexivity|]. discriminate.
Qed.

Lemma planAndApply_run (r : Reconciler W) (lu : LiveUpdate.t) (pod : Pod.t)
    (cInfo : Container.t) (cStatus : monitorContainerStatus.t)
    (waiting : option LiveUpdateContainerStateWaiting.t) (filesChanged : list string)
    (newHighWaterMark : Z) (dispatched : bool) (w : World W)
    (one : LiveUpdateStatus.t) (applied dispatched' : bool) (w' : World W) :
  planAndApply D r lu pod cInfo cStatus waiting filesChanged newHighWaterMark dispatched w
  = ((one, applied, dispatched'), w') →
  ∃ upd,
    trace w' = trace w ++ startedAndUpdates lu filesChanged dispatched applied upd
    ∧ forallb isUpdateContainer upd = true
    ∧ dispatched' = applied || dispatched
    ∧ (applied = false → upd = [])
    ∧ (one.(LiveUpdateStatus.Failed) = None →
       length one.(LiveUpdateStatus.Containers) = 1%nat
       ∧ (applied = true → length upd = 1%nat)).
Proof.
  unfold planAndApply. intros Hrun.
  destruct (createLiveUpdatePlan D _ _) as [plan [failed|]].
  { unfold ret in Hrun. inversion Hrun; subst. exists []. cbn. rewrite app_nil_r.
    repeat split; auto; discriminate. }
  destruct (decide _) as [Hempty|Hsync].
  { unfold ret in Hrun. inversion Hrun; subst. exists []. cbn. rewrite app_nil_r.
    repeat split; auto; discriminate. }
  destruct (isCrashLoopBackOff cInfo).
  { unfold bind, ret in Hrun. rewrite createFailedState_eq in Hrun.
    inversion Hrun; subst. exists []. cbn. rewrite app_nil_r.
    repeat split; auto; discriminate. }
  destruct waiting as [wt|].
  { unfold ret in Hrun. inversion Hrun; subst. exists []. cbn. rewrite app_nil_r.
    repeat split; auto; discriminate. }
  unfold bind in Hrun.
  destruct ((if dispatched then ret () else dispatchStartBuildAction lu filesChanged) w)
    as [[] w1] eqn:Hstart.
  destruct (applyInternal D r _ _ w1) as [out w2] eqn:Happly.
  unfold ret in Hrun. inversion Hrun; subst. clear Hrun.
  apply applyInternal_run in Happly. destruct Happly as (upd & Hupd & Hall & Hlen).
  cbn [Input.Containers length] in Hlen.
  exists upd. split.
  - rewrite Hupd. unfold startedAndUpdates. destruct dispatched.
    + unfold ret in Hstart. inversion Hstart; subst. reflexivity.
    + unfold dispatchStartBuildAction, emit in Hstart. inversion Hstart; subst.
      cbn [trace]. rewrite <- app_assoc. reflexivity.
  - split; [exact Hall|]. split; [reflexivity|]. split; [discriminate|].
    intros Ho. destruct (Hlen Ho) as [H1 H2]. split; [exact H1 | intros _; exact H2].
Qed.

Lemma syncContainer_run (r : Reconciler W) (lu : LiveUpdate.t) (trig : bool)
    (pod : Pod.t) (cInfo : Container.t) (s : passState) (w : World W)
    (stop : bool) (s' : passState) (w' : World W) :
  syncContainer D r lu trig pod cInfo s w = ((stop, s'), w') →
  let m := s.(passMonitor) in
  let cKey := mkContainerKey cInfo.(Container.ID) pod.(Pod.Name) pod.(Pod.Namespace) in
  let entry := m.(monitor.containers) !! cKey in
  let cStatus := default monitorContainerStatus.zero entry in
  let scan := scanChangedFiles (highWaterMarkOf r.(startedTime) entry) m.(monitor.sources) in
  let filesChanged := DedupedAndSorted scan.1.1 in
  s'.(hasAnyFilesToSync)
  = (if decide (0 < length filesChanged)%nat then true else s.(hasAnyFilesToSync))
  ∧ if isTerminated pod cInfo then
      stop = false ∧ w' = w
      ∧ s'.(passMonitor) = m
      ∧ s'.(passStatus) = s.(passStatus)
      ∧ s'.(updateEventDispatched) = s.(updateEventDispatched)
      ∧ s'.(terminatedContainerPodName)
        = (if decide (s.(terminatedContainerPodName) = "") then pod.(Pod.Name)
           else s.(terminatedContainerPodName))
    else
      s'.(terminatedContainerPodName) = s.(terminatedContainerPodName)
      ∧ ∃ (c' : monitorContainerStatus.t) (applied : bool) (upd : list Event),
          s'.(passMonitor)
          = monitor.set_containers (<[cKey := c']> m.(monitor.containers)) m
          ∧ trace w' = trace w ++ startedAndUpdates lu filesChanged
                                    s.(updateEventDispatched) applied upd
          ∧ forallb isUpdateContainer upd = true
          ∧ s'.(updateEventDispatched) = applied || s.(updateEventDispatched)
          ∧ (applied = false → upd = [])
          ∧ if stop then
              is_Some s'.(passStatus).(LiveUpdateStatus.Failed)
              ∧ s'.(passStatus).(LiveUpdateStatus.Containers) = []
              ∧ c'.(monitorContainerStatus.lastFileTimeSynced)
                = cStatus.(monitorContainerStatus.lastFileTimeSynced)
            else
              s'.(passStatus).(LiveUpdateStatus.Failed)
              = s.(passStatus).(LiveUpdateStatus.Failed)
              ∧ length s'.(passStatus).(LiveUpdateStatus.Containers)
                = S (length s.(passStatus).(LiveUpdateStatus.Containers))
              ∧ c'.(monitorContainerStatus.lastFileTimeSynced)
                = (if applied then scan.2
                   else cStatus.(monitorContainerStatus.lastFileTimeSynced))
              ∧ (applied = true → length upd = 1%nat).
Proof.
  unfold syncContainer. intros Hrun. cbv zeta.
  destruct (isTerminated pod cInfo).
  { unfold ret in Hrun. inversion Hrun; subst. cbn. auto 10. }
  unfold bind in Hrun.
  destruct (planAndApply D r lu pod cInfo _ _ _ _ _ w) as [[[one applied] disp'] w1]
    eqn:Hplan.
  destruct (adjustFailedStateTimestamps D lu one w1) as [one' w2] eqn:Hadj.
  apply planAndApply_run in Hplan.
  destruct Hplan as (upd & Htr & Hall & Hdisp & Hupd & Hone).
  apply adjustFailedStateTimestamps_run in Hadj.
  destruct Hadj as (Htr2 & Hcont & Hnone & Hsome).
  destruct (LiveUpdateStatus.Failed one') as [f'|] eqn:Hf'.
  - unfold ret in Hrun. inversion Hrun; subst. cbn.
    split; [reflexivity|]. split; [reflexivity|].
    eexists _, applied, upd. split; [reflexivity|].
    split; [rewrite Htr2; exact Htr|]. split; [exact Hall|].
    split; [reflexivity|]. split; [exact Hupd|].
    split; [eauto|]. split; [reflexivity|].
    unfold updatedContainerStatus. rewrite Hf'. reflexivity.
  - unfold ret in Hrun. inversion Hrun; subst. cbn.
    split; [reflexivity|]. split; [reflexivity|].
    assert (Hn : LiveUpdateStatus.Failed one = None).
    { destruct (LiveUpdateStatus.Failed one) as [f|] eqn:Hf; [|reflexivity].
      destruct (Hsome (ex_intro _ f eq_refl)) as [? ?]. congruence. }
    destruct (Hone Hn) as [Hlen1 Hlen2].
    eexists _, applied, upd. split; [reflexivity|].
    split; [rewrite Htr2; exact Htr|]. split; [exact Hall|].
    split; [reflexivity|]. split; [exact Hupd|].
    split; [reflexivity|]. split; [rewrite length_app, Hcont, Hlen1; lia|].
    split; [|exact Hlen2].
    unfold updatedContainerStatus. rewrite Hf'. destruct applied; reflexivity.
Qed.

(** *** The high-water mark *)

Lemma scanFile_high (hwm : Z) (acc : list string * Z * Z) (ft : string * Z) :
  acc.2 ≤ (scanFile hwm acc ft).2.
Proof.
  destruct acc as [[files low] high], ft as [f t]. unfold scanFile, After.
  destruct (bool_decide (hwm < t)); cbn [snd]; [|lia].
  destruct (bool_decide (high < t)) eqn:Hh; [|lia].
  apply bool_decide_eq_true in Hh. lia.
Qed.

Lemma foldl_scanFile_high (hwm : Z) (l : list (string * Z)) :
  ∀ acc, acc.2 ≤ (foldl (scanFile hwm) acc l).2.
Proof.
  induction l as [|ft l IH]; intros acc; cbn [foldl]; [lia|].
  etransitivity; [apply (scanFile_high hwm acc ft) | apply IH].
Qed.

Lemma scanChangedFiles_high (hwm : Z) (sources : gmap string monitorSource.t) :
  hwm ≤ (scanChangedFiles hwm sources).2.
Proof.
  unfold scanChangedFiles.
  change hwm with (([] : list string, 0, hwm).2) at 1.
  generalize ([] : list string, 0, hwm).
  induction (map_to_list sources) as [|ns l IH]; intros acc; cbn [foldl]; [lia|].
  etransitivity; [apply (foldl_scanFile_high hwm) | apply IH].
Qed.


(** *** Several containers in one call of [applyInternal]

    The loop of [applyInternal] remembers a run step failure: when the
    updater then succeeds on a later container, the result fails with
    PodsInconsistent. *)

Lemma applyContainers_success_after_run_failure
    (cu : UpdaterKind * ContainerUpdater W) (input : Input.t)
    (toRemove toArchive : list PathMapping.t) (steps : list Cmd.t) (hot : bool)
    (c : LUContainer.t) (rest : list LUContainer.t) (result : LiveUpdateStatus.t)
    (failedStatus : LiveUpdateContainerStatus.t) (w : World W) (e' : W) :
  UpdateContainer cu.2 c toArchive (PathMappingsToContainerPaths toRemove) steps hot (ext w)
  = (None, e') →
  ∃ failed,
    (applyContainers D cu input toRemove toArchive steps hot (c :: rest) result
       (Some failedStatus) w).1.(LiveUpdateStatus.Failed) = Some failed
    ∧ failed.(LiveUpdateStateFailed.Reason) = "PodsInconsistent".
Proof.
  intros Hupd. cbn [applyContainers].
  unfold callUpdateContainer, emit, liftW, bind. cbv beta. cbn [ext trace].
  rewrite Hupd.
  match goal with |- context [(if IsZero ?t then now D else ret ?t) ?w1] =>
    destruct ((if IsZero t then now D else ret t) w1) as [lfts w2] end.
  eexists. split; reflexivity.
Qed.

Lemma applyContainers_run_failure_then_success
    (cu : UpdaterKind * ContainerUpdater W) (input : Input.t)
    (toRemove toArchive : list PathMapping.t) (steps : list Cmd.t) (hot : bool)
    (c1 c2 : LUContainer.t) (rest : list LUContainer.t) (result : LiveUpdateStatus.t)
    (last : option LiveUpdateContainerStatus.t) (w : World W) (err : error) (e1 : W) :
  input.(Input.LastFileTimeSynced) ≠ 0 →
  UpdateContainer cu.2 c1 toArchive (PathMappingsToContainerPaths toRemove) steps hot (ext w)
  = (Some err, e1) →
  IsRunStepFailure err = true →
  (UpdateContainer cu.2 c2 toArchive (PathMappingsToContainerPaths toRemove) steps hot e1).1
  = None →
  ∃ failed,
    (applyContainers D cu input toRemove toArchive steps hot (c1 :: c2 :: rest) result
       last w).1.(LiveUpdateStatus.Failed) = Some failed
    ∧ failed.(LiveUpdateStateFailed.Reason) = "PodsInconsistent".
Proof.
  intros Hnz Hupd1 Hrun Hupd2. cbn [applyContainers].
  unfold callUpdateContainer at 1. unfold emit at 1. unfold liftW at 1.
  unfold bind at 1. unfold bind at 1. cbv beta. cbn [ext trace].
  rewrite Hupd1. unfold bind at 1. unfold IsZero at 1.
  rewrite bool_decide_eq_false_2 by assumption. unfold ret at 1. rewrite Hrun.
  destruct (UpdateContainer cu.2 c2 toArchive (PathMappingsToContainerPaths toRemove)
              steps hot e1) as [r2 e2] eqn:Hupd2'.
  cbn [fst] in Hupd2. subst r2.
  eapply applyContainers_success_after_run_failure. cbn [ext]. exact Hupd2'.
Qed.

(** ** The events of a pass *)

Lemma visitContainers_inv {S : Type} (visit : Pod.t → Container.t → S → M W (bool * S))
    (P : S → World W → Prop) (selected : list (Pod.t * Container.t)) :
  (∀ pc s w stop s' w',
     pc ∈ selected → P s w → visit pc.1 pc.2 s w = ((stop, s'), w') → P s' w') →
  ∀ s w s' w', P s w → visitContainers visit selected s w = (s', w') → P s' w'.
Proof.
  induction selected as [|pc selected IH]; intros Hstep s w s' w' HP Hrun.
  - cbn in Hrun. inversion Hrun; subst. exact HP.
  - cbn [visitContainers] in Hrun. unfold bind in Hrun.
    destruct (visit pc.1 pc.2 s w) as [[stop s1] w1] eqn:Hv.
    assert (HP1 : P s1 w1) by (eapply Hstep; [left | exact HP | exact Hv]).
    destruct stop.
    + unfold ret in Hrun. inversion Hrun; subst. exact HP1.
    + eapply IH; [|exact HP1|exact Hrun].
      intros pc' s0 w0 stop0 s0' w0' Hin. apply Hstep. right. exact Hin.
Qed.

Lemma syncContainer_passEvents (r : Reconciler W) (lu : LiveUpdate.t) (trig : bool)
    (t0 : list Event) (pod : Pod.t) (cInfo : Container.t) (s : passState) (w : World W)
    (stop : bool) (s' : passState) (w' : World W) :
  (∃ new, trace w = t0 ++ new ∧ passEvents lu s.(updateEventDispatched) new) →
  syncContainer D r lu trig pod cInfo s w = ((stop, s'), w') →
  ∃ new, trace w' = t0 ++ new ∧ passEvents lu s'.(updateEventDispatched) new.
Proof.
  intros (new & Hnew & Hev) Hrun.
  apply syncContainer_run in Hrun. cbv zeta in Hrun. destruct Hrun as [_ Hrun].
  destruct (isTerminated pod cInfo).
  - destruct Hrun as (_ & -> & _ & _ & -> & _). exists new. auto.
  - destruct Hrun as (_ & c' & applied & upd & _ & Htr & Hall & Hdisp & Hupd & _).
    rewrite Htr, Hnew, Hdisp, <- app_assoc. eexists. split; [reflexivity|].
    unfold startedAndUpdates, passEvents in *.
    destruct applied; cbn [orb andb].
    + destruct (updateEventDispatched s); cbn [negb].
      * destruct Hev as (files & mid & -> & Hmid). exists files, (mid ++ upd).
        split; [reflexivity|]. rewrite forallb_app, Hmid, Hall. reflexivity.
      * subst new. eexists _, upd. split; [reflexivity | exact Hall].
    + rewrite (Hupd eq_refl). rewrite !app_nil_r. exact Hev.
Qed.

Lemma checkContainerFailed_trace (lu : LiveUpdate.t) (m : monitor.t)
    (selected : list (Pod.t * Container.t)) (failed : option LiveUpdateStateFailed.t)
    (w : World W) (failed' : option LiveUpdateStateFailed.t) (w' : World W) :
  visitContainers (checkContainerFailed D lu m) selected failed w = (failed', w') →
  trace w' = trace w.
Proof.
  apply (visitContainers_inv (checkContainerFailed D lu m)
           (λ _ w0, trace w0 = trace w) selected); [|reflexivity].
  intros pc s0 w0 stop s0' w0' _ Hw0 Hrun. unfold checkContainerFailed in Hrun.
  destruct (monitor.containers m !! _) as [cStatus|].
  - destruct (decide _).
    + unfold ret in Hrun. inversion Hrun; subst. exact Hw0.
    + unfold bind, ret in Hrun. rewrite createFailedState_eq in Hrun.
      inversion Hrun; subst. exact Hw0.
  - unfold ret in Hrun. inversion Hrun; subst. exact Hw0.
Qed.

Lemma finishPass_run (lu : LiveUpdate.t) (s : passState) (w : World W)
    (status : LiveUpdateStatus.t) (w' : World W) :
  finishPass D lu s w = (status, w') →
  trace w' = trace w ++
    (if s.(updateEventDispatched)
     then [EvBuildCompleted (annotation lu AnnotationManifest)
             (annotation lu AnnotationSpanID) (completeBuildError status)]
     else [])
  ∧ status.(LiveUpdateStatus.Containers) = s.(passStatus).(LiveUpdateStatus.Containers)
  ∧ if bool_decide (s.(passStatus).(LiveUpdateStatus.Failed) = None)
       && negb (bool_decide (s.(terminatedContainerPodName) = ""))
       && s.(hasAnyFilesToSync)
       && bool_decide (length s.(passStatus).(LiveUpdateStatus.Containers) = 0%nat)
    then ∃ f, status.(LiveUpdateStatus.Failed) = Some f
              ∧ f.(LiveUpdateStateFailed.Reason) = "Terminated"
              ∧ f.(LiveUpdateStateFailed.Message)
                = "Container for live update is stopped. Pod name: "
                  +:+ s.(terminatedContainerPodName)
    else status = s.(passStatus).
Proof.
  unfold finishPass. intros Hrun. unfold bind at 1 in Hrun.
  match type of Hrun with context [if ?c then _ else _] => destruct c end.
  - unfold bind at 1 in Hrun. unfold ret at 1 in Hrun.
    rewrite createFailedState_eq in Hrun. unfold bind, ret in Hrun.
    destruct (updateEventDispatched s).
    + unfold dispatchCompleteBuildAction, emit in Hrun. inversion Hrun; subst.
      cbn. repeat split; eauto.
    + inversion Hrun; subst. cbn. rewrite app_nil_r. repeat split; eauto.
  - unfold ret at 1 in Hrun. unfold bind, ret in Hrun.
    destruct (updateEventDispatched s).
    + unfold dispatchCompleteBuildAction, emit in Hrun. inversion Hrun; subst.
      cbn. repeat split; eauto.
    + inversion Hrun; subst. cbn. rewrite app_nil_r. repeat split; eauto.
Qed.

(** C9. What a reconcile pass dispatches and calls, in order: nothing at
    all, or one BuildStarted, then container updater calls only, then one
    BuildCompleted, which reports the error of the status the pass
    returns. So BuildStarted is dispatched at most once in a pass and
    before the first updater call, and BuildCompleted comes after the last
    updater call and only with a BuildStarted. *)
Theorem build_events_bracket_updates (r : Reconciler W) (lu : LiveUpdate.t)
    (m : monitor.t) (w : World W) :
  let out := maybeSync D r lu m w in
  ∃ new,
    trace out.2 = trace w ++ new
    ∧ (new = []
       ∨ ∃ files mid,
           new = EvBuildStarted (annotation lu AnnotationManifest) files
                   (annotation lu AnnotationSpanID)
                 :: mid
                 ++ [EvBuildCompleted (annotation lu AnnotationManifest)
                       (annotation lu AnnotationSpanID) (completeBuildError out.1.1)]
           ∧ forallb isUpdateContainer mid = true).
Proof.
  cbv zeta. destruct (maybeSync D r lu m w) as [[status m'] w'] eqn:Hrun.
  cbn [fst snd]. unfold maybeSync in Hrun.
  destruct (resource D lu m) as [res|err].
  2:{ unfold bind, ret in Hrun. rewrite createFailedState_eq in Hrun.
      inversion Hrun; subst. exists []. cbn. rewrite app_nil_r. auto. }
  unfold bind at 1 in Hrun. unfold visitSelectedContainers at 1 in Hrun.
  destruct (visitContainers (checkContainerFailed D lu _) _ None w) as [failed w1] eqn:Hchk.
  apply checkContainerFailed_trace in Hchk.
  destruct failed as [f|].
  { unfold ret in Hrun. inversion Hrun; subst. exists []. rewrite app_nil_r. auto. }
  unfold bind at 1 in Hrun. unfold visitSelectedContainers in Hrun.
  destruct (visitContainers (syncContainer D r lu _) _ _ w1) as [s w2] eqn:Hpass.
  unfold bind, ret in Hrun.
  destruct (finishPass D lu s w2) as [status' w3] eqn:Hfin.
  inversion Hrun; subst. clear Hrun.
  apply finishPass_run in Hfin. destruct Hfin as (Htr3 & _ & _).
  assert (Hinv : ∃ new, trace w2 = trace w ++ new
                        ∧ passEvents lu s.(updateEventDispatched) new).
  { revert Hpass.
    apply (visitContainers_inv (syncContainer D r lu _)
             (λ s0 w0, ∃ new, trace w0 = trace w ++ new
                              ∧ passEvents lu s0.(updateEventDispatched) new)).
    - intros pc s0 w0 stop s0' w0' _ HP Hstep.
      eapply syncContainer_passEvents; eassumption.
    - exists []. rewrite app_nil_r. split; [exact Hchk | reflexivity]. }
  destruct Hinv as (new & Hnew & Hev). rewrite Htr3, Hnew, <- app_assoc.
  eexists. split; [reflexivity|]. unfold passEvents in Hev.
  destruct (updateEventDispatched s).
  - destruct Hev as (files & mid & -> & Hmid). right. exists files, mid.
    split; [reflexivity | exact Hmid].
  - subst new. left. reflexivity.
Qed.

(** *** A pass that met only terminated containers *)

Lemma pass_containers_grow (r : Reconciler W) (lu : LiveUpdate.t) (trig : bool)
    (selected : list (Pod.t * Container.t)) :
  ∀ s w s' w',
    visitContainers (syncContainer D r lu trig) selected s w = (s', w') →
    s'.(passStatus).(LiveUpdateStatus.Failed) = None →
    (length s.(passStatus).(LiveUpdateStatus.Containers)
     ≤ length s'.(passStatus).(LiveUpdateStatus.Containers))%nat.
Proof.
  induction selected as [|pc selected IH]; intros s w s' w' Hrun Hnone.
  - cbn in Hrun. inversion Hrun; subst. lia.
  - cbn [visitContainers] in Hrun. unfold bind in Hrun.
    destruct (syncContainer D r lu trig pc.1 pc.2 s w) as [[stop s1] w1] eqn:Hv.
    apply syncContainer_run in Hv. cbv zeta in Hv. destruct Hv as [_ Hv].
    destruct (isTerminated pc.1 pc.2).
    + destruct Hv as (-> & _ & _ & Hst & _). rewrite <- Hst. eapply IH; eassumption.
    + destruct Hv as (_ & c' & applied & upd & _ & _ & _ & _ & _ & Hstop).
      destruct stop.
      * unfold ret in Hrun. inversion Hrun; subst.
        destruct Hstop as ([f Hf] & _). congruence.
      * destruct Hstop as (_ & Hlen & _).
        specialize (IH _ _ _ _ Hrun Hnone). lia.
Qed.

Lemma pass_all_terminated (r : Reconciler W) (lu : LiveUpdate.t) (trig : bool)
    (selected : list (Pod.t * Container.t)) :
  ∀ s w s' w',
    visitContainers (syncContainer D r lu trig) selected s w = (s', w') →
    s'.(passStatus).(LiveUpdateStatus.Failed) = None →
    s'.(passStatus).(LiveUpdateStatus.Containers) = [] →
    ∀ pc, pc ∈ selected → isTerminated pc.1 pc.2 = true.
Proof.
  induction selected as [|pc selected IH]; intros s w s' w' Hrun Hnone Hnil pc' Hin.
  - apply elem_of_nil in Hin. contradiction.
  - cbn [visitContainers] in Hrun. unfold bind in Hrun.
    destruct (syncContainer D r lu trig pc.1 pc.2 s w) as [[stop s1] w1] eqn:Hv.
    apply syncContainer_run in Hv. cbv zeta in Hv. destruct Hv as [_ Hv].
    destruct (isTerminated pc.1 pc.2) eqn:Hterm.
    + destruct Hv as (-> & _). apply elem_of_cons in Hin. destruct Hin as [->|Hin].
      * exact Hterm.
      * eapply IH; eassumption.
    + exfalso. destruct Hv as (_ & c' & applied & upd & _ & _ & _ & _ & _ & Hstop).
      destruct stop.
      * unfold ret in Hrun. inversion Hrun; subst.
        destruct Hstop as ([f Hf] & _). congruence.
      * destruct Hstop as (_ & Hlen & _).
        pose proof (pass_containers_grow r lu trig selected _ _ _ _ Hrun Hnone) as Hgrow.
        rewrite Hnil in Hgrow. cbn in Hgrow. lia.
Qed.

Lemma pass_terminated_name (r : Reconciler W) (lu : LiveUpdate.t) (trig : bool)
    (selected : list (Pod.t * Container.t)) :
  ∀ s w s' w',
    visitContainers (syncContainer D r lu trig) selected s w = (s', w') →
    s'.(terminatedContainerPodName) = s.(terminatedContainerPodName)
    ∨ (s.(terminatedContainerPodName) = ""
       ∧ ∃ pc, pc ∈ selected ∧ isTerminated pc.1 pc.2 = true
               ∧ pc.1.(Pod.Name) = s'.(terminatedContainerPodName)).
Proof.
  induction selected as [|pc selected IH]; intros s w s' w' Hrun.
  - cbn in Hrun. inversion Hrun; subst. left; reflexivity.
  - cbn [visitContainers] in Hrun. unfold bind in Hrun.
    destruct (syncContainer D r lu trig pc.1 pc.2 s w) as [[stop s1] w1] eqn:Hv.
    apply syncContainer_run in Hv. cbv zeta in Hv. destruct Hv as [_ Hv].
    assert (Hstep : terminatedContainerPodName s1 = terminatedContainerPodName s
                    ∨ (terminatedContainerPodName s = ""
                       ∧ isTerminated pc.1 pc.2 = true
                       ∧ pc.1.(Pod.Name) = terminatedContainerPodName s1)).
    { destruct (isTerminated pc.1 pc.2).
      - destruct Hv as (_ & _ & _ & _ & _ & Hname). rewrite Hname.
        destruct (decide _); [right; auto | left; reflexivity].
      - destruct Hv as (Hname & _). left; exact Hname. }
    assert (Hrest : terminatedContainerPodName s' = terminatedContainerPodName s1
                    ∨ (terminatedContainerPodName s1 = ""
                       ∧ ∃ pc0, pc0 ∈ selected ∧ isTerminated pc0.1 pc0.2 = true
                                ∧ pc0.1.(Pod.Name) = terminatedContainerPodName s')).
    { destruct stop.
      - unfold ret in Hrun. inversion Hrun; subst. left; reflexivity.
      - eapply IH; eassumption. }
    destruct Hstep as [Hs|(Hs0 & Ht & Hn)], Hrest as [Hr|(Hr0 & pc0 & Hin & Ht0 & Hn0)].
    + left. congruence.
    + right. split; [congruence|]. exists pc0. split; [right; exact Hin | auto].
    + right. split; [exact Hs0|]. exists pc. split; [left | split; [exact Ht | congruence]].
    + right. split; [exact Hs0|]. exists pc0. split; [right; exact Hin | auto].
Qed.

(** *** Watermarks over a whole pass

    With a reconciler that started after Go's zero time, no stored
    lastFileTimeSynced ever decreases. *)

Lemma highWaterMarkOf_from (started : Z) (entry : option monitorContainerStatus.t) :
  (∀ c, entry = Some c →
        c.(monitorContainerStatus.lastFileTimeSynced) = 0
        ∨ started ≤ c.(monitorContainerStatus.lastFileTimeSynced)) →
  started ≤ highWaterMarkOf started entry
  ∧ (default monitorContainerStatus.zero entry).(monitorContainerStatus.lastFileTimeSynced)
    ≤ Z.max 0 (highWaterMarkOf started entry).
Proof.
  intros Hfrom. unfold highWaterMarkOf, IsZero. destruct entry as [c|]; cbn.
  - destruct (Hfrom c eq_refl) as [Hz|Hge].
    + rewrite Hz. rewrite bool_decide_eq_true_2 by reflexivity. cbn. lia.
    + destruct (bool_decide _) eqn:Hb; cbn; [|lia].
      apply bool_decide_eq_true in Hb. lia.
  - lia.
Qed.

Lemma syncContainer_watermarks (r : Reconciler W) (lu : LiveUpdate.t) (trig : bool)
    (pod : Pod.t) (cInfo : Container.t) (s : passState) (w : World W)
    (stop : bool) (s' : passState) (w' : World W) :
  0 < r.(startedTime) →
  watermarksFrom r.(startedTime) s.(passMonitor).(monitor.containers) →
  syncContainer D r lu trig pod cInfo s w = ((stop, s'), w') →
  watermarksFrom r.(startedTime) s'.(passMonitor).(monitor.containers)
  ∧ watermarksAdvance s.(passMonitor).(monitor.containers)
      s'.(passMonitor).(monitor.containers)
  ∧ (∀ k, is_Some (s.(passMonitor).(monitor.containers) !! k) →
          is_Some (s'.(passMonitor).(monitor.containers) !! k)).
Proof.
  intros Hpos Hfrom Hrun.
  apply syncContainer_run in Hrun. cbv zeta in Hrun. destruct Hrun as [_ Hrun].
  destruct (isTerminated pod cInfo).
  { destruct Hrun as (_ & _ & -> & _). split; [exact Hfrom|].
    split; [intros k c c' H1 H2; assert (c = c') by congruence; subst; lia | auto]. }
  destruct Hrun as (_ & c' & applied & upd & -> & _ & _ & _ & _ & Hstop).
  cbn [monitor.set_containers monitor.containers].
  set (cKey := mkContainerKey (Container.ID cInfo) (Pod.Name pod) (Pod.Namespace pod)) in *.
  set (entry := monitor.containers (passMonitor s) !! cKey) in *.
  pose proof (scanChangedFiles_high (highWaterMarkOf (startedTime r) entry)
                (monitor.sources (passMonitor s))) as Hhigh.
  destruct (highWaterMarkOf_from (startedTime r) entry) as [Hhwm Hold].
  { intros c Hc. eapply Hfrom. exact Hc. }
  assert (Hc' : monitorContainerStatus.lastFileTimeSynced c'
                = monitorContainerStatus.lastFileTimeSynced
                    (default monitorContainerStatus.zero entry)
                ∨ (startedTime r ≤ monitorContainerStatus.lastFileTimeSynced c'
                   ∧ monitorContainerStatus.lastFileTimeSynced
                       (default monitorContainerStatus.zero entry)
                     ≤ monitorContainerStatus.lastFileTimeSynced c')).
  { destruct stop.
    - destruct Hstop as (_ & _ & ->). left; reflexivity.
    - destruct Hstop as (_ & _ & -> & _). destruct applied; [right; lia | left; reflexivity]. }
  split; [|split].
  - intros k c Hk. destruct (decide (cKey = k)) as [<-|Hne].
    + rewrite lookup_insert_eq in Hk. inversion Hk; subst c.
      destruct Hc' as [Heq|[Hge _]]; [|right; exact Hge].
      rewrite Heq. fold entry. destruct entry as [c0|] eqn:He; cbn.
      * eapply Hfrom. exact He.
      * left; reflexivity.
    + rewrite lookup_insert_ne in Hk by assumption. eapply Hfrom; eassumption.
  - intros k c c0 H1 H2. destruct (decide (cKey = k)) as [<-|Hne].
    + rewrite lookup_insert_eq in H2. inversion H2; subst c0.
      fold entry in H1. rewrite H1 in Hc'. cbn in Hc'. lia.
    + rewrite lookup_insert_ne in H2 by assumption.
      assert (c = c0) by congruence. subst. lia.
  - intros k [c Hk]. destruct (decide (cKey = k)) as [<-|Hne].
    + rewrite lookup_insert_eq. eauto.
    + rewrite lookup_insert_ne by assumption. eauto.
Qed.

Lemma pass_watermarks (r : Reconciler W) (lu : LiveUpdate.t) (trig : bool)
    (selected : list (Pod.t * Container.t)) (s : passState) (w : World W)
    (s' : passState) (w' : World W) :
  0 < r.(startedTime) →
  watermarksFrom r.(startedTime) s.(passMonitor).(monitor.containers) →
  visitContainers (syncContainer D r lu trig) selected s w = (s', w') →
  watermarksFrom r.(startedTime) s'.(passMonitor).(monitor.containers)
  ∧ watermarksAdvance s.(passMonitor).(monitor.containers)
      s'.(passMonitor).(monitor.containers).
Proof.
  intros Hpos Hfrom Hrun.
  cut (watermarksFrom r.(startedTime) s'.(passMonitor).(monitor.containers)
       ∧ watermarksAdvance s.(passMonitor).(monitor.containers)
           s'.(passMonitor).(monitor.containers)
       ∧ ∀ k, is_Some (s.(passMonitor).(monitor.containers) !! k) →
              is_Some (s'.(passMonitor).(monitor.containers) !! k)); [tauto|].
  revert Hrun.
  apply (visitContainers_inv (syncContainer D r lu trig)
           (λ s0 _, watermarksFrom r.(startedTime) s0.(passMonitor).(monitor.containers)
                    ∧ watermarksAdvance s.(passMonitor).(monitor.containers)
                        s0.(passMonitor).(monitor.containers)
                    ∧ ∀ k, is_Some (s.(passMonitor).(monitor.containers) !! k) →
                           is_Some (s0.(passMonitor).(monitor.containers) !! k))).
  - intros pc s0 w0 stop s1 w1 _ (Hf0 & Ha0 & Hk0) Hstep.
    destruct (syncContainer_watermarks r lu trig pc.1 pc.2 s0 w0 stop s1 w1 Hpos Hf0 Hstep)
      as (Hf1 & Ha1 & Hk1).
    split; [exact Hf1|]. split.
    + intros k c c1 H0 H1. destruct (Hk0 k (ex_intro _ c H0)) as [c0 Hc0].
      specialize (Ha0 k c c0 H0 Hc0). specialize (Ha1 k c0 c1 Hc0 H1). lia.
    + intros k Hk. apply Hk1, Hk0, Hk.
  - split; [exact Hfrom|]. split; [|auto].
    intros k c c0 H1 H2. assert (c = c0) by congruence. subst. lia.
Qed.

Lemma garbageCollectOneSource_containers (res : luResource) (m : monitor.t)
    (source : LiveUpdateSource.t) (k : string * string * string)
    (c' : monitorContainerStatus.t) :
  (garbageCollectOneSource D res m source).(monitor.containers) !! k = Some c' →
  ∃ c, m.(monitor.containers) !! k = Some c
       ∧ c'.(monitorContainerStatus.lastFileTimeSynced)
         = c.(monitorContainerStatus.lastFileTimeSynced).
Proof.
  unfold garbageCollectOneSource.
  destruct (monitor.sources m !! _) as [ms|]; [|eauto].
  destruct (negb (IsZero (gcTimeOf D res ms))); [|eauto].
  cbn [monitor.set_containers monitor.containers]. rewrite lookup_fmap.
  destruct (monitor.containers m !! k) as [c|]; [|discriminate].
  cbn. intros H; inversion H; subst. exists c. split; [reflexivity|].
  unfold clearStaleFailure. destruct (_ && _); reflexivity.
Qed.

Lemma garbageCollectFileChanges_containers (res : luResource) (m : monitor.t)
    (k : string * string * string) (c' : monitorContainerStatus.t) :
  (garbageCollectFileChanges D res m).(monitor.containers) !! k = Some c' →
  ∃ c, m.(monitor.containers) !! k = Some c
       ∧ c'.(monitorContainerStatus.lastFileTimeSynced)
         = c.(monitorContainerStatus.lastFileTimeSynced).
Proof.
  unfold garbageCollectFileChanges.
  generalize (LiveUpdateSpec.Sources (monitor.spec m)). intros sources.
  revert m c'. induction sources as [|s sources IH]; intros m c'; cbn [foldl]; [eauto|].
  intros H. apply IH in H. destruct H as (c1 & H1 & Heq1).
  apply garbageCollectOneSource_containers in H1. destruct H1 as (c & Hc & Heq).
  exists c. split; [exact Hc | congruence].
Qed.

Lemma garbageCollectMonitorContainers_containers (res : luResource) (m : monitor.t)
    (k : string * string * string) (c' : monitorContainerStatus.t) :
  (garbageCollectMonitorContainers D res m).(monitor.containers) !! k = Some c' →
  m.(monitor.containers) !! k = Some c'.
Proof.
  unfold garbageCollectMonitorContainers.
  cbn [monitor.set_containers monitor.containers].
  intros H. apply map_lookup_filter_Some in H. tauto.
Qed.

Lemma checkContainerFailed_world (lu : LiveUpdate.t) (m : monitor.t)
    (selected : list (Pod.t * Container.t)) (failed : option LiveUpdateStateFailed.t)
    (w : World W) :
  trace (visitContainers (checkContainerFailed D lu m) selected failed w).2 = trace w.
Proof.
  destruct (visitContainers _ selected failed w) as [failed' w'] eqn:Hrun.
  eapply checkContainerFailed_trace. exact Hrun.
Qed.

Lemma selectedContainerIDs_elem (res : luResource) (pc : Pod.t * Container.t) :
  pc ∈ selectedContainers D res → pc.2.(Container.ID) ≠ "" →
  pc.2.(Container.ID) ∈ selectedContainerIDs D res.
Proof.
  unfold selectedContainerIDs. generalize (selectedContainers D res). intros selected.
  assert (Hmono : ∀ (l : list (Pod.t * Container.t)) (ids : gset string) (x : string),
            x ∈ ids →
            x ∈ foldl (λ (ids : gset string) (pc : Pod.t * Container.t),
                         if decide (pc.2.(Container.ID) = "") then ids
                         else {[ pc.2.(Container.ID) ]} ∪ ids) ids l).
  { induction l as [|pc' l IH]; intros ids x Hx; cbn [foldl]; [exact Hx|].
    apply IH. destruct (decide _); [exact Hx | set_solver]. }
  generalize (∅ : gset string).
  induction selected as [|pc' selected IH]; intros ids Hin Hne.
  - apply elem_of_nil in Hin. contradiction.
  - cbn [foldl]. apply elem_of_cons in Hin. destruct Hin as [->|Hin].
    + apply Hmono. destruct (decide _); [contradiction | set_solver].
    + apply IH; assumption.
Qed.

Lemma pass_tracks_selected (r : Reconciler W) (lu : LiveUpdate.t) (trig : bool)
    (selected : list (Pod.t * Container.t)) (s : passState) (w : World W)
    (s' : passState) (w' : World W) :
  visitContainers (syncContainer D r lu trig) selected s w = (s', w') →
  ∀ k, is_Some (s'.(passMonitor).(monitor.containers) !! k) →
       is_Some (s.(passMonitor).(monitor.containers) !! k)
       ∨ ∃ pc, pc ∈ selected
               ∧ k = mkContainerKey pc.2.(Container.ID) pc.1.(Pod.Name) pc.1.(Pod.Namespace).
Proof.
  apply (visitContainers_inv (syncContainer D r lu trig)
           (λ s0 _, ∀ k, is_Some (s0.(passMonitor).(monitor.containers) !! k) →
                         is_Some (s.(passMonitor).(monitor.containers) !! k)
                         ∨ ∃ pc, pc ∈ selected
                                 ∧ k = mkContainerKey pc.2.(Container.ID) pc.1.(Pod.Name)
                                         pc.1.(Pod.Namespace))); [|auto].
  intros pc s0 w0 stop s1 w1 Hin HP Hstep k Hk.
  apply syncContainer_run in Hstep. cbv zeta in Hstep. destruct Hstep as [_ Hstep].
  destruct (isTerminated pc.1 pc.2).
  - destruct Hstep as (_ & _ & Hm & _). rewrite Hm in Hk. apply HP, Hk.
  - destruct Hstep as (_ & c' & applied & upd & Hm & _). rewrite Hm in Hk.
    cbn [monitor.set_containers monitor.containers] in Hk.
    destruct (decide (mkContainerKey (Container.ID pc.2) (Pod.Name pc.1)
                        (Pod.Namespace pc.1) = k)) as [<-|Hne].
    + right. exists pc. split; [exact Hin | reflexivity].
    + rewrite lookup_insert_ne in Hk by assumption. apply HP, Hk.
Qed.

Lemma garbageCollectOneSource_tracked (res : luResource) (m : monitor.t)
    (source : LiveUpdateSource.t) (k : string * string * string) :
  is_Some (m.(monitor.containers) !! k) →
  is_Some ((garbageCollectOneSource D res m source).(monitor.containers) !! k).
Proof.
  intros [c Hc]. unfold garbageCollectOneSource.
  destruct (monitor.sources m !! _) as [ms|]; [|eauto].
  destruct (negb (IsZero (gcTimeOf D res ms))); [|eauto].
  cbn [monitor.set_containers monitor.containers]. rewrite lookup_fmap, Hc. cbn. eauto.
Qed.

Lemma garbageCollectFileChanges_tracked (res : luResource) (m : monitor.t)
    (k : string * string * string) :
  is_Some (m.(monitor.containers) !! k) →
  is_Some ((garbageCollectFileChanges D res m).(monitor.containers) !! k).
Proof.
  unfold garbageCollectFileChanges.
  generalize (LiveUpdateSpec.Sources (monitor.spec m)). intros sources.
  revert m. induction sources as [|s sources IH]; intros m Hk; cbn [foldl]; [exact Hk|].
  apply IH, garbageCollectOneSource_tracked, Hk.
Qed.

(** What [maybeSync] does to the watermarks of a monitor. *)
Lemma maybeSync_watermarks (r : Reconciler W) (lu : LiveUpdate.t) (m : monitor.t)
    (w : World W) (status : LiveUpdateStatus.t) (m' : monitor.t) (w' : World W) :
  0 < r.(startedTime) →
  watermarksFrom r.(startedTime) m.(monitor.containers) →
  maybeSync D r lu m w = ((status, m'), w') →
  watermarksFrom r.(startedTime) m'.(monitor.containers)
  ∧ ∀ k c c', m.(monitor.containers) !! k = Some c →
              m'.(monitor.containers) !! k = Some c' →
              key_containerID k ≠ "" →
              c.(monitorContainerStatus.lastFileTimeSynced)
              ≤ c'.(monitorContainerStatus.lastFileTimeSynced).
Proof.
  intros Hpos Hfrom Hrun. unfold maybeSync in Hrun.
  assert (Hrefl : ∀ k c c', m.(monitor.containers) !! k = Some c →
                            m.(monitor.containers) !! k = Some c' →
                            key_containerID k ≠ "" →
                            c.(monitorContainerStatus.lastFileTimeSynced)
                            ≤ c'.(monitorContainerStatus.lastFileTimeSynced)).
  { intros k c c0 H1 H2 _. assert (c = c0) by congruence. subst. lia. }
  destruct (resource D lu m) as [res|err].
  2:{ unfold bind, ret in Hrun. rewrite createFailedState_eq in Hrun.
      inversion Hrun; subst. auto. }
  set (m1 := garbageCollectMonitorContainers D res (garbageCollectFileChanges D res m)) in *.
  assert (Hgc : ∀ k c1, monitor.containers m1 !! k = Some c1 →
                        ∃ c, monitor.containers m !! k = Some c
                             ∧ monitorContainerStatus.lastFileTimeSynced c1
                               = monitorContainerStatus.lastFileTimeSynced c).
  { intros k c1 H1. apply garbageCollectMonitorContainers_containers in H1.
    apply garbageCollectFileChanges_containers in H1. exact H1. }
  assert (Hfrom1 : watermarksFrom (startedTime r) (monitor.containers m1)).
  { intros k c1 H1. destruct (Hgc k c1 H1) as (c & Hc & Heq). rewrite Heq.
    eapply Hfrom. exact Hc. }
  assert (Hadv1 : watermarksAdvance (monitor.containers m) (monitor.containers m1)).
  { intros k c c1 H H1. destruct (Hgc k c1 H1) as (c0 & Hc0 & Heq).
    assert (c = c0) by congruence. subst. lia. }
  unfold bind at 1 in Hrun. unfold visitSelectedContainers at 1 in Hrun.
  destruct (visitContainers (checkContainerFailed D lu m1) _ None w) as [failed w1].
  destruct failed as [f|].
  { unfold ret in Hrun. inversion Hrun; subst. split; [exact Hfrom1|].
    intros k c c1 H H1 _. exact (Hadv1 k c c1 H H1). }
  unfold bind at 1 in Hrun. unfold visitSelectedContainers in Hrun.
  destruct (visitContainers (syncContainer D r lu _) _ _ w1) as [s w2] eqn:Hpass.
  unfold bind, ret in Hrun. destruct (finishPass D lu s w2) as [status' w3].
  inversion Hrun; subst. clear Hrun.
  pose proof (pass_tracks_selected _ _ _ _ _ _ _ _ Hpass) as Htracked.
  apply pass_watermarks in Hpass; [|exact Hpos|exact Hfrom1].
  cbn [passMonitor] in Hpass, Htracked. destruct Hpass as [Hfrom2 Hadv2].
  split; [exact Hfrom2|].
  intros k c c2 H H2 Hid.
  destruct (monitor.containers m1 !! k) as [c1|] eqn:H1.
  - specialize (Hadv1 k c c1 H H1). specialize (Hadv2 k c1 c2 H1 H2). lia.
  - exfalso. destruct (Htracked k (ex_intro _ c2 H2)) as [[c1 Hc1]|(pc & Hin & Hk)].
    + congruence.
    + assert (Hsel : pc.2.(Container.ID) ∈ selectedContainerIDs D res).
      { apply selectedContainerIDs_elem; [exact Hin|]. subst k. exact Hid. }
      destruct (garbageCollectFileChanges_tracked res m k (ex_intro _ c H)) as [c0 Hc0].
      assert (Hkeep : monitor.containers m1 !! k = Some c0).
      { unfold m1, garbageCollectMonitorContainers.
        cbn [monitor.set_containers monitor.containers].
        apply map_lookup_filter_Some. split; [exact Hc0|]. cbn [fst]. subst k. exact Hsel. }
      congruence.
Qed.

Lemma reconcileOneSource_containers (cl : Client) (m : monitor.t)
    (source : LiveUpdateSource.t) :
  sameContainers m (reconcileOneSource cl m source).1.
Proof.
  unfold reconcileOneSource, sameContainers.
  repeat match goal with
         | |- context [match ?x with _ => _ end] => destruct x; try (split; reflexivity)
         end.
Qed.

Lemma reconcileSources_containers (cl : Client) (m : monitor.t) :
  sameContainers m (reconcileSources cl m).1.
Proof.
  unfold reconcileSources. generalize false.
  generalize (LiveUpdateSpec.Sources (monitor.spec m)) at 1. intros sources.
  revert m. induction sources as [|s sources IH]; intros m hasChange.
  - split; reflexivity.
  - cbn [reconcileSourcesLoop].
    pose proof (reconcileOneSource_containers cl m s) as [Hs Hc].
    destruct (reconcileOneSource cl m s) as [m1 [one|err]]; cbn [fst] in *.
    + destruct (IH m1 (one || hasChange)) as [Hs' Hc']. split; congruence.
    + split; assumption.
Qed.

Lemma reconcileKubernetesResource_containers (cl : Client) (m : monitor.t) :
  sameContainers m (reconcileKubernetesResource cl m).1.
Proof.
  unfold reconcileKubernetesResource, sameContainers.
  repeat match goal with
         | |- context [match ?x with _ => _ end] => destruct x; try (split; reflexivity)
         end.
Qed.

Lemma reconcileDockerComposeService_containers (cl : Client) (m : monitor.t) :
  sameContainers m (reconcileDockerComposeService cl m).1.
Proof.
  unfold reconcileDockerComposeService, sameContainers.
  repeat match goal with
         | |- context [match ?x with _ => _ end] => destruct x; try (split; reflexivity)
         end.
Qed.

Lemma reconcileTriggerQueue_containers (cl : Client) (m : monitor.t) :
  sameContainers m (reconcileTriggerQueue cl m).1.
Proof.
  unfold reconcileTriggerQueue, sameContainers.
  repeat match goal with
         | |- context [match ?x with _ => _ end] => destruct x; try (split; reflexivity)
         end.
Qed.

Lemma maybeSync_spec (r : Reconciler W) (lu : LiveUpdate.t) (m : monitor.t) (w : World W) :
  (maybeSync D r lu m w).1.2.(monitor.spec) = m.(monitor.spec).
Proof.
  destruct (maybeSync D r lu m w) as [[status m'] w'] eqn:Hrun. cbn [fst snd].
  unfold maybeSync in Hrun.
  destruct (resource D lu m) as [res|err].
  2:{ unfold bind, ret in Hrun. rewrite createFailedState_eq in Hrun.
      inversion Hrun; subst. reflexivity. }
  assert (Hgc : ∀ m0, monitor.spec (garbageCollectFileChanges D res m0) = monitor.spec m0).
  { intros m0. unfold garbageCollectFileChanges.
    generalize (LiveUpdateSpec.Sources (monitor.spec m0)). intros sources. revert m0.
    induction sources as [|s sources IH]; intros m0; cbn [foldl]; [reflexivity|].
    rewrite IH. unfold garbageCollectOneSource.
    destruct (monitor.sources m0 !! _); [|reflexivity].
    destruct (negb _); reflexivity. }
  unfold bind at 1 in Hrun. unfold visitSelectedContainers at 1 in Hrun.
  destruct (visitContainers (checkContainerFailed D lu _) _ None w) as [failed w1].
  destruct failed as [f|].
  { unfold ret in Hrun. inversion Hrun; subst. cbn. apply Hgc. }
  unfold bind at 1 in Hrun. unfold visitSelectedContainers in Hrun.
  destruct (visitContainers (syncContainer D r lu _) _ _ w1) as [s w2] eqn:Hpass.
  unfold bind, ret in Hrun. destruct (finishPass D lu s w2) as [status' w3].
  inversion Hrun; subst. clear Hrun.
  revert Hpass.
  apply (visitContainers_inv (syncContainer D r lu _)
           (λ s0 _, monitor.spec (passMonitor s0) = monitor.spec m)).
  - intros pc s0 w0 stop s1 w1' _ HP Hstep.
    apply syncContainer_run in Hstep. cbv zeta in Hstep. destruct Hstep as [_ Hstep].
    destruct (isTerminated pc.1 pc.2).
    + destruct Hstep as (_ & _ & -> & _). exact HP.
    + destruct Hstep as (_ & c' & applied & upd & -> & _). exact HP.
  - cbn. apply Hgc.
Qed.

Lemma watermarksKept_refl (r : Reconciler W) :
  (∀ name m, r.(monitors) !! name = Some m →
             watermarksFrom r.(startedTime) m.(monitor.containers)) →
  watermarksKept r r.
Proof.
  intros Hfrom. split; [reflexivity|]. split; [exact Hfrom|].
  intros name m m' k c c' H1 H2 _ H3 H4 _.
  assert (m = m') by congruence. subst. assert (c = c') by congruence. subst. lia.
Qed.

Lemma watermarksKept_store (r : Reconciler W) (lu : LiveUpdate.t) (m' : monitor.t) :
  (∀ name m, r.(monitors) !! name = Some m →
             watermarksFrom r.(startedTime) m.(monitor.containers)) →
  let em := ensureMonitorExists r.(monitors) lu.(LiveUpdate.Name) lu in
  m'.(monitor.spec) = em.1.(monitor.spec) →
  watermarksFrom r.(startedTime) m'.(monitor.containers) →
  (∀ k c c', em.1.(monitor.containers) !! k = Some c →
             m'.(monitor.containers) !! k = Some c' →
             key_containerID k ≠ "" →
             c.(monitorContainerStatus.lastFileTimeSynced)
             ≤ c'.(monitorContainerStatus.lastFileTimeSynced)) →
  watermarksKept r (storeMonitor lu.(LiveUpdate.Name) m' (set_monitors em.2 r)).
Proof.
  intros Hfrom em Hspec Hfrom' Hadv.
  assert (Hem : (em = (em.1, r.(monitors))
                 ∧ r.(monitors) !! lu.(LiveUpdate.Name) = Some em.1)
                ∨ (em.1.(monitor.containers) = ∅
                   ∧ em.1.(monitor.spec) = lu.(LiveUpdate.Spec)
                   ∧ em.2 = <[lu.(LiveUpdate.Name) := em.1]> r.(monitors)
                   ∧ ∀ m, r.(monitors) !! lu.(LiveUpdate.Name) = Some m →
                          lu.(LiveUpdate.Spec) ≠ m.(monitor.spec))).
  { subst em. unfold ensureMonitorExists.
    destruct (monitors r !! LiveUpdate.Name lu) as [m|] eqn:Hm.
    - destruct (decide _) as [Heq|Hne].
      + left. split; reflexivity.
      + right. cbn. repeat split; try reflexivity. intros m0 Hm0. congruence.
    - right. cbn. repeat split; try reflexivity. intros m0 Hm0. discriminate. }
  split; [reflexivity|]. split.
  - intros name m0 Hn. unfold storeMonitor, set_monitors in Hn. cbn [monitors] in Hn.
    destruct (decide (lu.(LiveUpdate.Name) = name)) as [<-|Hne].
    + rewrite lookup_insert_eq in Hn. inversion Hn; subst. exact Hfrom'.
    + rewrite lookup_insert_ne in Hn by assumption.
      destruct Hem as [[Hem _]|(_ & _ & Hem & _)].
      * rewrite Hem in Hn. cbn [snd] in Hn. eapply Hfrom; eassumption.
      * rewrite Hem in Hn. rewrite lookup_insert_ne in Hn by assumption.
        eapply Hfrom; eassumption.
  - intros name m m0 k c c' H1 H2 Hsp H3 H4 Hid.
    unfold storeMonitor, set_monitors in H2. cbn [monitors] in H2.
    destruct (decide (lu.(LiveUpdate.Name) = name)) as [<-|Hne].
    + rewrite lookup_insert_eq in H2. inversion H2; subst m0.
      destruct Hem as [[_ Hem]|(_ & Hsp0 & _ & Hne)].
      * assert (m = em.1) by congruence. subst m. eapply Hadv; eassumption.
      * exfalso. apply (Hne m H1). congruence.
    + rewrite lookup_insert_ne in H2 by assumption.
      assert (Hr : monitors r !! name = Some m0).
      { destruct Hem as [[Hem _]|(_ & _ & Hem & _)].
        - rewrite Hem in H2. exact H2.
        - rewrite Hem in H2. rewrite lookup_insert_ne in H2 by assumption. exact H2. }
      assert (m = m0) by congruence. subst. assert (c = c') by congruence. subst. lia.
Qed.

(** X15. Across a reconcile, no stored lastFileTimeSynced decreases: for a
    reconciler that started after the zero time and whose watermarks are
    zero or not before its start, a reconcile keeps the watermarks so, and
    in every monitor that it keeps with its spec the watermark of each
    container with an ID is at least what it was. *)
Theorem watermarks_never_decrease (cl : Client) (req : string) (r : Reconciler W)
    (w : World W) :
  0 < r.(startedTime) →
  (∀ name m, r.(monitors) !! name = Some m →
             watermarksFrom r.(startedTime) m.(monitor.containers)) →
  watermarksKept r (Reconcile D cl req r w).1.1.
Proof.
  intros Hpos Hfrom.
  assert (Hdeleted : watermarksKept r (set_monitors (delete req (monitors r)) r)).
  { split; [reflexivity|]. split.
    - intros n m Hn. cbn [set_monitors monitors] in Hn.
      apply lookup_delete_Some in Hn. destruct Hn as [_ Hn]. eapply Hfrom; eassumption.
    - intros n m m' k c c' H1 H2 _ H3 H4 _. cbn [set_monitors monitors] in H2.
      apply lookup_delete_Some in H2. destruct H2 as [_ H2].
      assert (m = m') by congruence. subst. assert (c = c') by congruence. subst. lia. }
  pose proof (watermarksKept_refl r Hfrom) as Hrefl.
  destruct (getLiveUpdate cl req) as [lu|err] eqn:Hget.
  2:{ unfold Reconcile. rewrite Hget. destruct (IsNotFound err); assumption. }
  destruct (LiveUpdate.DeletionTimestamp lu) as [t|] eqn:Hdel.
  { unfold Reconcile. rewrite Hget, Hdel.
    destruct (decide _) as [_|Hno]; [|exfalso; apply Hno; eauto]. exact Hdeleted. }
  destruct (decide (annotation lu AnnotationManagedBy = "")) as [Hman|Hman].
  2:{ unfold Reconcile. rewrite Hget, Hdel.
      destruct (decide (is_Some None)) as [[? ?]|_]; [discriminate|].
      destruct (decide _); [contradiction|]. exact Hrefl. }
  rewrite (Reconcile_live cl req r w lu Hget Hdel Hman).
  destruct (ensureSelectorValid D lu (upserted lu w)) as [[failed|] w1].
  { destruct (handleFailure cl lu failed w1). exact Hrefl. }
  cbv zeta.
  pose proof (watermarksKept_store r lu) as Hstore. cbv zeta in Hstore.
  specialize (λ m', Hstore m' Hfrom).
  assert (Hfrom0 : watermarksFrom (startedTime r)
                     (monitor.containers
                        (ensureMonitorExists (monitors r) (LiveUpdate.Name lu) lu).1)).
  { unfold ensureMonitorExists.
    destruct (monitors r !! LiveUpdate.Name lu) as [m|] eqn:Hm.
    - destruct (decide _); [eapply Hfrom; eassumption|].
      intros k c Hk. cbn in Hk. rewrite lookup_empty in Hk. discriminate.
    - intros k c Hk. cbn in Hk. rewrite lookup_empty in Hk. discriminate. }
  destruct (ensureMonitorExists (monitors r) (LiveUpdate.Name lu) lu) as [m0 mons].
  cbn [fst snd] in Hstore, Hfrom0.
  assert (Hsame : ∀ m', sameContainers m0 m' →
                        watermarksKept r
                          (storeMonitor (LiveUpdate.Name lu) m' (set_monitors mons r))).
  { intros m' [Hs Hc]. apply Hstore; [exact Hs | rewrite Hc; exact Hfrom0 |].
    rewrite Hc. intros k c c' H1 H2 _. assert (c = c') by congruence. subst. lia. }
  pose proof (reconcileSources_containers cl m0) as [Hs1 Hc1].
  destruct (reconcileSources cl m0) as [m1 [files|err]]; cbn [fst] in Hs1, Hc1.
  2:{ destruct (refreshFailed D cl lu err w1). apply Hsame. split; assumption. }
  pose proof (reconcileKubernetesResource_containers cl m1) as [Hs2 Hc2].
  destruct (reconcileKubernetesResource cl m1) as [m2 [kube|err]]; cbn [fst] in Hs2, Hc2.
  2:{ destruct (refreshFailed D cl lu err w1). apply Hsame. split; congruence. }
  pose proof (reconcileDockerComposeService_containers cl m2) as [Hs3 Hc3].
  destruct (reconcileDockerComposeService cl m2) as [m3 [compose|err]];
    cbn [fst] in Hs3, Hc3.
  2:{ destruct (refreshFailed D cl lu err w1). apply Hsame. split; congruence. }
  pose proof (reconcileTriggerQueue_containers cl m3) as [Hs4 Hc4].
  destruct (reconcileTriggerQueue cl m3) as [m4 [queue|err]]; cbn [fst] in Hs4, Hc4.
  2:{ apply Hsame. split; congruence. }
  match goal with |- context [syncAndWrite D cl _ lu ?m w1] => set (m5 := m) end.
  assert (Hs5 : sameContainers m0 m5).
  { subst m5. destruct (_ || _); split; cbn; congruence. }
  destruct Hs5 as [Hs5 Hc5].
  destruct (syncAndWrite D cl (set_monitors mons r) lu m5 w1) as [[r' e] w'] eqn:Hrun.
  cbn [fst]. unfold syncAndWrite in Hrun.
  destruct (monitor.hasChangesToSync m5).
  - unfold bind at 1 in Hrun.
    pose proof (maybeSync_spec (set_monitors mons r) lu m5 w1) as Hspec.
    destruct (maybeSync D (set_monitors mons r) lu m5 w1) as [[status m6] w2] eqn:Hsync.
    cbn [fst snd] in Hspec.
    apply maybeSync_watermarks in Hsync; [|exact Hpos|rewrite Hc5; exact Hfrom0].
    cbn [startedTime set_monitors] in Hsync. destruct Hsync as [Hfrom6 Hadv6].
    rewrite Hc5 in Hadv6.
    assert (Hany : ∀ flag, watermarksKept r
                     (storeMonitor (LiveUpdate.Name lu)
                        (if flag : bool then monitor.set_hasChangesToSync false m6 else m6)
                        (set_monitors mons r))).
    { intros flag. apply Hstore.
      - destruct flag; cbn; congruence.
      - destruct flag; exact Hfrom6.
      - destruct flag; exact Hadv6. }
    destruct (decide _).
    + unfold ret in Hrun. inversion Hrun; subst. exact (Hany true).
    + unfold bind, StatusUpdate, emit, ret in Hrun.
      destruct (statusUpdate cl _); inversion Hrun; subst;
        [exact (Hany false) | exact (Hany true)].
  - unfold ret in Hrun. inversion Hrun; subst. apply Hsame. split; cbn; assumption.
Qed.

(** ** Missing references *)

Lemma ensureSelectorValid_valid (lu : LiveUpdate.t) (w : World W) :
  validSelector lu → ensureSelectorValid D lu w = (None, w).
Proof.
  unfold validSelector, ensureSelectorValid.
  destruct (LiveUpdateSelector.Kubernetes _) as [k|].
  - intros Hk. destruct (decide _); [contradiction | reflexivity].
  - destruct (LiveUpdateSelector.DockerCompose _) as [dc|]; [|contradiction].
    intros Hdc. destruct (decide _); [contradiction | reflexivity].
Qed.

Lemma reconcileTriggerQueue_missing (cl : Client) (m : monitor.t) (msg : string) :
  getTriggerQueue cl = Err (ErrNotFound msg) →
  reconcileTriggerQueue cl m = (m, Ok false).
Proof. intros H. unfold reconcileTriggerQueue. rewrite H. reflexivity. Qed.

Lemma refreshFailed_missing (cl : Client) (lu : LiveUpdate.t) (msg : string)
    (w : World W) :
  refreshFailed D cl lu (ErrNotFound msg) w =
  handleFailure cl lu (createFailedState D lu reasonObjectNotFound msg w).1
    (createFailedState D lu reasonObjectNotFound msg w).2.
Proof.
  unfold refreshFailed. cbn [IsNotFound Error]. unfold bind.
  destruct (createFailedState D lu reasonObjectNotFound msg w); reflexivity.
Qed.

(** A missing FileWatch or ImageMap of a source fails its refresh. *)
Lemma reconcileOneSource_missing (cl : Client) (m : monitor.t)
    (source : LiveUpdateSource.t) (msg : string) :
  let fwn := source.(LiveUpdateSource.FileWatch) in
  let imn := source.(LiveUpdateSource.ImageMap) in
  (fwn ≠ "" ∧ getFileWatch cl fwn = Err (ErrNotFound msg))
  ∨ (imn ≠ "" ∧ getImageMap cl imn = Err (ErrNotFound msg)
     ∧ (fwn = "" ∨ ∃ fw, getFileWatch cl fwn = Ok fw)) →
  reconcileOneSource cl m source = (m, Err (ErrNotFound msg)).
Proof.
  cbv zeta. unfold reconcileOneSource.
  intros [[Hfwn Hfw]|(Himn & Him & Hfw)].
  - destruct (decide _); [contradiction|]. rewrite Hfw. reflexivity.
  - destruct (decide (LiveUpdateSource.ImageMap source = "")); [contradiction|].
    rewrite Him. destruct (decide _) as [|Hne]; [reflexivity|].
    destruct Hfw as [|[fw ->]]; [contradiction | reflexivity].
Qed.

(** A missing KubernetesApply, KubernetesDiscovery or ImageMap of the
    selector fails its refresh. *)
Lemma reconcileKubernetesResource_missing (cl : Client) (m : monitor.t)
    (selector : LiveUpdateKubernetesSelector.t) (msg : string) :
  m.(monitor.spec).(LiveUpdateSpec.Selector).(LiveUpdateSelector.Kubernetes)
  = Some selector →
  let applyName := selector.(LiveUpdateKubernetesSelector.ApplyName) in
  let discoveryName := selector.(LiveUpdateKubernetesSelector.DiscoveryName) in
  let imageMapName := selector.(LiveUpdateKubernetesSelector.ImageMapName) in
  let applyFound := applyName = "" ∨ ∃ ka, getKubernetesApply cl applyName = Ok ka in
  (applyName ≠ "" ∧ getKubernetesApply cl applyName = Err (ErrNotFound msg))
  ∨ (applyFound ∧ getKubernetesDiscovery cl discoveryName = Err (ErrNotFound msg))
  ∨ (applyFound ∧ (∃ kd, getKubernetesDiscovery cl discoveryName = Ok kd)
     ∧ imageMapName ≠ "" ∧ getImageMap cl imageMapName = Err (ErrNotFound msg)) →
  reconcileKubernetesResource cl m = (m, Err (ErrNotFound msg)).
Proof.
  intros Hsel. cbv zeta. unfold reconcileKubernetesResource. rewrite Hsel.
  intros [[Hne Hka]|[[Hka Hkd]|(Hka & [kd Hkd] & Hne & Him)]].
  - destruct (decide _); [contradiction|]. rewrite Hka. reflexivity.
  - rewrite Hkd. destruct (decide _) as [|Hne].
    + reflexivity.
    + destruct Hka as [|[ka ->]]; [contradiction | reflexivity].
  - rewrite Hkd. destruct (decide (LiveUpdateKubernetesSelector.ImageMapName selector = ""));
      [contradiction|]. rewrite Him.
    destruct (decide _) as [|Hne'].
    + reflexivity.
    + destruct Hka as [|[ka ->]]; [contradiction | reflexivity].
Qed.

Lemma reconcileDockerComposeService_missing (cl : Client) (m : monitor.t)
    (selector : LiveUpdateDockerComposeSelector.t) (msg : string) :
  m.(monitor.spec).(LiveUpdateSpec.Selector).(LiveUpdateSelector.DockerCompose)
  = Some selector →
  getDockerComposeService cl selector.(LiveUpdateDockerComposeSelector.Service)
  = Err (ErrNotFound msg) →
  reconcileDockerComposeService cl m = (m, Err (ErrNotFound msg)).
Proof.
  intros Hsel Hget. unfold reconcileDockerComposeService. rewrite Hsel, Hget. reflexivity.
Qed.

(** ** Replay *)









(** *** Between reconciles, no monitor has changes waiting

    [hasChangesToSync] is raised and lowered within one [Reconcile]; it
    stays raised only when the status write fails, and then the reconcile
    returns that error. *)

Lemma reconcileOneSource_flag (cl : Client) (m : monitor.t) (source : LiveUpdateSource.t) :
  (reconcileOneSource cl m source).1.(monitor.hasChangesToSync)
  = m.(monitor.hasChangesToSync).
Proof.
  unfold reconcileOneSource.
  repeat match goal with
         | |- context [match ?x with _ => _ end] => destruct x; try reflexivity
         end.
Qed.

Lemma reconcileSourcesLoop_flag (cl : Client) (sources : list LiveUpdateSource.t) :
  ∀ m hasChange,
    (reconcileSourcesLoop cl m sources hasChange).1.(monitor.hasChangesToSync)
    = m.(monitor.hasChangesToSync).
Proof.
  induction sources as [|s sources IH]; intros m hasChange; [reflexivity|].
  cbn [reconcileSourcesLoop].
  pose proof (reconcileOneSource_flag cl m s) as Hone.
  destruct (reconcileOneSource cl m s) as [m1 [one|err]]; cbn [fst] in *.
  - rewrite IH. exact Hone.
  - exact Hone.
Qed.

Lemma reconcileKubernetesResource_flag (cl : Client) (m : monitor.t) :
  (reconcileKubernetesResource cl m).1.(monitor.hasChangesToSync)
  = m.(monitor.hasChangesToSync).
Proof.
  unfold reconcileKubernetesResource.
  repeat match goal with
         | |- context [match ?x with _ => _ end] => destruct x; try reflexivity
         end.
Qed.

Lemma reconcileDockerComposeService_flag (cl : Client) (m : monitor.t) :
  (reconcileDockerComposeService cl m).1.(monitor.hasChangesToSync)
  = m.(monitor.hasChangesToSync).
Proof.
  unfold reconcileDockerComposeService.
  repeat match goal with
         | |- context [match ?x with _ => _ end] => destruct x; try reflexivity
         end.
Qed.

Lemma reconcileTriggerQueue_flag (cl : Client) (m : monitor.t) :
  (reconcileTriggerQueue cl m).1.(monitor.hasChangesToSync)
  = m.(monitor.hasChangesToSync).
Proof.
  unfold reconcileTriggerQueue.
  repeat match goal with
         | |- context [match ?x with _ => _ end] => destruct x; try reflexivity
         end.
Qed.

Lemma idle_store (r : Reconciler W) (name : string) (m : monitor.t) :
  idle r → m.(monitor.hasChangesToSync) = false → idle (storeMonitor name m r).
Proof.
  intros Hidle Hm n m' Hn. unfold storeMonitor, set_monitors in Hn. cbn [monitors] in Hn.
  destruct (decide (name = n)) as [->|Hne].
  - rewrite lookup_insert_eq in Hn. congruence.
  - rewrite lookup_insert_ne in Hn by assumption. eapply Hidle; eassumption.
Qed.

Lemma ensureMonitorExists_idle (r : Reconciler W) (name : string) (lu : LiveUpdate.t) :
  idle r →
  (ensureMonitorExists r.(monitors) name lu).1.(monitor.hasChangesToSync) = false
  ∧ idle (set_monitors (ensureMonitorExists r.(monitors) name lu).2 r).
Proof.
  intros Hidle. unfold ensureMonitorExists.
  destruct (monitors r !! name) as [m|] eqn:Hm.
  - destruct (decide _).
    + split; [eapply Hidle; eassumption|]. destruct r; exact Hidle.
    + split; [reflexivity|]. apply (idle_store r name); [exact Hidle | reflexivity].
  - split; [reflexivity|]. apply (idle_store r name); [exact Hidle | reflexivity].
Qed.

Lemma syncAndWrite_idle (cl : Client) (r : Reconciler W) (lu : LiveUpdate.t)
    (m : monitor.t) (w : World W) :
  idle r → (syncAndWrite D cl r lu m w).1.2 = None → idle (syncAndWrite D cl r lu m w).1.1.
Proof.
  intros Hidle.
  destruct (syncAndWrite D cl r lu m w) as [[r' err] w'] eqn:Hrun. cbn [fst snd].
  intros ->. unfold syncAndWrite in Hrun.
  destruct (monitor.hasChangesToSync m).
  - unfold bind at 1 in Hrun. destruct (maybeSync D r lu m w) as [[status m'] w1].
    destruct (decide _).
    + unfold ret in Hrun. inversion Hrun; subst.
      apply idle_store; [exact Hidle | destruct m'; reflexivity].
    + unfold bind, StatusUpdate, emit, ret in Hrun.
      destruct (statusUpdate cl _); inversion Hrun; subst.
      apply idle_store; [exact Hidle | destruct m'; reflexivity].
  - unfold ret in Hrun. inversion Hrun; subst.
    apply idle_store; [exact Hidle | destruct m; reflexivity].
Qed.

(** X9. A reconcile that returns without error leaves no sync pending:
    when no monitor of the reconciler has changes waiting to be synced,
    none has after the reconcile. *)
Lemma Reconcile_idle (cl : Client) (req : string) (r : Reconciler W) (w : World W) :
  idle r → (Reconcile D cl req r w).1.2 = None → idle (Reconcile D cl req r w).1.1.
Proof.
  intros Hidle.
  assert (Hdeleted : idle (set_monitors (delete req (monitors r)) r)).
  { intros n m Hn. cbn [set_monitors monitors] in Hn.
    apply lookup_delete_Some in Hn. destruct Hn as [_ Hn]. eapply Hidle; eassumption. }
  destruct (getLiveUpdate cl req) as [lu|err] eqn:Hget.
  2:{ unfold Reconcile. rewrite Hget. destruct (IsNotFound err).
      - intros _. exact Hdeleted.
      - intros _. exact Hidle. }
  destruct (LiveUpdate.DeletionTimestamp lu) as [t|] eqn:Hdel.
  { unfold Reconcile. rewrite Hget, Hdel.
    destruct (decide _) as [_|Hno]; [|exfalso; apply Hno; eauto].
    intros _. exact Hdeleted. }
  destruct (decide (annotation lu AnnotationManagedBy = "")) as [Hman|Hman].
  2:{ unfold Reconcile. rewrite Hget, Hdel.
      destruct (decide (is_Some None)) as [[? ?]|_]; [discriminate|].
      destruct (decide _); [contradiction|]. intros _. exact Hidle. }
  rewrite (Reconcile_live cl req r w lu Hget Hdel Hman).
  destruct (ensureSelectorValid D lu (upserted lu w)) as [[failed|] w1].
  { destruct (handleFailure cl lu failed w1). intros _. exact Hidle. }
  cbv zeta.
  destruct (ensureMonitorExists_idle r (LiveUpdate.Name lu) lu Hidle) as [Hm0 Hr0].
  destruct (ensureMonitorExists (monitors r) (LiveUpdate.Name lu) lu) as [m0 mons].
  cbn [fst snd] in Hm0, Hr0.
  pose proof (reconcileSourcesLoop_flag cl (LiveUpdateSpec.Sources (monitor.spec m0))
                m0 false) as H1.
  unfold reconcileSources.
  destruct (reconcileSourcesLoop cl m0 _ false) as [m1 [files|err]]; cbn [fst] in H1.
  2:{ destruct (refreshFailed D cl lu err w1). intros _.
      apply idle_store; [exact Hr0 | congruence]. }
  pose proof (reconcileKubernetesResource_flag cl m1) as H2.
  destruct (reconcileKubernetesResource cl m1) as [m2 [kube|err]]; cbn [fst] in H2.
  2:{ destruct (refreshFailed D cl lu err w1). intros _.
      apply idle_store; [exact Hr0 | congruence]. }
  pose proof (reconcileDockerComposeService_flag cl m2) as H3.
  destruct (reconcileDockerComposeService cl m2) as [m3 [compose|err]]; cbn [fst] in H3.
  2:{ destruct (refreshFailed D cl lu err w1). intros _.
      apply idle_store; [exact Hr0 | congruence]. }
  pose proof (reconcileTriggerQueue_flag cl m3) as H4.
  destruct (reconcileTriggerQueue cl m3) as [m4 [queue|err]]; cbn [fst] in H4.
  2:{ cbn [fst snd]. discriminate. }
  apply syncAndWrite_idle. exact Hr0.
Qed.

(** ** Every status write keeps the transition time of an unchanged reason *)

Lemma createFailedState_keeps (lu : LiveUpdate.t) (reason msg : string) (w : World W) :
  keepsTransitionTime lu (createFailedState D lu reason msg w).1.
Proof.
  rewrite createFailedState_eq. intros old Hold Hreason. cbn in *. rewrite Hold.
  destruct (decide _); [reflexivity | contradiction].
Qed.

Lemma adjustFailedStateTimestamps_keeps (lu : LiveUpdate.t) (st : LiveUpdateStatus.t)
    (w : World W) :
  failedKeepsTransitionTime lu (adjustFailedStateTimestamps D lu st w).1.
Proof.
  unfold adjustFailedStateTimestamps.
  destruct (LiveUpdateStatus.Failed st) as [f|] eqn:Hf.
  - unfold bind, ret.
    pose proof (createFailedState_keeps lu (LiveUpdateStateFailed.Reason f)
                  (LiveUpdateStateFailed.Message f) w) as Hk.
    destruct (createFailedState D lu _ _ w) as [f' w']. cbn in *.
    intros f0 Hf0. cbn in Hf0. inversion Hf0; subst. exact Hk.
  - unfold ret. cbn. intros f0 Hf0. congruence.
Qed.

Lemma syncContainer_keeps (r : Reconciler W) (lu : LiveUpdate.t) (trig : bool)
    (pod : Pod.t) (cInfo : Container.t) (s : passState) (w : World W)
    (stop : bool) (s' : passState) (w' : World W) :
  failedKeepsTransitionTime lu s.(passStatus) →
  syncContainer D r lu trig pod cInfo s w = ((stop, s'), w') →
  failedKeepsTransitionTime lu s'.(passStatus).
Proof.
  intros Hkeep Hrun. unfold syncContainer in Hrun.
  destruct (isTerminated pod cInfo).
  { unfold ret in Hrun. inversion Hrun; subst. exact Hkeep. }
  unfold bind in Hrun.
  destruct (planAndApply D r lu pod cInfo _ _ _ _ _ w) as [[[one applied] disp'] w1].
  pose proof (adjustFailedStateTimestamps_keeps lu one w1) as Hadj.
  destruct (adjustFailedStateTimestamps D lu one w1) as [one' w2]. cbn [fst] in Hadj.
  destruct (LiveUpdateStatus.Failed one') as [f'|] eqn:Hf'.
  - unfold ret in Hrun. inversion Hrun; subst. intros f Hf. cbn in Hf.
    inversion Hf; subst. apply Hadj. exact Hf'.
  - unfold ret in Hrun. inversion Hrun; subst. intros f Hf. cbn in Hf.
    apply Hkeep. exact Hf.
Qed.

Lemma ensureSelectorValid_keeps (lu : LiveUpdate.t) (w : World W) :
  trace (ensureSelectorValid D lu w).2 = trace w
  ∧ ∀ f, (ensureSelectorValid D lu w).1 = Some f → keepsTransitionTime lu f.
Proof.
  unfold ensureSelectorValid.
  destruct (LiveUpdateSelector.Kubernetes _) as [k|].
  - destruct (decide _).
    + unfold bind, ret.
      pose proof (createFailedState_keeps lu "Invalid"
                    "Kubernetes selector requires DiscoveryName" w) as Hk.
      pose proof (createFailedState_trace lu "Invalid"
                    "Kubernetes selector requires DiscoveryName" w) as Ht.
      destruct (createFailedState D lu _ _ w) as [f w1]. cbn in *.
      split; [exact Ht|]. intros f0 Hf0. inversion Hf0; subst. exact Hk.
    + unfold ret. cbn. split; [reflexivity | discriminate].
  - destruct (LiveUpdateSelector.DockerCompose _) as [dc|].
    + destruct (decide _).
      * unfold bind, ret.
        pose proof (createFailedState_keeps lu "Invalid"
                      "DockerCompose selector requires Service" w) as Hk.
        pose proof (createFailedState_trace lu "Invalid"
                      "DockerCompose selector requires Service" w) as Ht.
        destruct (createFailedState D lu _ _ w) as [f w1]. cbn in *.
        split; [exact Ht|]. intros f0 Hf0. inversion Hf0; subst. exact Hk.
      * unfold ret. cbn. split; [reflexivity | discriminate].
    + unfold bind, ret.
      pose proof (createFailedState_keeps lu "Invalid" "No valid selector" w) as Hk.
      pose proof (createFailedState_trace lu "Invalid" "No valid selector" w) as Ht.
      destruct (createFailedState D lu _ _ w) as [f w1]. cbn in *.
      split; [exact Ht|]. intros f0 Hf0. inversion Hf0; subst. exact Hk.
Qed.

Lemma maybeSync_keeps (r : Reconciler W) (lu : LiveUpdate.t) (m : monitor.t)
    (w : World W) :
  failedKeepsTransitionTime lu (maybeSync D r lu m w).1.1.
Proof.
  destruct (maybeSync D r lu m w) as [[status m'] w'] eqn:Hrun. cbn [fst].
  unfold maybeSync in Hrun.
  destruct (resource D lu m) as [res|err].
  2:{ unfold bind, ret in Hrun.
      pose proof (createFailedState_keeps lu "Invalid" (Error err) w) as Hk.
      destruct (createFailedState D lu "Invalid" (Error err) w) as [f w1].
      inversion Hrun; subst. intros f0 Hf0. cbn in Hf0. inversion Hf0; subst. exact Hk. }
  unfold bind at 1 in Hrun. unfold visitSelectedContainers at 1 in Hrun.
  destruct (visitContainers (checkContainerFailed D lu _) _ None w) as [failed w1] eqn:Hchk.
  assert (Hfailed : ∀ f, failed = Some f → keepsTransitionTime lu f).
  { revert Hchk.
    apply (visitContainers_inv (checkContainerFailed D lu _)
             (λ failed0 _, ∀ f, failed0 = Some f → keepsTransitionTime lu f)).
    - intros pc f0 w0 stop f1 w1' _ HP Hstep. unfold checkContainerFailed in Hstep.
      destruct (monitor.containers _ !! _) as [cStatus|].
      + destruct (decide _).
        * unfold ret in Hstep. inversion Hstep; subst. exact HP.
        * unfold bind, ret in Hstep.
          pose proof (createFailedState_keeps lu
                        (monitorContainerStatus.failedReason cStatus)
                        (monitorContainerStatus.failedMessage cStatus) w0) as Hk.
          destruct (createFailedState D lu _ _ w0) as [f w2].
          inversion Hstep; subst. intros f2 Hf2. inversion Hf2; subst. exact Hk.
      + unfold ret in Hstep. inversion Hstep; subst. exact HP.
    - discriminate. }
  destruct failed as [f|].
  { unfold ret in Hrun. inversion Hrun; subst. intros f0 Hf0. cbn in Hf0.
    apply Hfailed. exact Hf0. }
  unfold bind at 1 in Hrun. unfold visitSelectedContainers in Hrun.
  destruct (visitContainers (syncContainer D r lu _) _ _ w1) as [s w2] eqn:Hpass.
  assert (Hs : failedKeepsTransitionTime lu (passStatus s)).
  { revert Hpass.
    apply (visitContainers_inv (syncContainer D r lu _)
             (λ s0 _, failedKeepsTransitionTime lu (passStatus s0))).
    - intros pc s0 w0 stop s1 w1' _ HP Hstep. eapply syncContainer_keeps; eassumption.
    - intros f Hf. discriminate. }
  unfold bind, ret in Hrun.
  destruct (finishPass D lu s w2) as [status' w3] eqn:Hfin.
  inversion Hrun; subst. clear Hrun.
  unfold finishPass in Hfin. unfold bind at 1 in Hfin.
  match type of Hfin with context [if ?c then _ else _] => destruct c end.
  - unfold bind at 1 in Hfin. unfold ret at 1 in Hfin.
    match type of Hfin with context [createFailedState D lu ?reason ?msg w2] =>
      pose proof (createFailedState_keeps lu reason msg w2) as Hk;
      destruct (createFailedState D lu reason msg w2) as [f w4] end.
    cbn [fst] in Hk. unfold bind, ret, dispatchCompleteBuildAction, emit in Hfin.
    destruct (updateEventDispatched s); inversion Hfin; subst;
      intros f0 Hf0; cbn in Hf0; inversion Hf0; subst; exact Hk.
  - unfold ret at 1 in Hfin. unfold bind, ret, dispatchCompleteBuildAction, emit in Hfin.
    destruct (updateEventDispatched s); inversion Hfin; subst; exact Hs.
Qed.

Lemma maybeSync_writes_no_status (r : Reconciler W) (lu : LiveUpdate.t) (m : monitor.t)
    (w : World W) :
  ∃ new, trace (maybeSync D r lu m w).2 = trace w ++ new
         ∧ forallb (λ e, negb (isStatusUpdate e)) new = true.
Proof.
  destruct (maybeSync D r lu m w) as [[status m'] w'] eqn:Hrun. cbn [snd].
  unfold maybeSync in Hrun.
  destruct (resource D lu m) as [res|err].
  2:{ unfold bind, ret in Hrun. rewrite createFailedState_eq in Hrun.
      inversion Hrun; subst. exists []. cbn. rewrite app_nil_r. auto. }
  unfold bind at 1 in Hrun. unfold visitSelectedContainers at 1 in Hrun.
  destruct (visitContainers (checkContainerFailed D lu _) _ None w) as [failed w1] eqn:Hchk.
  apply checkContainerFailed_trace in Hchk.
  destruct failed as [f|].
  { unfold ret in Hrun. inversion Hrun; subst. exists []. rewrite app_nil_r. auto. }
  unfold bind at 1 in Hrun. unfold visitSelectedContainers in Hrun.
  destruct (visitContainers (syncContainer D r lu _) _ _ w1) as [s w2] eqn:Hpass.
  assert (Hs : ∃ new, trace w2 = trace w ++ new
                      ∧ forallb (λ e, negb (isStatusUpdate e)) new = true).
  { revert Hpass.
    apply (visitContainers_inv (syncContainer D r lu _)
             (λ _ w0, ∃ new, trace w0 = trace w ++ new
                             ∧ forallb (λ e, negb (isStatusUpdate e)) new = true)).
    - intros pc s0 w0 stop s1 w1' _ (new & Hnew & Hall) Hstep.
      apply syncContainer_run in Hstep. cbv zeta in Hstep. destruct Hstep as [_ Hstep].
      destruct (isTerminated pc.1 pc.2).
      + destruct Hstep as (_ & -> & _). eauto.
      + destruct Hstep as (_ & c' & applied & upd & _ & Htr & Hupd & _).
        rewrite Htr, Hnew, <- app_assoc. eexists. split; [reflexivity|].
        rewrite forallb_app, Hall. cbn [andb]. unfold startedAndUpdates.
        rewrite forallb_app. apply andb_true_iff. split.
        * destruct (applied && negb (updateEventDispatched s0)); reflexivity.
        * clear -Hupd. induction upd as [|e upd IH]; [reflexivity|].
          cbn in *. apply andb_true_iff in Hupd. destruct Hupd as [He Hupd].
          rewrite (IH Hupd). destruct e; try discriminate. reflexivity.
    - exists []. rewrite app_nil_r. auto. }
  unfold bind, ret in Hrun.
  destruct (finishPass D lu s w2) as [status' w3] eqn:Hfin.
  inversion Hrun; subst. clear Hrun.
  apply finishPass_run in Hfin. destruct Hfin as (Htr3 & _ & _).
  destruct Hs as (new & Hnew & Hall). rewrite Htr3, Hnew, <- app_assoc.
  eexists. split; [reflexivity|]. rewrite forallb_app, Hall.
  destruct (updateEventDispatched s); reflexivity.
Qed.

(** X24. Every status that [Reconcile] writes with a failure carries a failed
    state that keeps the transition time of the object's existing failure
    when the reason is the same. *)
Theorem status_writes_keep_transition_time (cl : Client) (req : string)
    (r : Reconciler W) (w : World W) (lu : LiveUpdate.t) :
  getLiveUpdate cl req = Ok lu →
  ∃ new, trace (Reconcile D cl req r w).2 = trace w ++ new
         ∧ ∀ update err, EvStatusUpdate update err ∈ new →
                         failedKeepsTransitionTime lu update.(LiveUpdate.Status).
Proof.
  intros Hget.
  assert (Hnone : ∀ e : Event, ∃ new, trace w ++ [e] = trace w ++ new
                    ∧ (isStatusUpdate e = false →
                       ∀ update err, EvStatusUpdate update err ∈ new →
                                     failedKeepsTransitionTime lu (LiveUpdate.Status update))).
  { intros e. exists [e]. split; [reflexivity|]. intros He update err Hin.
    apply list_elem_of_singleton in Hin. subst e. discriminate. }
  assert (Hsame : ∃ new, trace w = trace w ++ new
                    ∧ ∀ update err, EvStatusUpdate update err ∈ new →
                                    failedKeepsTransitionTime lu (LiveUpdate.Status update)).
  { exists []. rewrite app_nil_r. split; [reflexivity|]. intros update err Hin.
    apply elem_of_nil in Hin. contradiction. }
  assert (Hdeleted : ∃ new, trace w ++ [EvLiveUpdateDelete req] = trace w ++ new
                    ∧ ∀ update err, EvStatusUpdate update err ∈ new →
                                    failedKeepsTransitionTime lu (LiveUpdate.Status update)).
  { destruct (Hnone (EvLiveUpdateDelete req)) as (new & Hnew & Hall). eauto. }
  destruct (LiveUpdate.DeletionTimestamp lu) as [t|] eqn:Hdel.
  { unfold Reconcile. rewrite Hget, Hdel.
    destruct (decide _) as [_|Hno]; [|exfalso; apply Hno; eauto]. exact Hdeleted. }
  destruct (decide (annotation lu AnnotationManagedBy = "")) as [Hman|Hman].
  2:{ unfold Reconcile. rewrite Hget, Hdel.
      destruct (decide (is_Some None)) as [[? ?]|_]; [discriminate|].
      destruct (decide _); [contradiction|].
      destruct (Hnone (EvLiveUpdateUpsert lu)) as (new & Hnew & Hall). eauto. }
  rewrite (Reconcile_live cl req r w lu Hget Hdel Hman).
  (* a failure handed to handleFailure *)
  assert (Hhandle : ∀ failed (w1 : World W),
            keepsTransitionTime lu failed →
            trace w1 = trace w ++ [EvLiveUpdateUpsert lu] →
            ∃ new, trace (handleFailure cl lu failed w1).2 = trace w ++ new
                   ∧ ∀ update err, EvStatusUpdate update err ∈ new →
                                   failedKeepsTransitionTime lu (LiveUpdate.Status update)).
  { intros failed w1 Hk Hw1. rewrite handleFailure_eq. destruct (decide _).
    - cbn [snd]. rewrite Hw1. eexists. split; [reflexivity|]. intros update err Hin.
      apply list_elem_of_singleton in Hin. discriminate.
    - cbn [snd trace]. rewrite Hw1, <- app_assoc. eexists. split; [reflexivity|].
      intros update err Hin. cbn in Hin. apply elem_of_cons in Hin.
      destruct Hin as [Hin|Hin]; [discriminate|].
      apply list_elem_of_singleton in Hin. inversion Hin; subst.
      intros f Hf. cbn in Hf. inversion Hf; subst. exact Hk. }
  assert (Hrefresh : ∀ err (w1 : World W),
            trace w1 = trace w ++ [EvLiveUpdateUpsert lu] →
            ∃ new, trace (refreshFailed D cl lu err w1).2 = trace w ++ new
                   ∧ ∀ update e, EvStatusUpdate update e ∈ new →
                                 failedKeepsTransitionTime lu (LiveUpdate.Status update)).
  { intros err w1 Hw1. unfold refreshFailed. destruct (IsNotFound err).
    - unfold bind.
      pose proof (createFailedState_keeps lu reasonObjectNotFound (Error err) w1) as Hk.
      pose proof (createFailedState_trace lu reasonObjectNotFound (Error err) w1) as Ht.
      destruct (createFailedState D lu reasonObjectNotFound (Error err) w1) as [f w2].
      apply Hhandle; [exact Hk | cbn in Ht; congruence].
    - unfold ret. cbn [snd]. rewrite Hw1. eexists. split; [reflexivity|].
      intros update e Hin. apply list_elem_of_singleton in Hin. discriminate. }
  pose proof (ensureSelectorValid_keeps lu (upserted lu w)) as Hens.
  destruct (ensureSelectorValid D lu (upserted lu w)) as [[failed|] w1].
  { destruct Hens as [Hw1 Hk]. specialize (Hhandle failed w1 (Hk _ eq_refl) Hw1).
    destruct (handleFailure cl lu failed w1). exact Hhandle. }
  destruct Hens as [Hw1 _]. cbn [snd upserted trace] in Hw1. cbv zeta.
  destruct (ensureMonitorExists (monitors r) (LiveUpdate.Name lu) lu) as [m0 mons].
  destruct (reconcileSources cl m0) as [m1 [files|err]].
  2:{ specialize (Hrefresh err w1 Hw1). destruct (refreshFailed D cl lu err w1).
      exact Hrefresh. }
  destruct (reconcileKubernetesResource cl m1) as [m2 [kube|err]].
  2:{ specialize (Hrefresh err w1 Hw1). destruct (refreshFailed D cl lu err w1).
      exact Hrefresh. }
  destruct (reconcileDockerComposeService cl m2) as [m3 [compose|err]].
  2:{ specialize (Hrefresh err w1 Hw1). destruct (refreshFailed D cl lu err w1).
      exact Hrefresh. }
  destruct (reconcileTriggerQueue cl m3) as [m4 [queue|err]].
  2:{ cbn [snd]. rewrite Hw1. eexists. split; [reflexivity|].
      intros update e Hin. apply list_elem_of_singleton in Hin. discriminate. }
  match goal with |- context [syncAndWrite D cl ?r0 lu ?m w1] =>
    generalize m; generalize r0 end.
  intros r0 m5. unfold syncAndWrite.
  destruct (monitor.hasChangesToSync m5).
  2:{ unfold ret. cbn [snd]. rewrite Hw1. eexists. split; [reflexivity|].
      intros update e Hin. apply list_elem_of_singleton in Hin. discriminate. }
  unfold bind at 1.
  pose proof (maybeSync_keeps r0 lu m5 w1) as Hk.
  pose proof (maybeSync_writes_no_status r0 lu m5 w1) as (new & Hnew & Hall).
  destruct (maybeSync D r0 lu m5 w1) as [[status m6] w2]. cbn [fst snd] in Hk, Hnew.
  assert (Hin_new : ∀ update e, EvStatusUpdate update e ∈ [EvLiveUpdateUpsert lu] ++ new →
                                False).
  { intros update e Hin. apply elem_of_app in Hin. destruct Hin as [Hin|Hin].
    - apply list_elem_of_singleton in Hin. discriminate.
    - rewrite forallb_forall in Hall. apply list_elem_of_In in Hin.
      specialize (Hall _ Hin). discriminate. }
  destruct (decide _).
  - unfold ret. cbn [snd]. rewrite Hnew, Hw1, <- app_assoc. eexists.
    split; [reflexivity|]. intros update e0 Hin. exfalso. eapply Hin_new. exact Hin.
  - unfold StatusUpdate, emit, bind, ret. cbv beta. cbn [fst snd ext trace].
    destruct (statusUpdate cl (withStatus lu status)) eqn:Hst; cbn [snd trace].
    all: rewrite Hnew, Hw1, <- !app_assoc;
      (eexists; split; [reflexivity|]; intros update e0 Hin;
       rewrite app_assoc in Hin;
       apply elem_of_app in Hin; destruct Hin as [Hin|Hin];
       [exfalso; eapply Hin_new; exact Hin|];
       apply list_elem_of_singleton in Hin; inversion Hin; subst; exact Hk).
Qed.

(** ** Old events alone never produce a sync *)

Lemma reconcileOneSource_nothingRecorded (cl : Client) (m : monitor.t)
    (source : LiveUpdateSource.t) :
  nothingRecorded m → onlyOldEvents cl source →
  nothingRecorded (reconcileOneSource cl m source).1.
Proof.
  intros Hnone Hold. unfold reconcileOneSource.
  destruct (decide (LiveUpdateSource.FileWatch source = "")) as [Hfwn|Hfwn].
  { destruct (decide _); [exact Hnone|]. destruct (getImageMap cl _); exact Hnone. }
  destruct (getFileWatch cl _) as [fw|err] eqn:Hfw; [|exact Hnone].
  specialize (Hold fw Hfw).
  assert (Hevents : ∀ e, last (FileWatch.FileEvents fw) = Some e →
                         FileWatch.FileEvents fw ≠ []).
  { intros e He Hnil. rewrite Hnil in He. discriminate. }
  destruct (decide (LiveUpdateSource.ImageMap source = "")) as [Himn|Himn].
  - destruct (last (FileWatch.FileEvents fw)) as [newLast|] eqn:Hlast; [|exact Hnone].
    destruct (Hold (Hevents _ eq_refl)) as [Hc _]. contradiction.
  - destruct (getImageMap cl _) as [im|err] eqn:Him; [|exact Hnone].
    destruct (last (FileWatch.FileEvents fw)) as [newLast|] eqn:Hlast; [|exact Hnone].
    destruct (Hold (Hevents _ eq_refl)) as [_ Hb].
    destruct (Hb im eq_refl) as (b & Hstart & Hall).
    cbn [fst]. intros n ms Hn. cbn [monitor.set_sources monitor.sources] in Hn.
    destruct (decide (LiveUpdateSource.FileWatch source = n)) as [<-|Hne].
    + rewrite lookup_insert_eq in Hn. inversion Hn; subst ms. clear Hn.
      cbn [monitorSource.modTimeByPath].
      assert (Hbefore : monitorSource.modTimeByPath
                          (default monitorSource.fresh
                             (monitor.sources m !! LiveUpdateSource.FileWatch source)) = ∅).
      { destruct (monitor.sources m !! _) as [ms0|] eqn:Hms0; cbn.
        - eapply Hnone. exact Hms0.
        - reflexivity. }
      destruct (match monitorSource.lastFileEvent _ with Some _ => _ | None => _ end).
      * rewrite Hstart, Hbefore. apply consumeFileEvents_all_old. exact Hall.
      * exact Hbefore.
    + rewrite lookup_insert_ne in Hn by assumption. eapply Hnone. exact Hn.
Qed.

Lemma reconcileSources_nothingRecorded (cl : Client) (m : monitor.t) :
  nothingRecorded m →
  Forall (onlyOldEvents cl) m.(monitor.spec).(LiveUpdateSpec.Sources) →
  nothingRecorded (reconcileSources cl m).1.
Proof.
  unfold reconcileSources. generalize false.
  generalize (LiveUpdateSpec.Sources (monitor.spec m)). intros sources.
  revert m. induction sources as [|s sources IH]; intros m hasChange Hnone Hall.
  - exact Hnone.
  - cbn [reconcileSourcesLoop]. apply Forall_cons in Hall. destruct Hall as [Hs Hall].
    pose proof (reconcileOneSource_nothingRecorded cl m s Hnone Hs) as Hone.
    destruct (reconcileOneSource cl m s) as [m1 [one|err]]; cbn [fst] in *.
    + apply IH; assumption.
    + exact Hone.
Qed.

Lemma reconcileKubernetesResource_sources (cl : Client) (m : monitor.t) :
  (reconcileKubernetesResource cl m).1.(monitor.sources) = m.(monitor.sources).
Proof.
  unfold reconcileKubernetesResource.
  repeat match goal with
         | |- context [match ?x with _ => _ end] => destruct x; try reflexivity
         end.
Qed.

Lemma reconcileDockerComposeService_sources (cl : Client) (m : monitor.t) :
  (reconcileDockerComposeService cl m).1.(monitor.sources) = m.(monitor.sources).
Proof.
  unfold reconcileDockerComposeService.
  repeat match goal with
         | |- context [match ?x with _ => _ end] => destruct x; try reflexivity
         end.
Qed.

Lemma reconcileTriggerQueue_sources (cl : Client) (m : monitor.t) :
  (reconcileTriggerQueue cl m).1.(monitor.sources) = m.(monitor.sources).
Proof.
  unfold reconcileTriggerQueue.
  repeat match goal with
         | |- context [match ?x with _ => _ end] => destruct x; try reflexivity
         end.
Qed.

Lemma garbageCollect_nothingRecorded (res : luResource) (m : monitor.t) :
  nothingRecorded m →
  nothingRecorded (garbageCollectMonitorContainers D res (garbageCollectFileChanges D res m)).
Proof.
  intros Hnone. unfold garbageCollectMonitorContainers.
  intros n ms Hn. cbn [monitor.set_containers monitor.sources] in Hn. revert n ms Hn.
  change (nothingRecorded (garbageCollectFileChanges D res m)).
  unfold garbageCollectFileChanges.
  generalize (LiveUpdateSpec.Sources (monitor.spec m)). intros sources.
  revert m Hnone. induction sources as [|s sources IH]; intros m Hnone; cbn [foldl];
    [exact Hnone|].
  apply IH. unfold garbageCollectOneSource.
  destruct (monitor.sources m !! LiveUpdateSource.FileWatch s) as [ms0|] eqn:Hms0;
    [|exact Hnone].
  destruct (negb _); [|exact Hnone].
  intros n ms Hn. cbn [monitor.set_containers monitor.set_sources monitor.sources] in Hn.
  destruct (decide (LiveUpdateSource.FileWatch s = n)) as [<-|Hne].
  - rewrite lookup_insert_eq in Hn. inversion Hn; subst ms. cbn.
    rewrite (Hnone _ _ Hms0). unfold dropStaleFiles. apply map_filter_empty.
  - rewrite lookup_insert_ne in Hn by assumption. eapply Hnone. exact Hn.
Qed.

Lemma scanChangedFiles_nothingRecorded (hwm : Z) (m : monitor.t) :
  nothingRecorded m → scanChangedFiles hwm m.(monitor.sources) = ([], 0, hwm).
Proof.
  intros Hnone. unfold scanChangedFiles.
  assert (Hall : ∀ ns, ns ∈ map_to_list (monitor.sources m) →
                       ns.2.(monitorSource.modTimeByPath) = ∅).
  { intros [n ms] Hin. apply elem_of_map_to_list in Hin. eapply Hnone. exact Hin. }
  revert Hall. generalize (map_to_list (monitor.sources m)). intros l.
  generalize (([] : list string), 0, hwm).
  induction l as [|ns l IH]; intros acc Hall; cbn [foldl]; [reflexivity|].
  rewrite (Hall ns) by left. rewrite map_to_list_empty. cbn [foldl].
  apply IH. intros ns' Hin. apply Hall. right. exact Hin.
Qed.

Lemma planAndApply_nothing (r : Reconciler W) (lu : LiveUpdate.t) (pod : Pod.t)
    (cInfo : Container.t) (cStatus : monitorContainerStatus.t)
    (waiting : option LiveUpdateContainerStateWaiting.t)
    (newHighWaterMark : Z) (dispatched : bool) (w : World W) :
  plansNothingForNothing D →
  ∃ one,
    planAndApply D r lu pod cInfo cStatus waiting [] newHighWaterMark dispatched w
    = ((one, false, dispatched), w).
Proof.
  intros Hplan. unfold planAndApply, createLiveUpdatePlan.
  pose proof (Hplan (LiveUpdate.Spec lu)) as Hsync.
  destruct (NewLiveUpdatePlan D (LiveUpdate.Spec lu) []) as [plan [err|]];
    cbn [fst] in Hsync.
  { eexists. reflexivity. }
  destruct (decide (0 < length (LiveUpdatePlan.NoMatchPaths plan))%nat).
  { eexists. reflexivity. }
  destruct (LiveUpdatePlan.StopPaths plan) as [|stop stops].
  - rewrite Hsync. cbn [length]. destruct (decide (0%nat = 0%nat)); [|congruence].
    eexists. reflexivity.
  - eexists. reflexivity.
Qed.

Lemma syncContainer_nothingRecorded (r : Reconciler W) (lu : LiveUpdate.t) (trig : bool)
    (pod : Pod.t) (cInfo : Container.t) (s : passState) (w : World W)
    (stop : bool) (s' : passState) (w' : World W) :
  plansNothingForNothing D →
  nothingRecorded s.(passMonitor) →
  syncContainer D r lu trig pod cInfo s w = ((stop, s'), w') →
  trace w' = trace w
  ∧ nothingRecorded s'.(passMonitor)
  ∧ s'.(updateEventDispatched) = s.(updateEventDispatched).
Proof.
  intros Hplan Hnone Hrun. unfold syncContainer in Hrun.
  rewrite (scanChangedFiles_nothingRecorded _ _ Hnone) in Hrun. cbn [fst snd] in Hrun.
  change (DedupedAndSorted []) with (@nil string) in Hrun.
  destruct (isTerminated pod cInfo).
  { unfold ret in Hrun. inversion Hrun; subst. cbn. auto. }
  unfold bind at 1 in Hrun.
  match type of Hrun with
  | context [planAndApply D r lu pod cInfo ?cs ?wt [] ?hwm ?d w] =>
      destruct (planAndApply_nothing r lu pod cInfo cs wt hwm d w Hplan) as [one Hone];
      rewrite Hone in Hrun
  end.
  unfold bind at 1 in Hrun.
  destruct (adjustFailedStateTimestamps D lu one w) as [one' w1] eqn:Hadj.
  apply adjustFailedStateTimestamps_run in Hadj. destruct Hadj as (Htr & _).
  destruct (LiveUpdateStatus.Failed one'); unfold ret in Hrun; inversion Hrun; subst;
    cbn [passMonitor updateEventDispatched]; repeat split; auto.
Qed.

Lemma maybeSync_nothingRecorded (r : Reconciler W) (lu : LiveUpdate.t) (m : monitor.t)
    (w : World W) :
  plansNothingForNothing D → nothingRecorded m →
  trace (maybeSync D r lu m w).2 = trace w.
Proof.
  intros Hplan Hnone.
  destruct (maybeSync D r lu m w) as [[status m'] w'] eqn:Hrun. cbn [snd].
  unfold maybeSync in Hrun.
  destruct (resource D lu m) as [res|err].
  2:{ unfold bind, ret in Hrun. rewrite createFailedState_eq in Hrun.
      inversion Hrun; subst. reflexivity. }
  unfold bind at 1 in Hrun. unfold visitSelectedContainers at 1 in Hrun.
  destruct (visitContainers (checkContainerFailed D lu _) _ None w) as [failed w1] eqn:Hchk.
  apply checkContainerFailed_trace in Hchk.
  destruct failed as [f|].
  { unfold ret in Hrun. inversion Hrun; subst. exact Hchk. }
  unfold bind at 1 in Hrun. unfold visitSelectedContainers in Hrun.
  destruct (visitContainers (syncContainer D r lu _) _ _ w1) as [s w2] eqn:Hpass.
  assert (Hs : trace w2 = trace w ∧ nothingRecorded (passMonitor s)
               ∧ updateEventDispatched s = false).
  { revert Hpass.
    apply (visitContainers_inv (syncContainer D r lu _)
             (λ s0 w0, trace w0 = trace w ∧ nothingRecorded (passMonitor s0)
                       ∧ updateEventDispatched s0 = false)).
    - intros pc s0 w0 stop s1 w1' _ (Ht & Hn & Hd) Hstep.
      destruct (syncContainer_nothingRecorded _ _ _ _ _ _ _ _ _ _ Hplan Hn Hstep)
        as (Ht1 & Hn1 & Hd1).
      repeat split; [congruence | exact Hn1 | congruence].
    - split; [exact Hchk|]. split; [|reflexivity].
      cbn [passMonitor]. apply garbageCollect_nothingRecorded. exact Hnone. }
  destruct Hs as (Ht & _ & Hd).
  unfold bind, ret in Hrun.
  destruct (finishPass D lu s w2) as [status' w3] eqn:Hfin.
  inversion Hrun; subst. clear Hrun.
  apply finishPass_run in Hfin. destruct Hfin as (Htr3 & _ & _).
  rewrite Htr3, Hd, app_nil_r. exact Ht.
Qed.

(** X12. Events from before the image build, alone, never produce a sync. With
    a planner that plans no sync for no changed file: when the monitor of
    a LiveUpdate holds no recorded file (it is new, or all of its files
    were collected) and every event of every source is from strictly
    before the start of the source's image build, the reconcile calls no
    container updater. *)
Theorem old_events_alone_never_sync (cl : Client) (req : string) (r : Reconciler W)
    (w : World W) (lu : LiveUpdate.t) :
  plansNothingForNothing D →
  getLiveUpdate cl req = Ok lu →
  (∀ m, r.(monitors) !! lu.(LiveUpdate.Name) = Some m → nothingRecorded m) →
  Forall (onlyOldEvents cl) lu.(LiveUpdate.Spec).(LiveUpdateSpec.Sources) →
  filter (λ e, isUpdateContainer e = true) (trace (Reconcile D cl req r w).2)
  = filter (λ e, isUpdateContainer e = true) (trace w).
Proof.
  intros Hplan Hget Hnone Hold.
  assert (Hone : ∀ e : Event, isUpdateContainer e = false →
            filter (λ e, isUpdateContainer e = true) (trace w ++ [e])
            = filter (λ e, isUpdateContainer e = true) (trace w)).
  { intros e He. rewrite filter_app, filter_cons, filter_nil.
    destruct (decide _); [congruence|]. apply app_nil_r. }
  destruct (LiveUpdate.DeletionTimestamp lu) as [t|] eqn:Hdel.
  { unfold Reconcile. rewrite Hget, Hdel.
    destruct (decide _) as [_|Hno]; [|exfalso; apply Hno; eauto].
    apply Hone. reflexivity. }
  destruct (decide (annotation lu AnnotationManagedBy = "")) as [Hman|Hman].
  2:{ unfold Reconcile. rewrite Hget, Hdel.
      destruct (decide (is_Some None)) as [[? ?]|_]; [discriminate|].
      destruct (decide _); [contradiction|]. apply Hone. reflexivity. }
  rewrite (Reconcile_live cl req r w lu Hget Hdel Hman).
  assert (Hhandle : ∀ failed (w1 : World W),
            trace w1 = trace w ++ [EvLiveUpdateUpsert lu] →
            filter (λ e, isUpdateContainer e = true) (trace (handleFailure cl lu failed w1).2)
            = filter (λ e, isUpdateContainer e = true) (trace w)).
  { intros failed w1 Hw1. rewrite handleFailure_eq. destruct (decide _); cbn [snd trace].
    - rewrite Hw1. apply Hone. reflexivity.
    - rewrite Hw1, !filter_app, !filter_cons, !filter_nil.
      repeat (destruct (decide _); [discriminate|]). rewrite !app_nil_r. reflexivity. }
  assert (Hrefresh : ∀ err (w1 : World W),
            trace w1 = trace w ++ [EvLiveUpdateUpsert lu] →
            filter (λ e, isUpdateContainer e = true)
              (trace (refreshFailed D cl lu err w1).2)
            = filter (λ e, isUpdateContainer e = true) (trace w)).
  { intros err w1 Hw1. unfold refreshFailed. destruct (IsNotFound err).
    - unfold bind.
      pose proof (createFailedState_trace lu reasonObjectNotFound (Error err) w1) as Ht.
      destruct (createFailedState D lu reasonObjectNotFound (Error err) w1) as [f w2].
      apply Hhandle. cbn in Ht. congruence.
    - unfold ret. cbn [snd]. rewrite Hw1. apply Hone. reflexivity. }
  pose proof (ensureSelectorValid_keeps lu (upserted lu w)) as [Hw1 _].
  destruct (ensureSelectorValid D lu (upserted lu w)) as [[failed|] w1];
    cbn [snd upserted trace] in Hw1.
  { specialize (Hhandle failed w1 Hw1). destruct (handleFailure cl lu failed w1).
    exact Hhandle. }
  cbv zeta.
  assert (Hm0 : nothingRecorded (ensureMonitorExists (monitors r) (LiveUpdate.Name lu) lu).1
                ∧ monitor.spec (ensureMonitorExists (monitors r) (LiveUpdate.Name lu) lu).1
                  = LiveUpdate.Spec lu).
  { unfold ensureMonitorExists.
    destruct (monitors r !! LiveUpdate.Name lu) as [m|] eqn:Hm.
    - destruct (decide _) as [Heq|Hne].
      + split; [apply Hnone; reflexivity | cbn [fst]; congruence].
      + split; [|reflexivity]. intros n ms Hn. cbn in Hn. rewrite lookup_empty in Hn.
        discriminate.
    - split; [|reflexivity]. intros n ms Hn. cbn in Hn. rewrite lookup_empty in Hn.
      discriminate. }
  destruct (ensureMonitorExists (monitors r) (LiveUpdate.Name lu) lu) as [m0 mons].
  cbn [fst] in Hm0. destruct Hm0 as [Hn0 Hs0].
  pose proof (reconcileSources_nothingRecorded cl m0 Hn0) as Hn1.
  rewrite Hs0 in Hn1. specialize (Hn1 Hold).
  destruct (reconcileSources cl m0) as [m1 [files|err]]; cbn [fst] in Hn1.
  2:{ specialize (Hrefresh err w1 Hw1). destruct (refreshFailed D cl lu err w1).
      exact Hrefresh. }
  pose proof (reconcileKubernetesResource_sources cl m1) as Hn2.
  destruct (reconcileKubernetesResource cl m1) as [m2 [kube|err]]; cbn [fst] in Hn2.
  2:{ specialize (Hrefresh err w1 Hw1). destruct (refreshFailed D cl lu err w1).
      exact Hrefresh. }
  pose proof (reconcileDockerComposeService_sources cl m2) as Hn3.
  destruct (reconcileDockerComposeService cl m2) as [m3 [compose|err]]; cbn [fst] in Hn3.
  2:{ specialize (Hrefresh err w1 Hw1). destruct (refreshFailed D cl lu err w1).
      exact Hrefresh. }
  pose proof (reconcileTriggerQueue_sources cl m3) as Hn4.
  destruct (reconcileTriggerQueue cl m3) as [m4 [queue|err]]; cbn [fst] in Hn4.
  2:{ cbn [snd]. rewrite Hw1. apply Hone. reflexivity. }
  match goal with |- context [syncAndWrite D cl ?r0 lu ?m w1] =>
    assert (Hn5 : nothingRecorded m)
      by (intros n ms Hn; apply (Hn1 n ms);
          destruct (_ || _); cbn in Hn; congruence);
    generalize dependent m; generalize r0 end.
  intros r0 m5 Hn5. unfold syncAndWrite.
  destruct (monitor.hasChangesToSync m5).
  2:{ unfold ret. cbn [snd]. rewrite Hw1. apply Hone. reflexivity. }
  unfold bind at 1.
  pose proof (maybeSync_nothingRecorded r0 lu m5 w1 Hplan Hn5) as Hsync.
  destruct (maybeSync D r0 lu m5 w1) as [[status m6] w2]. cbn [snd] in Hsync.
  destruct (decide _).
  - unfold ret. cbn [snd]. rewrite Hsync, Hw1. apply Hone. reflexivity.
  - unfold StatusUpdate, emit, bind, ret. cbv beta. cbn [fst snd ext trace].
    destruct (statusUpdate cl (withStatus lu status)); cbn [snd trace];
      rewrite Hsync, Hw1, !filter_app, !filter_cons, !filter_nil;
      repeat (destruct (decide _); [discriminate|]); rewrite !app_nil_r; reflexivity.
Qed.

(** ** Recording the files of the events *)

Lemma grows_refl (m : gmap string Z) : grows m m.
Proof. intros p t Hp. exists t. split; [exact Hp | lia]. Qed.

Lemma grows_trans (m1 m2 m3 : gmap string Z) : grows m1 m2 → grows m2 m3 → grows m1 m3.
Proof.
  intros H12 H23 p t Hp. destruct (H12 p t Hp) as (t2 & Hp2 & Hle2).
  destruct (H23 p t2 Hp2) as (t3 & Hp3 & Hle3). exists t3. split; [exact Hp3 | lia].
Qed.

(** One seen file: the entry of the file becomes the later of the stored
    time and the event time; no other entry changes. *)
Lemma recordSeenFile_lookup (eventTime : Z) (modTimeByPath : gmap string Z) (f p : string) :
  recordSeenFile eventTime modTimeByPath f !! p
  = if decide (p = f)
    then Some (match modTimeByPath !! f with
               | Some existing => Z.max existing eventTime
               | None => eventTime
               end)
    else modTimeByPath !! p.
Proof.
  unfold recordSeenFile, Before.
  destruct (modTimeByPath !! f) as [existing|] eqn:Hf.
  - destruct (bool_decide_reflect (existing < eventTime)) as [Hlt|Hge];
      destruct (decide (p = f)) as [->|Hne].
    + rewrite lookup_insert_eq. f_equal. lia.
    + rewrite lookup_insert_ne by congruence. reflexivity.
    + rewrite Hf. f_equal. lia.
    + reflexivity.
  - destruct (decide (p = f)) as [->|Hne].
    + rewrite lookup_insert_eq. reflexivity.
    + rewrite lookup_insert_ne by congruence. reflexivity.
Qed.

Lemma recordSeenFile_grows (eventTime : Z) (m : gmap string Z) (f : string) :
  grows m (recordSeenFile eventTime m f).
Proof.
  intros p t Hp. rewrite recordSeenFile_lookup.
  destruct (decide (p = f)) as [->|Hne].
  - rewrite Hp. eexists. split; [reflexivity | lia].
  - exists t. split; [exact Hp | lia].
Qed.

Lemma recordSeenFiles_grows (eventTime : Z) (fs : list string) :
  ∀ m, grows m (foldl (recordSeenFile eventTime) m fs).
Proof.
  induction fs as [|f fs IH]; intros m; cbn [foldl]; [apply grows_refl|].
  eapply grows_trans; [apply recordSeenFile_grows | apply IH].
Qed.

Lemma recordSeenFiles_seen (eventTime : Z) (fs : list string) (p : string) :
  p ∈ fs →
  ∀ m, ∃ t', foldl (recordSeenFile eventTime) m fs !! p = Some t' ∧ eventTime ≤ t'.
Proof.
  induction fs as [|f fs IH]; intros Hin m; [inversion Hin|].
  cbn [foldl]. apply elem_of_cons in Hin. destruct Hin as [->|Hin].
  - assert (Hf : ∃ t, recordSeenFile eventTime m f !! f = Some t ∧ eventTime ≤ t).
    { rewrite recordSeenFile_lookup. destruct (decide (f = f)); [|congruence].
      eexists. split; [reflexivity|]. destruct (m !! f); lia. }
    destruct Hf as (t & Hf & Hle).
    destruct (recordSeenFiles_grows eventTime fs _ f t Hf) as (t' & Hp' & Hle').
    exists t'. split; [exact Hp' | lia].
  - apply IH. exact Hin.
Qed.

Lemma recordSeenFiles_from (eventTime : Z) (fs : list string) (p : string) (t' : Z) :
  ∀ m, foldl (recordSeenFile eventTime) m fs !! p = Some t' →
       m !! p = Some t' ∨ (p ∈ fs ∧ t' = eventTime).
Proof.
  induction fs as [|f fs IH]; intros m Hp; cbn [foldl] in Hp; [left; exact Hp|].
  destruct (IH _ Hp) as [Hm|[Hin ->]].
  - rewrite recordSeenFile_lookup in Hm. destruct (decide (p = f)) as [->|Hne].
    + destruct (m !! f) as [existing|] eqn:Hf.
      * inversion Hm; subst. destruct (Z.max_spec existing eventTime) as [[_ ->]|[_ ->]].
        -- right. split; [left | reflexivity].
        -- left. reflexivity.
      * inversion Hm; subst. right. split; [left | reflexivity].
    + left. exact Hm.
  - right. split; [right; exact Hin | reflexivity].
Qed.

Lemma consumeFileEvent_grows (b : option Z) (m : gmap string Z) (event : FileEvent.t) :
  grows m (consumeFileEvent b m event).
Proof.
  unfold consumeFileEvent.
  destruct (match b with Some b0 => After b0 _ | None => false end);
    [apply grows_refl | apply recordSeenFiles_grows].
Qed.

Lemma consumeFileEvents_grows (b : option Z) (events : list FileEvent.t) :
  ∀ m, grows m (consumeFileEvents b m events).
Proof.
  unfold consumeFileEvents.
  induction events as [|e events IH]; intros m; cbn [foldl]; [apply grows_refl|].
  eapply grows_trans; [apply consumeFileEvent_grows | apply IH].
Qed.

Lemma consumed_not_skipped (b : option Z) (event : FileEvent.t) :
  consumed b event ↔
  match b with Some b0 => After b0 event.(FileEvent.Time) | None => false end = false.
Proof.
  unfold consumed, After. destruct b as [b0|].
  - rewrite bool_decide_eq_false. split.
    + intros H. specialize (H b0 eq_refl). lia.
    + intros H b1 Hb1. inversion Hb1; subst. lia.
  - split; [reflexivity | intros _ b1 Hb1; discriminate].
Qed.

(** X10. Consuming the events of a FileWatch records each seen file with
    the latest time it was seen: no recorded file is lost and no recorded
    time goes back; a file seen by an event that is not from before the
    build start is recorded with a time that is not before the event;
    and every recorded time is one that was recorded already or the time
    of such an event that saw the file. *)
Theorem consumed_files_carry_latest_time (buildStartTime : option Z)
    (modTimeByPath : gmap string Z) (events : list FileEvent.t) :
  let after := consumeFileEvents buildStartTime modTimeByPath events in
  grows modTimeByPath after
  ∧ (∀ event p,
       event ∈ events → consumed buildStartTime event →
       p ∈ event.(FileEvent.SeenFiles) →
       ∃ t', after !! p = Some t' ∧ event.(FileEvent.Time) ≤ t')
  ∧ (∀ p t',
       after !! p = Some t' →
       modTimeByPath !! p = Some t'
       ∨ ∃ event, event ∈ events ∧ consumed buildStartTime event
                  ∧ p ∈ event.(FileEvent.SeenFiles)
                  ∧ event.(FileEvent.Time) = t').
Proof.
  cbv zeta. split; [apply consumeFileEvents_grows|]. split.
  - revert modTimeByPath.
    induction events as [|e events IH]; intros m event p Hin Hcons Hp; [inversion Hin|].
    unfold consumeFileEvents. cbn [foldl]. fold (consumeFileEvents buildStartTime).
    apply elem_of_cons in Hin. destruct Hin as [->|Hin].
    + assert (He : ∃ t, consumeFileEvent buildStartTime m e !! p = Some t
                        ∧ FileEvent.Time e ≤ t).
      { unfold consumeFileEvent. apply consumed_not_skipped in Hcons. rewrite Hcons.
        apply recordSeenFiles_seen. exact Hp. }
      destruct He as (t & He & Hle).
      destruct (consumeFileEvents_grows buildStartTime events _ p t He) as (t' & Hp' & Hle').
      exists t'. split; [exact Hp' | lia].
    + apply IH; assumption.
  - revert modTimeByPath.
    induction events as [|e events IH]; intros m p t' Hp; [left; exact Hp|].
    unfold consumeFileEvents in Hp. cbn [foldl] in Hp.
    fold (consumeFileEvents buildStartTime) in Hp.
    destruct (IH _ _ _ Hp) as [Hm|(event & Hin & Hcons & Hseen & Ht)].
    + unfold consumeFileEvent in Hm.
      destruct (match buildStartTime with Some b0 => After b0 _ | None => false end)
        eqn:Hskip; [left; exact Hm|].
      apply recordSeenFiles_from in Hm. destruct Hm as [Hm|[Hseen ->]]; [left; exact Hm|].
      right. exists e. split; [left|]. split; [apply consumed_not_skipped; exact Hskip|].
      split; [exact Hseen | reflexivity].
    + right. exists event. split; [right; exact Hin | auto].
Qed.

Lemma filesOf_insert (m : monitor.t) (fwn n : string) (ms : monitorSource.t) :
  filesOf (monitor.set_sources (<[fwn := ms]> m.(monitor.sources)) m) n
  = if decide (fwn = n) then ms.(monitorSource.modTimeByPath) else filesOf m n.
Proof.
  unfold filesOf. cbn [monitor.set_sources monitor.sources].
  destruct (decide (fwn = n)) as [->|Hne].
  - rewrite lookup_insert_eq. reflexivity.
  - rewrite lookup_insert_ne by assumption. reflexivity.
Qed.

Lemma reconcileOneSource_grows (cl : Client) (m : monitor.t) (source : LiveUpdateSource.t)
    (n : string) :
  grows (filesOf m n) (filesOf (reconcileOneSource cl m source).1 n).
Proof.
  unfold reconcileOneSource.
  destruct (if decide (LiveUpdateSource.FileWatch source = "") then _ else _) as [fw|err];
    [|apply grows_refl].
  destruct (if decide (LiveUpdateSource.ImageMap source = "") then _ else _) as [im|err];
    [|apply grows_refl].
  destruct (last (FileWatch.FileEvents fw)) as [newLast|]; [|apply grows_refl].
  destruct (decide (LiveUpdateSource.FileWatch source = "")); [apply grows_refl|].
  cbn [fst]. rewrite filesOf_insert.
  destruct (decide (LiveUpdateSource.FileWatch source = n)) as [<-|Hne]; [|apply grows_refl].
  cbn [monitorSource.modTimeByPath]. fold (filesOf m (LiveUpdateSource.FileWatch source)).
  match goal with |- context [if ?c then consumeFileEvents _ _ _ else _] => destruct c end;
    [apply consumeFileEvents_grows | apply grows_refl].
Qed.

(** X11. Refreshing the sources never forgets a file: whatever the
    FileWatches and ImageMaps answer, and also when a read fails half
    way, every file the monitor held under a FileWatch name is still held
    there, with a time that is not earlier. *)
Theorem reconcileSources_never_forgets (cl : Client) (m : monitor.t) (n : string) :
  grows (filesOf m n) (filesOf (reconcileSources cl m).1 n).
Proof.
  unfold reconcileSources. generalize false.
  generalize (LiveUpdateSpec.Sources (monitor.spec m)). intros sources. revert m.
  induction sources as [|s sources IH]; intros m hasChange; cbn [reconcileSourcesLoop fst];
    [apply grows_refl|].
  pose proof (reconcileOneSource_grows cl m s n) as Hone.
  destruct (reconcileOneSource cl m s) as [m1 [one|err]]; cbn [fst] in *.
  - eapply grows_trans; [exact Hone | apply IH].
  - exact Hone.
Qed.

(** ** Scanning for the changed files *)

Lemma elem_of_allFiles (sources : gmap string monitorSource.t) (f : string) (t : Z) :
  (f, t) ∈ allFiles sources ↔ recorded sources f t.
Proof.
  unfold allFiles, recorded. rewrite list_elem_of_bind. split.
  - intros ([n ms] & Hft & Hns). apply elem_of_map_to_list in Hns.
    apply elem_of_map_to_list in Hft. exists n, ms. auto.
  - intros (n & ms & Hn & Hf). exists (n, ms). split; apply elem_of_map_to_list; assumption.
Qed.

Lemma scanChangedFiles_flat (hwm : Z) (sources : gmap string monitorSource.t) :
  scanChangedFiles hwm sources = foldl (scanFile hwm) ([], 0, hwm) (allFiles sources).
Proof.
  unfold scanChangedFiles, allFiles. generalize (([] : list string), 0, hwm).
  induction (map_to_list sources) as [|ns l IH]; intros acc; [reflexivity|].
  cbn [foldl mbind list_bind]. rewrite foldl_app. apply IH.
Qed.

(** What the scan of a list of files adds to the files changed so far. *)
Lemma foldl_scanFile_files (hwm : Z) (l : list (string * Z)) :
  ∀ acc f,
    f ∈ (foldl (scanFile hwm) acc l).1.1
    ↔ f ∈ acc.1.1 ∨ ∃ t, (f, t) ∈ l ∧ hwm < t.
Proof.
  induction l as [|[f0 t0] l IH]; intros [[files low] high] f; cbn [foldl].
  - split; [auto|]. intros [H|(t & Hin & _)]; [exact H | inversion Hin].
  - rewrite IH. unfold scanFile, After.
    destruct (bool_decide_reflect (hwm < t0)) as [Hlt|Hge]; cbn [fst snd].
    + rewrite elem_of_app, list_elem_of_singleton. split.
      * intros [[H| ->]|(t & Hin & Ht)]; [left; exact H | right | right].
        -- exists t0. split; [left | exact Hlt].
        -- exists t. split; [right; exact Hin | exact Ht].
      * intros [H|(t & Hin & Ht)]; [left; left; exact H|].
        apply elem_of_cons in Hin. destruct Hin as [Heq|Hin].
        -- inversion Heq; subst. left. right. reflexivity.
        -- right. exists t. split; assumption.
    + split.
      * intros [H|(t & Hin & Ht)]; [left; exact H | right].
        exists t. split; [right; exact Hin | exact Ht].
      * intros [H|(t & Hin & Ht)]; [left; exact H|].
        apply elem_of_cons in Hin. destruct Hin as [Heq|Hin].
        -- inversion Heq; subst. contradiction.
        -- right. exists t. split; assumption.
Qed.

(** The high-water mark after the scan of a list of files: the latest of
    the mark so far and the times after the container's watermark. *)
Lemma foldl_scanFile_high_max (hwm : Z) (l : list (string * Z)) :
  ∀ acc,
    let high := (foldl (scanFile hwm) acc l).2 in
    acc.2 ≤ high
    ∧ (∀ f t, (f, t) ∈ l → hwm < t → t ≤ high)
    ∧ (high = acc.2 ∨ ∃ f, (f, high) ∈ l ∧ hwm < high).
Proof.
  induction l as [|[f0 t0] l IH]; intros [[files low] high0]; cbn [foldl]; cbv zeta.
  - split; [reflexivity|]. split; [|left; reflexivity].
    intros f t Hin. inversion Hin.
  - match goal with |- context [foldl _ ?a l] => destruct (IH a) as (Hle & Hall & Hfrom) end.
    revert Hle Hall Hfrom. generalize (foldl (scanFile hwm) (scanFile hwm (files, low, high0) (f0, t0)) l).2.
    intros high. unfold scanFile, After.
    destruct (bool_decide_reflect (hwm < t0)) as [Hlt|Hge]; cbn [fst snd].
    + destruct (bool_decide_reflect (high0 < t0)) as [Hlt2|Hge2]; intros Hle Hall Hfrom.
      * split; [lia|]. split.
        -- intros f t Hin Ht. apply elem_of_cons in Hin. destruct Hin as [Heq|Hin].
           ++ inversion Heq; subst. exact Hle.
           ++ eapply Hall; eassumption.
        -- right. destruct Hfrom as [->|(f & Hin & Hf)].
           ++ exists f0. split; [left | exact Hlt].
           ++ exists f. split; [right; exact Hin | exact Hf].
      * split; [exact Hle|]. split.
        -- intros f t Hin Ht. apply elem_of_cons in Hin. destruct Hin as [Heq|Hin].
           ++ inversion Heq; subst. lia.
           ++ eapply Hall; eassumption.
        -- destruct Hfrom as [->|(f & Hin & Hf)]; [left; reflexivity | right].
           exists f. split; [right; exact Hin | exact Hf].
    + intros Hle Hall Hfrom. split; [exact Hle|]. split.
      * intros f t Hin Ht. apply elem_of_cons in Hin. destruct Hin as [Heq|Hin].
        -- inversion Heq; subst. contradiction.
        -- eapply Hall; eassumption.
      * destruct Hfrom as [->|(f & Hin & Hf)]; [left; reflexivity | right].
        exists f. split; [right; exact Hin | exact Hf].
Qed.

(** The low-water mark after the scan of a list of files, for a watermark
    that is not before the zero time: zero as long as no file is after
    the watermark, and the earliest of the times after it from then on. *)
Lemma foldl_scanFile_low_min (hwm : Z) (l : list (string * Z)) :
  0 ≤ hwm →
  ∀ acc,
    (acc.1.2 = 0 ∨ hwm < acc.1.2) →
    let low := (foldl (scanFile hwm) acc l).1.2 in
    (low = 0 ∨ hwm < low)
    ∧ (acc.1.2 ≠ 0 → low ≤ acc.1.2)
    ∧ (∀ f t, (f, t) ∈ l → hwm < t → hwm < low ∧ low ≤ t)
    ∧ (low = acc.1.2 ∨ ∃ f, (f, low) ∈ l ∧ hwm < low).
Proof.
  intros Hpos.
  induction l as [|[f0 t0] l IH]; intros [[files low0] high0] Hacc; cbn [foldl]; cbv zeta;
    cbn [fst snd] in Hacc.
  - cbn [fst snd]. split; [exact Hacc|]. split; [lia|]. split; [|left; reflexivity].
    intros f t Hin. inversion Hin.
  - match goal with |- context [foldl _ ?a l] =>
      assert (Ha : a.1.2 = 0 ∨ hwm < a.1.2);
      [|destruct (IH a Ha) as (Hzero & Hle & Hall & Hfrom)] end.
    { unfold scanFile, After, Before, IsZero.
      destruct (bool_decide_reflect (hwm < t0)); cbn [fst snd]; [|exact Hacc].
      destruct (bool_decide (low0 = 0) || bool_decide (t0 < low0)); [right; assumption|].
      exact Hacc. }
    revert Ha Hzero Hle Hall Hfrom.
    generalize (foldl (scanFile hwm) (scanFile hwm (files, low0, high0) (f0, t0)) l).1.2.
    intros low. unfold scanFile, After, Before, IsZero.
    destruct (bool_decide_reflect (hwm < t0)) as [Hlt|Hge]; cbn [fst snd].
    + destruct (bool_decide_reflect (low0 = 0)) as [Hz|Hnz]; cbn [orb].
      * intros Ha Hzero Hle Hall Hfrom. split; [exact Hzero|]. split; [lia|].
        assert (Hlow : hwm < low ∧ low ≤ t0).
        { destruct Hfrom as [->|(f & Hin & Hf)]; [lia|]. split; [exact Hf|].
          apply Hle. lia. }
        split.
        -- intros f t Hin Ht. apply elem_of_cons in Hin. destruct Hin as [Heq|Hin].
           ++ inversion Heq; subst. exact Hlow.
           ++ eapply Hall; eassumption.
        -- right. destruct Hfrom as [->|(f & Hin & Hf)].
           ++ exists f0. split; [left | exact Hlt].
           ++ exists f. split; [right; exact Hin | exact Hf].
      * destruct (bool_decide_reflect (t0 < low0)) as [Hlt2|Hge2];
          intros Ha Hzero Hle Hall Hfrom.
        -- assert (Hlow : hwm < low ∧ low ≤ t0).
           { destruct Hfrom as [->|(f & Hin & Hf)]; [lia|]. split; [exact Hf|].
             apply Hle. lia. }
           split; [exact Hzero|]. split; [lia|]. split.
           ++ intros f t Hin Ht. apply elem_of_cons in Hin. destruct Hin as [Heq|Hin].
              ** inversion Heq; subst. exact Hlow.
              ** eapply Hall; eassumption.
           ++ right. destruct Hfrom as [->|(f & Hin & Hf)].
              ** exists f0. split; [left | exact Hlt].
              ** exists f. split; [right; exact Hin | exact Hf].
        -- assert (Hlow : hwm < low ∧ low ≤ low0).
           { destruct Hfrom as [->|(f & Hin & Hf)]; [lia|]. split; [exact Hf|].
             apply Hle. exact Hnz. }
           split; [exact Hzero|]. split; [lia|]. split.
           ++ intros f t Hin Ht. apply elem_of_cons in Hin. destruct Hin as [Heq|Hin].
              ** inversion Heq; subst. lia.
              ** eapply Hall; eassumption.
           ++ destruct Hfrom as [->|(f & Hin & Hf)]; [left; reflexivity | right].
              exists f. split; [right; exact Hin | exact Hf].
    + intros Ha Hzero Hle Hall Hfrom. split; [exact Hzero|]. split; [exact Hle|]. split.
      * intros f t Hin Ht. apply elem_of_cons in Hin. destruct Hin as [Heq|Hin].
        -- inversion Heq; subst. contradiction.
        -- eapply Hall; eassumption.
      * destruct Hfrom as [->|(f & Hin & Hf)]; [left; reflexivity | right].
        exists f. split; [right; exact Hin | exact Hf].
Qed.

(** X13. The scan of a container: the files changed are exactly the
    recorded files whose mod time is strictly after the container's
    watermark; the new high-water mark is the latest recorded time, or
    the watermark when nothing is later; and, for a watermark that is not
    before the zero time, the new low-water mark is zero when no file
    changed and the earliest of the changed files' times otherwise. *)
Theorem scan_finds_files_after_watermark (highWaterMark : Z)
    (sources : gmap string monitorSource.t) :
  let scan := scanChangedFiles highWaterMark sources in
  let filesChanged := scan.1.1 in
  let newLowWaterMark := scan.1.2 in
  let newHighWaterMark := scan.2 in
  (∀ f, f ∈ filesChanged ↔ ∃ t, recorded sources f t ∧ highWaterMark < t)
  ∧ highWaterMark ≤ newHighWaterMark
  ∧ (∀ f t, recorded sources f t → t ≤ newHighWaterMark)
  ∧ (newHighWaterMark = highWaterMark
     ∨ ∃ f, recorded sources f newHighWaterMark ∧ highWaterMark < newHighWaterMark)
  ∧ (0 ≤ highWaterMark →
     (filesChanged = [] → newLowWaterMark = 0)
     ∧ (∀ f t, recorded sources f t → highWaterMark < t →
               highWaterMark < newLowWaterMark ∧ newLowWaterMark ≤ t)
     ∧ (newLowWaterMark = 0
        ∨ ∃ f, recorded sources f newLowWaterMark ∧ highWaterMark < newLowWaterMark)).
Proof.
  cbv zeta. rewrite scanChangedFiles_flat.
  pose proof (foldl_scanFile_files highWaterMark (allFiles sources) ([], 0, highWaterMark))
    as Hfiles.
  destruct (foldl_scanFile_high_max highWaterMark (allFiles sources) ([], 0, highWaterMark))
    as (Hle & Hmax & Hfrom). cbn [fst snd] in *.
  split.
  { intros f. rewrite Hfiles. split.
    - intros [Hnil|(t & Hin & Ht)]; [inversion Hnil|].
      exists t. split; [apply elem_of_allFiles; exact Hin | exact Ht].
    - intros (t & Hrec & Ht). right. exists t.
      split; [apply elem_of_allFiles; exact Hrec | exact Ht]. }
  split; [exact Hle|]. split.
  { intros f t Hrec. destruct (Z.lt_ge_cases highWaterMark t) as [Hlt|Hge]; [|lia].
    apply (Hmax f). - apply elem_of_allFiles. exact Hrec. - exact Hlt. }
  split.
  { destruct Hfrom as [Heq|(f & Hin & Hf)]; [left; exact Heq | right].
    exists f. split; [apply elem_of_allFiles; exact Hin | exact Hf]. }
  intros Hpos.
  destruct (foldl_scanFile_low_min highWaterMark (allFiles sources) Hpos
              ([], 0, highWaterMark)) as (Hzero & _ & Hmin & Hlow); [left; reflexivity|].
  cbn [fst snd] in *. split.
  { intros Hnone. destruct Hlow as [Heq|(f & Hin & Hf)]; [exact Heq|].
    assert (Hf' : f ∈ (foldl (scanFile highWaterMark) ([], 0, highWaterMark)
                         (allFiles sources)).1.1).
    { apply Hfiles. right. eexists. split; [exact Hin | exact Hf]. }
    rewrite Hnone in Hf'. inversion Hf'. }
  split.
  { intros f t Hrec Ht. apply (Hmin f). - apply elem_of_allFiles. exact Hrec. - exact Ht. }
  destruct Hlow as [Heq|(f & Hin & Hf)]; [left; exact Heq | right].
  exists f. split; [apply elem_of_allFiles; exact Hin | exact Hf].
Qed.

(** A scan from the new high-water mark finds nothing. *)
Lemma scanChangedFiles_again (hwm : Z) (sources : gmap string monitorSource.t) :
  let high := (scanChangedFiles hwm sources).2 in
  scanChangedFiles high sources = ([], 0, high).
Proof.
  cbv zeta.
  assert (Hall : ∀ f t, (f, t) ∈ allFiles sources → t ≤ (scanChangedFiles hwm sources).2).
  { intros f t Hin. rewrite scanChangedFiles_flat.
    destruct (foldl_scanFile_high_max hwm (allFiles sources) ([], 0, hwm))
      as (Hle & Hmax & _). cbn [snd] in *.
    destruct (Z.lt_ge_cases hwm t) as [Hlt|Hge]; [|lia]. eapply Hmax; eassumption. }
  revert Hall. generalize (scanChangedFiles hwm sources).2. intros high Hall.
  rewrite scanChangedFiles_flat. revert Hall. generalize (([] : list string), 0, high).
  induction (allFiles sources) as [|[f t] l IH]; intros acc Hall; [reflexivity|].
  cbn [foldl]. assert (Hno : scanFile high acc (f, t) = acc).
  { destruct acc as [[files low] high0]. unfold scanFile, After.
    rewrite bool_decide_eq_false_2; [reflexivity|].
    specialize (Hall f t). assert (t ≤ high) by (apply Hall; left). lia. }
  rewrite Hno. apply IH. intros f' t' Hin. eapply Hall. right. exact Hin.
Qed.

(** ** A synced container is not synced again *)

(** X14. Once a visit has applied files to a container without a
    failure, a later visit of that container, while the monitor holds the
    same files and the entry the first visit left, finds no file after
    the watermark: it dispatches nothing, calls no updater, and leaves
    the stored lastFileTimeSynced as it is. (For a planner that plans no
    sync for no changed file, a reconciler that started after the zero
    time, and stored watermarks that are zero or not before its start.) *)
Theorem synced_container_is_not_synced_again (r : Reconciler W) (lu : LiveUpdate.t)
    (trig trig' : bool) (pod : Pod.t) (cInfo : Container.t)
    (s s2 : passState) (w w2 : World W) :
  plansNothingForNothing D →
  0 < r.(startedTime) →
  watermarksFrom r.(startedTime) s.(passMonitor).(monitor.containers) →
  let cKey := mkContainerKey cInfo.(Container.ID) pod.(Pod.Name) pod.(Pod.Namespace) in
  let first := syncContainer D r lu trig pod cInfo s w in
  first.1.1 = false →
  (∃ new, trace first.2 = trace w ++ new ∧ existsb isUpdateContainer new = true) →
  s2.(passMonitor).(monitor.sources) = s.(passMonitor).(monitor.sources) →
  s2.(passMonitor).(monitor.containers) !! cKey
  = first.1.2.(passMonitor).(monitor.containers) !! cKey →
  let second := syncContainer D r lu trig' pod cInfo s2 w2 in
  trace second.2 = trace w2
  ∧ ∃ c c',
      first.1.2.(passMonitor).(monitor.containers) !! cKey = Some c
      ∧ second.1.2.(passMonitor).(monitor.containers) !! cKey = Some c'
      ∧ c'.(monitorContainerStatus.lastFileTimeSynced)
        = c.(monitorContainerStatus.lastFileTimeSynced).
Proof.
  intros Hplan Hpos Hfrom. cbv zeta. intros Hstop (new & Hnew & Hcalled) Hsources Hentry.
  destruct (syncContainer D r lu trig pod cInfo s w) as [[stop s1] w1] eqn:Hfirst.
  cbn [fst snd] in *. subst stop.
  pose proof (syncContainer_run _ _ _ _ _ _ _ _ _ _ Hfirst) as Hrun. cbv zeta in Hrun.
  destruct Hrun as [_ Hrun].
  destruct (isTerminated pod cInfo) eqn:Hterm.
  { destruct Hrun as (_ & -> & _). apply (f_equal length) in Hnew.
    rewrite length_app in Hnew. destruct new; [discriminate | cbn in Hnew; lia]. }
  destruct Hrun as (_ & c1 & applied & upd & Hm1 & Htr & _ & _ & Hupd & _ & _ & Hlft & _).
  assert (Happlied : applied = true).
  { destruct applied; [reflexivity|]. rewrite (Hupd eq_refl) in Htr.
    unfold startedAndUpdates in Htr. cbn in Htr. rewrite Htr in Hnew.
    apply app_inv_head in Hnew. subst new. discriminate. }
  subst applied.
  set (cKey := mkContainerKey (Container.ID cInfo) (Pod.Name pod) (Pod.Namespace pod)) in *.
  set (hwm := highWaterMarkOf (startedTime r) (monitor.containers (passMonitor s) !! cKey))
    in *.
  assert (Hhwm : 0 < hwm).
  { unfold hwm, highWaterMarkOf, IsZero.
    destruct (monitor.containers (passMonitor s) !! cKey) as [c0|] eqn:Hc0; [|exact Hpos].
    destruct (bool_decide_reflect (monitorContainerStatus.lastFileTimeSynced c0 = 0));
      cbn [negb]; [exact Hpos|].
    destruct (Hfrom _ _ Hc0); lia. }
  pose proof (scanChangedFiles_high hwm (monitor.sources (passMonitor s))) as Hhigh.
  pose proof (scanChangedFiles_again hwm (monitor.sources (passMonitor s))) as Hagain.
  cbv zeta in Hagain.
  set (high := (scanChangedFiles hwm (monitor.sources (passMonitor s))).2) in *.
  assert (Hc1 : monitor.containers (passMonitor s1) !! cKey = Some c1).
  { rewrite Hm1. cbn [monitor.set_containers monitor.containers].
    apply lookup_insert_eq. }
  rewrite Hc1 in Hentry.
  destruct (syncContainer D r lu trig' pod cInfo s2 w2) as [[stop2 s3] w3] eqn:Hsecond.
  cbn [fst snd]. unfold syncContainer in Hsecond. fold cKey in Hsecond.
  rewrite Hentry, Hsources, Hterm in Hsecond.
  assert (Hmark : highWaterMarkOf (startedTime r) (Some c1) = high).
  { unfold highWaterMarkOf, IsZero. rewrite Hlft.
    rewrite bool_decide_eq_false_2 by lia. reflexivity. }
  rewrite Hmark, Hagain in Hsecond. cbn [fst snd] in Hsecond.
  change (DedupedAndSorted []) with (@nil string) in Hsecond.
  unfold bind at 1 in Hsecond.
  match type of Hsecond with
  | context [planAndApply D r lu pod cInfo ?cs ?wt [] ?h ?d w2] =>
      destruct (planAndApply_nothing r lu pod cInfo cs wt h d w2 Hplan) as [one Hone];
      rewrite Hone in Hsecond
  end.
  unfold bind at 1 in Hsecond.
  destruct (adjustFailedStateTimestamps D lu one w2) as [one' w4] eqn:Hadj.
  apply adjustFailedStateTimestamps_run in Hadj. destruct Hadj as (Htr4 & _).
  change (default monitorContainerStatus.zero (Some c1)) with c1 in Hsecond.
  unfold updatedContainerStatus in Hsecond.
  destruct (LiveUpdateStatus.Failed one') as [f|]; unfold ret in Hsecond;
    inversion Hsecond; subst; cbn [passMonitor monitor.set_containers monitor.containers];
    (split; [exact Htr4|]); eexists c1, _;
    (split; [exact Hc1|]); (split; [apply lookup_insert_eq | reflexivity]).
Qed.

(** ** Garbage collection of failures and of containers *)

Lemma garbageCollectOneSource_gcTimeAt (res : luResource) (m : monitor.t)
    (source s : LiveUpdateSource.t) :
  gcTimeAt D res (garbageCollectOneSource D res m source) s = gcTimeAt D res m s.
Proof.
  unfold gcTimeAt.
  destruct (monitor.sources m !! LiveUpdateSource.FileWatch s) as [ms|] eqn:Hs.
  - destruct (garbageCollectOneSource_source res m source _ ms Hs) as (ms' & -> & [Hi _] & _).
    cbn. rewrite (gcTimeOf_lastImageStatus res ms ms' Hi). reflexivity.
  - assert (Hn : monitor.sources (garbageCollectOneSource D res m source)
                 !! LiveUpdateSource.FileWatch s = None).
    { unfold garbageCollectOneSource.
      destruct (monitor.sources m !! LiveUpdateSource.FileWatch source) as [ms0|] eqn:H0;
        [|exact Hs].
      destruct (negb (IsZero (gcTimeOf D res ms0))); [|exact Hs].
      cbn [monitor.set_containers monitor.set_sources monitor.sources].
      rewrite lookup_insert_ne; [exact Hs | congruence]. }
    rewrite Hn. reflexivity.
Qed.

Lemma garbageCollectOneSource_gcTimes (res : luResource) (m : monitor.t)
    (source : LiveUpdateSource.t) (l : list LiveUpdateSource.t) :
  omap (gcTimeAt D res (garbageCollectOneSource D res m source)) l
  = omap (gcTimeAt D res m) l.
Proof.
  induction l as [|s l IH]; [reflexivity|].
  cbn [omap list_omap]. rewrite garbageCollectOneSource_gcTimeAt, IH. reflexivity.
Qed.

Lemma garbageCollectOneSource_clears (res : luResource) (m : monitor.t)
    (source : LiveUpdateSource.t) :
  (garbageCollectOneSource D res m source).(monitor.containers)
  = match gcTimeAt D res m source with
    | Some gcTime => clearStaleFailure gcTime <$> m.(monitor.containers)
    | None => m.(monitor.containers)
    end.
Proof.
  unfold garbageCollectOneSource, gcTimeAt.
  destruct (monitor.sources m !! LiveUpdateSource.FileWatch source) as [ms|]; [|reflexivity].
  cbn. destruct (IsZero (gcTimeOf D res ms)); reflexivity.
Qed.

Lemma garbageCollect_clears (res : luResource) (sources : list LiveUpdateSource.t) :
  ∀ m, (foldl (garbageCollectOneSource D res) m sources).(monitor.containers)
       = foldl (λ cs gcTime, clearStaleFailure gcTime <$> cs) m.(monitor.containers)
           (omap (gcTimeAt D res m) sources).
Proof.
  induction sources as [|s sources IH]; intros m; [reflexivity|].
  cbn [foldl omap list_omap]. rewrite IH, garbageCollectOneSource_clears.
  pose proof (garbageCollectOneSource_gcTimes res m s sources) as Hsame.
  rewrite Hsame. destruct (gcTimeAt D res m s); reflexivity.
Qed.

Lemma clearStaleFailures_one (gcTimes : list Z) :
  ∀ c : monitorContainerStatus.t,
    let c' := foldl (λ c gcTime, clearStaleFailure gcTime c) c gcTimes in
    c'.(monitorContainerStatus.lastFileTimeSynced)
    = c.(monitorContainerStatus.lastFileTimeSynced)
    ∧ (staleFailure gcTimes c →
       c' = monitorContainerStatus.mk c.(monitorContainerStatus.lastFileTimeSynced) "" "" 0)
    ∧ (¬ staleFailure gcTimes c → c' = c).
Proof.
  induction gcTimes as [|g gcTimes IH]; intros c; cbv zeta; cbn [foldl].
  - split; [reflexivity|]. split; [|reflexivity].
    intros [_ Hex]. inversion Hex.
  - destruct (IH (clearStaleFailure g c)) as (Hlft & Hstale & Hfresh).
    unfold clearStaleFailure, IsZero, After in *.
    destruct (bool_decide_reflect (monitorContainerStatus.failedLowWaterMark c = 0))
      as [Hz|Hnz]; cbn [negb andb] in *.
    + split; [exact Hlft|]. split.
      * intros [Hne _]. contradiction.
      * intros _. apply Hfresh. intros [Hne _]. contradiction.
    + destruct (bool_decide_reflect (monitorContainerStatus.failedLowWaterMark c < g))
        as [Hlt|Hge].
      * assert (Hdone : ¬ staleFailure gcTimes
                            (monitorContainerStatus.mk
                               (monitorContainerStatus.lastFileTimeSynced c) "" "" 0)).
        { intros [Hne _]. apply Hne. reflexivity. }
        split; [exact Hlft|]. split.
        -- intros _. apply Hfresh. exact Hdone.
        -- intros Hno. exfalso. apply Hno. split; [exact Hnz|]. left. exact Hlt.
      * split; [exact Hlft|]. split.
        -- intros [_ Hex]. apply Hstale. split; [exact Hnz|].
           inversion Hex; subst; [contradiction | assumption].
        -- intros Hno. apply Hfresh. intros [_ Hex]. apply Hno.
           split; [exact Hnz|]. right. exact Hex.
Qed.

Lemma clearStaleFailures_lookup (gcTimes : list Z) (k : string * string * string) :
  ∀ cs : gmap (string * string * string) monitorContainerStatus.t,
    foldl (λ cs gcTime, clearStaleFailure gcTime <$> cs) cs gcTimes !! k
    = (λ c, foldl (λ c gcTime, clearStaleFailure gcTime c) c gcTimes) <$> cs !! k.
Proof.
  induction gcTimes as [|g gcTimes IH]; intros cs; cbn [foldl].
  - destruct (cs !! k); reflexivity.
  - rewrite IH, lookup_fmap. destruct (cs !! k); reflexivity.
Qed.

(** X16. Garbage collection of the file changes also forgets
    stale failures: the failure of a container (reason, message and
    low-water mark) is cleared exactly when it has a low-water mark that
    is strictly before the watermark of some source of the spec; no entry
    is added or removed, and no lastFileTimeSynced changes. *)
Theorem gc_clears_stale_failures (res : luResource) (m : monitor.t)
    (k : string * string * string) :
  let after := (garbageCollectFileChanges D res m).(monitor.containers) in
  match m.(monitor.containers) !! k with
  | None => after !! k = None
  | Some c =>
      ∃ c', after !! k = Some c'
            ∧ c'.(monitorContainerStatus.lastFileTimeSynced)
              = c.(monitorContainerStatus.lastFileTimeSynced)
            ∧ (staleFailure (gcTimes D res m) c →
               c'.(monitorContainerStatus.failedReason) = ""
               ∧ c'.(monitorContainerStatus.failedMessage) = ""
               ∧ c'.(monitorContainerStatus.failedLowWaterMark) = 0)
            ∧ (¬ staleFailure (gcTimes D res m) c → c' = c)
  end.
Proof.
  cbv zeta. unfold garbageCollectFileChanges, gcTimes.
  rewrite garbageCollect_clears, clearStaleFailures_lookup.
  destruct (monitor.containers m !! k) as [c|]; [|reflexivity].
  destruct (clearStaleFailures_one
              (omap (gcTimeAt D res m) (LiveUpdateSpec.Sources (monitor.spec m))) c)
    as (Hlft & Hstale & Hfresh).
  eexists. split; [reflexivity|]. split; [exact Hlft|]. split; [|exact Hfresh].
  intros Hs. rewrite (Hstale Hs). auto.
Qed.

Lemma selectedContainerIDs_spec (res : luResource) (id : string) :
  id ∈ selectedContainerIDs D res
  ↔ id ≠ "" ∧ ∃ pc, pc ∈ selectedContainers D res ∧ pc.2.(Container.ID) = id.
Proof.
  split.
  - unfold selectedContainerIDs. generalize (selectedContainers D res). intros selected.
    assert (Hgen : ∀ (l : list (Pod.t * Container.t)) (ids : gset string),
              id ∈ foldl (λ (ids : gset string) (pc : Pod.t * Container.t),
                            if decide (pc.2.(Container.ID) = "") then ids
                            else {[ pc.2.(Container.ID) ]} ∪ ids) ids l →
              id ∈ ids ∨ (id ≠ "" ∧ ∃ pc, pc ∈ l ∧ pc.2.(Container.ID) = id)).
    { induction l as [|pc l IH]; intros ids Hin; cbn [foldl] in Hin; [left; exact Hin|].
      destruct (IH _ Hin) as [Hids|(Hne & pc' & Hpc' & Hid)].
      - destruct (decide (Container.ID pc.2 = "")) as [He|Hne]; [left; exact Hids|].
        apply elem_of_union in Hids. destruct Hids as [Hs|Hids]; [|left; exact Hids].
        apply elem_of_singleton in Hs. subst id. right. split; [exact Hne|].
        exists pc. split; [left | reflexivity].
      - right. split; [exact Hne|]. exists pc'. split; [right; exact Hpc' | exact Hid]. }
    intros Hin. destruct (Hgen _ _ Hin) as [Hempty|H]; [|exact H].
    apply elem_of_empty in Hempty. contradiction.
  - intros (Hne & pc & Hin & <-). apply selectedContainerIDs_elem; assumption.
Qed.

(** X17. Garbage collection of the container monitors keeps
    exactly the entries whose container ID is not empty and is the ID of
    a selected container, whatever pod and namespace the entry names;
    the entries kept are unchanged and so is the rest of the monitor. *)
Theorem gc_keeps_selected_containers (res : luResource) (m : monitor.t) :
  let after := garbageCollectMonitorContainers D res m in
  (∀ k c,
     after.(monitor.containers) !! k = Some c
     ↔ m.(monitor.containers) !! k = Some c
       ∧ key_containerID k ≠ ""
       ∧ ∃ pc, pc ∈ selectedContainers D res ∧ pc.2.(Container.ID) = key_containerID k)
  ∧ monitor.set_containers m.(monitor.containers) after = m.
Proof.
  cbv zeta. split.
  - intros k c. unfold garbageCollectMonitorContainers.
    cbn [monitor.set_containers monitor.containers].
    rewrite map_lookup_filter_Some. cbn [fst]. rewrite selectedContainerIDs_spec. tauto.
  - destruct m. reflexivity.
Qed.

(** ** The calls of [applyInternal] *)

Lemma applyContainers_calls (cu : UpdaterKind * ContainerUpdater W) (input : Input.t)
    (toRemove toArchive : list PathMapping.t) (steps : list Cmd.t) (hot : bool)
    (containers : list LUContainer.t) :
  ∀ (result : LiveUpdateStatus.t) (last : option LiveUpdateContainerStatus.t)
    (w : World W) (out : LiveUpdateStatus.t) (w' : World W),
    applyContainers D cu input toRemove toArchive steps hot containers result last w
    = (out, w') →
    ∃ (n : nat) (sts : list LiveUpdateContainerStatus.t),
      (n ≤ length containers)%nat
      ∧ trace w' = trace w ++ (updaterCall cu.1 toArchive toRemove steps hot <$> take n containers)
      ∧ out.(LiveUpdateStatus.Containers) = result.(LiveUpdateStatus.Containers) ++ sts
      ∧ statusNames <$> sts = containerNames <$> take (length sts) containers
      ∧ Forall (λ st, st.(LiveUpdateContainerStatus.Waiting) = None
                      ∧ (input.(Input.LastFileTimeSynced) ≠ 0 →
                         st.(LiveUpdateContainerStatus.LastFileTimeSynced)
                         = input.(Input.LastFileTimeSynced))) sts
      ∧ ((out.(LiveUpdateStatus.Failed) = result.(LiveUpdateStatus.Failed)
          ∧ n = length containers ∧ length sts = n)
         ∨ (∃ reason msg,
              out.(LiveUpdateStatus.Failed) = Some (LiveUpdateStateFailed.mk reason msg 0)
              ∧ (reason = "UpdateFailed"
                 ∨ (reason = "PodsInconsistent" ∧ (is_Some last ∨ 2 ≤ n)%nat))
              ∧ S (length sts) = n)).
Proof.
  induction containers as [|c containers IH]; intros result last w out w' Hrun.
  - cbn in Hrun. inversion Hrun; subst. exists 0%nat, []. cbn. rewrite !app_nil_r.
    repeat split; auto.
  - cbn [applyContainers] in Hrun.
    unfold callUpdateContainer, emit, liftW, bind in Hrun.
    cbv beta in Hrun. cbn [ext trace] in Hrun.
    destruct (UpdateContainer cu.2 c toArchive _ steps hot (ext w)) as [err e1].
    match type of Hrun with context [(if IsZero ?t then now D else ret ?t) ?w1] =>
      destruct ((if IsZero t then now D else ret t) w1) as [lfts w2] eqn:Hl;
      assert (Ht2 : trace w2 = trace w1 ∧ (t ≠ 0 → lfts = t))
        by (unfold IsZero in Hl; destruct (bool_decide_reflect (t = 0));
            [ split; [exact (now_trace _ _ _ Hl) | intros; contradiction]
            | unfold ret in Hl; inversion Hl; split; reflexivity ])
    end. cbn [trace] in Ht2. destruct Ht2 as [Ht2 Hlfts].
    assert (Hrec : ∀ lastErr nextLast,
              applyContainers D cu input toRemove toArchive steps hot containers
                (LiveUpdateStatus.mk
                   (result.(LiveUpdateStatus.Containers)
                    ++ [LiveUpdateContainerStatus.mk c.(LUContainer.ContainerName)
                          c.(LUContainer.ContainerID) c.(LUContainer.PodID)
                          c.(LUContainer.Namespace) lfts lastErr None])
                   result.(LiveUpdateStatus.Failed))
                nextLast w2 = (out, w') →
              ∃ (n : nat) (sts : list LiveUpdateContainerStatus.t),
                (n ≤ length (c :: containers))%nat
                ∧ trace w' = trace w ++ (updaterCall cu.1 toArchive toRemove steps hot
                                          <$> take n (c :: containers))
                ∧ out.(LiveUpdateStatus.Containers) = result.(LiveUpdateStatus.Containers) ++ sts
                ∧ statusNames <$> sts = containerNames <$> take (length sts) (c :: containers)
                ∧ Forall (λ st, st.(LiveUpdateContainerStatus.Waiting) = None
                                ∧ (input.(Input.LastFileTimeSynced) ≠ 0 →
                                   st.(LiveUpdateContainerStatus.LastFileTimeSynced)
                                   = input.(Input.LastFileTimeSynced))) sts
                ∧ ((out.(LiveUpdateStatus.Failed) = result.(LiveUpdateStatus.Failed)
                    ∧ n = length (c :: containers) ∧ length sts = n)
                   ∨ (∃ reason msg,
                        out.(LiveUpdateStatus.Failed)
                        = Some (LiveUpdateStateFailed.mk reason msg 0)
                        ∧ (reason = "UpdateFailed"
                           ∨ (reason = "PodsInconsistent" ∧ (is_Some last ∨ 2 ≤ n)%nat))
                        ∧ S (length sts) = n))).
    { intros lastErr nextLast Hnext. apply IH in Hnext.
      destruct Hnext as (n & sts & Hn & Htr & Hout & Hnames & Hall & Hend).
      cbn [LiveUpdateStatus.Containers LiveUpdateStatus.Failed] in *.
      eexists (S n), (_ :: sts). split; [cbn; lia|].
      split; [rewrite Htr, Ht2; cbn [take fmap list_fmap]; rewrite <- app_assoc; reflexivity|].
      split; [rewrite Hout, <- app_assoc; reflexivity|].
      split; [cbn [length take fmap list_fmap]; rewrite <- Hnames; reflexivity|].
      split; [constructor; [split; [reflexivity | exact Hlfts] | exact Hall]|].
      destruct Hend as [(Hf & -> & Hlen)|(reason & msg & Hf & Hr & Hlen)].
      - left. cbn [length]. auto.
      - right. exists reason, msg. cbn [length]. split; [exact Hf|]. split; [|lia].
        destruct Hr as [Hr|[Hr _]]; [left; exact Hr | right].
        split; [exact Hr | right; lia]. }
    assert (Hstop : ∀ reason msg,
              (reason = "UpdateFailed" ∨ (reason = "PodsInconsistent" ∧ is_Some last)) →
              (withContainerFailed result reason msg, w2) = (out, w') →
              ∃ (n : nat) (sts : list LiveUpdateContainerStatus.t),
                (n ≤ length (c :: containers))%nat
                ∧ trace w' = trace w ++ (updaterCall cu.1 toArchive toRemove steps hot
                                          <$> take n (c :: containers))
                ∧ out.(LiveUpdateStatus.Containers) = result.(LiveUpdateStatus.Containers) ++ sts
                ∧ statusNames <$> sts = containerNames <$> take (length sts) (c :: containers)
                ∧ Forall (λ st, st.(LiveUpdateContainerStatus.Waiting) = None
                                ∧ (input.(Input.LastFileTimeSynced) ≠ 0 →
                                   st.(LiveUpdateContainerStatus.LastFileTimeSynced)
                                   = input.(Input.LastFileTimeSynced))) sts
                ∧ ((out.(LiveUpdateStatus.Failed) = result.(LiveUpdateStatus.Failed)
                    ∧ n = length (c :: containers) ∧ length sts = n)
                   ∨ (∃ reason msg,
                        out.(LiveUpdateStatus.Failed)
                        = Some (LiveUpdateStateFailed.mk reason msg 0)
                        ∧ (reason = "UpdateFailed"
                           ∨ (reason = "PodsInconsistent" ∧ (is_Some last ∨ 2 ≤ n)%nat))
                        ∧ S (length sts) = n))).
    { intros reason msg Hr Heq. inversion Heq; subst. exists 1%nat, [].
      cbn [length take fmap list_fmap]. rewrite take_0, app_nil_r.
      split; [lia|]. split; [exact Ht2|]. split; [reflexivity|]. split; [reflexivity|].
      split; [constructor|]. right. exists reason, msg. split; [reflexivity|].
      split; [|reflexivity]. destruct Hr as [Hr|[Hr Hlast]]; [left; exact Hr | right; auto]. }
    destruct err as [err|].
    + destruct (IsRunStepFailure err).
      * eapply Hrec. exact Hrun.
      * unfold ret in Hrun. eapply Hstop; [|exact Hrun]. left; reflexivity.
    + destruct last as [failedStatus|].
      * unfold ret in Hrun. eapply Hstop; [|exact Hrun]. right. split; [reflexivity | eauto].
      * eapply Hrec. exact Hrun.
Qed.

(** What [applyInternal] does, for any number of containers. *)
Lemma applyInternal_calls (r : Reconciler W) (spec : LiveUpdateSpec.t) (input : Input.t)
    (w : World W) (out : LiveUpdateStatus.t) (w' : World W) :
  applyInternal D r spec input w = (out, w') →
  ∃ (n : nat) (toArchive toRemove : list PathMapping.t) (steps : list Cmd.t),
    (n ≤ length input.(Input.Containers))%nat
    ∧ trace w' = trace w
                 ++ (updaterCall (containerUpdater r input).1 toArchive toRemove steps
                       (negb (ShouldRestart D spec))
                     <$> take n input.(Input.Containers))
    ∧ Forall (λ st, st.(LiveUpdateContainerStatus.Waiting) = None
                    ∧ (input.(Input.LastFileTimeSynced) ≠ 0 →
                       st.(LiveUpdateContainerStatus.LastFileTimeSynced)
                       = input.(Input.LastFileTimeSynced)))
        out.(LiveUpdateStatus.Containers)
    ∧ match out.(LiveUpdateStatus.Failed) with
      | None =>
          n = length input.(Input.Containers)
          ∧ statusNames <$> out.(LiveUpdateStatus.Containers)
            = containerNames <$> input.(Input.Containers)
      | Some f =>
          f.(LiveUpdateStateFailed.LastTransitionTime) = 0
          ∧ ((f.(LiveUpdateStateFailed.Reason) = "Invalid" ∧ n = 0%nat
              ∧ out.(LiveUpdateStatus.Containers) = [])
             ∨ ((f.(LiveUpdateStateFailed.Reason) = "UpdateFailed" ∧ (0 < n)%nat
                 ∨ f.(LiveUpdateStateFailed.Reason) = "PodsInconsistent" ∧ (2 ≤ n)%nat)
                ∧ statusNames <$> out.(LiveUpdateStatus.Containers)
                  = containerNames <$> take (n - 1) input.(Input.Containers)))
      end.
Proof.
  unfold applyInternal. intros Hrun.
  destruct (BoilRuns D _ _) as [boiled|err].
  - unfold bind, liftW in Hrun.
    destruct (MissingLocalPaths D _ (ext w)) as [[[toRemove toArchive]|err] e1].
    + apply applyContainers_calls in Hrun. cbn [trace] in Hrun.
      destruct Hrun as (n & sts & Hn & Htr & Hout & Hnames & Hall & Hend).
      cbn [LiveUpdateStatus.zero LiveUpdateStatus.Containers LiveUpdateStatus.Failed app]
        in Hout, Hend.
      exists n, toArchive, toRemove, boiled. split; [exact Hn|]. split; [exact Htr|].
      rewrite Hout. split; [exact Hall|].
      destruct Hend as [(-> & -> & Hlen)|(reason & msg & -> & Hr & Hlen)].
      * split; [reflexivity|]. rewrite Hnames, Hlen. rewrite firstn_all. reflexivity.
      * cbn. split; [reflexivity|]. right. split.
        -- destruct Hr as [Hr|[Hr [[? Hlast]|Hlast]]];
             [left; split; [exact Hr | lia] | discriminate Hlast |].
           right. split; [exact Hr | exact Hlast].
        -- rewrite Hnames. f_equal. f_equal. lia.
    + unfold ret in Hrun. inversion Hrun; subst. exists 0%nat, [], [], boiled. cbn.
      rewrite take_0, app_nil_r. split; [lia|]. split; [reflexivity|].
      split; [constructor|]. split; [reflexivity|]. left. auto.
  - unfold ret in Hrun. inversion Hrun; subst. exists 0%nat, [], [], []. cbn.
    rewrite take_0, app_nil_r. split; [lia|]. split; [reflexivity|].
    split; [constructor|]. split; [reflexivity|]. left. auto.
Qed.

(** X23. [applyInternal] calls the updater on a prefix of the
    containers of its input, in order, each with the same files,
    removals, steps and restart mode. Without a failure it has called
    every container and the status lists them all, in order. A failure is
    Invalid, with no updater call at all (the steps or the paths of the
    input are bad), UpdateFailed, after at least one call, or
    PodsInconsistent, after at least two calls; then the status lists the
    containers called before the last one. A failure carries no
    transition time yet. *)
Theorem applyInternal_updates_in_order (r : Reconciler W) (spec : LiveUpdateSpec.t)
    (input : Input.t) (w : World W) :
  let out := applyInternal D r spec input w in
  ∃ (n : nat) (toArchive toRemove : list PathMapping.t) (steps : list Cmd.t),
    (n ≤ length input.(Input.Containers))%nat
    ∧ trace out.2 = trace w
                    ++ (updaterCall (containerUpdater r input).1 toArchive toRemove steps
                          (negb (ShouldRestart D spec))
                        <$> take n input.(Input.Containers))
    ∧ match out.1.(LiveUpdateStatus.Failed) with
      | None =>
          n = length input.(Input.Containers)
          ∧ statusNames <$> out.1.(LiveUpdateStatus.Containers)
            = containerNames <$> input.(Input.Containers)
      | Some f =>
          f.(LiveUpdateStateFailed.LastTransitionTime) = 0
          ∧ ((f.(LiveUpdateStateFailed.Reason) = "Invalid" ∧ n = 0%nat
              ∧ out.1.(LiveUpdateStatus.Containers) = [])
             ∨ ((f.(LiveUpdateStateFailed.Reason) = "UpdateFailed" ∧ (0 < n)%nat
                 ∨ f.(LiveUpdateStateFailed.Reason) = "PodsInconsistent" ∧ (2 ≤ n)%nat)
                ∧ statusNames <$> out.1.(LiveUpdateStatus.Containers)
                  = containerNames <$> take (n - 1) input.(Input.Containers)))
      end.
Proof.
  cbv zeta. destruct (applyInternal D r spec input w) as [out w'] eqn:Hrun.
  apply applyInternal_calls in Hrun.
  destruct Hrun as (n & toArchive & toRemove & steps & Hn & Htr & _ & Hend).
  exists n, toArchive, toRemove, steps. auto.
Qed.

(** ** One visit of a live container, case by case *)

Lemma containerUpdater_updaterOf (r : Reconciler W) (lu : LiveUpdate.t)
    (files : list PathMapping.t) (containers : list LUContainer.t) (hw : Z) :
  (containerUpdater r
     (Input.mk (bool_decide (is_Some lu.(LiveUpdate.Spec).(LiveUpdateSpec.Selector)
                                       .(LiveUpdateSelector.DockerCompose)))
        files containers hw)).1
  = updaterOf r lu.
Proof.
  unfold containerUpdater, updaterOf. cbn [Input.IsDC].
  destruct (_ || _); reflexivity.
Qed.

Lemma planAndApply_cases (r : Reconciler W) (lu : LiveUpdate.t) (pod : Pod.t)
    (cInfo : Container.t) (cStatus : monitorContainerStatus.t)
    (waiting : option LiveUpdateContainerStateWaiting.t) (filesChanged : list string)
    (hw : Z) (dispatched : bool) (w : World W)
    (one : LiveUpdateStatus.t) (applied dispatched' : bool) (w' : World W) :
  planAndApply D r lu pod cInfo cStatus waiting filesChanged hw dispatched w
  = ((one, applied, dispatched'), w') →
  (applied = false ∧ dispatched' = dispatched ∧ trace w' = trace w
   ∧ (one = recordedStatus pod cInfo cStatus waiting
      ∨ ∃ f, one = LiveUpdateStatus.mk [] (Some f)
             ∧ (f.(LiveUpdateStateFailed.Reason) = "UpdateStopped"
                ∨ f.(LiveUpdateStateFailed.Reason) = "CrashLoopBackOff")))
  ∨ (applied = true ∧ dispatched' = true ∧ waiting = None
     ∧ isCrashLoopBackOff cInfo = false
     ∧ ∃ (calls : list Event) (toArchive toRemove : list PathMapping.t) (steps : list Cmd.t),
         trace w' = trace w ++ buildStarted lu filesChanged dispatched ++ calls
         ∧ (calls = []
            ∨ calls = [updaterCall (updaterOf r lu) toArchive toRemove steps
                         (negb (ShouldRestart D lu.(LiveUpdate.Spec)))
                         (containerOf pod cInfo)])
         ∧ match one.(LiveUpdateStatus.Failed) with
           | None =>
               calls ≠ []
               ∧ ∃ st, one.(LiveUpdateStatus.Containers) = [st]
                       ∧ statusNames st = containerNames (containerOf pod cInfo)
                       ∧ st.(LiveUpdateContainerStatus.Waiting) = None
                       ∧ (hw ≠ 0 → st.(LiveUpdateContainerStatus.LastFileTimeSynced) = hw)
           | Some f =>
               one.(LiveUpdateStatus.Containers) = []
               ∧ (f.(LiveUpdateStateFailed.Reason) = "Invalid" ∧ calls = []
                  ∨ f.(LiveUpdateStateFailed.Reason) = "UpdateFailed" ∧ calls ≠ [])
           end).
Proof.
  unfold planAndApply. intros Hrun.
  destruct (createLiveUpdatePlan D _ _) as [plan [failed|]] eqn:Hplan.
  { unfold ret in Hrun. inversion Hrun; subst. left. repeat split; auto. right.
    exists failed. split; [reflexivity|]. left.
    unfold createLiveUpdatePlan in Hplan.
    destruct (NewLiveUpdatePlan D _ _) as [plan0 [err|]].
    - inversion Hplan; reflexivity.
    - destruct (decide _); [inversion Hplan; reflexivity|].
      destruct (LiveUpdatePlan.StopPaths plan0); inversion Hplan; reflexivity. }
  destruct (decide _) as [Hempty|Hsync].
  { unfold ret in Hrun. inversion Hrun; subst. left. repeat split; auto. }
  destruct (isCrashLoopBackOff cInfo) eqn:Hcrash.
  { unfold bind, ret in Hrun. rewrite createFailedState_eq in Hrun.
    inversion Hrun; subst. left. repeat split; auto. right.
    eexists. split; [reflexivity|]. right. reflexivity. }
  destruct waiting as [wt|].
  { unfold ret in Hrun. inversion Hrun; subst. left. repeat split; auto. }
  unfold bind in Hrun.
  destruct ((if dispatched then ret () else dispatchStartBuildAction lu filesChanged) w)
    as [[] w1] eqn:Hstart.
  destruct (applyInternal D r _ _ w1) as [out w2] eqn:Happly.
  unfold ret in Hrun. inversion Hrun; subst. clear Hrun.
  assert (Hw1 : trace w1 = trace w ++ buildStarted lu filesChanged dispatched).
  { unfold buildStarted. destruct dispatched.
    - unfold ret in Hstart. inversion Hstart; subst. rewrite app_nil_r. reflexivity.
    - unfold dispatchStartBuildAction, emit in Hstart. inversion Hstart; subst. reflexivity. }
  apply applyInternal_calls in Happly.
  destruct Happly as (n & toArchive & toRemove & steps & Hn & Htr & Hall & Hend).
  cbn [Input.Containers Input.LastFileTimeSynced length] in *.
  rewrite containerUpdater_updaterOf in Htr.
  right. split; [reflexivity|]. split; [reflexivity|]. split; [reflexivity|].
  split; [reflexivity|].
  eexists _, toArchive, toRemove, steps.
  split; [rewrite Htr, Hw1, <- app_assoc; reflexivity|].
  fold (containerOf pod cInfo) in *.
  destruct n as [|[|n]]; [| |lia].
  - split; [left; reflexivity|].
    revert Hend. destruct (LiveUpdateStatus.Failed one) as [f|]; intros Hend.
    + destruct Hend as (_ & [(Hr & _ & Hc)|([[_ Hlt]|[_ Hlt]] & _)]); [|lia|lia].
      split; [exact Hc|]. left. split; [exact Hr | reflexivity].
    + destruct Hend as [Hlen _]. discriminate Hlen.
  - split; [right; reflexivity|].
    revert Hend. destruct (LiveUpdateStatus.Failed one) as [f|]; intros Hend.
    + destruct Hend as (_ & [(_ & Hz & _)|([[Hr _]|[_ Hlt]] & Hnames)]); [discriminate Hz| |lia].
      cbn in Hnames. split.
      * destruct (LiveUpdateStatus.Containers one); [reflexivity | discriminate].
      * right. split; [exact Hr | discriminate].
    + destruct Hend as [_ Hnames]. split; [discriminate|].
      destruct (LiveUpdateStatus.Containers one) as [|st [|st2 sts]];
        [discriminate | | discriminate].
      exists st. split; [reflexivity|]. cbn [fmap list_fmap] in Hnames.
      split; [congruence|].
      inversion Hall as [|? ? [Hwait Hlft] _]; subst. split; [exact Hwait | exact Hlft].
Qed.

(** The visit of a container that is not terminated: either nothing is
    applied (the container is recorded as it is, or the plan or the state
    of the container stops the pass), or the updater is called once (and
    the pass goes on with the container synced, or stops on its
    failure). *)
Lemma syncContainer_visit (r : Reconciler W) (lu : LiveUpdate.t) (trig : bool)
    (pod : Pod.t) (cInfo : Container.t) (s : passState) (w : World W)
    (stop : bool) (s' : passState) (w' : World W) :
  syncContainer D r lu trig pod cInfo s w = ((stop, s'), w') →
  isTerminated pod cInfo = false →
  let m := s.(passMonitor) in
  let cKey := mkContainerKey cInfo.(Container.ID) pod.(Pod.Name) pod.(Pod.Namespace) in
  let entry := m.(monitor.containers) !! cKey in
  let cStatus := default monitorContainerStatus.zero entry in
  let scan := scanChangedFiles (highWaterMarkOf r.(startedTime) entry) m.(monitor.sources) in
  let filesChanged := DedupedAndSorted scan.1.1 in
  let waiting := waitingFor trig cInfo in
  ∃ (c' : monitorContainerStatus.t) (new : list Event),
    s'.(passMonitor) = monitor.set_containers (<[cKey := c']> m.(monitor.containers)) m
    ∧ trace w' = trace w ++ new
    ∧ ((new = [] ∧ s'.(updateEventDispatched) = s.(updateEventDispatched)
        ∧ ((stop = false ∧ c' = cStatus
            ∧ s'.(passStatus)
              = LiveUpdateStatus.mk
                  (s.(passStatus).(LiveUpdateStatus.Containers)
                   ++ (recordedStatus pod cInfo cStatus waiting).(LiveUpdateStatus.Containers))
                  s.(passStatus).(LiveUpdateStatus.Failed))
           ∨ (stop = true
              ∧ ∃ f, s'.(passStatus) = LiveUpdateStatus.mk [] (Some f)
                     ∧ (f.(LiveUpdateStateFailed.Reason) = "UpdateStopped"
                        ∨ f.(LiveUpdateStateFailed.Reason) = "CrashLoopBackOff")
                     ∧ c' = monitorContainerStatus.mk
                              cStatus.(monitorContainerStatus.lastFileTimeSynced)
                              f.(LiveUpdateStateFailed.Reason)
                              f.(LiveUpdateStateFailed.Message) scan.1.2)))
       ∨ (waiting = None ∧ isCrashLoopBackOff cInfo = false
          ∧ s'.(updateEventDispatched) = true
          ∧ ∃ (calls : list Event) (toArchive toRemove : list PathMapping.t)
              (steps : list Cmd.t),
              new = buildStarted lu filesChanged s.(updateEventDispatched) ++ calls
              ∧ (calls = []
                 ∨ calls = [updaterCall (updaterOf r lu) toArchive toRemove steps
                              (negb (ShouldRestart D lu.(LiveUpdate.Spec)))
                              (containerOf pod cInfo)])
              ∧ ((stop = false ∧ calls ≠ []
                  ∧ c' = monitorContainerStatus.mk scan.2
                           cStatus.(monitorContainerStatus.failedReason)
                           cStatus.(monitorContainerStatus.failedMessage)
                           cStatus.(monitorContainerStatus.failedLowWaterMark)
                  ∧ ∃ st, s'.(passStatus)
                          = LiveUpdateStatus.mk
                              (s.(passStatus).(LiveUpdateStatus.Containers) ++ [st])
                              s.(passStatus).(LiveUpdateStatus.Failed)
                          ∧ statusNames st = containerNames (containerOf pod cInfo)
                          ∧ st.(LiveUpdateContainerStatus.Waiting) = None
                          ∧ (scan.2 ≠ 0 →
                             st.(LiveUpdateContainerStatus.LastFileTimeSynced) = scan.2))
                 ∨ (stop = true
                    ∧ ∃ f, s'.(passStatus) = LiveUpdateStatus.mk [] (Some f)
                           ∧ (f.(LiveUpdateStateFailed.Reason) = "Invalid" ∧ calls = []
                              ∨ f.(LiveUpdateStateFailed.Reason) = "UpdateFailed"
                                ∧ calls ≠ [])
                           ∧ c' = monitorContainerStatus.mk
                                    cStatus.(monitorContainerStatus.lastFileTimeSynced)
                                    f.(LiveUpdateStateFailed.Reason)
                                    f.(LiveUpdateStateFailed.Message) scan.1.2)))).
Proof.
  unfold syncContainer. intros Hrun Hterm. rewrite Hterm in Hrun. cbv zeta.
  unfold bind in Hrun.
  destruct (planAndApply D r lu pod cInfo _ _ _ _ _ w) as [[[one applied] disp'] w1]
    eqn:Hplan.
  destruct (adjustFailedStateTimestamps D lu one w1) as [one' w2] eqn:Hadj.
  apply planAndApply_cases in Hplan.
  assert (Hadj' : trace w2 = trace w1
                  ∧ one'.(LiveUpdateStatus.Containers) = one.(LiveUpdateStatus.Containers)
                  ∧ match one.(LiveUpdateStatus.Failed) with
                    | None => one'.(LiveUpdateStatus.Failed) = None
                    | Some f =>
                        ∃ f', one'.(LiveUpdateStatus.Failed) = Some f'
                              ∧ f'.(LiveUpdateStateFailed.Reason)
                                = f.(LiveUpdateStateFailed.Reason)
                              ∧ f'.(LiveUpdateStateFailed.Message)
                                = f.(LiveUpdateStateFailed.Message)
                    end).
  { unfold adjustFailedStateTimestamps in Hadj.
    destruct (LiveUpdateStatus.Failed one) as [f|] eqn:Hf.
    - unfold bind, ret in Hadj. rewrite createFailedState_eq in Hadj.
      inversion Hadj; subst. cbn. split; [reflexivity|]. split; [reflexivity|].
      eexists. split; [reflexivity|]. split; reflexivity.
    - unfold ret in Hadj. inversion Hadj; subst. auto. }
  clear Hadj. destruct Hadj' as (Htr2 & Hcont & Hfail).
  destruct Hplan as [(-> & -> & Htr & Hone)|(-> & -> & Hwait & Hcrash & Hcalls)].
  - destruct Hone as [->|(f & -> & Hreason)].
    + cbn [recordedStatus LiveUpdateStatus.Failed LiveUpdateStatus.Containers] in *.
      rewrite Hfail in Hrun. unfold ret in Hrun. inversion Hrun; subst.
      cbn [passMonitor passStatus updateEventDispatched].
      unfold updatedContainerStatus. rewrite Hfail.
      eexists _, []. split; [reflexivity|]. rewrite app_nil_r.
      split; [congruence|]. left. split; [reflexivity|]. split; [reflexivity|].
      left. split; [reflexivity|]. split; [reflexivity|]. rewrite Hcont. reflexivity.
    + cbn [LiveUpdateStatus.Failed LiveUpdateStatus.Containers] in *.
      destruct Hfail as (f' & Hf' & Hr' & Hm').
      rewrite Hf' in Hrun. unfold ret in Hrun. inversion Hrun; subst.
      cbn [passMonitor passStatus updateEventDispatched].
      unfold updatedContainerStatus. rewrite Hf'.
      eexists _, []. split; [reflexivity|]. rewrite app_nil_r.
      split; [congruence|]. left. split; [reflexivity|]. split; [reflexivity|].
      right. split; [reflexivity|]. exists f'. split; [reflexivity|].
      split; [rewrite Hr'; exact Hreason | reflexivity].
  - destruct Hcalls as (calls & toArchive & toRemove & steps & Htr & Hcall & Hend).
    destruct (LiveUpdateStatus.Failed one) as [f|] eqn:Hf.
    + destruct Hfail as (f' & Hf' & Hr' & Hm'). destruct Hend as [_ Hend].
      rewrite Hf' in Hrun. unfold ret in Hrun. inversion Hrun; subst.
      cbn [passMonitor passStatus updateEventDispatched].
      unfold updatedContainerStatus. rewrite Hf'.
      eexists _, _. split; [reflexivity|].
      split; [rewrite Htr2; exact Htr|]. right.
      split; [exact Hwait|]. split; [exact Hcrash|]. split; [reflexivity|].
      exists calls, toArchive, toRemove, steps. split; [reflexivity|].
      split; [exact Hcall|]. right. split; [reflexivity|].
      exists f'. split; [reflexivity|]. split; [rewrite Hr'; exact Hend | reflexivity].
    + destruct Hend as (Hne & st & Hst & Hnames & Hw & Hlft).
      rewrite Hfail in Hrun. unfold ret in Hrun. inversion Hrun; subst.
      cbn [passMonitor passStatus updateEventDispatched].
      unfold updatedContainerStatus. rewrite Hfail.
      eexists _, _. split; [reflexivity|].
      split; [rewrite Htr2; exact Htr|]. right.
      split; [exact Hwait|]. split; [exact Hcrash|]. split; [reflexivity|].
      exists calls, toArchive, toRemove, steps. split; [reflexivity|].
      split; [exact Hcall|]. left. split; [reflexivity|]. split; [exact Hne|].
      split; [reflexivity|]. exists st. rewrite Hcont, Hst. auto.
Qed.

(** ** Failures stop a pass, and block the next *)

(** X19. A visit that stops the pass leaves its failure in the
    monitor: the status of the pass is that failure alone, the entry of
    the container holds the reason and the message of the failure and,
    as low-water mark, the earliest of the files that were to be synced,
    and keeps its lastFileTimeSynced. The reason is UpdateStopped,
    CrashLoopBackOff, Invalid or UpdateFailed. *)
Theorem failed_visit_is_remembered (r : Reconciler W) (lu : LiveUpdate.t) (trig : bool)
    (pod : Pod.t) (cInfo : Container.t) (s : passState) (w : World W) :
  let out := syncContainer D r lu trig pod cInfo s w in
  let cKey := mkContainerKey cInfo.(Container.ID) pod.(Pod.Name) pod.(Pod.Namespace) in
  let entry := s.(passMonitor).(monitor.containers) !! cKey in
  let scan := scanChangedFiles (highWaterMarkOf r.(startedTime) entry)
                s.(passMonitor).(monitor.sources) in
  out.1.1 = true →
  ∃ f c',
    out.1.2.(passStatus) = LiveUpdateStatus.mk [] (Some f)
    ∧ out.1.2.(passMonitor).(monitor.containers) !! cKey = Some c'
    ∧ c'.(monitorContainerStatus.failedReason) = f.(LiveUpdateStateFailed.Reason)
    ∧ c'.(monitorContainerStatus.failedMessage) = f.(LiveUpdateStateFailed.Message)
    ∧ c'.(monitorContainerStatus.failedLowWaterMark) = scan.1.2
    ∧ c'.(monitorContainerStatus.lastFileTimeSynced)
      = (default monitorContainerStatus.zero entry).(monitorContainerStatus.lastFileTimeSynced)
    ∧ f.(LiveUpdateStateFailed.Reason)
      ∈ ["UpdateStopped"; "CrashLoopBackOff"; "Invalid"; "UpdateFailed"].
Proof.
  cbv zeta. intros Hstop.
  destruct (syncContainer D r lu trig pod cInfo s w) as [[stop s'] w'] eqn:Hrun.
  cbn [fst snd] in *. subst stop.
  destruct (isTerminated pod cInfo) eqn:Hterm.
  { apply syncContainer_run in Hrun. cbv zeta in Hrun. rewrite Hterm in Hrun.
    destruct Hrun as (_ & Hfalse & _). discriminate Hfalse. }
  destruct (syncContainer_visit _ _ _ _ _ _ _ _ _ _ Hrun Hterm) as (c' & new & Hm & _ & Hcase).
  assert (Hc' : monitor.containers (passMonitor s') !! mkContainerKey (Container.ID cInfo)
                  (Pod.Name pod) (Pod.Namespace pod) = Some c').
  { rewrite Hm. cbn [monitor.set_containers monitor.containers]. apply lookup_insert_eq. }
  destruct Hcase as [(_ & _ & [(Hf & _)|(_ & f & Hst & Hreason & ->)])
                    |(_ & _ & _ & calls & ? & ? & ? & _ & _
                      & [(Hf & _)|(_ & f & Hst & Hreason & ->)])];
    try discriminate Hf.
  - eexists f, _. split; [exact Hst|]. split; [exact Hc'|]. cbn.
    repeat (split; [reflexivity|]).
    destruct Hreason as [-> | ->]; set_solver.
  - eexists f, _. split; [exact Hst|]. split; [exact Hc'|]. cbn.
    repeat (split; [reflexivity|]).
    destruct Hreason as [[-> _] | [-> _]]; set_solver.
Qed.

(** The first visitor of [maybeSync] stops at the first selected container
    whose entry holds a failure. *)
Lemma checkContainerFailed_first (lu : LiveUpdate.t) (m : monitor.t)
    (pre post : list (Pod.t * Container.t)) (pc : Pod.t * Container.t)
    (c : monitorContainerStatus.t) (w : World W) :
  (∀ pc' c', pc' ∈ pre → entryOf m pc' = Some c' →
             c'.(monitorContainerStatus.failedReason) = "") →
  entryOf m pc = Some c →
  c.(monitorContainerStatus.failedReason) ≠ "" →
  visitContainers (checkContainerFailed D lu m) (pre ++ pc :: post) None w
  = (let '(f, w') := createFailedState D lu
                       c.(monitorContainerStatus.failedReason)
                       c.(monitorContainerStatus.failedMessage) w in
     (Some f, w')).
Proof.
  unfold entryOf. intros Hpre Hc Hne.
  induction pre as [|pc0 pre IH]; cbn [app visitContainers]; unfold bind, checkContainerFailed.
  - rewrite Hc. destruct (decide _); [contradiction|].
    unfold bind, ret. destruct (createFailedState D lu _ _ w). reflexivity.
  - destruct (monitor.containers m !! mkContainerKey (Container.ID pc0.2) (Pod.Name pc0.1)
                (Pod.Namespace pc0.1)) as [c0|] eqn:Hc0.
    + rewrite decide_True by (eapply Hpre; [left | exact Hc0]).
      unfold ret. apply IH. intros pc' c' Hin. apply Hpre. right. exact Hin.
    + unfold ret. apply IH. intros pc' c' Hin. apply Hpre. right. exact Hin.
Qed.

(** Without such a container the first visitor finds nothing. *)
Lemma checkContainerFailed_none (lu : LiveUpdate.t) (m : monitor.t)
    (selected : list (Pod.t * Container.t)) (w : World W) :
  (∀ pc c, pc ∈ selected →
           m.(monitor.containers)
           !! mkContainerKey pc.2.(Container.ID) pc.1.(Pod.Name) pc.1.(Pod.Namespace)
           = Some c →
           c.(monitorContainerStatus.failedReason) = "") →
  visitContainers (checkContainerFailed D lu m) selected None w = (None, w).
Proof.
  induction selected as [|pc0 selected IH]; intros Hall; [reflexivity|].
  cbn [visitContainers]. unfold bind, checkContainerFailed.
  destruct (monitor.containers m !! mkContainerKey (Container.ID pc0.2) (Pod.Name pc0.1)
              (Pod.Namespace pc0.1)) as [c0|] eqn:Hc0.
  - rewrite decide_True by (eapply Hall; [left | exact Hc0]).
    unfold ret. apply IH. intros pc c Hin. apply Hall. right. exact Hin.
  - unfold ret. apply IH. intros pc c Hin. apply Hall. right. exact Hin.
Qed.

(** X18. A container that failed blocks the pass: when, after
    garbage collection, the entry of some selected container holds a
    failure, [maybeSync] returns the failure of the first such container
    of the selection, with its reason and message and the transition time
    [createFailedState] gives it, as the status; it dispatches nothing,
    calls no updater, and leaves the monitor as garbage collection left
    it. *)
Theorem failed_container_blocks_pass (r : Reconciler W) (lu : LiveUpdate.t)
    (m : monitor.t) (w : World W) (res : luResource)
    (pre post : list (Pod.t * Container.t)) (pc : Pod.t * Container.t)
    (c : monitorContainerStatus.t) :
  resource D lu m = Ok res →
  let m1 := garbageCollectMonitorContainers D res (garbageCollectFileChanges D res m) in
  selectedContainers D res = pre ++ pc :: post →
  (∀ pc' c', pc' ∈ pre → entryOf m1 pc' = Some c' →
             c'.(monitorContainerStatus.failedReason) = "") →
  entryOf m1 pc = Some c →
  c.(monitorContainerStatus.failedReason) ≠ "" →
  let out := maybeSync D r lu m w in
  out.1 = (LiveUpdateStatus.mk []
             (Some (createFailedState D lu c.(monitorContainerStatus.failedReason)
                      c.(monitorContainerStatus.failedMessage) w).1),
           m1)
  ∧ trace out.2 = trace w.
Proof.
  intros Hres. cbv zeta. intros Hsel Hpre Hc Hne.
  pose proof (checkContainerFailed_first lu _ pre post pc c w Hpre Hc Hne) as Hrun.
  rewrite <- Hsel in Hrun.
  assert (Hms : maybeSync D r lu m w
                = (let '(f, w') := createFailedState D lu
                                     c.(monitorContainerStatus.failedReason)
                                     c.(monitorContainerStatus.failedMessage) w in
                   ((LiveUpdateStatus.mk [] (Some f),
                     garbageCollectMonitorContainers D res
                       (garbageCollectFileChanges D res m)), w'))).
  { unfold maybeSync. rewrite Hres. unfold bind at 1.
    unfold visitSelectedContainers at 1. rewrite Hrun.
    destruct (createFailedState D lu _ _ w). reflexivity. }
  rewrite Hms, createFailedState_eq. cbn [fst snd trace]. split; reflexivity.
Qed.

(** ** What a pass updates, and what it reports *)

Lemma waitingFor_trigger (cInfo : Container.t) :
  ∃ wt, waitingFor true cInfo = Some wt
        ∧ (wt.(LiveUpdateContainerStateWaiting.Reason) = "ContainerWaiting"
           ∨ wt.(LiveUpdateContainerStateWaiting.Reason) = "Trigger").
Proof.
  unfold waitingFor. destruct (_ || _); eexists; split; try reflexivity; cbn; auto.
Qed.

Lemma waitingFor_None (trig : bool) (cInfo : Container.t) :
  waitingFor trig cInfo = None →
  is_Some cInfo.(Container.State).(ContainerState.Running)
  ∧ cInfo.(Container.ID) ≠ "" ∧ trig = false.
Proof.
  unfold waitingFor.
  destruct (bool_decide_reflect (ContainerState.Running (Container.State cInfo) = None))
    as [Hr|Hr]; [discriminate|].
  destruct (bool_decide_reflect (Container.ID cInfo = "")) as [Hi|Hi]; [discriminate|].
  cbn [orb]. destruct trig; [discriminate|]. intros _.
  split; [|auto]. destruct (ContainerState.Running (Container.State cInfo)); [eauto|].
  contradiction.
Qed.

(** X20. In manual mode, while the object is not in the trigger
    queue, a pass updates nothing: it dispatches nothing and calls no
    updater, and every container its status lists is waiting, for the
    trigger or for the container to start. *)
Theorem manual_mode_waits_for_trigger (r : Reconciler W) (lu : LiveUpdate.t)
    (m : monitor.t) (w : World W) :
  waitingOnTrigger D lu m = true →
  let out := maybeSync D r lu m w in
  trace out.2 = trace w
  ∧ Forall (λ st, ∃ wt, st.(LiveUpdateContainerStatus.Waiting) = Some wt
                        ∧ (wt.(LiveUpdateContainerStateWaiting.Reason) = "ContainerWaiting"
                           ∨ wt.(LiveUpdateContainerStateWaiting.Reason) = "Trigger"))
      out.1.1.(LiveUpdateStatus.Containers).
Proof.
  intros Htrig. cbv zeta.
  destruct (maybeSync D r lu m w) as [[status m'] w'] eqn:Hrun. cbn [fst snd].
  unfold maybeSync in Hrun. rewrite Htrig in Hrun.
  destruct (resource D lu m) as [res|err].
  2:{ unfold bind, ret in Hrun. rewrite createFailedState_eq in Hrun.
      inversion Hrun; subst. split; [reflexivity | constructor]. }
  unfold bind at 1 in Hrun. unfold visitSelectedContainers at 1 in Hrun.
  destruct (visitContainers (checkContainerFailed D lu _) _ None w) as [failed w1] eqn:Hchk.
  apply checkContainerFailed_trace in Hchk.
  destruct failed as [f|].
  { unfold ret in Hrun. inversion Hrun; subst. split; [exact Hchk | constructor]. }
  unfold bind at 1 in Hrun. unfold visitSelectedContainers in Hrun.
  destruct (visitContainers (syncContainer D r lu true) _ _ w1) as [s w2] eqn:Hpass.
  assert (Hs : trace w2 = trace w ∧ updateEventDispatched s = false
               ∧ Forall (λ st, ∃ wt, st.(LiveUpdateContainerStatus.Waiting) = Some wt
                          ∧ (wt.(LiveUpdateContainerStateWaiting.Reason) = "ContainerWaiting"
                             ∨ wt.(LiveUpdateContainerStateWaiting.Reason) = "Trigger"))
                   s.(passStatus).(LiveUpdateStatus.Containers)).
  { revert Hpass.
    apply (visitContainers_inv (syncContainer D r lu true)
             (λ s0 w0, trace w0 = trace w ∧ updateEventDispatched s0 = false
                       ∧ Forall (λ st, ∃ wt, st.(LiveUpdateContainerStatus.Waiting) = Some wt
                                  ∧ (wt.(LiveUpdateContainerStateWaiting.Reason)
                                     = "ContainerWaiting"
                                     ∨ wt.(LiveUpdateContainerStateWaiting.Reason) = "Trigger"))
                           s0.(passStatus).(LiveUpdateStatus.Containers))).
    - intros pc s0 w0 stop s1 w1' _ (Ht & Hd & Hall) Hstep.
      destruct (isTerminated pc.1 pc.2) eqn:Hterm.
      + apply syncContainer_run in Hstep. cbv zeta in Hstep. rewrite Hterm in Hstep.
        destruct Hstep as (_ & _ & -> & _ & -> & -> & _). auto.
      + destruct (syncContainer_visit _ _ _ _ _ _ _ _ _ _ Hstep Hterm)
          as (c' & new & _ & Htr & Hcase).
        destruct Hcase as [(-> & Hd1 & Hcase)|(Hwait & _)].
        2:{ destruct (waitingFor_trigger pc.2) as (wt & Hwt & _). congruence. }
        rewrite app_nil_r in Htr. split; [congruence|]. split; [congruence|].
        destruct Hcase as [(_ & _ & ->)|(_ & f & -> & _)]; [|constructor].
        cbn [LiveUpdateStatus.Containers recordedStatus].
        apply Forall_app. split; [exact Hall|]. constructor; [|constructor].
        cbn [LiveUpdateContainerStatus.Waiting]. apply waitingFor_trigger.
    - split; [exact Hchk|]. split; [reflexivity | constructor]. }
  destruct Hs as (Ht & Hd & Hall).
  unfold bind, ret in Hrun.
  destruct (finishPass D lu s w2) as [status' w3] eqn:Hfin.
  inversion Hrun; subst. clear Hrun.
  apply finishPass_run in Hfin. destruct Hfin as (Htr3 & Hcont & _).
  rewrite Htr3, Hd, app_nil_r, Hcont. split; [exact Ht | exact Hall].
Qed.

(** X21. A pass calls an updater only for selected containers that
    are live (not terminated, running, with an ID, not crash looping),
    and only when it is not waiting for a trigger; each call goes to the
    Docker updater for a DockerCompose selector or in the container
    update mode and to the exec updater otherwise, and restarts the
    container exactly when the spec says so. *)
Theorem updates_only_live_selected_containers (r : Reconciler W) (lu : LiveUpdate.t)
    (m : monitor.t) (w : World W) :
  ∃ new,
    trace (maybeSync D r lu m w).2 = trace w ++ new
    ∧ ∀ via c toArchive toDelete cmds hotReload,
        EvUpdateContainer via c toArchive toDelete cmds hotReload ∈ new →
        via = updaterOf r lu
        ∧ hotReload = negb (ShouldRestart D lu.(LiveUpdate.Spec))
        ∧ waitingOnTrigger D lu m = false
        ∧ ∃ res pc, resource D lu m = Ok res
                    ∧ pc ∈ selectedContainers D res
                    ∧ c = containerOf pc.1 pc.2
                    ∧ liveContainer pc.
Proof.
  destruct (maybeSync D r lu m w) as [[status m'] w'] eqn:Hrun. cbn [snd].
  unfold maybeSync in Hrun.
  destruct (resource D lu m) as [res|err] eqn:Hres.
  2:{ unfold bind, ret in Hrun. rewrite createFailedState_eq in Hrun.
      inversion Hrun; subst. exists []. rewrite app_nil_r. split; [reflexivity|].
      intros ? ? ? ? ? ? Hin. inversion Hin. }
  unfold bind at 1 in Hrun. unfold visitSelectedContainers at 1 in Hrun.
  destruct (visitContainers (checkContainerFailed D lu _) _ None w) as [failed w1] eqn:Hchk.
  apply checkContainerFailed_trace in Hchk.
  destruct failed as [f|].
  { unfold ret in Hrun. inversion Hrun; subst. exists []. rewrite app_nil_r.
    split; [exact Hchk|]. intros ? ? ? ? ? ? Hin. inversion Hin. }
  unfold bind at 1 in Hrun. unfold visitSelectedContainers in Hrun.
  set (ok := λ e : Event,
         match e with
         | EvUpdateContainer via c _ _ _ hotReload =>
             via = updaterOf r lu
             ∧ hotReload = negb (ShouldRestart D lu.(LiveUpdate.Spec))
             ∧ waitingOnTrigger D lu m = false
             ∧ ∃ pc, pc ∈ selectedContainers D res ∧ c = containerOf pc.1 pc.2
                     ∧ liveContainer pc
         | _ => True
         end).
  destruct (visitContainers (syncContainer D r lu _) _ _ w1) as [s w2] eqn:Hpass.
  assert (Hs : ∃ new, trace w2 = trace w ++ new ∧ Forall ok new).
  { revert Hpass.
    apply (visitContainers_inv (syncContainer D r lu (waitingOnTrigger D lu m))
             (λ _ w0, ∃ new, trace w0 = trace w ++ new ∧ Forall ok new)).
    - intros pc s0 w0 stop s1 w1' Hin (new & Ht & Hall) Hstep.
      destruct (isTerminated pc.1 pc.2) eqn:Hterm.
      + apply syncContainer_run in Hstep. cbv zeta in Hstep. rewrite Hterm in Hstep.
        destruct Hstep as (_ & _ & -> & _). eauto.
      + destruct (syncContainer_visit _ _ _ _ _ _ _ _ _ _ Hstep Hterm)
          as (c' & new1 & _ & Htr & Hcase).
        exists (new ++ new1). split; [rewrite Htr, Ht, app_assoc; reflexivity|].
        apply Forall_app. split; [exact Hall|].
        destruct Hcase as [(-> & _)|(Hwait & Hcrash & _ & calls & ta & tr & st & -> & Hcall & _)];
          [constructor|].
        apply Forall_app. split.
        * unfold buildStarted. destruct (updateEventDispatched s0); repeat constructor.
        * destruct Hcall as [->| ->]; [constructor|]. constructor; [|constructor].
          apply waitingFor_None in Hwait. destruct Hwait as (Hrun' & Hid & Htrig).
          cbn. split; [reflexivity|]. split; [reflexivity|]. split; [exact Htrig|].
          exists pc. split; [exact Hin|]. split; [reflexivity|].
          split; [exact Hterm|]. auto.
    - exists []. rewrite app_nil_r. split; [exact Hchk | constructor]. }
  destruct Hs as (new & Ht & Hall).
  unfold bind, ret in Hrun.
  destruct (finishPass D lu s w2) as [status' w3] eqn:Hfin.
  inversion Hrun; subst. clear Hrun.
  apply finishPass_run in Hfin. destruct Hfin as (Htr3 & _ & _).
  eexists. split; [rewrite Htr3, Ht, <- app_assoc; reflexivity|].
  intros via c ta td cmds hot Hin. apply elem_of_app in Hin. destruct Hin as [Hin|Hin].
  - rewrite Forall_forall in Hall. specialize (Hall _ Hin). cbn in Hall.
    destruct Hall as (Hv & Hh & Htrig & pc & Hpc & Hc & Hlive).
    split; [exact Hv|]. split; [exact Hh|]. split; [exact Htrig|].
    exists res, pc. auto.
  - destruct (updateEventDispatched s); [|inversion Hin].
    apply list_elem_of_singleton in Hin. discriminate Hin.
Qed.

Lemma pass_names (r : Reconciler W) (lu : LiveUpdate.t) (trig : bool)
    (selected : list (Pod.t * Container.t)) :
  ∀ s w s' w',
    visitContainers (syncContainer D r lu trig) selected s w = (s', w') →
    s.(passStatus).(LiveUpdateStatus.Failed) = None →
    s'.(passStatus).(LiveUpdateStatus.Failed) = None →
    statusNames <$> s'.(passStatus).(LiveUpdateStatus.Containers)
    = (statusNames <$> s.(passStatus).(LiveUpdateStatus.Containers))
      ++ (selectedNames <$> filter (λ pc, isTerminated pc.1 pc.2 = false) selected).
Proof.
  induction selected as [|pc selected IH]; intros s w s' w' Hrun Hs Hs'.
  - cbn in Hrun. inversion Hrun; subst. cbn. rewrite app_nil_r. reflexivity.
  - cbn [visitContainers] in Hrun. unfold bind in Hrun.
    destruct (syncContainer D r lu trig pc.1 pc.2 s w) as [[stop s1] w1] eqn:Hv.
    rewrite filter_cons.
    destruct (isTerminated pc.1 pc.2) eqn:Hterm.
    + apply syncContainer_run in Hv. cbv zeta in Hv. rewrite Hterm in Hv.
      destruct Hv as (_ & -> & _ & _ & Hst & _).
      destruct (decide (true = false)); [discriminate|].
      rewrite <- Hst. apply (IH _ _ _ _ Hrun); [rewrite Hst; exact Hs | exact Hs'].
    + destruct (decide (false = false)); [|congruence].
      destruct (syncContainer_visit _ _ _ _ _ _ _ _ _ _ Hv Hterm)
        as (c' & new & _ & _ & Hcase).
      assert (Hone : stop = false
                     ∧ s1.(passStatus).(LiveUpdateStatus.Failed) = None
                     ∧ statusNames <$> s1.(passStatus).(LiveUpdateStatus.Containers)
                       = (statusNames <$> s.(passStatus).(LiveUpdateStatus.Containers))
                         ++ [selectedNames pc]).
      { destruct Hcase as [(_ & _ & [(-> & _ & ->)|(-> & f & Hst & _)])
                          |(_ & _ & _ & calls & ? & ? & ? & _ & _
                            & [(-> & _ & _ & st & -> & Hn & _)|(-> & f & Hst & _)])].
        - cbn. split; [reflexivity|]. split; [exact Hs|]. rewrite fmap_app. reflexivity.
        - exfalso. unfold ret in Hrun. inversion Hrun; subst. rewrite Hst in Hs'.
          discriminate Hs'.
        - cbn. split; [reflexivity|]. split; [exact Hs|]. rewrite fmap_app. cbn.
          rewrite Hn. reflexivity.
        - exfalso. unfold ret in Hrun. inversion Hrun; subst. rewrite Hst in Hs'.
          discriminate Hs'. }
      destruct Hone as (-> & Hs1 & Hnames).
      rewrite (IH _ _ _ _ Hrun Hs1 Hs'), Hnames, fmap_cons, <- app_assoc. reflexivity.
Qed.

(** X22. A pass that returns no failure reports every selected
    container that is not terminated, once and in the order of the
    selection, under its container name, container ID, pod name and
    namespace. *)
Theorem status_lists_live_containers (r : Reconciler W) (lu : LiveUpdate.t)
    (m : monitor.t) (w : World W) (res : luResource) :
  resource D lu m = Ok res →
  let status := (maybeSync D r lu m w).1.1 in
  status.(LiveUpdateStatus.Failed) = None →
  statusNames <$> status.(LiveUpdateStatus.Containers)
  = selectedNames <$> filter (λ pc, isTerminated pc.1 pc.2 = false)
                        (selectedContainers D res).
Proof.
  intros Hres. cbv zeta.
  destruct (maybeSync D r lu m w) as [[status m'] w'] eqn:Hrun. cbn [fst snd].
  unfold maybeSync in Hrun. rewrite Hres in Hrun.
  unfold bind at 1 in Hrun. unfold visitSelectedContainers at 1 in Hrun.
  destruct (visitContainers (checkContainerFailed D lu _) _ None w) as [failed w1] eqn:Hchk.
  destruct failed as [f|].
  { unfold ret in Hrun. inversion Hrun; subst. discriminate. }
  unfold bind at 1 in Hrun. unfold visitSelectedContainers in Hrun.
  destruct (visitContainers (syncContainer D r lu _) _ _ w1) as [s w2] eqn:Hpass.
  unfold bind, ret in Hrun.
  destruct (finishPass D lu s w2) as [status' w3] eqn:Hfin.
  inversion Hrun; subst. clear Hrun. intros Hnone.
  apply finishPass_run in Hfin. destruct Hfin as (_ & Hcont & Hprom).
  assert (Hs : LiveUpdateStatus.Failed (passStatus s) = None).
  { destruct (bool_decide _ && _ && _ && _) eqn:Hp.
    - destruct Hprom as (f & Hf & _). congruence.
    - congruence. }
  rewrite Hcont. rewrite (pass_names _ _ _ _ _ _ _ _ Hpass eq_refl Hs). reflexivity.
Qed.

(** ** The ways through [Reconcile] *)

(** Every way [Reconcile] returns: a property that holds of each holds of
    the result. *)
Lemma Reconcile_elim (cl : Client) (req : string) (r : Reconciler W) (w : World W)
    (P : (Reconciler W * option error) * World W → Prop) :
  (∀ err, getLiveUpdate cl req = Err err → IsNotFound err = false →
          P ((r, Some (ErrOther ("liveupdate reconcile: " +:+ Error err))), w)) →
  (gone cl req →
   P ((set_monitors (delete req r.(monitors)) r, None), deleted req w)) →
  (∀ lu, getLiveUpdate cl req = Ok lu → lu.(LiveUpdate.DeletionTimestamp) = None →
         annotation lu AnnotationManagedBy ≠ "" →
         P ((r, None), upserted lu w)) →
  (∀ lu failed w1,
     live cl req lu →
     ensureSelectorValid D lu (upserted lu w) = (Some failed, w1) →
     P (let '(err, w2) := handleFailure cl lu failed w1 in ((r, err), w2))) →
  (∀ lu err,
     live cl req lu → validSelector lu →
     (afterSources cl r lu).2 = Err err →
     P (refreshFailedWith D cl r lu (afterSources cl r lu).1 err w)) →
  (∀ lu f1 err,
     live cl req lu → validSelector lu →
     (afterSources cl r lu).2 = Ok f1 →
     (afterKubernetes cl r lu).2 = Err err →
     P (refreshFailedWith D cl r lu (afterKubernetes cl r lu).1 err w)) →
  (∀ lu f1 f2 err,
     live cl req lu → validSelector lu →
     (afterSources cl r lu).2 = Ok f1 →
     (afterKubernetes cl r lu).2 = Ok f2 →
     (afterDockerCompose cl r lu).2 = Err err →
     P (refreshFailedWith D cl r lu (afterDockerCompose cl r lu).1 err w)) →
  (∀ lu f1 f2 f3 err,
     live cl req lu → validSelector lu →
     (afterSources cl r lu).2 = Ok f1 →
     (afterKubernetes cl r lu).2 = Ok f2 →
     (afterDockerCompose cl r lu).2 = Ok f3 →
     (afterTriggerQueue cl r lu).2 = Err err →
     P ((storeMonitor lu.(LiveUpdate.Name) (afterTriggerQueue cl r lu).1
           (reconcilerFor r lu), Some err), upserted lu w)) →
  (∀ lu f1 f2 f3 f4,
     live cl req lu → validSelector lu →
     (afterSources cl r lu).2 = Ok f1 →
     (afterKubernetes cl r lu).2 = Ok f2 →
     (afterDockerCompose cl r lu).2 = Ok f3 →
     (afterTriggerQueue cl r lu).2 = Ok f4 →
     P (syncAndWrite D cl (reconcilerFor r lu) lu
          (refreshed cl r lu (f1 || f2 || f3 || f4)) (upserted lu w))) →
  P (Reconcile D cl req r w).
Proof.
  intros Herr Hgone Hmanaged Hinvalid Hs1 Hs2 Hs3 Hs4 Hsync.
  destruct (getLiveUpdate cl req) as [lu|err] eqn:Hget.
  2:{ unfold Reconcile. rewrite Hget. destruct (IsNotFound err) eqn:Hnf.
      - apply Hgone. left. eauto.
      - apply Herr; [reflexivity | exact Hnf]. }
  destruct (LiveUpdate.DeletionTimestamp lu) as [t|] eqn:Hdel.
  { unfold Reconcile. rewrite Hget, Hdel.
    destruct (decide _) as [_|Hno]; [|exfalso; apply Hno; eauto].
    apply Hgone. right. exists lu. rewrite Hdel. eauto. }
  destruct (decide (annotation lu AnnotationManagedBy = "")) as [Hman|Hman].
  2:{ unfold Reconcile. rewrite Hget, Hdel.
      destruct (decide (is_Some None)) as [[? ?]|_]; [discriminate|].
      destruct (decide _); [contradiction|].
      apply (Hmanaged lu eq_refl Hdel Hman). }
  assert (Hlive : live cl req lu) by (split; [exact Hget | split; assumption]).
  rewrite (Reconcile_live cl req r w lu Hget Hdel Hman).
  destruct (ensureSelectorValid D lu (upserted lu w)) as [[failed|] w1] eqn:Hens.
  { apply (Hinvalid lu failed w1 Hlive Hens). }
  assert (Hvalid : validSelector lu ∧ w1 = upserted lu w).
  { unfold ensureSelectorValid, validSelector in *.
    destruct (LiveUpdateSelector.Kubernetes _) as [k|].
    - destruct (decide _).
      + unfold bind, ret in Hens. destruct (createFailedState D lu _ _ _). discriminate.
      + unfold ret in Hens. inversion Hens. auto.
    - destruct (LiveUpdateSelector.DockerCompose _) as [dc|].
      + destruct (decide _).
        * unfold bind, ret in Hens. destruct (createFailedState D lu _ _ _). discriminate.
        * unfold ret in Hens. inversion Hens. auto.
      + unfold bind, ret in Hens. destruct (createFailedState D lu _ _ _). discriminate. }
  destruct Hvalid as [Hvalid ->]. cbv zeta.
  specialize (Hs1 lu). specialize (Hs2 lu). specialize (Hs3 lu). specialize (Hs4 lu).
  specialize (Hsync lu).
  unfold refreshFailedWith, refreshed, afterTriggerQueue, afterDockerCompose,
    afterKubernetes, afterSources, reconcilerFor, monitorFor in *.
  destruct (ensureMonitorExists (monitors r) (LiveUpdate.Name lu) lu) as [m0 mons].
  cbn [fst snd] in *.
  destruct (reconcileSources cl m0) as [m1 [f1|err]]; cbn [fst snd] in *.
  2:{ apply (Hs1 err Hlive Hvalid eq_refl). }
  destruct (reconcileKubernetesResource cl m1) as [m2 [f2|err]]; cbn [fst snd] in *.
  2:{ apply (Hs2 f1 err Hlive Hvalid eq_refl eq_refl). }
  destruct (reconcileDockerComposeService cl m2) as [m3 [f3|err]]; cbn [fst snd] in *.
  2:{ apply (Hs3 f1 f2 err Hlive Hvalid eq_refl eq_refl eq_refl). }
  destruct (reconcileTriggerQueue cl m3) as [m4 [f4|err]]; cbn [fst snd] in *.
  2:{ apply (Hs4 f1 f2 f3 err Hlive Hvalid eq_refl eq_refl eq_refl eq_refl). }
  apply (Hsync f1 f2 f3 f4 Hlive Hvalid eq_refl eq_refl eq_refl eq_refl).
Qed.

(** ** The index of a LiveUpdate *)

Lemma indexSources_keys (namespace : string) (sources : list LiveUpdateSource.t)
    (key : IndexerKey.t) :
  ∀ result,
    key ∈ foldl (indexSource namespace) result sources
    ↔ key ∈ result
      ∨ (key.(IndexerKey.Namespace) = namespace ∧ key.(IndexerKey.Name) ≠ ""
         ∧ ((key.(IndexerKey.GVK) = fwGVK
             ∧ ∃ s, s ∈ sources ∧ s.(LiveUpdateSource.FileWatch) = key.(IndexerKey.Name))
            ∨ (key.(IndexerKey.GVK) = imageMapGVK
               ∧ ∃ s, s ∈ sources ∧ s.(LiveUpdateSource.ImageMap) = key.(IndexerKey.Name)))).
Proof.
  induction sources as [|s sources IH]; intros result; cbn [foldl].
  - split; [auto|]. intros [H|(_ & _ & [(_ & s & Hs & _)|(_ & s & Hs & _)])];
      [exact H | inversion Hs | inversion Hs].
  - rewrite IH. unfold indexSource.
    destruct key as [kns kname kgvk]. cbn [IndexerKey.Namespace IndexerKey.Name IndexerKey.GVK].
    split.
    + intros [Hin|(Hns & Hne & Hrest)].
      * destruct (decide (LiveUpdateSource.FileWatch s = "")) as [Hf|Hf];
          destruct (decide (LiveUpdateSource.ImageMap s = "")) as [Hi|Hi];
          rewrite ?elem_of_app, ?list_elem_of_singleton in Hin.
        -- left. exact Hin.
        -- destruct Hin as [Hin|Heq]; [left; exact Hin|]. inversion Heq; subst.
           right. split; [reflexivity|]. split; [exact Hi|]. right.
           split; [reflexivity|]. exists s. split; [left | reflexivity].
        -- destruct Hin as [Hin|Heq]; [left; exact Hin|]. inversion Heq; subst.
           right. split; [reflexivity|]. split; [exact Hf|]. left.
           split; [reflexivity|]. exists s. split; [left | reflexivity].
        -- destruct Hin as [[Hin|Heq]|Heq]; [left; exact Hin| |]; inversion Heq; subst.
           ++ right. split; [reflexivity|]. split; [exact Hf|]. left.
              split; [reflexivity|]. exists s. split; [left | reflexivity].
           ++ right. split; [reflexivity|]. split; [exact Hi|]. right.
              split; [reflexivity|]. exists s. split; [left | reflexivity].
      * right. split; [exact Hns|]. split; [exact Hne|].
        destruct Hrest as [(Hg & s' & Hs' & Hn)|(Hg & s' & Hs' & Hn)].
        -- left. split; [exact Hg|]. exists s'. split; [right; exact Hs' | exact Hn].
        -- right. split; [exact Hg|]. exists s'. split; [right; exact Hs' | exact Hn].
    + intros [Hin|(Hns & Hne & Hrest)].
      * left. destruct (decide _); destruct (decide _);
          rewrite ?elem_of_app; auto.
      * assert (Hcase : (∃ s', s' ∈ sources
                               ∧ ((kgvk = fwGVK ∧ LiveUpdateSource.FileWatch s' = kname)
                                  ∨ (kgvk = imageMapGVK
                                     ∧ LiveUpdateSource.ImageMap s' = kname)))
                        ∨ (kgvk = fwGVK ∧ LiveUpdateSource.FileWatch s = kname)
                        ∨ (kgvk = imageMapGVK ∧ LiveUpdateSource.ImageMap s = kname)).
        { destruct Hrest as [(Hg & s' & Hs' & Hn)|(Hg & s' & Hs' & Hn)];
            apply elem_of_cons in Hs'; destruct Hs' as [->|Hs']; eauto 10. }
        destruct Hcase as [(s' & Hs' & [[Hg Hn]|[Hg Hn]])|[[Hg Hn]|[Hg Hn]]].
        -- right. split; [exact Hns|]. split; [exact Hne|]. left. eauto.
        -- right. split; [exact Hns|]. split; [exact Hne|]. right. eauto.
        -- left. subst.
           destruct (decide (LiveUpdateSource.FileWatch s = "")) as [He|_]; [contradiction|].
           destruct (decide _); rewrite ?elem_of_app, ?list_elem_of_singleton; auto.
        -- left. subst.
           destruct (decide (LiveUpdateSource.ImageMap s = "")) as [He|_]; [contradiction|].
           destruct (decide _); rewrite ?elem_of_app, ?list_elem_of_singleton; auto.
Qed.

Lemma elem_of_indexed (key : IndexerKey.t) (result : list IndexerKey.t)
    (namespace name : string) (gvk : GroupVersionKind) :
  key ∈ (if decide (name = "") then result
         else result ++ [IndexerKey.mk namespace name gvk])
  ↔ key ∈ result ∨ (key = IndexerKey.mk namespace name gvk ∧ name ≠ "").
Proof.
  destruct (decide (name = "")) as [He|Hne].
  - split; [auto|]. intros [H|[_ H]]; [exact H | contradiction].
  - rewrite elem_of_app, list_elem_of_singleton. split; intros [H|H]; auto.
    + destruct H; auto.
Qed.

Lemma indexLiveUpdate_spec (namespace : string) (lu : LiveUpdate.t) :
  ∃ keys,
    indexLiveUpdate (ObjLiveUpdate namespace lu) = Some keys
    ∧ ∀ key, key ∈ keys
             ↔ key.(IndexerKey.Namespace) = namespace ∧ key.(IndexerKey.Name) ≠ ""
               ∧ refersTo lu key.(IndexerKey.GVK) key.(IndexerKey.Name).
Proof.
  eexists. split; [reflexivity|]. intros key.
  pose proof (indexSources_keys namespace
                (LiveUpdateSpec.Sources (LiveUpdate.Spec lu)) key []) as Hsrc.
  revert Hsrc.
  generalize (foldl (indexSource namespace) [] (LiveUpdateSpec.Sources (LiveUpdate.Spec lu))).
  intros base Hsrc. unfold refersTo. cbv zeta.
  assert (Hbase : key ∈ base
                  ↔ key.(IndexerKey.Namespace) = namespace ∧ key.(IndexerKey.Name) ≠ ""
                    ∧ ((key.(IndexerKey.GVK) = fwGVK
                        ∧ ∃ s, s ∈ LiveUpdateSpec.Sources (LiveUpdate.Spec lu)
                               ∧ s.(LiveUpdateSource.FileWatch) = key.(IndexerKey.Name))
                       ∨ (key.(IndexerKey.GVK) = imageMapGVK
                          ∧ ∃ s, s ∈ LiveUpdateSpec.Sources (LiveUpdate.Spec lu)
                                 ∧ s.(LiveUpdateSource.ImageMap) = key.(IndexerKey.Name)))).
  { rewrite Hsrc. split; [|auto]. intros [H|H]; [inversion H | exact H]. }
  clear Hsrc.
  destruct key as [kns kname kgvk].
  cbn [IndexerKey.Namespace IndexerKey.Name IndexerKey.GVK] in *.
  destruct (LiveUpdateSelector.Kubernetes _) as [[disc app im]|];
    destruct (LiveUpdateSelector.DockerCompose _) as [[svc]|];
    cbn [LiveUpdateKubernetesSelector.DiscoveryName LiveUpdateKubernetesSelector.ApplyName
         LiveUpdateKubernetesSelector.ImageMapName LiveUpdateDockerComposeSelector.Service];
    rewrite ?elem_of_indexed, Hbase;
    unfold fwGVK, imageMapGVK, discoveryGVK, applyGVK, dcsGVK;
    clear Hbase;
    (split;
     [ intros H; decompose [or and ex] H; clear H; simplify_eq;
       (split; [reflexivity|]); (split; [assumption|]); eauto 15
     | intros (Hns & Hne & H); decompose [or and ex] H; clear H; simplify_eq; eauto 15 ]).
Qed.

(** X1. [indexLiveUpdate] returns exactly the references of the
    LiveUpdate that have a name: a key is in the result if and only if it
    is in the object's namespace, its name is not empty, and the object
    refers to that name as an object of that kind (the FileWatch or the
    ImageMap of a source, the discovery, the apply or the ImageMap of the
    Kubernetes selector, the service of the DockerCompose selector).
    Nothing is returned for an object that is not a LiveUpdate. *)
Theorem index_names_every_reference (obj : Object) :
  match obj with
  | ObjLiveUpdate namespace lu =>
      ∃ keys,
        indexLiveUpdate obj = Some keys
        ∧ ∀ key, key ∈ keys
                 ↔ key.(IndexerKey.Namespace) = namespace ∧ key.(IndexerKey.Name) ≠ ""
                   ∧ refersTo lu key.(IndexerKey.GVK) key.(IndexerKey.Name)
  | _ => indexLiveUpdate obj = None
  end.
Proof.
  destruct obj as [namespace lu|cm|]; [|reflexivity|reflexivity].
  apply indexLiveUpdate_spec.
Qed.

(** ** [Reconcile] reads what is indexed *)

Lemma reconcileOneSource_same (cl cl' : Client) (m : monitor.t) (s : LiveUpdateSource.t) :
  (s.(LiveUpdateSource.FileWatch) ≠ "" →
   getFileWatch cl s.(LiveUpdateSource.FileWatch)
   = getFileWatch cl' s.(LiveUpdateSource.FileWatch)) →
  (s.(LiveUpdateSource.ImageMap) ≠ "" →
   getImageMap cl s.(LiveUpdateSource.ImageMap)
   = getImageMap cl' s.(LiveUpdateSource.ImageMap)) →
  reconcileOneSource cl m s = reconcileOneSource cl' m s.
Proof.
  intros Hfw Him. unfold reconcileOneSource.
  destruct (decide (LiveUpdateSource.FileWatch s = "")) as [He|Hne];
    destruct (decide (LiveUpdateSource.ImageMap s = "")) as [He'|Hne'];
    rewrite <- ?(Hfw Hne), <- ?(Him Hne'); reflexivity.
Qed.

Lemma reconcileSourcesLoop_same (cl cl' : Client) (sources : list LiveUpdateSource.t) :
  (∀ s, s ∈ sources →
        (s.(LiveUpdateSource.FileWatch) ≠ "" →
         getFileWatch cl s.(LiveUpdateSource.FileWatch)
         = getFileWatch cl' s.(LiveUpdateSource.FileWatch))
        ∧ (s.(LiveUpdateSource.ImageMap) ≠ "" →
           getImageMap cl s.(LiveUpdateSource.ImageMap)
           = getImageMap cl' s.(LiveUpdateSource.ImageMap))) →
  ∀ m hasChange,
    reconcileSourcesLoop cl m sources hasChange
    = reconcileSourcesLoop cl' m sources hasChange.
Proof.
  induction sources as [|s sources IH]; intros Hall m hasChange; [reflexivity|].
  cbn [reconcileSourcesLoop].
  destruct (Hall s) as [Hfw Him]; [left|].
  rewrite <- (reconcileOneSource_same cl cl' m s Hfw Him).
  destruct (reconcileOneSource cl m s) as [m1 [one|err]]; [|reflexivity].
  apply IH. intros s' Hin. apply Hall. right. exact Hin.
Qed.

Lemma reconcileKubernetesResource_same (cl cl' : Client) (m : monitor.t) :
  (∀ k, m.(monitor.spec).(LiveUpdateSpec.Selector).(LiveUpdateSelector.Kubernetes) = Some k →
        (k.(LiveUpdateKubernetesSelector.ApplyName) ≠ "" →
         getKubernetesApply cl k.(LiveUpdateKubernetesSelector.ApplyName)
         = getKubernetesApply cl' k.(LiveUpdateKubernetesSelector.ApplyName))
        ∧ getKubernetesDiscovery cl k.(LiveUpdateKubernetesSelector.DiscoveryName)
          = getKubernetesDiscovery cl' k.(LiveUpdateKubernetesSelector.DiscoveryName)
        ∧ (k.(LiveUpdateKubernetesSelector.ImageMapName) ≠ "" →
           getImageMap cl k.(LiveUpdateKubernetesSelector.ImageMapName)
           = getImageMap cl' k.(LiveUpdateKubernetesSelector.ImageMapName))) →
  reconcileKubernetesResource cl m = reconcileKubernetesResource cl' m.
Proof.
  intros Hk. unfold reconcileKubernetesResource.
  destruct (LiveUpdateSelector.Kubernetes _) as [k|]; [|reflexivity].
  destruct (Hk k eq_refl) as (Ha & Hd & Hi). rewrite <- Hd.
  destruct (decide (LiveUpdateKubernetesSelector.ApplyName k = "")) as [He|Hne];
    destruct (decide (LiveUpdateKubernetesSelector.ImageMapName k = "")) as [He'|Hne'];
    rewrite <- ?(Ha Hne), <- ?(Hi Hne'); reflexivity.
Qed.

Lemma reconcileDockerComposeService_same (cl cl' : Client) (m : monitor.t) :
  (∀ dc, m.(monitor.spec).(LiveUpdateSpec.Selector).(LiveUpdateSelector.DockerCompose)
         = Some dc →
         getDockerComposeService cl dc.(LiveUpdateDockerComposeSelector.Service)
         = getDockerComposeService cl' dc.(LiveUpdateDockerComposeSelector.Service)) →
  reconcileDockerComposeService cl m = reconcileDockerComposeService cl' m.
Proof.
  intros Hdc. unfold reconcileDockerComposeService.
  destruct (LiveUpdateSelector.DockerCompose _) as [dc|]; [|reflexivity].
  rewrite <- (Hdc dc eq_refl). reflexivity.
Qed.

Lemma reconcileTriggerQueue_same (cl cl' : Client) (m : monitor.t) :
  getTriggerQueue cl = getTriggerQueue cl' →
  reconcileTriggerQueue cl m = reconcileTriggerQueue cl' m.
Proof. intros H. unfold reconcileTriggerQueue. rewrite H. reflexivity. Qed.

Lemma handleFailure_same (cl cl' : Client) (lu : LiveUpdate.t)
    (failed : LiveUpdateStateFailed.t) (w : World W) :
  (∀ update, statusUpdate cl update = statusUpdate cl' update) →
  handleFailure cl lu failed w = handleFailure cl' lu failed w.
Proof. intros H. rewrite !handleFailure_eq, H. reflexivity. Qed.

Lemma refreshFailed_same (cl cl' : Client) (lu : LiveUpdate.t) (err : error) (w : World W) :
  (∀ update, statusUpdate cl update = statusUpdate cl' update) →
  refreshFailed D cl lu err w = refreshFailed D cl' lu err w.
Proof.
  intros H. unfold refreshFailed. destruct (IsNotFound err); [|reflexivity].
  unfold bind. destruct (createFailedState D lu _ _ w) as [f w1].
  apply handleFailure_same. exact H.
Qed.

Lemma syncAndWrite_same (cl cl' : Client) (r : Reconciler W) (lu : LiveUpdate.t)
    (m : monitor.t) (w : World W) :
  (∀ update, statusUpdate cl update = statusUpdate cl' update) →
  syncAndWrite D cl r lu m w = syncAndWrite D cl' r lu m w.
Proof.
  intros H. unfold syncAndWrite. destruct (monitor.hasChangesToSync m); [|reflexivity].
  unfold bind at 1. unfold bind at 2.
  destruct (maybeSync D r lu m w) as [[status m'] w1].
  destruct (decide _); [reflexivity|].
  unfold StatusUpdate. rewrite H. reflexivity.
Qed.

(** X2. [Reconcile] depends on the apiserver only through the
    LiveUpdate it fetches, the trigger queue, the outcome of the status
    write, and the objects that [indexLiveUpdate] names for that
    LiveUpdate (and the DockerComposeService of the empty name, which a
    selector with both families but no service makes it read): with two
    clients that agree on these, it returns the same reconciler, the same
    error and the same world. *)
Theorem reconcile_reads_only_indexed_objects (namespace : string) (cl cl' : Client)
    (req : string) (r : Reconciler W) (w : World W) :
  getLiveUpdate cl req = getLiveUpdate cl' req →
  getTriggerQueue cl = getTriggerQueue cl' →
  (∀ update, statusUpdate cl update = statusUpdate cl' update) →
  (∀ lu keys,
     getLiveUpdate cl req = Ok lu →
     indexLiveUpdate (ObjLiveUpdate namespace lu) = Some keys →
     Forall (sameObject cl cl') keys) →
  getDockerComposeService cl "" = getDockerComposeService cl' "" →
  Reconcile D cl req r w = Reconcile D cl' req r w.
Proof.
  intros Hget Htq Hstatus Hkeys Hempty.
  destruct (getLiveUpdate cl req) as [lu|err] eqn:Hlu.
  2:{ unfold Reconcile. rewrite <- Hget, Hlu. reflexivity. }
  destruct (LiveUpdate.DeletionTimestamp lu) as [t|] eqn:Hdel.
  { unfold Reconcile. rewrite <- Hget, Hlu, Hdel. reflexivity. }
  destruct (decide (annotation lu AnnotationManagedBy = "")) as [Hman|Hman].
  2:{ unfold Reconcile. rewrite <- Hget, Hlu, Hdel.
      destruct (decide (is_Some None)) as [[? ?]|_]; [discriminate|].
      destruct (decide _); [contradiction|]. reflexivity. }
  rewrite (Reconcile_live cl req r w lu Hlu Hdel Hman).
  rewrite (Reconcile_live cl' req r w lu (eq_sym Hget) Hdel Hman).
  assert (Hsame : ∀ gvk name, name ≠ "" → refersTo lu gvk name →
                              sameObject cl cl' (IndexerKey.mk namespace name gvk)).
  { destruct (indexLiveUpdate_spec namespace lu) as (keys & Hidx & Hin).
    specialize (Hkeys lu keys eq_refl Hidx). rewrite Forall_forall in Hkeys.
    intros gvk name Hne Href. apply Hkeys, Hin. cbn. auto. }
  clear Hkeys.
  destruct (ensureSelectorValid D lu (upserted lu w)) as [[failed|] w1] eqn:Hens.
  { rewrite (handleFailure_same cl cl' lu failed w1 Hstatus). reflexivity. }
  assert (Hvalid : validSelector lu).
  { unfold ensureSelectorValid, validSelector in *.
    destruct (LiveUpdateSelector.Kubernetes _) as [k|].
    - destruct (decide _); [|assumption].
      unfold bind, ret in Hens. destruct (createFailedState D lu _ _ _). discriminate.
    - destruct (LiveUpdateSelector.DockerCompose _) as [dc|].
      + destruct (decide _); [|assumption].
        unfold bind, ret in Hens. destruct (createFailedState D lu _ _ _). discriminate.
      + unfold bind, ret in Hens. destruct (createFailedState D lu _ _ _). discriminate. }
  cbv zeta.
  assert (Hspec0 : monitor.spec (ensureMonitorExists (monitors r) (LiveUpdate.Name lu) lu).1
                   = LiveUpdate.Spec lu).
  { unfold ensureMonitorExists. destruct (monitors r !! LiveUpdate.Name lu) as [m|];
      [|reflexivity]. destruct (decide _) as [Heq|Hne]; [symmetry; exact Heq | reflexivity]. }
  destruct (ensureMonitorExists (monitors r) (LiveUpdate.Name lu) lu) as [m0 mons].
  cbn [fst] in Hspec0.
  assert (Hsrc : reconcileSources cl m0 = reconcileSources cl' m0).
  { unfold reconcileSources. apply reconcileSourcesLoop_same. rewrite Hspec0.
    intros s Hin. split; intros Hne.
    - apply (Hsame fwGVK _ Hne); [|reflexivity]. left. split; [reflexivity|]. eauto.
    - apply (Hsame imageMapGVK _ Hne); [|reflexivity]. right. left.
      split; [reflexivity|]. left. eauto. }
  rewrite <- Hsrc. pose proof (reconcileSources_containers cl m0) as [Hspec1 _].
  destruct (reconcileSources cl m0) as [m1 [f1|err]]; cbn [fst] in Hspec1.
  2:{ rewrite (refreshFailed_same cl cl' lu err w1 Hstatus). reflexivity. }
  assert (Hkube : reconcileKubernetesResource cl m1 = reconcileKubernetesResource cl' m1).
  { apply reconcileKubernetesResource_same. rewrite Hspec1, Hspec0. intros k Hk.
    unfold validSelector in Hvalid. rewrite Hk in Hvalid. split; [|split].
    - intros Hne. apply (Hsame applyGVK _ Hne); [|reflexivity]. do 3 right. left.
      split; [reflexivity|]. eauto.
    - apply (Hsame discoveryGVK _ Hvalid); [|reflexivity]. do 2 right. left.
      split; [reflexivity|]. eauto.
    - intros Hne. apply (Hsame imageMapGVK _ Hne); [|reflexivity]. right. left.
      split; [reflexivity|]. right. eauto. }
  rewrite <- Hkube. pose proof (reconcileKubernetesResource_containers cl m1) as [Hspec2 _].
  destruct (reconcileKubernetesResource cl m1) as [m2 [f2|err]]; cbn [fst] in Hspec2.
  2:{ rewrite (refreshFailed_same cl cl' lu err w1 Hstatus). reflexivity. }
  assert (Hdc : reconcileDockerComposeService cl m2 = reconcileDockerComposeService cl' m2).
  { apply reconcileDockerComposeService_same. rewrite Hspec2, Hspec1, Hspec0. intros dc Hdc.
    destruct (decide (LiveUpdateDockerComposeSelector.Service dc = "")) as [He|Hne].
    - rewrite He. exact Hempty.
    - apply (Hsame dcsGVK _ Hne); [|reflexivity]. do 4 right.
      split; [reflexivity|]. eauto. }
  rewrite <- Hdc.
  destruct (reconcileDockerComposeService cl m2) as [m3 [f3|err]].
  2:{ rewrite (refreshFailed_same cl cl' lu err w1 Hstatus). reflexivity. }
  rewrite <- (reconcileTriggerQueue_same cl cl' m3 Htq).
  destruct (reconcileTriggerQueue cl m3) as [m4 [f4|err]]; [|reflexivity].
  apply syncAndWrite_same. exact Hstatus.
Qed.

(** ** The monitor a reconcile leaves *)

Lemma sameIdentity_refl (m : monitor.t) : sameIdentity m m.
Proof. split; reflexivity. Qed.

Lemma sameIdentity_trans (m1 m2 m3 : monitor.t) :
  sameIdentity m1 m2 → sameIdentity m2 m3 → sameIdentity m1 m3.
Proof. intros [? ?] [? ?]. split; congruence. Qed.

Lemma reconcileOneSource_identity (cl : Client) (m : monitor.t) (s : LiveUpdateSource.t) :
  sameIdentity m (reconcileOneSource cl m s).1.
Proof.
  unfold reconcileOneSource, sameIdentity.
  repeat match goal with
         | |- context [match ?x with _ => _ end] => destruct x; try (split; reflexivity)
         end.
Qed.

Lemma reconcileSources_identity (cl : Client) (m : monitor.t) :
  sameIdentity m (reconcileSources cl m).1.
Proof.
  unfold reconcileSources. generalize false.
  generalize (LiveUpdateSpec.Sources (monitor.spec m)). intros sources.
  revert m. induction sources as [|s sources IH]; intros m hasChange.
  - apply sameIdentity_refl.
  - cbn [reconcileSourcesLoop].
    pose proof (reconcileOneSource_identity cl m s) as Hone.
    destruct (reconcileOneSource cl m s) as [m1 [one|err]]; cbn [fst] in *.
    + eapply sameIdentity_trans; [exact Hone | apply IH].
    + exact Hone.
Qed.

Lemma reconcileKubernetesResource_identity (cl : Client) (m : monitor.t) :
  sameIdentity m (reconcileKubernetesResource cl m).1.
Proof.
  unfold reconcileKubernetesResource, sameIdentity.
  repeat match goal with
         | |- context [match ?x with _ => _ end] => destruct x; try (split; reflexivity)
         end.
Qed.

Lemma reconcileDockerComposeService_identity (cl : Client) (m : monitor.t) :
  sameIdentity m (reconcileDockerComposeService cl m).1.
Proof.
  unfold reconcileDockerComposeService, sameIdentity.
  repeat match goal with
         | |- context [match ?x with _ => _ end] => destruct x; try (split; reflexivity)
         end.
Qed.

Lemma reconcileTriggerQueue_identity (cl : Client) (m : monitor.t) :
  sameIdentity m (reconcileTriggerQueue cl m).1.
Proof.
  unfold reconcileTriggerQueue, sameIdentity.
  repeat match goal with
         | |- context [match ?x with _ => _ end] => destruct x; try (split; reflexivity)
         end.
Qed.

Lemma maybeSync_identity (r : Reconciler W) (lu : LiveUpdate.t) (m : monitor.t)
    (w : World W) :
  sameIdentity m (maybeSync D r lu m w).1.2.
Proof.
  destruct (maybeSync D r lu m w) as [[status m'] w'] eqn:Hrun. cbn [fst snd].
  unfold maybeSync in Hrun.
  destruct (resource D lu m) as [res|err].
  2:{ unfold bind, ret in Hrun. rewrite createFailedState_eq in Hrun.
      inversion Hrun; subst. apply sameIdentity_refl. }
  assert (Hgc : ∀ m0, sameIdentity m0 (garbageCollectFileChanges D res m0)).
  { intros m0. unfold garbageCollectFileChanges.
    generalize (LiveUpdateSpec.Sources (monitor.spec m0)). intros sources. revert m0.
    induction sources as [|s sources IH]; intros m0; cbn [foldl];
      [apply sameIdentity_refl|].
    eapply sameIdentity_trans; [|apply IH]. unfold garbageCollectOneSource.
    destruct (monitor.sources m0 !! _); [|apply sameIdentity_refl].
    destruct (negb _); split; reflexivity. }
  assert (Hgc2 : sameIdentity m (garbageCollectMonitorContainers D res
                                   (garbageCollectFileChanges D res m))).
  { eapply sameIdentity_trans; [apply Hgc | split; reflexivity]. }
  unfold bind at 1 in Hrun. unfold visitSelectedContainers at 1 in Hrun.
  destruct (visitContainers (checkContainerFailed D lu _) _ None w) as [failed w1].
  destruct failed as [f|].
  { unfold ret in Hrun. inversion Hrun; subst. exact Hgc2. }
  unfold bind at 1 in Hrun. unfold visitSelectedContainers in Hrun.
  destruct (visitContainers (syncContainer D r lu _) _ _ w1) as [s w2] eqn:Hpass.
  unfold bind, ret in Hrun. destruct (finishPass D lu s w2) as [status' w3].
  inversion Hrun; subst. clear Hrun.
  revert Hpass.
  apply (visitContainers_inv (syncContainer D r lu _)
           (λ s0 _, sameIdentity m (passMonitor s0))).
  - intros pc s0 w0 stop s1 w1' _ HP Hstep.
    apply syncContainer_run in Hstep. cbv zeta in Hstep. destruct Hstep as [_ Hstep].
    destruct (isTerminated pc.1 pc.2).
    + destruct Hstep as (_ & _ & -> & _). exact HP.
    + destruct Hstep as (_ & c' & applied & upd & -> & _).
      eapply sameIdentity_trans; [exact HP | split; reflexivity].
  - exact Hgc2.
Qed.

(** [syncAndWrite], spelled out. *)
Lemma syncAndWrite_eq (cl : Client) (r : Reconciler W) (lu : LiveUpdate.t)
    (m : monitor.t) (w : World W) :
  syncAndWrite D cl r lu m w =
  if m.(monitor.hasChangesToSync) then
    let synced := maybeSync D r lu m w in
    let status := synced.1.1 in
    if decide (lu.(LiveUpdate.Status) = status) then
      ((storeMonitor lu.(LiveUpdate.Name)
          (monitor.set_hasChangesToSync false synced.1.2) r, None), synced.2)
    else
      let err := statusUpdate cl (withStatus lu status) in
      ((storeMonitor lu.(LiveUpdate.Name)
          match err with
          | Some _ => synced.1.2
          | None => monitor.set_hasChangesToSync false synced.1.2
          end r,
        err),
       mkWorld (ext synced.2)
         (trace synced.2 ++ [EvStatusUpdate (withStatus lu status) err]))
  else ((storeMonitor lu.(LiveUpdate.Name) (monitor.set_hasChangesToSync false m) r, None), w).
Proof.
  unfold syncAndWrite. destruct (monitor.hasChangesToSync m); [|reflexivity].
  unfold bind at 1. destruct (maybeSync D r lu m w) as [[status m'] w1]. cbv zeta.
  cbn [fst snd]. destruct (decide _); [reflexivity|].
  unfold StatusUpdate, emit, bind, ret. cbv beta. cbn [fst snd ext trace].
  destruct (statusUpdate cl (withStatus lu status)); reflexivity.
Qed.

Lemma syncAndWrite_stored (cl : Client) (r : Reconciler W) (lu : LiveUpdate.t)
    (m : monitor.t) (w : World W) :
  ∃ m', (syncAndWrite D cl r lu m w).1.1 = storeMonitor lu.(LiveUpdate.Name) m' r
        ∧ sameIdentity m m'.
Proof.
  rewrite syncAndWrite_eq. pose proof (maybeSync_identity r lu m w) as Hid.
  destruct (monitor.hasChangesToSync m); cbv zeta.
  - destruct (decide _); cbn [fst].
    + eexists. split; [reflexivity|]. destruct Hid. split; assumption.
    + destruct (statusUpdate cl _); eexists; (split; [reflexivity|]);
        destruct Hid; split; assumption.
  - eexists. split; [reflexivity|]. split; reflexivity.
Qed.

Lemma monitorFor_spec (r : Reconciler W) (lu : LiveUpdate.t) :
  (monitorFor r lu).(monitor.spec) = lu.(LiveUpdate.Spec).
Proof.
  unfold monitorFor, ensureMonitorExists.
  destruct (monitors r !! LiveUpdate.Name lu) as [m|]; [|reflexivity].
  destruct (decide _) as [Heq|Hne]; [symmetry; exact Heq | reflexivity].
Qed.

Lemma reconcilerFor_monitors (r : Reconciler W) (lu : LiveUpdate.t) (n : string) :
  n ≠ lu.(LiveUpdate.Name) →
  (reconcilerFor r lu).(monitors) !! n = r.(monitors) !! n.
Proof.
  intros Hne. unfold reconcilerFor, ensureMonitorExists. cbn [set_monitors monitors].
  destruct (monitors r !! LiveUpdate.Name lu) as [m|].
  - destruct (decide _); cbn [snd]; [reflexivity|].
    rewrite lookup_insert_ne by congruence. reflexivity.
  - cbn [snd]. rewrite lookup_insert_ne by congruence. reflexivity.
Qed.

Lemma afterStages_identity (cl : Client) (r : Reconciler W) (lu : LiveUpdate.t) :
  sameIdentity (monitorFor r lu) (afterSources cl r lu).1
  ∧ sameIdentity (monitorFor r lu) (afterKubernetes cl r lu).1
  ∧ sameIdentity (monitorFor r lu) (afterDockerCompose cl r lu).1
  ∧ sameIdentity (monitorFor r lu) (afterTriggerQueue cl r lu).1.
Proof.
  unfold afterTriggerQueue, afterDockerCompose, afterKubernetes, afterSources.
  pose proof (reconcileSources_identity cl (monitorFor r lu)) as H1.
  pose proof (reconcileKubernetesResource_identity cl
                (reconcileSources cl (monitorFor r lu)).1) as H2.
  pose proof (reconcileDockerComposeService_identity cl
                (reconcileKubernetesResource cl
                   (reconcileSources cl (monitorFor r lu)).1).1) as H3.
  pose proof (reconcileTriggerQueue_identity cl
                (reconcileDockerComposeService cl
                   (reconcileKubernetesResource cl
                      (reconcileSources cl (monitorFor r lu)).1).1).1) as H4.
  split; [exact H1|]. split; [eapply sameIdentity_trans; eassumption|].
  split; [eapply sameIdentity_trans; [eapply sameIdentity_trans|]; eassumption|].
  eapply sameIdentity_trans; [eapply sameIdentity_trans; [eapply sameIdentity_trans|]|];
    eassumption.
Qed.

(** After the reconcile of a live object with a valid selector, the
    reconciler holds a monitor for it: the one [ensureMonitorExists]
    returned, as far as manifest name and spec go. *)
Lemma Reconcile_stored (cl : Client) (req : string) (r : Reconciler W) (w : World W)
    (lu : LiveUpdate.t) :
  live cl req lu → validSelector lu →
  ∃ m', (Reconcile D cl req r w).1.1 = storeMonitor lu.(LiveUpdate.Name) m' (reconcilerFor r lu)
        ∧ sameIdentity (monitorFor r lu) m'.
Proof.
  intros (Hget & Hdel & Hman) Hvalid.
  destruct (afterStages_identity cl r lu) as (H1 & H2 & H3 & H4).
  apply (Reconcile_elim cl req r w
           (λ out, ∃ m', out.1.1 = storeMonitor lu.(LiveUpdate.Name) m' (reconcilerFor r lu)
                         ∧ sameIdentity (monitorFor r lu) m')).
  - intros err Herr. congruence.
  - intros [(err & Herr & _)|(lu' & Hlu' & [t Ht])]; [congruence|].
    assert (lu' = lu) by congruence. subst. congruence.
  - intros lu' Hlu' _ Hm. assert (lu' = lu) by congruence. subst. contradiction.
  - intros lu' failed w1 (Hlu' & _) Hens. assert (lu' = lu) by congruence. subst.
    rewrite (ensureSelectorValid_valid lu _ Hvalid) in Hens. discriminate.
  - intros lu' err (Hlu' & _) _ _. assert (lu' = lu) by congruence. subst.
    unfold refreshFailedWith. destruct (refreshFailed D cl lu err _). eauto.
  - intros lu' f1 err (Hlu' & _) _ _ _. assert (lu' = lu) by congruence. subst.
    unfold refreshFailedWith. destruct (refreshFailed D cl lu err _). eauto.
  - intros lu' f1 f2 err (Hlu' & _) _ _ _ _. assert (lu' = lu) by congruence. subst.
    unfold refreshFailedWith. destruct (refreshFailed D cl lu err _). eauto.
  - intros lu' f1 f2 f3 err (Hlu' & _) _ _ _ _ _. assert (lu' = lu) by congruence. subst.
    eauto.
  - intros lu' f1 f2 f3 f4 (Hlu' & _) _ _ _ _ _. assert (lu' = lu) by congruence. subst.
    destruct (syncAndWrite_stored cl (reconcilerFor r lu) lu
                (refreshed cl r lu (f1 || f2 || f3 || f4)) (upserted lu w))
      as (m' & Hm' & Hid).
    exists m'. split; [exact Hm'|].
    eapply sameIdentity_trans; [|exact Hid]. unfold refreshed.
    destruct (_ || _ || _ || _); [|exact H4].
    eapply sameIdentity_trans; [exact H4 | split; reflexivity].
Qed.

(** X5. A reconcile touches one monitor only: the updaters, the
    update mode and the start time of the reconciler are what they were,
    and so is the monitor under every name other than the name of the
    request and the name of the object fetched. *)
Theorem reconcile_touches_only_its_monitor (cl : Client) (req : string)
    (r : Reconciler W) (w : World W) :
  let r' := (Reconcile D cl req r w).1.1 in
  r'.(ExecUpdater) = r.(ExecUpdater)
  ∧ r'.(DockerUpdater) = r.(DockerUpdater)
  ∧ r'.(updateMode) = r.(updateMode)
  ∧ r'.(startedTime) = r.(startedTime)
  ∧ ∀ n, n ≠ req →
         (∀ lu, getLiveUpdate cl req = Ok lu → n ≠ lu.(LiveUpdate.Name)) →
         r'.(monitors) !! n = r.(monitors) !! n.
Proof.
  cbv zeta.
  assert (Hstore : ∀ lu m,
            let r' := storeMonitor lu.(LiveUpdate.Name) m (reconcilerFor r lu) in
            getLiveUpdate cl req = Ok lu →
            r'.(ExecUpdater) = r.(ExecUpdater)
            ∧ r'.(DockerUpdater) = r.(DockerUpdater)
            ∧ r'.(updateMode) = r.(updateMode)
            ∧ r'.(startedTime) = r.(startedTime)
            ∧ ∀ n, n ≠ req →
                   (∀ lu, getLiveUpdate cl req = Ok lu → n ≠ lu.(LiveUpdate.Name)) →
                   r'.(monitors) !! n = r.(monitors) !! n).
  { intros lu m r' Hget. repeat (split; [reflexivity|]).
    intros n _ Hn. specialize (Hn lu Hget). unfold r', storeMonitor.
    cbn [set_monitors monitors]. rewrite lookup_insert_ne by congruence.
    apply reconcilerFor_monitors. exact Hn. }
  apply (Reconcile_elim cl req r w
           (λ out, out.1.1.(ExecUpdater) = r.(ExecUpdater)
                   ∧ out.1.1.(DockerUpdater) = r.(DockerUpdater)
                   ∧ out.1.1.(updateMode) = r.(updateMode)
                   ∧ out.1.1.(startedTime) = r.(startedTime)
                   ∧ ∀ n, n ≠ req →
                          (∀ lu, getLiveUpdate cl req = Ok lu → n ≠ lu.(LiveUpdate.Name)) →
                          out.1.1.(monitors) !! n = r.(monitors) !! n)).
  - intros err _ _. cbn. auto.
  - intros _. cbn. repeat (split; [reflexivity|]). intros n Hn _.
    apply lookup_delete_ne. congruence.
  - intros lu _ _ _. cbn. auto.
  - intros lu failed w1 _ _. destruct (handleFailure cl lu failed w1). cbn. auto.
  - intros lu err (Hget & _) _ _. unfold refreshFailedWith.
    destruct (refreshFailed D cl lu err _). cbn [fst snd]. apply Hstore. exact Hget.
  - intros lu f1 err (Hget & _) _ _ _. unfold refreshFailedWith.
    destruct (refreshFailed D cl lu err _). cbn [fst snd]. apply Hstore. exact Hget.
  - intros lu f1 f2 err (Hget & _) _ _ _ _. unfold refreshFailedWith.
    destruct (refreshFailed D cl lu err _). cbn [fst snd]. apply Hstore. exact Hget.
  - intros lu f1 f2 f3 err (Hget & _) _ _ _ _ _. cbn [fst snd]. apply Hstore. exact Hget.
  - intros lu f1 f2 f3 f4 (Hget & _) _ _ _ _ _.
    destruct (syncAndWrite_stored cl (reconcilerFor r lu) lu
                (refreshed cl r lu (f1 || f2 || f3 || f4)) (upserted lu w))
      as (m' & -> & _).
    apply Hstore. exact Hget.
Qed.

(** ** The trigger queue *)

Lemma nameSet_elem (names : list string) (x : string) :
  ∀ acc : gset string,
    x ∈ foldl (λ (nameSet : gset string) name, {[ name ]} ∪ nameSet) acc names
    ↔ x ∈ acc ∨ x ∈ names.
Proof.
  induction names as [|n names IH]; intros acc; cbn [foldl].
  - split; [auto|]. intros [H|H]; [exact H | inversion H].
  - rewrite IH, elem_of_union, elem_of_singleton, elem_of_cons. tauto.
Qed.

Lemma enqueue_fold (nameSet : gset string) (l : list (string * monitor.t)) :
  ∀ acc,
    foldl (λ requests (nm : string * monitor.t),
             if decide (nm.2.(monitor.manifestName) ∈ nameSet)
             then requests ++ [nm.1] else requests) acc l
    = acc ++ (filter (λ nm : string * monitor.t,
                        nm.2.(monitor.manifestName) ∈ nameSet) l).*1.
Proof.
  induction l as [|nm l IH]; intros acc; cbn [foldl].
  - cbn. rewrite app_nil_r. reflexivity.
  - rewrite IH, filter_cons. destruct (decide _).
    + rewrite fmap_cons, <- app_assoc. reflexivity.
    + reflexivity.
Qed.

Lemma enqueueTriggerQueue_spec (TriggerQueueName : string)
    (NamesInTriggerQueue : ConfigMap.t → list string) (r : Reconciler W) (obj : Object)
    (name : string) :
  name ∈ enqueueTriggerQueue TriggerQueueName NamesInTriggerQueue r obj
  ↔ ∃ cm m, obj = ObjConfigMap cm
            ∧ cm.(ConfigMap.Name) = TriggerQueueName
            ∧ r.(monitors) !! name = Some m
            ∧ m.(monitor.manifestName) ∈ NamesInTriggerQueue cm.
Proof.
  unfold enqueueTriggerQueue. destruct obj as [ns lu|cm|].
  - split; [intros H; inversion H|]. intros (cm & m & Heq & _). discriminate.
  - destruct (decide (ConfigMap.Name cm = TriggerQueueName)) as [Hn|Hn].
    + rewrite enqueue_fold, app_nil_l, list_elem_of_fmap. split.
      * intros ([n m] & -> & Hin). apply list_elem_of_filter in Hin.
        destruct Hin as [Hset Hin]. apply elem_of_map_to_list in Hin.
        apply nameSet_elem in Hset. destruct Hset as [Hset|Hset]; [set_solver|].
        exists cm, m. auto.
      * intros (cm' & m & Heq & _ & Hm & Hset). inversion Heq; subst cm'.
        exists (name, m). split; [reflexivity|]. apply list_elem_of_filter.
        split; [apply nameSet_elem; right; exact Hset|].
        apply elem_of_map_to_list. exact Hm.
    + split; [intros H; inversion H|]. intros (cm' & m & Heq & Hn' & _).
      inversion Heq; subst. contradiction.
  - split; [intros H; inversion H|]. intros (cm & m & Heq & _). discriminate.
Qed.

(** X3. A change of the trigger queue ConfigMap enqueues exactly
    the LiveUpdates the reconciler holds a monitor for and whose
    monitor's manifest name is in the queue, each once; any other object,
    a ConfigMap of another name included, enqueues nothing. *)
Theorem trigger_queue_enqueues_known_manifests (TriggerQueueName : string)
    (NamesInTriggerQueue : ConfigMap.t → list string) (r : Reconciler W) (obj : Object) :
  let requests := enqueueTriggerQueue TriggerQueueName NamesInTriggerQueue r obj in
  NoDup requests
  ∧ ∀ name,
      name ∈ requests
      ↔ ∃ cm m, obj = ObjConfigMap cm
                ∧ cm.(ConfigMap.Name) = TriggerQueueName
                ∧ r.(monitors) !! name = Some m
                ∧ m.(monitor.manifestName) ∈ NamesInTriggerQueue cm.
Proof.
  cbv zeta. split; [|apply enqueueTriggerQueue_spec].
  unfold enqueueTriggerQueue. destruct obj as [ns lu|cm|]; try constructor.
  destruct (decide _); [|constructor].
  rewrite enqueue_fold, app_nil_l.
  apply (sublist_NoDup _ (map_to_list r.(monitors)).*1);
    [apply NoDup_fst_map_to_list|].
  apply fmap_sublist, sublist_filter.
Qed.

(** X4. What the trigger queue can reach after a reconcile:
    the name of an object that is gone is enqueued by nothing; a live
    object with a valid selector is enqueued by the trigger queue exactly
    when the manifest name of its monitor is in the queue, and that is
    the object's own manifest annotation when the reconciler held no
    monitor for it, or held one for another spec. *)
Theorem reconciled_objects_can_be_triggered (TriggerQueueName : string)
    (NamesInTriggerQueue : ConfigMap.t → list string) (cl : Client) (req : string)
    (r : Reconciler W) (w : World W) :
  let r' := (Reconcile D cl req r w).1.1 in
  (gone cl req →
   ∀ obj, req ∉ enqueueTriggerQueue TriggerQueueName NamesInTriggerQueue r' obj)
  ∧ ∀ lu cm,
      live cl req lu → validSelector lu →
      cm.(ConfigMap.Name) = TriggerQueueName →
      (lu.(LiveUpdate.Name)
       ∈ enqueueTriggerQueue TriggerQueueName NamesInTriggerQueue r' (ObjConfigMap cm)
       ↔ (monitorFor r lu).(monitor.manifestName) ∈ NamesInTriggerQueue cm)
      ∧ ((∀ m, r.(monitors) !! lu.(LiveUpdate.Name) = Some m →
               m.(monitor.spec) ≠ lu.(LiveUpdate.Spec)) →
         (monitorFor r lu).(monitor.manifestName) = annotation lu AnnotationManifest).
Proof.
  cbv zeta. split.
  - intros Hgone obj Hin. apply enqueueTriggerQueue_spec in Hin.
    destruct Hin as (cm & m & _ & _ & Hm & _).
    assert (Hdel : (Reconcile D cl req r w).1.1 = set_monitors (delete req r.(monitors)) r).
    { unfold Reconcile. destruct Hgone as [(err & -> & ->)|(lu & -> & Hdel)]; [reflexivity|].
      destruct (decide _); [reflexivity | contradiction]. }
    rewrite Hdel in Hm. cbn [set_monitors monitors] in Hm.
    rewrite lookup_delete_eq in Hm. discriminate.
  - intros lu cm Hlive Hvalid Hname. split.
    + destruct (Reconcile_stored cl req r w lu Hlive Hvalid) as (m' & -> & Hid & _).
      rewrite enqueueTriggerQueue_spec. unfold storeMonitor. cbn [set_monitors monitors].
      rewrite lookup_insert_eq. split.
      * intros (cm' & m & Heq & _ & Hm & Hin). inversion Heq; subst cm'.
        inversion Hm; subst m. rewrite <- Hid. exact Hin.
      * intros Hin. exists cm, m'. rewrite Hid. auto.
    + intros Hnew. unfold monitorFor, ensureMonitorExists.
      destruct (monitors r !! LiveUpdate.Name lu) as [m|] eqn:Hm; [|reflexivity].
      destruct (decide _) as [Heq|Hne]; [|reflexivity].
      exfalso. apply (Hnew m eq_refl). symmetry. exact Heq.
Qed.

(** ** Status writes and errors of a reconcile *)

Lemma handleFailure_onlyWrite (cl : Client) (req : string) (lu : LiveUpdate.t)
    (failed : LiveUpdateStateFailed.t) (w w1 : World W) (r' : Reconciler W)
    (pre : list Event) :
  getLiveUpdate cl req = Ok lu →
  trace w1 = trace w ++ pre →
  Forall (λ e, isStatusUpdate e = false) pre →
  let out := (let '(err, w2) := handleFailure cl lu failed w1 in ((r', err), w2)) in
  ∃ new, trace out.2 = trace w ++ new
         ∧ ∀ update err, EvStatusUpdate update err ∈ new →
                         onlyWrite cl req new out.1.2 update err.
Proof.
  intros Hget Hw1 Hpre. cbv zeta. rewrite handleFailure_eq.
  destruct (decide _) as [Hsame|Hnew]; cbn [fst snd trace].
  - exists pre. split; [exact Hw1|]. intros update err Hin.
    rewrite Forall_forall in Hpre. specialize (Hpre _ Hin). discriminate.
  - eexists. split; [rewrite Hw1, <- app_assoc; reflexivity|].
    intros update err Hin. apply elem_of_app in Hin. destruct Hin as [Hin|Hin].
    { rewrite Forall_forall in Hpre. specialize (Hpre _ Hin). discriminate. }
    apply list_elem_of_singleton in Hin. inversion Hin; subst.
    exists lu, pre. split; [exact Hget|]. split; [reflexivity|]. split; [exact Hpre|].
    split; [reflexivity|]. split; [|split; reflexivity].
    cbn. intros Heq. apply Hnew. rewrite <- Heq. reflexivity.
Qed.

Lemma refreshFailed_onlyWrite (cl : Client) (req : string) (r : Reconciler W)
    (lu : LiveUpdate.t) (m : monitor.t) (err : error) (w : World W) :
  getLiveUpdate cl req = Ok lu →
  let out := refreshFailedWith D cl r lu m err w in
  ∃ new, trace out.2 = trace w ++ new
         ∧ ∀ update e, EvStatusUpdate update e ∈ new →
                       onlyWrite cl req new out.1.2 update e.
Proof.
  intros Hget. cbv zeta. unfold refreshFailedWith, refreshFailed.
  destruct (IsNotFound err).
  - unfold bind.
    pose proof (createFailedState_trace lu reasonObjectNotFound (Error err) (upserted lu w))
      as Ht.
    destruct (createFailedState D lu reasonObjectNotFound (Error err) (upserted lu w))
      as [f w1]. cbn [snd upserted trace] in Ht.
    apply (handleFailure_onlyWrite cl req lu f w w1 _ [EvLiveUpdateUpsert lu] Hget Ht).
    constructor; [reflexivity | constructor].
  - unfold ret. cbn [fst snd upserted trace]. eexists. split; [reflexivity|].
    intros update e Hin. apply list_elem_of_singleton in Hin. discriminate.
Qed.

(** X6. A reconcile writes the status at most once, as the last
    thing it does; it writes the object it fetched with nothing but the
    status changed, never with the status the object has already; and
    the outcome of the write is what the reconcile returns. *)
Theorem reconcile_writes_status_last_and_once (cl : Client) (req : string)
    (r : Reconciler W) (w : World W) :
  let out := Reconcile D cl req r w in
  ∃ new,
    trace out.2 = trace w ++ new
    ∧ ∀ update err, EvStatusUpdate update err ∈ new →
                    onlyWrite cl req new out.1.2 update err.
Proof.
  cbv zeta.
  apply (Reconcile_elim cl req r w
           (λ out, ∃ new, trace out.2 = trace w ++ new
                          ∧ ∀ update err, EvStatusUpdate update err ∈ new →
                                          onlyWrite cl req new out.1.2 update err)).
  - intros err _ _. exists []. cbn. rewrite app_nil_r. split; [reflexivity|].
    intros ? ? Hin. inversion Hin.
  - intros _. eexists. split; [reflexivity|]. intros ? ? Hin.
    apply list_elem_of_singleton in Hin. discriminate.
  - intros lu _ _ _. eexists. split; [reflexivity|]. intros ? ? Hin.
    apply list_elem_of_singleton in Hin. discriminate.
  - intros lu failed w1 (Hget & _) Hens.
    pose proof (ensureSelectorValid_keeps lu (upserted lu w)) as [Ht _].
    rewrite Hens in Ht. cbn [snd upserted trace] in Ht.
    apply (handleFailure_onlyWrite cl req lu failed w w1 r [EvLiveUpdateUpsert lu] Hget Ht).
    constructor; [reflexivity | constructor].
  - intros lu err (Hget & _) _ _. apply refreshFailed_onlyWrite. exact Hget.
  - intros lu f1 err (Hget & _) _ _ _. apply refreshFailed_onlyWrite. exact Hget.
  - intros lu f1 f2 err (Hget & _) _ _ _ _. apply refreshFailed_onlyWrite. exact Hget.
  - intros lu f1 f2 f3 err _ _ _ _ _ _. eexists. split; [reflexivity|]. intros ? ? Hin.
    apply list_elem_of_singleton in Hin. discriminate.
  - intros lu f1 f2 f3 f4 (Hget & _) _ _ _ _ _. rewrite syncAndWrite_eq.
    generalize (reconcilerFor r lu) (refreshed cl r lu (f1 || f2 || f3 || f4)).
    intros r0 m.
    destruct (maybeSync_writes_no_status r0 lu m (upserted lu w)) as (mid & Hmid & Hno).
    cbn [upserted trace] in Hmid.
    assert (Hpre : Forall (λ e, isStatusUpdate e = false) ([EvLiveUpdateUpsert lu] ++ mid)).
    { apply Forall_app. split; [constructor; [reflexivity | constructor]|].
      rewrite forallb_forall in Hno. apply Forall_forall. intros e He.
      apply list_elem_of_In in He. specialize (Hno e He).
      destruct (isStatusUpdate e); [discriminate | reflexivity]. }
    destruct (monitor.hasChangesToSync m); cbv zeta.
    2:{ cbn [fst snd upserted trace]. eexists. split; [reflexivity|]. intros ? ? Hin.
        apply list_elem_of_singleton in Hin. discriminate. }
    destruct (decide _) as [Hsame|Hdiff]; cbn [fst snd trace].
    + exists ([EvLiveUpdateUpsert lu] ++ mid). split; [rewrite Hmid, app_assoc; reflexivity|].
      intros update err Hin. rewrite Forall_forall in Hpre. specialize (Hpre _ Hin).
      discriminate.
    + eexists. split; [rewrite Hmid, <- !app_assoc; reflexivity|].
      intros update err Hin. rewrite !app_assoc in Hin.
      apply elem_of_app in Hin. destruct Hin as [Hin|Hin].
      { rewrite Forall_forall in Hpre. specialize (Hpre _ Hin). discriminate. }
      apply list_elem_of_singleton in Hin. inversion Hin; subst.
      exists lu, ([EvLiveUpdateUpsert lu] ++ mid). split; [exact Hget|].
      split; [rewrite <- !app_assoc; reflexivity|]. split; [exact Hpre|].
      split; [reflexivity|]. split; [|split; reflexivity].
      cbn. intros Heq. apply Hdiff. symmetry. exact Heq.
Qed.

Lemma reconcileOneSource_error (cl : Client) (m : monitor.t) (s : LiveUpdateSource.t)
    (e : error) :
  (reconcileOneSource cl m s).2 = Err e → readFails cl e.
Proof.
  unfold reconcileOneSource, readFails.
  destruct (decide (LiveUpdateSource.FileWatch s = "")).
  - destruct (decide (LiveUpdateSource.ImageMap s = "")); [discriminate|].
    destruct (getImageMap cl _) as [im|err] eqn:Him.
    + cbn. discriminate.
    + cbn. intros H; inversion H; subst. right. left. eauto.
  - destruct (getFileWatch cl _) as [fw|err] eqn:Hfw.
    + destruct (decide (LiveUpdateSource.ImageMap s = "")).
      * destruct (last _); discriminate.
      * destruct (getImageMap cl _) as [im|err] eqn:Him.
        -- destruct (last _); discriminate.
        -- cbn. intros H; inversion H; subst. right. left. eauto.
    + cbn. intros H; inversion H; subst. left. eauto.
Qed.

Lemma reconcileSources_error (cl : Client) (m : monitor.t) (e : error) :
  (reconcileSources cl m).2 = Err e → readFails cl e.
Proof.
  unfold reconcileSources. generalize false.
  generalize (LiveUpdateSpec.Sources (monitor.spec m)). intros sources. revert m.
  induction sources as [|s sources IH]; intros m hasChange; cbn [reconcileSourcesLoop];
    [discriminate|].
  pose proof (reconcileOneSource_error cl m s e) as Hone.
  destruct (reconcileOneSource cl m s) as [m1 [one|err]]; cbn [snd] in *.
  - apply IH.
  - exact Hone.
Qed.

Lemma reconcileKubernetesResource_error (cl : Client) (m : monitor.t) (e : error) :
  (reconcileKubernetesResource cl m).2 = Err e → readFails cl e.
Proof.
  unfold reconcileKubernetesResource, readFails.
  destruct (LiveUpdateSelector.Kubernetes _) as [k|]; [|discriminate].
  destruct (decide (LiveUpdateKubernetesSelector.ApplyName k = "")).
  - destruct (getKubernetesDiscovery cl _) as [kd|err] eqn:Hkd.
    + destruct (decide (LiveUpdateKubernetesSelector.ImageMapName k = "")); [discriminate|].
      destruct (getImageMap cl _) as [im|err] eqn:Him; [discriminate|].
      cbn. intros H; inversion H; subst. right. left. eauto.
    + cbn. intros H; inversion H; subst. do 2 right. left. eauto.
  - destruct (getKubernetesApply cl _) as [ka|err] eqn:Hka.
    + destruct (getKubernetesDiscovery cl _) as [kd|err] eqn:Hkd.
      * destruct (decide (LiveUpdateKubernetesSelector.ImageMapName k = "")); [discriminate|].
        destruct (getImageMap cl _) as [im|err] eqn:Him; [discriminate|].
        cbn. intros H; inversion H; subst. right. left. eauto.
      * cbn. intros H; inversion H; subst. do 2 right. left. eauto.
    + cbn. intros H; inversion H; subst. do 3 right. left. eauto.
Qed.

Lemma reconcileDockerComposeService_error (cl : Client) (m : monitor.t) (e : error) :
  (reconcileDockerComposeService cl m).2 = Err e → readFails cl e.
Proof.
  unfold reconcileDockerComposeService, readFails.
  destruct (LiveUpdateSelector.DockerCompose _) as [dc|]; [|discriminate].
  destruct (getDockerComposeService cl _) as [dcs|err] eqn:Hdcs; [discriminate|].
  cbn. intros H; inversion H; subst. do 4 right. left. eauto.
Qed.

Lemma reconcileTriggerQueue_error (cl : Client) (m : monitor.t) (e : error) :
  (reconcileTriggerQueue cl m).2 = Err e → readFails cl e ∧ IsNotFound e = false.
Proof.
  unfold reconcileTriggerQueue, readFails, IgnoreNotFound.
  destruct (getTriggerQueue cl) as [queue|err] eqn:Htq.
  - destruct (match monitor.lastTriggerQueue m with Some _ => _ | None => _ end);
      discriminate.
  - destruct (IsNotFound err) eqn:Hnf; [discriminate|].
    cbn. intros H; inversion H; subst. split; [do 5 right; reflexivity | exact Hnf].
Qed.

Lemma refreshFailed_error (cl : Client) (r : Reconciler W) (lu : LiveUpdate.t)
    (m : monitor.t) (err : error) (w : World W) (e : error) :
  readFails cl err →
  (refreshFailedWith D cl r lu m err w).1.2 = Some e →
  (IsNotFound e = false ∧ readFails cl e) ∨ ∃ update, statusUpdate cl update = Some e.
Proof.
  intros Hread. unfold refreshFailedWith, refreshFailed.
  destruct (IsNotFound err) eqn:Hnf.
  - unfold bind. destruct (createFailedState D lu _ _ _) as [f w1].
    rewrite handleFailure_eq. destruct (decide _); cbn [fst snd]; [discriminate|].
    intros He. right. eauto.
  - unfold ret. cbn. intros H; inversion H; subst. left. auto.
Qed.

(** X7. Every error a reconcile returns has a cause: the read of
    the LiveUpdate failed other than with NotFound (the error is wrapped),
    a read of a watched object or of the trigger queue failed other than
    with NotFound (that error is returned as it is), or the status write
    failed (its error is returned). *)
Theorem reconcile_error_has_a_cause (cl : Client) (req : string) (r : Reconciler W)
    (w : World W) (e : error) :
  (Reconcile D cl req r w).1.2 = Some e →
  (∃ err, getLiveUpdate cl req = Err err ∧ IsNotFound err = false
          ∧ e = ErrOther ("liveupdate reconcile: " +:+ Error err))
  ∨ (IsNotFound e = false ∧ readFails cl e)
  ∨ (∃ update, statusUpdate cl update = Some e).
Proof.
  apply (Reconcile_elim cl req r w
           (λ out, out.1.2 = Some e →
                   (∃ err, getLiveUpdate cl req = Err err ∧ IsNotFound err = false
                           ∧ e = ErrOther ("liveupdate reconcile: " +:+ Error err))
                   ∨ (IsNotFound e = false ∧ readFails cl e)
                   ∨ (∃ update, statusUpdate cl update = Some e))).
  - intros err Hget Hnf. cbn. intros H; inversion H; subst. left. eauto.
  - intros _. cbn. discriminate.
  - intros lu _ _ _. cbn. discriminate.
  - intros lu failed w1 _ _. rewrite handleFailure_eq.
    destruct (decide _); cbn [fst snd]; [discriminate|]. intros He. right. right. eauto.
  - intros lu err _ _ Herr He. right.
    refine (refreshFailed_error cl r lu _ err w e _ He).
    apply (reconcileSources_error cl (monitorFor r lu) err). exact Herr.
  - intros lu f1 err _ _ _ Herr He. right.
    refine (refreshFailed_error cl r lu _ err w e _ He).
    apply (reconcileKubernetesResource_error cl (afterSources cl r lu).1 err). exact Herr.
  - intros lu f1 f2 err _ _ _ _ Herr He. right.
    refine (refreshFailed_error cl r lu _ err w e _ He).
    apply (reconcileDockerComposeService_error cl (afterKubernetes cl r lu).1 err).
    exact Herr.
  - intros lu f1 f2 f3 err _ _ _ _ _ Herr. cbn. intros H; inversion H; subst.
    right. left.
    destruct (reconcileTriggerQueue_error cl (afterDockerCompose cl r lu).1 e Herr). auto.
  - intros lu f1 f2 f3 f4 _ _ _ _ _ _. rewrite syncAndWrite_eq.
    destruct (monitor.hasChangesToSync _); cbv zeta; [|cbn; discriminate].
    destruct (decide _); cbn [fst snd]; [discriminate|]. intros He. right. right. eauto.
Qed.

(** ** A sync stays pending until its status is written *)

Lemma maybeSync_flag (r : Reconciler W) (lu : LiveUpdate.t) (m : monitor.t)
    (w : World W) :
  (maybeSync D r lu m w).1.2.(monitor.hasChangesToSync) = m.(monitor.hasChangesToSync).
Proof.
  destruct (maybeSync D r lu m w) as [[status m'] w'] eqn:Hrun. cbn [fst snd].
  unfold maybeSync in Hrun.
  destruct (resource D lu m) as [res|err].
  2:{ unfold bind, ret in Hrun. rewrite createFailedState_eq in Hrun.
      inversion Hrun; subst. reflexivity. }
  assert (Hgc : ∀ m0, (garbageCollectFileChanges D res m0).(monitor.hasChangesToSync)
                      = m0.(monitor.hasChangesToSync)).
  { intros m0. unfold garbageCollectFileChanges.
    generalize (LiveUpdateSpec.Sources (monitor.spec m0)). intros sources. revert m0.
    induction sources as [|s sources IH]; intros m0; cbn [foldl]; [reflexivity|].
    rewrite IH. unfold garbageCollectOneSource.
    destruct (monitor.sources m0 !! _); [|reflexivity].
    destruct (negb _); reflexivity. }
  assert (Hgc2 : (garbageCollectMonitorContainers D res
                    (garbageCollectFileChanges D res m)).(monitor.hasChangesToSync)
                 = m.(monitor.hasChangesToSync)).
  { rewrite <- (Hgc m). reflexivity. }
  unfold bind at 1 in Hrun. unfold visitSelectedContainers at 1 in Hrun.
  destruct (visitContainers (checkContainerFailed D lu _) _ None w) as [failed w1].
  destruct failed as [f|].
  { unfold ret in Hrun. inversion Hrun; subst. exact Hgc2. }
  unfold bind at 1 in Hrun. unfold visitSelectedContainers in Hrun.
  destruct (visitContainers (syncContainer D r lu _) _ _ w1) as [s w2] eqn:Hpass.
  unfold bind, ret in Hrun. destruct (finishPass D lu s w2) as [status' w3].
  inversion Hrun; subst. clear Hrun.
  revert Hpass.
  apply (visitContainers_inv (syncContainer D r lu _)
           (λ s0 _, (passMonitor s0).(monitor.hasChangesToSync)
                    = m.(monitor.hasChangesToSync))).
  - intros pc s0 w0 stop s1 w1' _ HP Hstep.
    apply syncContainer_run in Hstep. cbv zeta in Hstep. destruct Hstep as [_ Hstep].
    destruct (isTerminated pc.1 pc.2).
    + destruct Hstep as (_ & _ & -> & _). exact HP.
    + destruct Hstep as (_ & c' & applied & upd & -> & _).
      rewrite <- HP. reflexivity.
  - exact Hgc2.
Qed.

(** X8. When every read of a reconcile succeeds, the monitor it
    stores has changes waiting to be synced exactly when the reconcile
    returns an error, which is then the error of the status write: a sync
    whose status could not be written stays pending for the next
    reconcile, and any other sync is finished. *)
Theorem sync_stays_pending_until_status_is_written (cl : Client) (req : string)
    (r : Reconciler W) (w : World W) (lu : LiveUpdate.t) (changed : bool) :
  live cl req lu → validSelector lu → refreshes cl r lu changed →
  let out := Reconcile D cl req r w in
  ∃ m', out.1.1.(monitors) !! lu.(LiveUpdate.Name) = Some m'
        ∧ (m'.(monitor.hasChangesToSync) = true ↔ is_Some out.1.2)
        ∧ ∀ e, out.1.2 = Some e → ∃ update, statusUpdate cl update = Some e.
Proof.
  intros (Hget & Hdel & Hman) Hvalid (f1 & f2 & f3 & f4 & H1 & H2 & H3 & H4 & ->).
  cbv zeta.
  assert (Hlu : ∀ lu', live cl req lu' → lu' = lu).
  { intros lu' (Hget' & _). congruence. }
  assert (Hnotgone : ¬ gone cl req).
  { intros [(err & Herr & _)|(lu' & Hget' & Hdel')]; [congruence|].
    assert (lu' = lu) by congruence. subst. rewrite Hdel in Hdel'.
    destruct Hdel' as [? ?]; discriminate. }
  apply (Reconcile_elim cl req r w
           (λ out, ∃ m', out.1.1.(monitors) !! lu.(LiveUpdate.Name) = Some m'
                         ∧ (m'.(monitor.hasChangesToSync) = true ↔ is_Some out.1.2)
                         ∧ ∀ e, out.1.2 = Some e →
                                ∃ update, statusUpdate cl update = Some e)).
  - intros err Herr _. congruence.
  - intros Hgone. contradiction.
  - intros lu' Hget' _ Hman'. assert (lu' = lu) by congruence. subst. contradiction.
  - intros lu' failed w1 Hlive Hens. apply Hlu in Hlive. subst lu'.
    pose proof (ensureSelectorValid_valid lu (upserted lu w) Hvalid) as Hok.
    rewrite Hens in Hok. discriminate.
  - intros lu' err Hlive _ Herr. apply Hlu in Hlive. subst lu'. congruence.
  - intros lu' g1 err Hlive _ _ Herr. apply Hlu in Hlive. subst lu'. congruence.
  - intros lu' g1 g2 err Hlive _ _ _ Herr. apply Hlu in Hlive. subst lu'. congruence.
  - intros lu' g1 g2 g3 err Hlive _ _ _ _ Herr. apply Hlu in Hlive. subst lu'. congruence.
  - intros lu' g1 g2 g3 g4 Hlive _ G1 G2 G3 G4. apply Hlu in Hlive. subst lu'.
    rewrite syncAndWrite_eq.
    generalize (refreshed cl r lu (g1 || g2 || g3 || g4)). intros m.
    pose proof (maybeSync_flag (reconcilerFor r lu) lu m (upserted lu w)) as Hflag.
    destruct (monitor.hasChangesToSync m) eqn:Hm; cbv zeta.
    + destruct (decide _); cbn [fst snd storeMonitor set_monitors monitors].
      * eexists. split; [apply lookup_insert_eq|]. split; [|discriminate].
        split; [destruct (maybeSync _ _ _ _ _).1.2; discriminate|].
        intros [? ?]; discriminate.
      * destruct (statusUpdate cl _) as [e|] eqn:He.
        -- eexists. split; [apply lookup_insert_eq|]. split.
           ++ split; [eauto | intros _; exact Hflag].
           ++ intros e' He'. inversion He'; subst. eauto.
        -- eexists. split; [apply lookup_insert_eq|]. split; [|discriminate].
           split; [destruct (maybeSync _ _ _ _ _).1.2; discriminate|].
           intros [? ?]; discriminate.
    + cbn [fst snd storeMonitor set_monitors monitors].
      eexists. split; [apply lookup_insert_eq|]. split; [|discriminate].
      split; [destruct m; discriminate|]. intros [? ?]; discriminate.
Qed.

(** ** A pass that met only terminated containers is promoted to a failure *)

Lemma DedupedAndSorted_length (l : list string) :
  (0 < length (DedupedAndSorted l))%nat ↔ l ≠ [].
Proof.
  unfold DedupedAndSorted. rewrite merge_sort_Permutation.
  destruct l as [|x l].
  - cbn. split; [lia | congruence].
  - split; [discriminate|]. intros _.
    assert (Hx : x ∈ remove_dups (x :: l)) by (apply elem_of_remove_dups; left).
    destruct (remove_dups (x :: l)); [inversion Hx | cbn; lia].
Qed.

Lemma scanChangedFiles_nonempty (hwm : Z) (sources : gmap string monitorSource.t) :
  (scanChangedFiles hwm sources).1.1 ≠ [] ↔ ∃ f t, recorded sources f t ∧ hwm < t.
Proof.
  rewrite scanChangedFiles_flat. split.
  - intros Hne.
    destruct (foldl (scanFile hwm) ([], 0, hwm) (allFiles sources)).1.1 as [|f files] eqn:Hf;
      [contradiction|].
    assert (Hin : f ∈ (foldl (scanFile hwm) ([], 0, hwm) (allFiles sources)).1.1)
      by (rewrite Hf; left).
    apply foldl_scanFile_files in Hin. destruct Hin as [Hin|(t & Hin & Ht)]; [inversion Hin|].
    exists f, t. split; [apply elem_of_allFiles; exact Hin | exact Ht].
  - intros (f & t & Hrec & Ht) Hnil.
    assert (Hin : f ∈ (foldl (scanFile hwm) ([], 0, hwm) (allFiles sources)).1.1).
    { apply foldl_scanFile_files. right. exists t.
      split; [apply elem_of_allFiles; exact Hrec | exact Ht]. }
    rewrite Hnil in Hin. inversion Hin.
Qed.

(** The first name that is not empty. *)
Lemma firstName_app (pre post : list string) (n : string) :
  (∀ n', n' ∈ pre → n' = "") → n ≠ "" →
  head (filter (λ n', n' ≠ "") (pre ++ n :: post)) = Some n.
Proof.
  intros Hpre Hn. induction pre as [|n0 pre IH]; cbn [app].
  - rewrite filter_cons_True by exact Hn. reflexivity.
  - rewrite filter_cons_False.
    + apply IH. intros n' Hin. apply Hpre. right. exact Hin.
    + intros Hne. apply Hne. apply Hpre. left.
Qed.

(** A pass over terminated containers only: nothing is dispatched, called
    or recorded; the pass notes whether some container has a file to
    sync, and the name of the first pod that has one. *)
Lemma pass_of_terminated (r : Reconciler W) (lu : LiveUpdate.t) (trig : bool)
    (selected : list (Pod.t * Container.t)) :
  ∀ s w,
    (∀ pc, pc ∈ selected → isTerminated pc.1 pc.2 = true) →
    ∃ s',
      visitContainers (syncContainer D r lu trig) selected s w = (s', w)
      ∧ s'.(passMonitor) = s.(passMonitor)
      ∧ s'.(passStatus) = s.(passStatus)
      ∧ (s'.(hasAnyFilesToSync) = true
         ↔ s.(hasAnyFilesToSync) = true
           ∨ ∃ pc, pc ∈ selected ∧ fileToSync r.(startedTime) s.(passMonitor) pc)
      ∧ s'.(terminatedContainerPodName)
        = (if decide (s.(terminatedContainerPodName) = "")
           then default "" (head (filter (λ n, n ≠ "")
                                    ((λ pc : Pod.t * Container.t, pc.1.(Pod.Name))
                                     <$> selected)))
           else s.(terminatedContainerPodName)).
Proof.
  induction selected as [|pc selected IH]; intros s w Hall.
  - exists s. cbn. split; [reflexivity|]. split; [reflexivity|]. split; [reflexivity|].
    split.
    + split; [auto|]. intros [H|(pc & Hin & _)]; [exact H | inversion Hin].
    + destruct (decide _) as [->|]; reflexivity.
  - cbn [visitContainers]. unfold bind.
    destruct (syncContainer D r lu trig pc.1 pc.2 s w) as [[stop s1] w1] eqn:Hv.
    apply syncContainer_run in Hv. cbv zeta in Hv.
    rewrite (Hall pc) in Hv by left.
    destruct Hv as (Hfiles & -> & -> & Hm & Hst & _ & Hname).
    destruct (IH s1 w) as (s' & Hrun & Hm' & Hst' & Hfiles' & Hname').
    { intros pc' Hin. apply Hall. right. exact Hin. }
    exists s'. split; [exact Hrun|]. split; [congruence|]. split; [congruence|].
    assert (Hone : hasAnyFilesToSync s1 = true
                   ↔ hasAnyFilesToSync s = true
                     ∨ fileToSync r.(startedTime) s.(passMonitor) pc).
    { rewrite Hfiles. unfold fileToSync, entryOf.
      rewrite <- scanChangedFiles_nonempty, <- DedupedAndSorted_length.
      destruct (decide _) as [Hlt|Hge].
      - split; [intros _; right; exact Hlt | reflexivity].
      - split; [intros H; left; exact H | intros [H|H]; [exact H | contradiction]]. }
    split.
    + rewrite Hfiles', Hone, Hm. split.
      * intros [[H|H]|(pc' & Hin & H)].
        -- left; exact H.
        -- right. exists pc. split; [left | exact H].
        -- right. exists pc'. split; [right; exact Hin | exact H].
      * intros [H|(pc' & Hin & H)]; [left; left; exact H|].
        apply elem_of_cons in Hin. destruct Hin as [->|Hin].
        -- left; right; exact H.
        -- right. exists pc'. split; assumption.
    + rewrite Hname', Hname. rewrite fmap_cons.
      destruct (decide (terminatedContainerPodName s = "")) as [He|Hne]; cbv beta iota.
      * destruct (decide (Pod.Name pc.1 = "")) as [Hp|Hp].
        -- rewrite filter_cons_False by (intros H; apply H; exact Hp). reflexivity.
        -- rewrite filter_cons_True by exact Hp. reflexivity.
      * rewrite decide_False by exact Hne. reflexivity.
Qed.

(** C6, as the code has it. Take the first selected container that is
    terminated in a pod with a name, and let some selected container have
    a file to sync. At the end of the per-container pass, status.failed
    is nil and status.containers is empty exactly when every selected
    container is terminated (a live container that is visited leaves an
    entry or a failure, whether it was updated, is waiting or had nothing
    to sync); and then status.failed is set with reason Terminated and a
    message that ends with the name of the pod of that first terminated
    container. *)
Theorem terminated_only_promotion (r : Reconciler W) (lu : LiveUpdate.t) (trig : bool)
    (m : monitor.t) (pre post : list (Pod.t * Container.t)) (pc : Pod.t * Container.t)
    (w : World W) :
  let selected := pre ++ pc :: post in
  let pass :=
    visitContainers (syncContainer D r lu trig) selected
      (mkPassState m LiveUpdateStatus.zero "" false false) w in
  let s := pass.1 in
  let status := (finishPass D lu s pass.2).1 in
  terminatedInNamedPod pc →
  (∀ pc', pc' ∈ pre → ¬ terminatedInNamedPod pc') →
  (∃ pc', pc' ∈ selected ∧ fileToSync r.(startedTime) m pc') →
  (s.(passStatus).(LiveUpdateStatus.Failed) = None
   ∧ s.(passStatus).(LiveUpdateStatus.Containers) = []
   ↔ ∀ pc', pc' ∈ selected → isTerminated pc'.1 pc'.2 = true)
  ∧ (s.(passStatus).(LiveUpdateStatus.Failed) = None →
     s.(passStatus).(LiveUpdateStatus.Containers) = [] →
     ∃ f, status = LiveUpdateStatus.mk [] (Some f)
          ∧ f.(LiveUpdateStateFailed.Reason) = "Terminated"
          ∧ f.(LiveUpdateStateFailed.Message)
            = "Container for live update is stopped. Pod name: " +:+ pc.1.(Pod.Name)).
Proof.
  cbv zeta. intros [Hterm Hnamed] Hpre Hfiles.
  assert (Hall : (∀ pc', pc' ∈ pre ++ pc :: post → isTerminated pc'.1 pc'.2 = true) →
                 ∃ s', visitContainers (syncContainer D r lu trig) (pre ++ pc :: post)
                         (mkPassState m LiveUpdateStatus.zero "" false false) w = (s', w)
                       ∧ s'.(passStatus) = LiveUpdateStatus.zero
                       ∧ s'.(hasAnyFilesToSync) = true
                       ∧ s'.(terminatedContainerPodName) = pc.1.(Pod.Name)).
  { intros Hall.
    destruct (pass_of_terminated r lu trig (pre ++ pc :: post)
                (mkPassState m LiveUpdateStatus.zero "" false false) w Hall)
      as (s' & Hrun & _ & Hst & Hany & Hname).
    exists s'. split; [exact Hrun|]. split; [exact Hst|]. split.
    - apply Hany. right. exact Hfiles.
    - rewrite Hname. cbn [terminatedContainerPodName].
      rewrite decide_True by reflexivity. rewrite fmap_app, fmap_cons.
      rewrite (firstName_app _ _ (Pod.Name pc.1)); [reflexivity| |exact Hnamed].
      intros n' Hin. apply list_elem_of_fmap in Hin. destruct Hin as (pc' & -> & Hin).
      destruct (decide (Pod.Name pc'.1 = "")) as [He|Hne]; [exact He|].
      exfalso. apply (Hpre pc' Hin). split; [|exact Hne].
      apply Hall. apply elem_of_app. left. exact Hin. }
  destruct (visitContainers _ (pre ++ pc :: post) _ w) as [s w1] eqn:Hpass. cbn [fst snd].
  assert (Hterminated : s.(passStatus).(LiveUpdateStatus.Failed) = None →
                        s.(passStatus).(LiveUpdateStatus.Containers) = [] →
                        ∀ pc', pc' ∈ pre ++ pc :: post → isTerminated pc'.1 pc'.2 = true).
  { intros Hnone Hnil. eapply pass_all_terminated; eassumption. }
  split.
  - split.
    + intros [Hnone Hnil]. apply Hterminated; assumption.
    + intros Hterminated'. destruct (Hall Hterminated') as (s' & Hrun & Hst & _).
      inversion Hrun; subst. rewrite Hst. split; reflexivity.
  - intros Hnone Hnil.
    destruct (Hall (Hterminated Hnone Hnil)) as (s' & Hrun & Hst & Hany & Hname).
    inversion Hrun; subst s' w1. clear Hrun.
    destruct (finishPass D lu s w) as [status w2] eqn:Hfin. cbn [fst].
    apply finishPass_run in Hfin. destruct Hfin as (_ & Hcont & Hprom).
    rewrite Hnone, Hany, Hnil, Hname in Hprom.
    rewrite bool_decide_eq_true_2 in Hprom by reflexivity.
    rewrite (bool_decide_eq_false_2 _ Hnamed) in Hprom.
    rewrite bool_decide_eq_true_2 in Hprom by reflexivity.
    cbn [negb andb] in Hprom. destruct Hprom as (f & Hf & Hreason & Hmsg).
    exists f. split; [|split; [exact Hreason | exact Hmsg]].
    destruct status as [containers failed]. cbn in Hcont, Hf. rewrite Hnil in Hcont.
    subst. reflexivity.
Qed.

(** ** Missing references, and the missing trigger queue *)

(** *** The failures a reconciler remembers are failures of a pass *)

Ltac in_reasons := apply (bool_decide_unpack _); vm_compute; exact I.

Lemma garbageCollectOneSource_remembers (res : luResource) (m : monitor.t)
    (source : LiveUpdateSource.t) :
  remembersPassFailures m → remembersPassFailures (garbageCollectOneSource D res m source).
Proof.
  intros Hm. unfold garbageCollectOneSource.
  destruct (monitor.sources m !! _) as [ms|]; [|exact Hm].
  destruct (negb _); [|exact Hm].
  intros k c. cbn [monitor.set_containers monitor.containers].
  rewrite lookup_fmap. destruct (monitor.containers m !! k) as [c0|] eqn:Hc0; [|discriminate].
  cbn. intros Hc. inversion Hc; subst. unfold clearStaleFailure.
  destruct (_ && _); [left; reflexivity | eapply Hm; exact Hc0].
Qed.

Lemma garbageCollectFileChanges_remembers (res : luResource) (m : monitor.t) :
  remembersPassFailures m → remembersPassFailures (garbageCollectFileChanges D res m).
Proof.
  unfold garbageCollectFileChanges.
  generalize (LiveUpdateSpec.Sources (monitor.spec m)). intros sources. revert m.
  induction sources as [|s sources IH]; intros m Hm; cbn [foldl]; [exact Hm|].
  apply IH. apply garbageCollectOneSource_remembers. exact Hm.
Qed.

Lemma garbageCollectMonitorContainers_remembers (res : luResource) (m : monitor.t) :
  remembersPassFailures m → remembersPassFailures (garbageCollectMonitorContainers D res m).
Proof.
  intros Hm k c Hc. apply garbageCollectMonitorContainers_containers in Hc.
  eapply Hm. exact Hc.
Qed.

(** The first visitor reports a failure that the monitor remembers. *)
Lemma checkContainerFailed_reason (lu : LiveUpdate.t) (m : monitor.t)
    (selected : list (Pod.t * Container.t)) (w w' : World W)
    (f : LiveUpdateStateFailed.t) :
  visitContainers (checkContainerFailed D lu m) selected None w = (Some f, w') →
  ∃ k c, m.(monitor.containers) !! k = Some c
         ∧ c.(monitorContainerStatus.failedReason) = f.(LiveUpdateStateFailed.Reason)
         ∧ f.(LiveUpdateStateFailed.Reason) ≠ "".
Proof.
  intros Hrun.
  refine (visitContainers_inv (checkContainerFailed D lu m)
            (λ s _, ∀ f, s = Some f →
                         ∃ k c, m.(monitor.containers) !! k = Some c
                                ∧ c.(monitorContainerStatus.failedReason)
                                  = f.(LiveUpdateStateFailed.Reason)
                                ∧ f.(LiveUpdateStateFailed.Reason) ≠ "")
            selected _ None w (Some f) w' _ Hrun f eq_refl).
  - intros pc s w0 stop s' w0' _ HP Hstep. unfold checkContainerFailed in Hstep.
    destruct (monitor.containers m !! _) as [c|] eqn:Hc.
    + destruct (decide _) as [He|Hne].
      * unfold ret in Hstep. inversion Hstep; subst. exact HP.
      * unfold bind, ret in Hstep. rewrite createFailedState_eq in Hstep.
        inversion Hstep; subst. intros f0 Hf0. inversion Hf0; subst. cbn.
        eexists _, c. split; [exact Hc|]. split; [reflexivity | exact Hne].
    + unfold ret in Hstep. inversion Hstep; subst. exact HP.
  - intros f0 Hf0. discriminate.
Qed.

Lemma pass_remembers (r : Reconciler W) (lu : LiveUpdate.t) (trig : bool)
    (selected : list (Pod.t * Container.t)) (s s' : passState) (w w' : World W) :
  visitContainers (syncContainer D r lu trig) selected s w = (s', w') →
  remembersPassFailures s.(passMonitor) →
  (∀ f, s.(passStatus).(LiveUpdateStatus.Failed) = Some f →
        f.(LiveUpdateStateFailed.Reason) ∈ passReasons) →
  remembersPassFailures s'.(passMonitor)
  ∧ ∀ f, s'.(passStatus).(LiveUpdateStatus.Failed) = Some f →
         f.(LiveUpdateStateFailed.Reason) ∈ passReasons.
Proof.
  intros Hrun Hm Hf.
  refine (visitContainers_inv (syncContainer D r lu trig)
            (λ s0 _, remembersPassFailures s0.(passMonitor)
                     ∧ ∀ f, s0.(passStatus).(LiveUpdateStatus.Failed) = Some f →
                            f.(LiveUpdateStateFailed.Reason) ∈ passReasons)
            selected _ s w s' w' (conj Hm Hf) Hrun).
  clear. intros pc s w stop s' w' _ [Hm Hf] Hstep.
  destruct (isTerminated pc.1 pc.2) eqn:Hterm.
  { apply syncContainer_run in Hstep. cbv zeta in Hstep. rewrite Hterm in Hstep.
    destruct Hstep as (_ & _ & _ & -> & -> & _). split; assumption. }
  destruct (syncContainer_visit _ _ _ _ _ _ _ _ _ _ Hstep Hterm)
    as (c' & new & -> & _ & Hcase).
  assert (Hzero : ∀ entry : option monitorContainerStatus.t,
            (∀ c, entry = Some c →
                  c.(monitorContainerStatus.failedReason) = ""
                  ∨ c.(monitorContainerStatus.failedReason) ∈ passReasons) →
            (default monitorContainerStatus.zero entry).(monitorContainerStatus.failedReason)
            = ""
            ∨ (default monitorContainerStatus.zero entry).(monitorContainerStatus.failedReason)
              ∈ passReasons).
  { intros [c|] H; [apply H; reflexivity | left; reflexivity]. }
  assert (Hstore : ∀ c : monitorContainerStatus.t,
            (c.(monitorContainerStatus.failedReason) = ""
             ∨ c.(monitorContainerStatus.failedReason) ∈ passReasons) →
            remembersPassFailures
              (monitor.set_containers
                 (<[mkContainerKey (Container.ID pc.2) (Pod.Name pc.1) (Pod.Namespace pc.1)
                    := c]> (monitor.containers (passMonitor s))) (passMonitor s))).
  { intros c Hc k c0. cbn [monitor.set_containers monitor.containers].
    destruct (decide (mkContainerKey (Container.ID pc.2) (Pod.Name pc.1)
                        (Pod.Namespace pc.1) = k)) as [<-|Hne].
    - rewrite lookup_insert_eq. intros H; inversion H; subst. exact Hc.
    - rewrite lookup_insert_ne by exact Hne. apply Hm. }
  destruct Hcase as [(_ & _ & [(_ & -> & Hst)|(_ & f & Hst & Hreason & ->)])
                    |(_ & _ & _ & calls & ? & ? & ? & _ & _
                      & [(_ & _ & -> & st & Hst & _)|(_ & f & Hst & Hreason & ->)])].
  - split; [apply Hstore, Hzero, Hm|]. rewrite Hst. exact Hf.
  - split.
    + apply Hstore. right. cbn. destruct Hreason as [-> | ->]; in_reasons.
    + rewrite Hst. cbn. intros f0 H0. inversion H0; subst.
      destruct Hreason as [-> | ->]; in_reasons.
  - split; [apply Hstore; cbn; apply Hzero, Hm|]. rewrite Hst. exact Hf.
  - split.
    + apply Hstore. right. cbn. destruct Hreason as [[-> _] | [-> _]]; in_reasons.
    + rewrite Hst. cbn. intros f0 H0. inversion H0; subst.
      destruct Hreason as [[-> _] | [-> _]]; in_reasons.
Qed.

(** A pass fails with one of its reasons, and leaves no other in the
    monitor. *)
Lemma maybeSync_remembers (r : Reconciler W) (lu : LiveUpdate.t) (m : monitor.t)
    (w : World W) :
  remembersPassFailures m →
  remembersPassFailures (maybeSync D r lu m w).1.2
  ∧ ∀ f, (maybeSync D r lu m w).1.1.(LiveUpdateStatus.Failed) = Some f →
         f.(LiveUpdateStateFailed.Reason) ∈ passReasons.
Proof.
  intros Hm.
  destruct (maybeSync D r lu m w) as [[status m'] w'] eqn:Hrun. cbn [fst snd].
  unfold maybeSync in Hrun.
  destruct (resource D lu m) as [res|err].
  2:{ unfold bind, ret in Hrun. rewrite createFailedState_eq in Hrun.
      inversion Hrun; subst. split; [exact Hm|]. cbn. intros f Hf. inversion Hf; subst.
      cbn. in_reasons. }
  assert (Hgc : remembersPassFailures
                  (garbageCollectMonitorContainers D res (garbageCollectFileChanges D res m))).
  { apply garbageCollectMonitorContainers_remembers, garbageCollectFileChanges_remembers, Hm. }
  unfold bind at 1 in Hrun. unfold visitSelectedContainers at 1 in Hrun.
  destruct (visitContainers (checkContainerFailed D lu _) _ None w) as [failed w1] eqn:Hcheck.
  destruct failed as [f0|].
  { unfold ret in Hrun. inversion Hrun; subst. split; [exact Hgc|]. cbn.
    intros f Hf. inversion Hf; subst.
    apply checkContainerFailed_reason in Hcheck.
    destruct Hcheck as (k & c & Hc & Hreason & Hne).
    destruct (Hgc k c Hc) as [He|Hin]; [congruence|]. rewrite <- Hreason. exact Hin. }
  unfold bind at 1 in Hrun. unfold visitSelectedContainers in Hrun.
  destruct (visitContainers (syncContainer D r lu _) _ _ w1) as [s w2] eqn:Hpass.
  unfold bind, ret in Hrun. destruct (finishPass D lu s w2) as [status' w3] eqn:Hfin.
  inversion Hrun; subst. clear Hrun.
  apply pass_remembers in Hpass; [|exact Hgc|cbn; discriminate].
  destruct Hpass as [Hm' Hf']. split; [exact Hm'|].
  apply finishPass_run in Hfin. destruct Hfin as (_ & _ & Hprom).
  destruct (_ && _ && _ && _).
  - destruct Hprom as (f & Hf & Hreason & _). intros f1 Hf1.
    assert (f1 = f) by congruence. subst. rewrite Hreason. in_reasons.
  - subst. exact Hf'.
Qed.

Lemma remembers_same (m m' : monitor.t) :
  m'.(monitor.containers) = m.(monitor.containers) →
  remembersPassFailures m → remembersPassFailures m'.
Proof. intros Heq Hm k c. rewrite Heq. apply Hm. Qed.

Lemma monitorFor_remembers (r : Reconciler W) (lu : LiveUpdate.t) :
  remembersOnlyPassFailures r →
  remembersPassFailures (monitorFor r lu)
  ∧ remembersOnlyPassFailures (reconcilerFor r lu).
Proof.
  intros Hr. unfold monitorFor, reconcilerFor, ensureMonitorExists.
  assert (Hfresh : ∀ m0 : monitor.t, m0.(monitor.containers) = ∅ →
                   remembersPassFailures m0
                   ∧ remembersOnlyPassFailures
                       (set_monitors (<[LiveUpdate.Name lu := m0]> (monitors r)) r)).
  { intros m0 Hempty. assert (H0 : remembersPassFailures m0).
    { intros k c. rewrite Hempty, lookup_empty. discriminate. }
    split; [exact H0|]. intros n m. cbn [set_monitors monitors].
    destruct (decide (LiveUpdate.Name lu = n)) as [<-|Hne].
    - rewrite lookup_insert_eq. intros H; inversion H; subst. exact H0.
    - rewrite lookup_insert_ne by exact Hne. apply Hr. }
  destruct (monitors r !! LiveUpdate.Name lu) as [m|] eqn:Hm.
  - destruct (decide _); cbn [fst snd].
    + split; [eapply Hr; exact Hm | destruct r; exact Hr].
    + apply Hfresh. reflexivity.
  - cbn [fst snd]. apply Hfresh. reflexivity.
Qed.

Lemma afterStages_remember (cl : Client) (r : Reconciler W) (lu : LiveUpdate.t) :
  remembersPassFailures (monitorFor r lu) →
  remembersPassFailures (afterSources cl r lu).1
  ∧ remembersPassFailures (afterKubernetes cl r lu).1
  ∧ remembersPassFailures (afterDockerCompose cl r lu).1
  ∧ remembersPassFailures (afterTriggerQueue cl r lu).1.
Proof.
  intros H0.
  assert (H1 : remembersPassFailures (afterSources cl r lu).1).
  { eapply remembers_same; [|exact H0]. apply reconcileSources_containers. }
  assert (H2 : remembersPassFailures (afterKubernetes cl r lu).1).
  { eapply remembers_same; [|exact H1]. apply reconcileKubernetesResource_containers. }
  assert (H3 : remembersPassFailures (afterDockerCompose cl r lu).1).
  { eapply remembers_same; [|exact H2]. apply reconcileDockerComposeService_containers. }
  assert (H4 : remembersPassFailures (afterTriggerQueue cl r lu).1).
  { eapply remembers_same; [|exact H3]. apply reconcileTriggerQueue_containers. }
  auto.
Qed.

Lemma storeMonitor_remembers (r : Reconciler W) (name : string) (m : monitor.t) :
  remembersOnlyPassFailures r → remembersPassFailures m →
  remembersOnlyPassFailures (storeMonitor name m r).
Proof.
  intros Hr Hm n m0. unfold storeMonitor. cbn [set_monitors monitors].
  destruct (decide (name = n)) as [<-|Hne].
  - rewrite lookup_insert_eq. intros H; inversion H; subst. exact Hm.
  - rewrite lookup_insert_ne by exact Hne. apply Hr.
Qed.

Lemma syncAndWrite_remembers (cl : Client) (r : Reconciler W) (lu : LiveUpdate.t)
    (m : monitor.t) (w : World W) :
  remembersOnlyPassFailures r → remembersPassFailures m →
  remembersOnlyPassFailures (syncAndWrite D cl r lu m w).1.1.
Proof.
  intros Hr Hm. rewrite syncAndWrite_eq.
  destruct (maybeSync_remembers r lu m w Hm) as [Hm' _].
  destruct (monitor.hasChangesToSync m); cbv zeta.
  - destruct (decide _); cbn [fst].
    + apply storeMonitor_remembers; [exact Hr|].
      eapply remembers_same; [|exact Hm']. reflexivity.
    + apply storeMonitor_remembers; [exact Hr|].
      destruct (statusUpdate cl _); [exact Hm'|].
      eapply remembers_same; [|exact Hm']. reflexivity.
  - cbn [fst]. apply storeMonitor_remembers; [exact Hr|].
    eapply remembers_same; [|exact Hm]. reflexivity.
Qed.

(** Whatever the client answers, a reconcile leaves in the monitors no
    failure other than those of a pass. *)
Lemma Reconcile_remembers (cl : Client) (req : string) (r : Reconciler W) (w : World W) :
  remembersOnlyPassFailures r →
  remembersOnlyPassFailures (Reconcile D cl req r w).1.1.
Proof.
  intros Hr.
  assert (Hfor : ∀ lu, remembersPassFailures (monitorFor r lu)
                       ∧ remembersOnlyPassFailures (reconcilerFor r lu))
    by (intros lu; apply monitorFor_remembers, Hr).
  assert (Hfailed : ∀ lu m err,
            remembersPassFailures m →
            remembersOnlyPassFailures (refreshFailedWith D cl r lu m err w).1.1).
  { intros lu m err Hm. unfold refreshFailedWith.
    destruct (refreshFailed D cl lu err _). cbn [fst].
    apply storeMonitor_remembers; [apply Hfor | exact Hm]. }
  apply (Reconcile_elim cl req r w (λ out, remembersOnlyPassFailures out.1.1)).
  - intros err _ _. exact Hr.
  - intros _ n m. cbn [fst set_monitors monitors]. intros Hn.
    apply lookup_delete_Some in Hn. destruct Hn as [_ Hn]. eapply Hr; exact Hn.
  - intros lu _ _ _. exact Hr.
  - intros lu failed w1 _ _. destruct (handleFailure cl lu failed w1). exact Hr.
  - intros lu err _ _ _. apply Hfailed. apply afterStages_remember, Hfor.
  - intros lu f1 err _ _ _ _. apply Hfailed. apply afterStages_remember, Hfor.
  - intros lu f1 f2 err _ _ _ _ _. apply Hfailed. apply afterStages_remember, Hfor.
  - intros lu f1 f2 f3 err _ _ _ _ _ _. cbn [fst].
    apply storeMonitor_remembers; [apply Hfor|]. apply afterStages_remember, Hfor.
  - intros lu f1 f2 f3 f4 _ _ _ _ _ _.
    apply syncAndWrite_remembers; [apply Hfor|]. unfold refreshed.
    destruct (afterStages_remember cl r lu (proj1 (Hfor lu))) as (_ & _ & _ & H4).
    destruct (_ || _ || _ || _); [|exact H4].
    eapply remembers_same; [|exact H4]. reflexivity.
Qed.

(** Every reconciler that occurs remembers failures of a pass only. *)
Lemma reachable_remembers (r : Reconciler W) :
  reachable D r → remembersOnlyPassFailures r.
Proof.
  induction 1 as [r Hempty|cl req r w _ IH].
  - intros n m. rewrite Hempty, lookup_empty. discriminate.
  - apply Reconcile_remembers. exact IH.
Qed.

(** *** The error a refresh meets first *)

Lemma reconcileOneSource_errors (cl : Client) (m : monitor.t) (s : LiveUpdateSource.t) :
  match (reconcileOneSource cl m s).2 with
  | Ok _ => sourceErrors cl s = []
  | Err e => head (sourceErrors cl s) = Some e
  end.
Proof.
  unfold reconcileOneSource, sourceErrors.
  destruct (decide (LiveUpdateSource.FileWatch s = "")).
  - destruct (decide (LiveUpdateSource.ImageMap s = "")); [reflexivity|].
    destruct (getImageMap cl _) as [im|err]; reflexivity.
  - destruct (getFileWatch cl _) as [fw|err]; [|reflexivity].
    destruct (decide (LiveUpdateSource.ImageMap s = "")).
    + destruct (last _); reflexivity.
    + destruct (getImageMap cl _) as [im|err]; [|reflexivity].
      destruct (last _); reflexivity.
Qed.

Lemma reconcileSourcesLoop_errors (cl : Client) (sources : list LiveUpdateSource.t) :
  ∀ m hasChange,
    match (reconcileSourcesLoop cl m sources hasChange).2 with
    | Ok _ => sources ≫= sourceErrors cl = []
    | Err e => head (sources ≫= sourceErrors cl) = Some e
    end.
Proof.
  induction sources as [|s sources IH]; intros m hasChange; cbn [reconcileSourcesLoop];
    [reflexivity|].
  pose proof (reconcileOneSource_errors cl m s) as Hone.
  destruct (reconcileOneSource cl m s) as [m1 [one|err]]; cbn [snd] in *.
  - cbn [mbind list_bind]. rewrite Hone. cbn [app]. apply IH.
  - cbn [mbind list_bind].
    destruct (sourceErrors cl s) as [|e0 l]; [discriminate|]. exact Hone.
Qed.

Lemma reconcileKubernetesResource_errors (cl : Client) (m : monitor.t) :
  match (reconcileKubernetesResource cl m).2 with
  | Ok _ => kubernetesErrors cl m.(monitor.spec).(LiveUpdateSpec.Selector) = []
  | Err e => head (kubernetesErrors cl m.(monitor.spec).(LiveUpdateSpec.Selector)) = Some e
  end.
Proof.
  unfold reconcileKubernetesResource, kubernetesErrors.
  destruct (LiveUpdateSelector.Kubernetes _) as [k|]; [|reflexivity].
  destruct (decide (LiveUpdateKubernetesSelector.ApplyName k = "")).
  - destruct (getKubernetesDiscovery cl _) as [kd|err]; [|reflexivity].
    destruct (decide (LiveUpdateKubernetesSelector.ImageMapName k = "")); [reflexivity|].
    destruct (getImageMap cl _) as [im|err]; reflexivity.
  - destruct (getKubernetesApply cl _) as [ka|err]; [|reflexivity].
    destruct (getKubernetesDiscovery cl _) as [kd|err]; [|reflexivity].
    destruct (decide (LiveUpdateKubernetesSelector.ImageMapName k = "")); [reflexivity|].
    destruct (getImageMap cl _) as [im|err]; reflexivity.
Qed.

Lemma reconcileDockerComposeService_errors (cl : Client) (m : monitor.t) :
  match (reconcileDockerComposeService cl m).2 with
  | Ok _ => dockerComposeErrors cl m.(monitor.spec).(LiveUpdateSpec.Selector) = []
  | Err e =>
      head (dockerComposeErrors cl m.(monitor.spec).(LiveUpdateSpec.Selector)) = Some e
  end.
Proof.
  unfold reconcileDockerComposeService, dockerComposeErrors.
  destruct (LiveUpdateSelector.DockerCompose _) as [dc|]; [|reflexivity].
  destruct (getDockerComposeService cl _) as [dcs|err]; reflexivity.
Qed.

(** The refreshes of [Reconcile] fail with the first error among the
    reads of the references, and succeed when there is none. *)
Lemma afterStages_errors (cl : Client) (r : Reconciler W) (lu : LiveUpdate.t) :
  match (afterSources cl r lu).2 with
  | Err e => head (referenceErrors cl lu) = Some e
  | Ok _ =>
      match (afterKubernetes cl r lu).2 with
      | Err e => head (referenceErrors cl lu) = Some e
      | Ok _ =>
          match (afterDockerCompose cl r lu).2 with
          | Err e => head (referenceErrors cl lu) = Some e
          | Ok _ => referenceErrors cl lu = []
          end
      end
  end.
Proof.
  destruct (afterStages_identity cl r lu) as ([_ S1] & [_ S2] & _).
  pose proof (monitorFor_spec r lu) as S0. rewrite S0 in S1, S2.
  unfold referenceErrors.
  pose proof (reconcileSourcesLoop_errors cl
                (LiveUpdateSpec.Sources (LiveUpdate.Spec lu)) (monitorFor r lu) false) as H1.
  pose proof (reconcileKubernetesResource_errors cl (afterSources cl r lu).1) as H2.
  rewrite S1 in H2.
  pose proof (reconcileDockerComposeService_errors cl (afterKubernetes cl r lu).1) as H3.
  rewrite S2 in H3.
  assert (E : afterSources cl r lu
              = reconcileSourcesLoop cl (monitorFor r lu)
                  (LiveUpdateSpec.Sources (LiveUpdate.Spec lu)) false)
    by (unfold afterSources, reconcileSources; rewrite S0; reflexivity).
  unfold afterDockerCompose, afterKubernetes in *. rewrite E in *. clear E S1 S2.
  destruct (reconcileSourcesLoop cl (monitorFor r lu) _ false) as [m1 [f1|e1]];
    cbn [fst snd] in *.
  2:{ destruct (_ ≫= _) as [|e0 l]; [discriminate | exact H1]. }
  rewrite H1. cbn [app].
  destruct (reconcileKubernetesResource cl m1) as [m2 [f2|e2]]; cbn [fst snd] in *.
  2:{ destruct (kubernetesErrors cl _) as [|e0 l]; [discriminate | exact H2]. }
  rewrite H2. cbn [app].
  destruct (reconcileDockerComposeService cl m2) as [m3 [f3|e3]]; cbn [fst snd] in *;
    exact H3.
Qed.

(** C10. When the trigger queue ConfigMap is missing, its refresh reports
    no change and no error and leaves the monitor alone, and whatever the
    reconcile returns as an error is the error of a read of a reference
    that failed other than with NotFound, or the outcome of the status
    write, which is then the last thing the reconcile did. A reconcile of
    an object whose references are all found goes through to the sync:
    it returns no error, or the outcome of its one status write, and what
    it writes is no ObjectNotFound (for a reconciler that occurs: a new
    one, or one that has reconciled before). When, instead, the first
    read of a reference that fails (of a FileWatch or ImageMap of a
    source, of the apply, discovery or ImageMap of the Kubernetes
    selector, of the DockerCompose service) fails with NotFound, the
    reconcile leaves the object failed with reason ObjectNotFound and the
    message of that error. *)
Theorem missing_trigger_queue_is_no_change (cl : Client) (req : string)
    (r : Reconciler W) (w : World W) (lu : LiveUpdate.t) (err : error) :
  getTriggerQueue cl = Err err →
  IsNotFound err = true →
  live cl req lu →
  validSelector lu →
  (∀ m, reconcileTriggerQueue cl m = (m, Ok false))
  ∧ (∀ e, (Reconcile D cl req r w).1.2 = Some e →
          (head (referenceErrors cl lu) = Some e ∧ IsNotFound e = false)
          ∨ ∃ update, statusUpdate cl update = Some e
                      ∧ last (trace (Reconcile D cl req r w).2)
                        = Some (EvStatusUpdate update (Some e)))
  ∧ (referenceErrors cl lu = [] → reachable D r → syncsThrough D cl req r w lu)
  ∧ (∀ e, head (referenceErrors cl lu) = Some e → IsNotFound e = true →
          failsObjectNotFound D cl req r w lu (Error e)).
Proof.
  intros Htq Hnf Hlive Hvalid.
  assert (Hqueue : ∀ m, reconcileTriggerQueue cl m = (m, Ok false)).
  { intros m. unfold reconcileTriggerQueue, IgnoreNotFound. rewrite Htq, Hnf. reflexivity. }
  split; [exact Hqueue|].
  assert (Hlu : ∀ lu', live cl req lu' → lu' = lu).
  { destruct Hlive as (Hget & _). intros lu' (Hget' & _). congruence. }
  assert (Hnotgone : ¬ gone cl req).
  { destruct Hlive as (Hget & Hdel & _).
    intros [(e & He & _)|(lu' & Hget' & Hdel')]; [congruence|].
    assert (lu' = lu) by congruence. subst. rewrite Hdel in Hdel'.
    destruct Hdel' as [? ?]; discriminate. }
  pose proof (afterStages_errors cl r lu) as Hstages.
  split; [|split].
  - intros e.
    assert (Hfailed : ∀ m e0,
              head (referenceErrors cl lu) = Some e0 →
              (refreshFailedWith D cl r lu m e0 w).1.2 = Some e →
              (head (referenceErrors cl lu) = Some e ∧ IsNotFound e = false)
              ∨ ∃ update, statusUpdate cl update = Some e
                          ∧ last (trace (refreshFailedWith D cl r lu m e0 w).2)
                            = Some (EvStatusUpdate update (Some e))).
    { intros m e0 He0. unfold refreshFailedWith, refreshFailed.
      destruct (IsNotFound e0) eqn:Hnf0.
      - unfold bind. destruct (createFailedState D lu _ _ _) as [f w1].
        rewrite handleFailure_eq. destruct (decide _); cbn [fst snd trace]; [discriminate|].
        intros He. right. eexists. split; [exact He|]. rewrite last_snoc, He. reflexivity.
      - unfold ret. cbn [fst snd]. intros He. inversion He; subst. left. auto. }
    apply (Reconcile_elim cl req r w
             (λ out, out.1.2 = Some e →
                     (head (referenceErrors cl lu) = Some e ∧ IsNotFound e = false)
                     ∨ ∃ update, statusUpdate cl update = Some e
                                 ∧ last (trace out.2)
                                   = Some (EvStatusUpdate update (Some e)))).
    + intros e' He' _. destruct Hlive as (Hget & _). congruence.
    + intros Hgone. contradiction.
    + intros lu' Hget' _ Hman'. destruct Hlive as (Hget & _ & Hman).
      assert (lu' = lu) by congruence. subst. contradiction.
    + intros lu' failed w1 Hlive' Hens. apply Hlu in Hlive'. subst lu'.
      rewrite (ensureSelectorValid_valid lu _ Hvalid) in Hens. discriminate.
    + intros lu' e' Hlive' _ He'. apply Hlu in Hlive'. subst lu'.
      rewrite He' in Hstages. apply Hfailed. exact Hstages.
    + intros lu' f1 e' Hlive' _ H1 He'. apply Hlu in Hlive'. subst lu'.
      rewrite H1, He' in Hstages. apply Hfailed. exact Hstages.
    + intros lu' f1 f2 e' Hlive' _ H1 H2 He'. apply Hlu in Hlive'. subst lu'.
      rewrite H1, H2, He' in Hstages. apply Hfailed. exact Hstages.
    + intros lu' f1 f2 f3 e' Hlive' _ _ _ _ He'. apply Hlu in Hlive'. subst lu'.
      unfold afterTriggerQueue in He'. rewrite Hqueue in He'. discriminate.
    + intros lu' f1 f2 f3 f4 Hlive' _ _ _ _ _. apply Hlu in Hlive'. subst lu'.
      rewrite syncAndWrite_eq.
      destruct (monitor.hasChangesToSync _); cbv zeta; [|cbn; discriminate].
      destruct (decide _); cbn [fst snd trace]; [discriminate|].
      intros He. right. eexists. split; [exact He|]. rewrite last_snoc, He. reflexivity.
  - intros Hfound Hr. apply reachable_remembers in Hr.
    unfold syncsThrough. cbv zeta.
    apply (Reconcile_elim cl req r w
             (λ out, ∃ mid : list Event,
                Forall (λ e, isStatusUpdate e = false) mid
                ∧ ((out.1.2 = None ∧ trace out.2 = trace w ++ [EvLiveUpdateUpsert lu] ++ mid)
                   ∨ ∃ status : LiveUpdateStatus.t,
                       status ≠ lu.(LiveUpdate.Status)
                       ∧ (∀ f, status.(LiveUpdateStatus.Failed) = Some f →
                               f.(LiveUpdateStateFailed.Reason) ∈ passReasons
                               ∧ f.(LiveUpdateStateFailed.Reason) ≠ "ObjectNotFound")
                       ∧ out.1.2 = statusUpdate cl (withStatus lu status)
                       ∧ trace out.2 = trace w ++ [EvLiveUpdateUpsert lu] ++ mid
                                       ++ [EvStatusUpdate (withStatus lu status) out.1.2]))).
    + intros e He _. destruct Hlive as (Hget & _). congruence.
    + intros Hgone. contradiction.
    + intros lu' Hget' _ Hman'. destruct Hlive as (Hget & _ & Hman).
      assert (lu' = lu) by congruence. subst. contradiction.
    + intros lu' failed w1 Hlive' Hens. apply Hlu in Hlive'. subst lu'.
      rewrite (ensureSelectorValid_valid lu _ Hvalid) in Hens. discriminate.
    + intros lu' e Hlive' _ He. apply Hlu in Hlive'. subst lu'.
      rewrite He, Hfound in Hstages. discriminate.
    + intros lu' f1 e Hlive' _ H1 He. apply Hlu in Hlive'. subst lu'.
      rewrite H1, He, Hfound in Hstages. discriminate.
    + intros lu' f1 f2 e Hlive' _ H1 H2 He. apply Hlu in Hlive'. subst lu'.
      rewrite H1, H2, He, Hfound in Hstages. discriminate.
    + intros lu' f1 f2 f3 e Hlive' _ _ _ _ He. apply Hlu in Hlive'. subst lu'.
      unfold afterTriggerQueue in He. rewrite Hqueue in He. discriminate.
    + intros lu' f1 f2 f3 f4 Hlive' _ _ _ _ _. apply Hlu in Hlive'. subst lu'.
      rewrite syncAndWrite_eq.
      assert (Hm : remembersPassFailures (refreshed cl r lu (f1 || f2 || f3 || f4))).
      { destruct (monitorFor_remembers r lu Hr) as [H0 _].
        destruct (afterStages_remember cl r lu H0) as (_ & _ & _ & H4).
        unfold refreshed. destruct (_ || _ || _ || _); [|exact H4].
        eapply remembers_same; [|exact H4]. reflexivity. }
      revert Hm. generalize (reconcilerFor r lu) (refreshed cl r lu (f1 || f2 || f3 || f4)).
      intros r0 m Hm.
      destruct (maybeSync_writes_no_status r0 lu m (upserted lu w)) as (mid & Hmid & Hno).
      cbn [upserted trace] in Hmid.
      assert (Hmid' : Forall (λ e, isStatusUpdate e = false) mid).
      { rewrite forallb_forall in Hno. apply Forall_forall. intros e He.
        apply list_elem_of_In in He. specialize (Hno e He).
        destruct (isStatusUpdate e); [discriminate | reflexivity]. }
      destruct (maybeSync_remembers r0 lu m (upserted lu w) Hm) as [_ Hreasons].
      destruct (monitor.hasChangesToSync m); cbv zeta.
      2:{ exists []. split; [constructor|]. left. cbn. split; reflexivity. }
      exists mid. split; [exact Hmid'|].
      destruct (decide _) as [Hsame|Hdiff]; cbn [fst snd trace].
      * left. split; [reflexivity|]. rewrite Hmid, <- app_assoc. reflexivity.
      * right. eexists. split; [intros Heq; apply Hdiff; symmetry; exact Heq|].
        split.
        -- intros f Hf. specialize (Hreasons f Hf). split; [exact Hreasons|].
           intros Heq. rewrite Heq in Hreasons. revert Hreasons.
           refine (bool_decide_eq_false_1 _ _). vm_compute. reflexivity.
        -- split; [reflexivity|]. rewrite Hmid, <- !app_assoc. reflexivity.
  - intros e Hfirst He.
    assert (Hrun : ∃ m, Reconcile D cl req r w = refreshFailedWith D cl r lu m e w).
    { apply (Reconcile_elim cl req r w (λ out, ∃ m, out = refreshFailedWith D cl r lu m e w)).
      + intros e' He' _. destruct Hlive as (Hget & _). congruence.
      + intros Hgone. contradiction.
      + intros lu' Hget' _ Hman'. destruct Hlive as (Hget & _ & Hman).
        assert (lu' = lu) by congruence. subst. contradiction.
      + intros lu' failed w1 Hlive' Hens. apply Hlu in Hlive'. subst lu'.
        rewrite (ensureSelectorValid_valid lu _ Hvalid) in Hens. discriminate.
      + intros lu' e' Hlive' _ He'. apply Hlu in Hlive'. subst lu'.
        rewrite He' in Hstages. assert (e' = e) by congruence. subst. eauto.
      + intros lu' f1 e' Hlive' _ H1 He'. apply Hlu in Hlive'. subst lu'.
        rewrite H1, He' in Hstages. assert (e' = e) by congruence. subst. eauto.
      + intros lu' f1 f2 e' Hlive' _ H1 H2 He'. apply Hlu in Hlive'. subst lu'.
        rewrite H1, H2, He' in Hstages. assert (e' = e) by congruence. subst. eauto.
      + intros lu' f1 f2 f3 e' Hlive' _ _ _ _ He'. apply Hlu in Hlive'. subst lu'.
        unfold afterTriggerQueue in He'. rewrite Hqueue in He'. discriminate.
      + intros lu' f1 f2 f3 f4 Hlive' _ H1 H2 H3 _. apply Hlu in Hlive'. subst lu'.
        rewrite H1, H2, H3 in Hstages. rewrite Hstages in Hfirst. discriminate. }
    destruct Hrun as (m & Hrun). unfold failsObjectNotFound.
    exists (createFailedState D lu "ObjectNotFound" (Error e) (upserted lu w)).1.
    split; [apply createFailedState_reason|]. split; [apply createFailedState_reason|].
    split; [reflexivity|]. cbv zeta. rewrite Hrun.
    unfold refreshFailedWith, refreshFailed. rewrite He. unfold bind.
    change reasonObjectNotFound with "ObjectNotFound".
    pose proof (createFailedState_trace lu "ObjectNotFound" (Error e) (upserted lu w)) as Ht.
    destruct (createFailedState D lu "ObjectNotFound" (Error e) (upserted lu w)) as [f w1].
    cbn [fst snd upserted trace] in *. rewrite handleFailure_eq.
    destruct (decide _); cbn [fst snd trace].
    + split; [reflexivity | exact Ht].
    + split; [reflexivity|]. rewrite Ht, <- app_assoc. reflexivity.
Qed.

End Properties.

(** * Concrete runs

    The statements above at concrete inputs, in the fake world. *)

(** C2: witness. A LiveUpdate without any selector is left failed with
    reason Invalid. *)
Lemma selector_validation_witness :
  failsInvalid Fake.deps Fake.clientNeither Fake.name (Fake.reconciler 10)
    (Fake.world0 []) Fake.luNeither.
Proof.
  apply (selector_validation Fake.deps Fake.clientNeither Fake.name (Fake.reconciler 10)
           (Fake.world0 []) Fake.luNeither);
    reflexivity.
Defined.

(** C2: counterexample. A LiveUpdate with both selector families, the
    Kubernetes one naming its discovery, passes selector validation, and
    its reconcile writes no status at all. *)
Lemma both_selector_families_pass_validation :
  let selector := Fake.luBoth.(LiveUpdate.Spec).(LiveUpdateSpec.Selector) in
  let out := Reconcile Fake.deps Fake.clientBoth Fake.name (Fake.reconciler 10)
               (Fake.world0 []) in
  is_Some selector.(LiveUpdateSelector.Kubernetes)
  ∧ is_Some selector.(LiveUpdateSelector.DockerCompose)
  ∧ (ensureSelectorValid Fake.deps Fake.luBoth (Fake.world0 [])).1 = None
  ∧ out.1.2 = None
  ∧ existsb isStatusUpdate (trace out.2) = false.
Proof.
  cbv zeta. split; [eexists; reflexivity|]. split; [eexists; reflexivity|].
  split; [reflexivity|]. split; vm_compute; reflexivity.
Qed.

(** C3: witness. An event from before the build start leaves the recorded
    files as they were. *)
Lemma old_events_not_recorded_witness :
  recordedFiles Fake.source
    (reconcileOneSource Fake.clientBeforeBuildStart Fake.monitor0 Fake.source).1
  = recordedFiles Fake.source Fake.monitor0.
Proof.
  refine (proj2 (proj2 (old_events_not_recorded Fake.clientBeforeBuildStart Fake.monitor0
                          Fake.source (FileWatch.mk [FileEvent.mk 3 ["/src/a.go"]])
                          (ImageMap.mk "im" "1" (ImageMapStatus.mk "frontend:tilt-1" (Some 5)))
                          5 _ _ eq_refl eq_refl eq_refl)) _).
  - discriminate.
  - discriminate.
  - intros event Hin. apply list_elem_of_singleton in Hin. subst event. reflexivity.
Defined.

(** C3: counterexample. An event at the very time of the build start (its
    time is less than or equal to BuildStartTime) is recorded, and the
    reconcile syncs its file into the container. *)
Lemma event_at_build_start_is_recorded_and_synced :
  let out := Reconcile Fake.deps Fake.clientAtBuildStart Fake.name (Fake.reconciler 1)
               (Fake.world0 []) in
  5 ≤ 5
  ∧ recordedFiles Fake.source Fake.monitor0 !! "/src/a.go" = None
  ∧ recordedFiles Fake.source
      (reconcileOneSource Fake.clientAtBuildStart Fake.monitor0 Fake.source).1
      !! "/src/a.go" = Some 5
  ∧ existsb isUpdateContainer (trace out.2) = true.
Proof.
  cbv zeta. split; [lia|]. repeat split; vm_compute; reflexivity.
Qed.


(** X12: witness. An event from before the build start, end to end: the
    reconcile of a new LiveUpdate whose only event is older than the image
    build calls no container updater. *)
Lemma old_event_is_never_synced :
  filter (λ e, isUpdateContainer e = true)
    (trace (Reconcile Fake.deps Fake.clientBeforeBuildStart Fake.name (Fake.reconciler 1)
              (Fake.world0 [])).2)
  = [].
Proof.
  apply (old_events_alone_never_sync Fake.deps Fake.clientBeforeBuildStart Fake.name
           (Fake.reconciler 1) (Fake.world0 []) Fake.lu).
  - intros spec. reflexivity.
  - reflexivity.
  - intros m Hm. cbn in Hm. rewrite lookup_empty in Hm. discriminate.
  - constructor; [|constructor]. intros fw Hfw _. split; [discriminate|].
    intros im Him. exists 5.
    vm_compute in Hfw. vm_compute in Him. inversion Hfw; subst fw. inversion Him; subst im.
    split; [reflexivity|].
    intros event Hin. apply list_elem_of_singleton in Hin. subst event. reflexivity.
Defined.

(** C4: witness. With the image built from time 5, garbage collection
    keeps the files of time 5 and 7 and drops the one of time 3; with no
    build start and no start time of the resource (a zero watermark) it
    keeps all three. *)
Lemma gc_drops_files_before_watermark_witness :
  (∃ ms',
     (garbageCollectFileChanges Fake.deps (Fake.resourceOf []) Fake.monitorToCollect)
       .(monitor.sources) !! "fw" = Some ms'
     ∧ gcTimeOf Fake.deps (Fake.resourceOf []) ms' = 5
     ∧ ∀ p t, ms'.(monitorSource.modTimeByPath) !! p = Some t
              ↔ Fake.threeFiles !! p = Some t ∧ 5 ≤ t)
  ∧ (∃ ms',
       (garbageCollectFileChanges Fake.deps (Fake.resourceOf []) Fake.monitorNoBuildStart)
         .(monitor.sources) !! "fw" = Some ms'
       ∧ gcTimeOf Fake.deps (Fake.resourceOf []) ms' = 0
       ∧ ms'.(monitorSource.modTimeByPath) = Fake.threeFiles).
Proof.
  split.
  - destruct (gc_drops_files_before_watermark Fake.deps (Fake.resourceOf [])
                Fake.monitorToCollect Fake.source
                (monitorSource.mk Fake.threeFiles
                   (Some (ImageMapStatus.mk "frontend:tilt-1" (Some 5))) None))
      as (ms' & Hms' & Hgc & Hdrop & _).
    + left.
    + reflexivity.
    + exists ms'. split; [exact Hms'|]. split; [exact Hgc|].
      apply Hdrop. discriminate.
  - destruct (gc_drops_files_before_watermark Fake.deps (Fake.resourceOf [])
                Fake.monitorNoBuildStart Fake.source
                (monitorSource.mk Fake.threeFiles None None))
      as (ms' & Hms' & Hgc & _ & Hkeep).
    + left.
    + reflexivity.
    + exists ms'. split; [exact Hms'|]. split; [exact Hgc|].
      apply Hkeep. reflexivity.
Defined.

(** C4: counterexample. After that garbage collection a file remains
    whose mod time is the watermark itself, not strictly greater. *)
Lemma gc_keeps_file_at_watermark :
  ∃ ms' t,
    (garbageCollectFileChanges Fake.deps (Fake.resourceOf []) Fake.monitorToCollect)
      .(monitor.sources) !! "fw" = Some ms'
    ∧ ms'.(monitorSource.modTimeByPath) !! "/src/same.go" = Some t
    ∧ ¬ gcTimeOf Fake.deps (Fake.resourceOf []) ms' < t.
Proof.
  eexists _, 5. split; [vm_compute; reflexivity|].
  split; [vm_compute; reflexivity|]. vm_compute. discriminate.
Qed.

(** C5, where the code parts from it. Two containers are selected; the
    updater fails the run step of the first and succeeds on the second.
    The pass updates both and reports no failure: each container is
    applied by a call of [applyInternal] of its own, which cannot see the
    exec error of the other. *)
Lemma run_failure_then_success_is_not_reported :
  let out := maybeSync Fake.deps (Fake.reconciler 10) Fake.lu
               (reconcileKubernetesResource Fake.clientTwoPods
                  (reconcileSources Fake.clientTwoPods Fake.monitor0).1).1
               (Fake.world0 Fake.runFailsThenSucceeds) in
  out.1.1.(LiveUpdateStatus.Failed) = None
  ∧ (λ c, (c.(LiveUpdateContainerStatus.PodName), c.(LiveUpdateContainerStatus.LastExecError)))
      <$> out.1.1.(LiveUpdateStatus.Containers)
    = [("pod-1", "exit status 1"); ("pod-2", "")]
  ∧ length (filter (λ e, isUpdateContainer e = true) (trace out.2)) = 2%nat.
Proof.
  cbv zeta. repeat split; vm_compute; reflexivity.
Qed.

(** The same two containers and updater answers in one call of
    [applyInternal]: the failure is PodsInconsistent. *)
Lemma applyInternal_two_containers_inconsistent :
  LiveUpdateStateFailed.Reason <$>
    (applyInternal Fake.deps (Fake.reconciler 10) Fake.lu.(LiveUpdate.Spec)
       Fake.inputTwoPods (Fake.world0 Fake.runFailsThenSucceeds)).1.(LiveUpdateStatus.Failed)
  = Some "PodsInconsistent".
Proof. vm_compute; reflexivity. Qed.

(** C6: witness. The only selected pod has completed and a file waits to
    be synced: the status fails with reason Terminated and names the
    pod. *)
Lemma terminated_only_promotion_witness :
  let pass :=
    visitContainers (syncContainer Fake.deps (Fake.reconciler 10) Fake.lu false)
      Fake.selectedDone (Fake.passState0 Fake.monitor50) (Fake.world0 []) in
  ∃ f, (finishPass Fake.deps Fake.lu pass.1 pass.2).1 = LiveUpdateStatus.mk [] (Some f)
       ∧ f.(LiveUpdateStateFailed.Reason) = "Terminated"
       ∧ f.(LiveUpdateStateFailed.Message)
         = "Container for live update is stopped. Pod name: pod-old".
Proof.
  cbv zeta.
  destruct (terminated_only_promotion Fake.deps (Fake.reconciler 10) Fake.lu false
              Fake.monitor50 [] [] (Fake.donePod, Fake.container "cid0") (Fake.world0 []))
    as [_ Hpromoted].
  - split; [vm_compute; reflexivity | vm_compute; discriminate].
  - intros pc' Hin. inversion Hin.
  - exists (Fake.donePod, Fake.container "cid0"). split; [left|].
    exists "/src/a.go", 50. split; [|vm_compute; reflexivity].
    exists "fw", (monitorSource.mk {[ "/src/a.go" := 50 ]}
                    (Some (ImageMapStatus.mk "frontend:tilt-1" (Some 40)))
                    (Some (FileEvent.mk 50 ["/src/a.go"]))).
    split; vm_compute; reflexivity.
  - apply Hpromoted; vm_compute; reflexivity.
Defined.

(** C6: counterexample. A completed pod and a pod whose container has not
    started are selected, and a file waits to be synced. At the end of
    the pass status.failed is nil, a terminated container was met, there
    were files to sync and no container was updated; yet the status does
    not fail: the waiting container is on record. *)
Lemma terminated_and_waiting_is_not_promoted :
  let pass :=
    visitContainers (syncContainer Fake.deps (Fake.reconciler 10) Fake.lu false)
      Fake.selectedDoneAndCreating (Fake.passState0 Fake.monitor50) (Fake.world0 []) in
  let s := pass.1 in
  s.(passStatus).(LiveUpdateStatus.Failed) = None
  ∧ isTerminated Fake.donePod (Fake.container "cid0") = true
  ∧ s.(terminatedContainerPodName) = "pod-old"
  ∧ s.(hasAnyFilesToSync) = true
  ∧ existsb isUpdateContainer (trace pass.2) = false
  ∧ (finishPass Fake.deps Fake.lu s pass.2).1.(LiveUpdateStatus.Failed) = None.
Proof.
  cbv zeta. repeat split; vm_compute; reflexivity.
Qed.



(** C10: witness. No trigger queue exists. The reconcile of a LiveUpdate
    whose references are all found goes through to the sync and returns
    no error; with the FileWatch of its source missing, it leaves the
    object failed with reason ObjectNotFound. *)
Lemma missing_trigger_queue_is_no_change_witness :
  (∀ m, reconcileTriggerQueue Fake.clientOnePod m = (m, Ok false))
  ∧ syncsThrough Fake.deps Fake.clientOnePod Fake.name (Fake.reconciler 10)
      (Fake.world0 []) Fake.lu
  ∧ Fake.firstReconcile.1.2 = None
  ∧ failsObjectNotFound Fake.deps (Fake.withoutFileWatch Fake.clientOnePod) Fake.name
      (Fake.reconciler 10) (Fake.world0 []) Fake.lu "fw".
Proof.
  destruct (missing_trigger_queue_is_no_change Fake.deps Fake.clientOnePod Fake.name
              (Fake.reconciler 10) (Fake.world0 []) Fake.lu
              (ErrNotFound "tilt-trigger-queue"))
    as (Hqueue & _ & Hfound & _).
  - reflexivity.
  - reflexivity.
  - split; [vm_compute; reflexivity|]. split; vm_compute; reflexivity.
  - vm_compute. discriminate.
  - destruct (missing_trigger_queue_is_no_change Fake.deps
                (Fake.withoutFileWatch Fake.clientOnePod) Fake.name
                (Fake.reconciler 10) (Fake.world0 []) Fake.lu
                (ErrNotFound "tilt-trigger-queue"))
      as (_ & _ & _ & Hmissing).
    + reflexivity.
    + reflexivity.
    + split; [vm_compute; reflexivity|]. split; vm_compute; reflexivity.
    + vm_compute. discriminate.
    + split; [exact Hqueue|]. split; [|split; [vm_compute; reflexivity|]].
      * apply Hfound; [vm_compute; reflexivity|].
        apply reachable_new. reflexivity.
      * apply (Hmissing (ErrNotFound "fw")); [vm_compute; reflexivity | reflexivity].
Defined.

(** X15: witness. Two reconciles in a row: the first syncs the file of
    time 50, the second, after one more event, only the file of time 70;
    the stored watermark goes from 50 to 70. *)
Lemma watermark_advances_over_two_reconciles :
  watermarksKept Fake.firstReconcile.1.1 Fake.secondReconcile.1.1
  ∧ storedWatermark Fake.firstReconcile.1.1 Fake.name Fake.keyOfPod1 = Some 50
  ∧ storedWatermark Fake.secondReconcile.1.1 Fake.name Fake.keyOfPod1 = Some 70.
Proof.
  split; [|vm_compute; split; reflexivity].
  apply (watermarks_never_decrease Fake.deps Fake.clientNext Fake.name
           Fake.firstReconcile.1.1 Fake.firstReconcile.2).
  - reflexivity.
  - refine (proj1 (map_Forall_lookup
                     (λ _ m, watermarksFrom (startedTime Fake.firstReconcile.1.1)
                               (monitor.containers m))
                     (monitors Fake.firstReconcile.1.1)) _).
    eapply map_Forall_impl;
      [|intros n m H;
        exact (proj1 (map_Forall_lookup
                        (λ _ c, monitorContainerStatus.lastFileTimeSynced c = 0
                                ∨ startedTime Fake.firstReconcile.1.1
                                  ≤ monitorContainerStatus.lastFileTimeSynced c)
                        (monitor.containers m)) H)].
    apply (bool_decide_unpack _). vm_compute. reflexivity.
Defined.

(** X24: witness. An object that failed as Invalid at time 7 fails as
    Invalid again, at time 100 and with another message: the status
    written keeps the transition time 7. *)
Lemma invalid_again_keeps_transition_time :
  let out := Reconcile Fake.deps Fake.clientFailedBefore Fake.name (Fake.reconciler 10)
               (Fake.world0 []) in
  (∃ new, trace out.2 = trace (Fake.world0 []) ++ new
          ∧ ∀ update err, EvStatusUpdate update err ∈ new →
                          failedKeepsTransitionTime Fake.luFailedBefore
                            update.(LiveUpdate.Status))
  ∧ filter (λ e, isStatusUpdate e = true) (trace out.2)
    = [EvStatusUpdate
         (withFailed Fake.luFailedBefore
            (LiveUpdateStateFailed.mk "Invalid" "No valid selector" 7))
         None].
Proof.
  cbv zeta. split; [|vm_compute; reflexivity].
  apply (status_writes_keep_transition_time Fake.deps Fake.clientFailedBefore Fake.name
           (Fake.reconciler 10) (Fake.world0 []) Fake.luFailedBefore).
  reflexivity.
Defined.

(** ** Concrete runs of the further properties *)

(** X2: witness. A client that holds one more FileWatch, which the
    LiveUpdate does not name, gives the same reconcile. *)
Lemma reconcile_reads_only_indexed_objects_witness :
  Reconcile Fake.deps Fake.clientOnePod Fake.name (Fake.reconciler 10) (Fake.world0 [])
  = Reconcile Fake.deps (Fake.withStrayFileWatch Fake.clientOnePod) Fake.name
      (Fake.reconciler 10) (Fake.world0 [])
  ∧ getFileWatch Fake.clientOnePod "stray"
    ≠ getFileWatch (Fake.withStrayFileWatch Fake.clientOnePod) "stray".
Proof.
  split; [|vm_compute; discriminate].
  apply (reconcile_reads_only_indexed_objects Fake.deps "default" Fake.clientOnePod
           (Fake.withStrayFileWatch Fake.clientOnePod) Fake.name (Fake.reconciler 10)
           (Fake.world0 [])).
  - reflexivity.
  - reflexivity.
  - intros update. reflexivity.
  - intros lu keys Hget Hidx. vm_compute in Hget. inversion Hget; subst lu.
    vm_compute in Hidx. inversion Hidx; subst keys.
    repeat constructor; intros _; vm_compute; reflexivity.
  - reflexivity.
Defined.

(** X7: witness. The status write of an invalid LiveUpdate is refused:
    the reconcile returns the error of the write. *)
Lemma reconcile_error_has_a_cause_witness :
  let cl := Fake.withWriteConflict Fake.clientNeither in
  let e := ErrOther "conflict" in
  (Reconcile Fake.deps cl Fake.name (Fake.reconciler 10) (Fake.world0 [])).1.2 = Some e
  ∧ ((∃ err, getLiveUpdate cl Fake.name = Err err ∧ IsNotFound err = false
             ∧ e = ErrOther ("liveupdate reconcile: " +:+ Error err))
     ∨ (IsNotFound e = false ∧ readFails cl e)
     ∨ (∃ update, statusUpdate cl update = Some e)).
Proof.
  cbv zeta. split; [vm_compute; reflexivity|].
  apply (reconcile_error_has_a_cause Fake.deps (Fake.withWriteConflict Fake.clientNeither)
           Fake.name (Fake.reconciler 10) (Fake.world0 []) (ErrOther "conflict")).
  vm_compute; reflexivity.
Defined.

(** X8: witness. The sync of one file succeeds but the status write is
    refused: the reconcile returns the error and the stored monitor still
    has changes to sync. *)
Lemma sync_stays_pending_until_status_is_written_witness :
  let cl := Fake.withWriteConflict Fake.clientOnePod in
  let out := Reconcile Fake.deps cl Fake.name (Fake.reconciler 10) (Fake.world0 []) in
  out.1.2 = Some (ErrOther "conflict")
  ∧ ∃ m', out.1.1.(monitors) !! Fake.lu.(LiveUpdate.Name) = Some m'
          ∧ (m'.(monitor.hasChangesToSync) = true ↔ is_Some out.1.2)
          ∧ ∀ e, out.1.2 = Some e → ∃ update, statusUpdate cl update = Some e.
Proof.
  cbv zeta. split; [vm_compute; reflexivity|].
  apply (sync_stays_pending_until_status_is_written Fake.deps
           (Fake.withWriteConflict Fake.clientOnePod) Fake.name (Fake.reconciler 10)
           (Fake.world0 []) Fake.lu true).
  - split; [vm_compute; reflexivity|]. split; vm_compute; reflexivity.
  - vm_compute. discriminate.
  - exists true, true, false, false. vm_compute. repeat split; reflexivity.
Defined.

(** X9: witness. A new reconciler is idle, and so is the reconciler after
    a first reconcile that returned without error. *)
Lemma reconcile_idle_witness :
  idle (Reconcile Fake.deps Fake.clientOnePod Fake.name (Fake.reconciler 10)
          (Fake.world0 [])).1.1.
Proof.
  apply (Reconcile_idle Fake.deps Fake.clientOnePod Fake.name (Fake.reconciler 10)
           (Fake.world0 [])).
  - intros n m Hm. cbn in Hm. rewrite lookup_empty in Hm. discriminate.
  - vm_compute; reflexivity.
Defined.

(** X14: witness. The one container gets the file of time 50; visited
    once more with the same files, it gets nothing. *)
Lemma synced_container_is_not_synced_again_witness :
  let first := syncContainer Fake.deps (Fake.reconciler 10) Fake.lu false Fake.pod1
                 (Fake.container "cid1") (Fake.passState0 Fake.monitor50)
                 (Fake.world0 []) in
  let second := syncContainer Fake.deps (Fake.reconciler 10) Fake.lu false Fake.pod1
                  (Fake.container "cid1") first.1.2 first.2 in
  existsb isUpdateContainer (trace first.2) = true
  ∧ trace second.2 = trace first.2.
Proof.
  cbv zeta. split; [vm_compute; reflexivity|].
  refine (proj1 (synced_container_is_not_synced_again Fake.deps (Fake.reconciler 10)
                   Fake.lu false false Fake.pod1 (Fake.container "cid1")
                   (Fake.passState0 Fake.monitor50)
                   (syncContainer Fake.deps (Fake.reconciler 10) Fake.lu false Fake.pod1
                      (Fake.container "cid1") (Fake.passState0 Fake.monitor50)
                      (Fake.world0 [])).1.2
                   (Fake.world0 [])
                   (syncContainer Fake.deps (Fake.reconciler 10) Fake.lu false Fake.pod1
                      (Fake.container "cid1") (Fake.passState0 Fake.monitor50)
                      (Fake.world0 [])).2
                   _ _ _ _ _ _ eq_refl)).
  - intros spec. reflexivity.
  - reflexivity.
  - intros k c Hk. vm_compute in Hk. discriminate.
  - vm_compute; reflexivity.
  - eexists. split; [apply eq_refl | vm_compute; reflexivity].
  - vm_compute; reflexivity.
Defined.

(** X18: witness. Both selected containers failed before, the first with
    UpdateFailed and the second with CrashLoopBackOff: the pass reports
    the failure of the first and calls no updater. *)
Lemma failed_container_blocks_pass_witness :
  let out := maybeSync Fake.deps (Fake.reconciler 10) Fake.lu Fake.monitorBothFailed
               (Fake.world0 []) in
  (LiveUpdateStateFailed.Reason <$> out.1.1.(LiveUpdateStatus.Failed)) = Some "UpdateFailed"
  ∧ trace out.2 = trace (Fake.world0 []).
Proof.
  cbv zeta.
  destruct (failed_container_blocks_pass Fake.deps (Fake.reconciler 10) Fake.lu
              Fake.monitorBothFailed (Fake.world0 [])
              (Fake.resourceUnder Fake.monitorBothFailed)
              [] [(Fake.pod "pod-2" "Running" [Fake.container "cid2"], Fake.container "cid2")]
              (Fake.pod1, Fake.container "cid1") Fake.failedEntry)
    as [Hout Htrace].
  - vm_compute; reflexivity.
  - vm_compute; reflexivity.
  - intros pc' c' Hin. inversion Hin.
  - vm_compute; reflexivity.
  - vm_compute; discriminate.
  - split; [|exact Htrace]. rewrite Hout. vm_compute; reflexivity.
Defined.

(** X19: witness. The update of the container fails: the visit stops the
    pass, and reason and message of the failure are kept in the
    container's entry. *)
Lemma failed_visit_is_remembered_witness :
  let out := syncContainer Fake.deps (Fake.reconciler 10) Fake.lu false Fake.pod1
               (Fake.container "cid1") (Fake.passState0 Fake.monitor50)
               (Fake.world0 Fake.updateFails) in
  out.1.1 = true
  ∧ ∃ f c',
      out.1.2.(passStatus) = LiveUpdateStatus.mk [] (Some f)
      ∧ out.1.2.(passMonitor).(monitor.containers) !! Fake.keyOfPod1 = Some c'
      ∧ c'.(monitorContainerStatus.failedReason) = f.(LiveUpdateStateFailed.Reason)
      ∧ c'.(monitorContainerStatus.failedMessage) = f.(LiveUpdateStateFailed.Message).
Proof.
  cbv zeta. split; [vm_compute; reflexivity|].
  destruct (failed_visit_is_remembered Fake.deps (Fake.reconciler 10) Fake.lu false
              Fake.pod1 (Fake.container "cid1") (Fake.passState0 Fake.monitor50)
              (Fake.world0 Fake.updateFails))
    as (f & c' & Hstatus & Hc' & Hreason & Hmessage & _).
  - vm_compute; reflexivity.
  - exists f, c'. split; [exact Hstatus|]. split; [exact Hc'|].
    split; [exact Hreason | exact Hmessage].
Defined.

(** X20: witness. In manual mode and with no trigger queue, a pass over
    one running container and one changed file calls no updater. *)
Lemma manual_mode_waits_for_trigger_witness :
  let out := maybeSync Fake.deps (Fake.reconciler 10) Fake.luManual
               (Fake.monitorRead Fake.clientOnePod) (Fake.world0 []) in
  trace out.2 = trace (Fake.world0 [])
  ∧ (λ st, LiveUpdateContainerStateWaiting.Reason <$> st.(LiveUpdateContainerStatus.Waiting))
      <$> out.1.1.(LiveUpdateStatus.Containers)
    = [Some "Trigger"].
Proof.
  cbv zeta. split; [|vm_compute; reflexivity].
  refine (proj1 (manual_mode_waits_for_trigger Fake.deps (Fake.reconciler 10)
                   Fake.luManual (Fake.monitorRead Fake.clientOnePod) (Fake.world0 []) _)).
  vm_compute; reflexivity.
Defined.

(** X22: witness. Two running containers are selected and updated: the
    status lists both, in the order of the selection. *)
Lemma status_lists_live_containers_witness :
  statusNames
    <$> (maybeSync Fake.deps (Fake.reconciler 10) Fake.lu
           (Fake.monitorRead Fake.clientTwoPods) (Fake.world0 [])).1.1
          .(LiveUpdateStatus.Containers)
  = [("main", "cid1", "pod-1", "default"); ("main", "cid2", "pod-2", "default")].
Proof.
  etransitivity.
  - apply (status_lists_live_containers Fake.deps (Fake.reconciler 10) Fake.lu
             (Fake.monitorRead Fake.clientTwoPods) (Fake.world0 [])
             (Fake.resourceUnder (Fake.monitorRead Fake.clientTwoPods)));
      vm_compute; reflexivity.
  - vm_compute; reflexivity.
Defined.
